(* ===== verification/_CoqProject ===== *)
-Q . S2P
Prelude.v
PyValue.v
PyTime.v
PyIso.v
PyText.v
PyCodec.v
PyJson.v
PyRe.v
PySha.v
PyUrl.v
Normalize.v
Texts.v
Schema.v
Candidates.v
Notifications.v
Settings.v
Access.v
Vault.v
Accounts.v
Clusters.v
Prune.v
Channels.v
Groups.v
Ingest.v
Contents.v
Auth.v
Login.v
Timeline.v
Bot.v
Scheduler.v
BotService.v
Backup.v
Strategy.v
Matchers.v
Decisions.v
Rows.v
Api.v
Ui.v
Wizard.v
Config.v
Storage.v
Lifecycle.v
System.v
Requests.v
WriterQueue.v
Plan.v
PlanParse.v
PlanChecks.v
Lint.v
Codex.v
Runner.v
