(* ===== verification/Prelude.v ===== *)
(** Verification of TCA, a self-hosted aggregator of Telegram channels (src/tca), and of the
    scripts the repository is developed with (src/scripts).

    TCA polls channels through Telegram accounts, stores raw messages and the items made
    from them, groups duplicate items into clusters with a representative, shows the
    clusters as a timeline, and delivers them through a Telegram bot. Everything is kept in
    one SQLite database, written by one serialised writer queue, behind an API and browser
    pages. The scripts run an implementation plan through a coding agent and check the plan
    and the code. The library models the logic between the libraries they call (FastAPI,
    SQLAlchemy, Alembic, Telethon, httpx, the agent's command line) as pure functions, on a
    database value or on the other state they keep, and proves what the parts promise.

    * Reading guide

    Foundations:
    - Prelude: results and exceptions, sequencing of fallible calls, comparison functions
      as SQL's [ORDER BY], sorting, sorted id lists; the automation ([tca] hints, [inv_ok],
      [case_step], [by_eval]).
    - PyValue, PyTime, PyIso: the parts of Python the code leans on. Strings are lists of
      code points, integers are unbounded, floats are IEEE doubles; JSON values; datetimes
      as wall-clock microseconds with an offset, their text, and [datetime.fromisoformat]
      with its round trip. PyText, PyUrl, PySha: searching and splitting, UTF-8,
      percent-encoding and query strings, [urlsplit] with its attributes and checks,
      [normpath], and SHA-256, each with the lemmas that undo it. PyCodec, PyJson: Base64,
      hexadecimal, [int] of text, JSON text and its round trip. PyRe: [splitlines] and
      regular expressions by backtracking, sound and complete for their parses.
    - Schema: the tables of src/alembic/versions as finite maps, the referential actions,
      transactions, and [wf_db], the FOREIGN KEY and UNIQUE constraints. A row that no
      modelled code reads a column of does not have that column. Primary keys are given by
      [max(id) + 1], as SQLite does.

    The store:
    - Clusters (storage/dedupe_clusters_repo.py): assignment, merge, election of the
      representative. Prune (ops/prune_job.py): the retention run. Backup
      (ops/backup_job.py): the nightly copy, over a model of the directory with SQLite's
      side files.
    - Channels (storage/channels_repo.py, channel_state_repo.py, account_pause_repo.py):
      Modules Channels, ChannelStates, AccountPause. Groups (channel_groups_repo.py,
      api/routes/channel_groups.py, config/resolution.py). Settings (settings_repo.py,
      settings_seed.py). Notifications (notifications_repo.py, ingest_errors_repo.py).
    - Ingest (ingest/service.py, account_risk.py, flood_wait.py, error_capture.py):
      Modules Fetch, AccountRisk, FloodWait, ErrorCapture. Contents (raw_messages_repo.py,
      items_repo.py). Scheduler (scheduler/service.py, poll_jobs_repo.py).
    - Rows: the values of a row as the driver gives them and the decoders of all
      repositories; the other files work on typed rows, which these decoders yield.
    - WriterQueue (storage/writer_queue.py): a transition system of its own.
    - System: every modelled write as a step of one relation on the database. Requests:
      each handler, page, job and start-up step as a sequence of such steps, with the
      commits of other tasks in between.

    Content, deduplication and delivery:
    - Normalize (normalize/url_canonicalization.py): Module Url has the definitions, Paths,
      Queries, Authorities and Canonical the theory. Texts (hash_normalization.py,
      similarity_normalization.py). Candidates (dedupe/candidate_selection.py).
    - Strategy (dedupe/strategy_contract.py, strategy_chain.py, exact_url_strategy.py),
      Matchers (content_hash_strategy.py, title_similarity_strategy.py,
      semantic_similarity_strategy.py, embedding_service.py), Decisions
      (dedupe_decisions_repo.py).
    - Timeline (thread_query_repo.py, bot_deliveries_repo.py). Bot (bot/formatter.py,
      client.py, delivery.py), BotService (the service around the delivery run).

    Secrets, access and the application:
    - Auth (auth/key_rotation.py, auth_session_state.py). Access (auth/bootstrap_token.py,
      api/bearer_auth.py, api/cookie_auth.py, ui/login_routes.py, the cookie key of
      api/app.py): the bootstrap token and who may use the API and the pages. Vault
      (auth/encryption_utils.py, kdf.py, unlock_modes.py, key_material.py): Modules
      Envelope, Kdf, Unlock, KeyMaterial, AuthStartup. Accounts (auth/account_storage.py,
      session_storage.py, telegram/client_manager.py). Login (api/routes/telegram_auth.py),
      with Module AuthClient for the connection of a request's client.
    - Api (the other files of api/routes). Ui and Wizard (ui/routes.py): forms, pages, the
      setup wizard.
    - Config (config/settings.py, config/logging.py, the routing of api/app.py). Storage
      (storage/db.py, storage/migrations.py, alembic/env.py): paths, engines, start-up
      migrations. Lifecycle (api/app.py): Module Lifespan for any dependencies, Module
      Wiring with those of the application.

    Scripts:
    - Plan, PlanParse, Codex, Runner (scripts/codex_plan_cycle_runner.py): the plan's parser
      and upkeep, its round trip, the agent's command line and output, the cycle. PlanChecks
      (check_execution_record_shas.py, validate_plan_criteria.py). Lint (the other
      check_*.py): trees of Python's [ast] and the five checks on them.

    * How operations are written

    An operation that writes is a function from a database to a result and a database; it
    has the source's name, and its branches are the source's guards and early returns in
    their order. A transaction that fails leaves the database as it was, and a call that
    commits in several transactions keeps what the earlier ones wrote. What comes from
    outside is an argument: the clock, generated identifiers, the Telegram and HTTP
    replies, what other tasks commit between two transactions. SQL statements are
    functions with the statement's text beside them. The runner is written in a monad of
    its own over an environment class whose every call may answer anything.

    * What the theorems show

    - The store as a whole: every state reached by any interleaving of the operations
      satisfies all constraints ([System.reachable_wf]). Each handler is a sequence of these
      operations ([Requests.requests_refine_steps]), which carries the invariant over to
      requests and jobs.
    - Clusters: a merge refines the union of member sets in the abstract partition, with
      its result, its audit row and its errors; the election is the unique maximum of the
      documented order; assignment extends one member set of the partition. (It does not
      elect again in a matched cluster, against the design:
      [Clusters.joining_keeps_representative].)
    - Retention, purge and backup: exactly the expired rows go, with what refers to them,
      and the run ends with the summary of what it did (a retention of 0 days, documented
      as keep forever, is left out: [Prune.items_days_zero_deletes_all]); a purge is
      described table by table; a backup takes its name only when its copy was checked,
      and the newest days are kept.
    - Scheduling: a channel is selected exactly when it is enabled, unpaused and due; the
      jitter stays in its window; a tick enqueues each selected channel once.
    - Ingest: successive bounded polls read a history without gap or overlap; any client
      stays within the limits; risk breaches, flood waits and error capture behave as
      stated.
    - Repositories: round trips, uniqueness, error cases, and refinements of abstract
      stores (settings, login sessions); the rows of every table decode to what the typed
      repositories take them for.
    - Normalisation: a canonical URL is a fixed point and does not depend on how the URL
      was spelled, where the edits of a path and the tracking parameters are defined apart
      from the code; the hash text of ASCII title and body is their words in lower case, and
      a link counts by its canonical form. The provisos are shown to be needed by examples.
    - Dedupe strategies: the chain returns the first decision; coercion is idempotent; the
      content-hash verdict compares normalised contents; computed embeddings are always
      judged; candidate selection misses no item that shares a blocking key, a title token
      being a word (what LIKE finds besides is in [Candidates.token_inside_word]).
    - Delivery and timeline: pages partition the timeline; a run sends each undelivered
      cluster at most once and records exactly what was accepted, and so does the service
      over any number of turns for a cluster whose record nobody removes; messages fit and
      are well nested.
    - Writer queue: operations run at most once, in submission order, and a closed queue
      drains.
    - Key rotation: each account once, resumable after a crash, complete exactly at the
      end.
    - Secrets: envelopes round trip, the key-encryption key is stable, start-up fails
      closed, no secret outlives the application, a login that answers "authenticated" has
      stored an account that opens under the current key, and a login session moves by its
      state machine only.
    - Access, the API and the pages: cookies and tokens are granted and accepted exactly as
      stated; a patch of a channel changes what it sets, and from then on both ways to a
      poll job obey it ([Requests.channel_changes_polling]); the bot's configuration controls
      delivery; the thread page shows what the query returns.
    - The application: start-up, serving and shutdown end as the lifespan states, whatever
      fails; migrations run on the file the engines open.
    - The scripts: a plan in the layout of the plan document is read back, and nothing of
      its free text with it; synchronising the recorded commit passes its check; a run
      reports success only after a passing check of the whole repository and a last message
      that declares the plan done, and terminates; each syntax check accepts exactly the
      trees it describes.

    * Bounds and fuel

    The retention loops run with one step per row of the table they delete from, enough
    because every batch deletes a row ([Prune.run_once_summary] proves the summary is
    returned); [Fetch.fetch_loop] runs with the page limit as fuel, which is the loop's
    own bound; [Formatter.split_tags] with the length of the text, each step consuming a
    character; decimal digits with the binary length of the number; unwrapping of Telegram
    links twice, as the source does; a repetition of a regular expression with the length of
    the rest, since a turn that consumes nothing ends it; [Ast.walk] with the size of the
    tree, each node being taken from the queue once. The runner's [while True] loops take a
    fuel: retries plus one is enough when waits for the quota are off
    ([Runner.main_terminates]), and with them the loop can run for ever
    ([Runner.quota_loop_diverges]). The other recursions are structural.

    * Idealisations

    Integers bound to SQL parameters are taken to fit SQLite's 64 bits; JSON columns of
    typed rows hold the value their text denotes (Rows and PyJson relate the two); the
    full-text triggers of the items table are left out, since no modelled code reads that
    table; text handled by ASCII rules in the source's own vocabularies (stage names, tag
    names, digits) is lower-cased and parsed as ASCII; a method of one transaction is
    atomic, which the single writer queue provides; an integrity error is known by its
    constraint and not by its message. The Unicode database, RapidFuzz, NumPy, the embedding
    model, SQLite's [strftime] and the ciphers are type classes or arguments, with their
    documented behaviour as laws where a theorem needs it. The runner's prompts are kept as
    what they are built from, and its log lines are left out; an identifier of the plan
    stands for itself in a regular expression, as those the parser yields do
    ([PlanParse.parse_plan_identifiers]).

    * Not modelled

    Page templates and static files, the installation of log handlers, the look-ups of the
    runtime on the application's state and the constructors that store their arguments are
    glue and stay out. So do the grammar of Python ([ast.parse] is an argument of Lint), what
    Alembic does with a revision (Schema is its result) and main.py, which returns at
    once. *)

From Stdlib Require Export ZArith.
From stdpp Require Export base gmap sets list strings numbers sorting fin_maps.

(** * Results, exceptions and the error monad *)

(** A Python call either returns a value or raises. *)
Inductive result (E A : Type) : Type :=
  | Ok (a : A)
  | Err (e : E).
Arguments Ok {E A} a.
Arguments Err {E A} e.

#[export] Instance result_ret E : MRet (result E) := λ A a, Ok a.
#[export] Instance result_bind E : MBind (result E) := λ A B f m,
  match m with Ok a => f a | Err e => Err e end.
#[export] Instance result_fmap E : FMap (result E) := λ A B f m,
  match m with Ok a => Ok (f a) | Err e => Err e end.

(** [is_ok r]: the call returned. *)
Definition is_ok {E A} (r : result E A) : bool :=
  match r with Ok _ => true | Err _ => false end.

#[export] Instance result_eq_dec `{EqDecision E, EqDecision A} :
  EqDecision (result E A).
Proof. solve_decision. Defined.

Lemma bind_Ok_inv {E A B} (m : result E A) (f : A → result E B) b :
  m ≫= f = Ok b → ∃ a, m = Ok a ∧ f a = Ok b.
Proof. destruct m; simpl; naive_solver. Qed.

(** A comprehension whose element expression may raise: the first exception escapes. *)
Fixpoint sequence {E A} (l : list (result E A)) : result E (list A) :=
  match l with
  | [] => Ok []
  | r :: l => x ← r; xs ← sequence l; mret (x :: xs)
  end.
Definition traverse {E A B} (f : A → result E B) (l : list A) : result E (list B) :=
  sequence (f <$> l).

Lemma sequence_app {E A} (l k : list (result E A)) :
  sequence (l ++ k) = xs ← sequence l; ys ← sequence k; mret (xs ++ ys).
Proof.
  induction l as [|r l IH]; simpl.
  - by destruct (sequence k).
  - destruct r as [x|]; simpl; [|done]. rewrite IH.
    destruct (sequence l); simpl; [|done]. by destruct (sequence k).
Qed.

Lemma traverse_app {E A B} (f : A → result E B) l k :
  traverse f (l ++ k) = xs ← traverse f l; ys ← traverse f k; mret (xs ++ ys).
Proof. unfold traverse. by rewrite fmap_app, sequence_app. Qed.

Lemma traverse_Ok {E A B} (f : A → result E B) l r :
  traverse f l = Ok r ↔ Forall2 (λ x y, f x = Ok y) l r.
Proof.
  unfold traverse. revert r. induction l as [|x l IH]; intros r; csimpl.
  - split; [intros [= <-]; constructor|]. by intros ->%Forall2_nil_inv_l.
  - split.
    + destruct (f x) as [y|] eqn:Ef; [|done]. simpl.
      destruct (sequence (f <$> l)) as [ys|]; [|done]. intros [= <-].
      constructor; [done|]. by apply IH.
    + intros (y&ys&Ef&Hys&->)%Forall2_cons_inv_l. rewrite Ef. simpl.
      apply IH in Hys. by rewrite Hys.
Qed.

(** Relating two lists through a third one, and a relation that depends on membership. *)
Lemma Forall2_compose {A B C} (P : A → B → Prop) (Q : B → C → Prop) l k :
  (∃ m, Forall2 P l m ∧ Forall2 Q m k) ↔ Forall2 (λ x z, ∃ y, P x y ∧ Q y z) l k.
Proof.
  split.
  - intros (m&Hl&Hk). revert k Hk. induction Hl; intros k Hk; inversion Hk; subst; constructor; eauto.
  - induction 1 as [|x z l k (y&Hx&Hz) _ (m&Hl&Hk)]; [by exists []|].
    exists (y :: m). by split; constructor.
Qed.
Lemma Forall2_iff_on {A B} (P Q : A → B → Prop) l k :
  (∀ x y, x ∈ l → P x y ↔ Q x y) → Forall2 P l k ↔ Forall2 Q l k.
Proof.
  revert k. induction l as [|x l IH]; intros [|y k] H; [by split; constructor|by split; inversion 1..|].
  rewrite !Forall2_cons, (H x y), IH; [done| |by left]. intros x' y' Hx. apply H. by right.
Qed.

(** Constraint kinds of an [sqlite3.IntegrityError]; a UNIQUE failure names the
    column of the constraint, as the driver's message does. *)
Inductive constraint :=
  | UniqueFailed (column : string)
  | ForeignKeyFailed
  | CheckFailed (name : string).

(** The exceptions the modelled code raises or lets through. [AppError] carries
    the class name of an exception class of the repository. *)
Inductive exn :=
  | ValueError (msg : string)
  | TypeError (msg : string)
  | OverflowError
  | IntegrityError (c : constraint)
  | AppError (cls : string)
  | HTTPException (status : Z) (detail : list Z).

#[export] Instance constraint_eq_dec : EqDecision constraint.
Proof. solve_decision. Defined.
#[export] Instance exn_eq_dec : EqDecision exn.
Proof. solve_decision. Defined.

(** * Proof automation *)

Create HintDb tca discriminated.
Create Rewrite HintDb tca.

(** Invert an [Ok]/[Err]/[Some]/pair equation and substitute. *)
Ltac inv_ok :=
  repeat match goal with
    | H : Ok _ = Ok _ |- _ => injection H as H; try subst
    | H : Err _ = Err _ |- _ => injection H as H; try subst
    | H : Ok _ = Err _ |- _ => discriminate H
    | H : Err _ = Ok _ |- _ => discriminate H
    | H : (_, _) = (_, _) |- _ => injection H as H; try subst
    | H : Some _ = Some _ |- _ => injection H as H; try subst
    end.

(** Settle a decidable closed statement by evaluation. *)
Ltac by_eval :=
  first [ vm_compute; reflexivity | refine (bool_decide_unpack _ _); vm_compute; exact I ].

(** Case-split the scrutinee of a [match] in the goal or in a hypothesis. *)
Ltac case_step :=
  match goal with
  | |- context [decide ?P] => destruct (decide P)
  | |- context [bool_decide ?P] => destruct (bool_decide_reflect P)
  | |- context [match ?x with _ => _ end] => destruct x eqn:?
  | H : context [match ?x with _ => _ end] |- _ => destruct x eqn:?
  end.

(** * Comparison functions

    SQL's [ORDER BY a, b DESC, c] and Python's tuple order are lexicographic
    compositions of three-way comparisons; [GoodCmp] states that such a
    comparison is a total preorder. *)

Class GoodCmp {A} (c : A → A → comparison) : Prop := {
  cmp_refl x : c x x = Eq;
  cmp_opp x y : c y x = CompOpp (c x y);
  cmp_lt_trans x y z : c x y = Lt → c y z = Lt → c x z = Lt;
  cmp_eq_l x y z : c x y = Eq → c x z = c y z;
}.
Arguments cmp_refl {A} c {_} x.
Arguments cmp_opp {A} c {_} x y.
Arguments cmp_lt_trans {A} c {_} x y z.
Arguments cmp_eq_l {A} c {_} x y z.

Definition cmp_on {A B} (f : A → B) (c : B → B → comparison) : A → A → comparison :=
  λ x y, c (f x) (f y).
Definition cmp_desc {A} (c : A → A → comparison) : A → A → comparison :=
  λ x y, c y x.
Definition cmp_lex {A} (c1 c2 : A → A → comparison) : A → A → comparison :=
  λ x y, match c1 x y with Eq => c2 x y | r => r end.

(** Lexicographic order on lists, as SQLite's BINARY collation and Python's
    [str] order compare text code point by code point. *)
Fixpoint list_cmp {A} (c : A → A → comparison) (l1 l2 : list A) : comparison :=
  match l1, l2 with
  | [], [] => Eq
  | [], _ :: _ => Lt
  | _ :: _, [] => Gt
  | x :: l1, y :: l2 => match c x y with Eq => list_cmp c l1 l2 | r => r end
  end.

#[export] Typeclasses Opaque cmp_on cmp_desc cmp_lex list_cmp.

#[export] Instance Z_compare_good : GoodCmp Z.compare.
Proof.
  split.
  - intros x. apply Z.compare_refl.
  - intros x y. apply Z.compare_antisym.
  - intros x y z. rewrite !Z.compare_lt_iff. lia.
  - intros x y z ->%Z.compare_eq. done.
Qed.

#[export] Instance cmp_on_good {A B} (f : A → B) c : GoodCmp c → GoodCmp (cmp_on f c).
Proof.
  intros H. split; unfold cmp_on; intros.
  - by apply (cmp_refl c).
  - by apply (cmp_opp c).
  - by eapply (cmp_lt_trans c).
  - by apply (cmp_eq_l c).
Qed.

Lemma cmp_eq_r {A} (c : A → A → comparison) `{!GoodCmp c} x y z :
  c x y = Eq → c z x = c z y.
Proof.
  intros H. rewrite (cmp_opp c x z), (cmp_opp c y z). f_equal. by apply cmp_eq_l.
Qed.
Lemma cmp_eq_sym {A} (c : A → A → comparison) `{!GoodCmp c} x y :
  c x y = Eq → c y x = Eq.
Proof. intros H. by rewrite (cmp_opp c x y), H. Qed.
Lemma cmp_gt_lt {A} (c : A → A → comparison) `{!GoodCmp c} x y :
  c x y = Gt ↔ c y x = Lt.
Proof. rewrite (cmp_opp c y x). destruct (c y x); simpl; naive_solver. Qed.

#[export] Instance cmp_desc_good {A} (c : A → A → comparison) :
  GoodCmp c → GoodCmp (cmp_desc c).
Proof.
  intros H. split; unfold cmp_desc; intros.
  - by apply (cmp_refl c).
  - by apply (cmp_opp c).
  - by eapply (cmp_lt_trans c).
  - apply (cmp_eq_r c). by apply (cmp_eq_sym c).
Qed.

#[export] Instance cmp_lex_good {A} (c1 c2 : A → A → comparison) :
  GoodCmp c1 → GoodCmp c2 → GoodCmp (cmp_lex c1 c2).
Proof.
  intros H1 H2. split; unfold cmp_lex; intros.
  - by rewrite !cmp_refl.
  - rewrite (cmp_opp c1 x y). destruct (c1 x y); simpl; [by apply (cmp_opp c2)|done..].
  - destruct (c1 x y) eqn:E1; try done; destruct (c1 y z) eqn:E2; try done.
    + rewrite (cmp_eq_l c1 _ _ z E1), E2. by eapply (cmp_lt_trans c2).
    + by rewrite (cmp_eq_l c1 _ _ z E1), E2.
    + by rewrite <-(cmp_eq_r c1 _ _ x E2), E1.
    + by rewrite (cmp_lt_trans c1 _ _ _ E1 E2).
  - destruct (c1 x y) eqn:E1; try done.
    rewrite (cmp_eq_l c1 _ _ z E1). destruct (c1 y z); [by apply (cmp_eq_l c2)|done..].
Qed.

#[export] Instance list_cmp_good {A} (c : A → A → comparison) :
  GoodCmp c → GoodCmp (list_cmp c).
Proof.
  intros H. split.
  - induction x as [|a x IH]; simpl; [done|]. by rewrite cmp_refl.
  - induction x as [|a x IH]; intros [|b y]; simpl; try done.
    rewrite (cmp_opp c a b). destruct (c a b); simpl; [apply IH|done..].
  - induction x as [|a x IH]; intros [|b y] [|d z]; simpl; try done.
    destruct (c a b) eqn:E1; try done; destruct (c b d) eqn:E2; try done; intros.
    + rewrite (cmp_eq_l c _ _ d E1), E2. eauto.
    + by rewrite (cmp_eq_l c _ _ d E1), E2.
    + by rewrite <-(cmp_eq_r c _ _ a E2), E1.
    + by rewrite (cmp_lt_trans c _ _ _ E1 E2).
  - induction x as [|a x IH]; intros [|b y] [|d z]; simpl; try done.
    destruct (c a b) eqn:E1; try done. intros E.
    rewrite (cmp_eq_l c _ _ d E1). destruct (c b d); [by apply IH|done..].
Qed.

Lemma list_cmp_eq l1 l2 : list_cmp Z.compare l1 l2 = Eq → l1 = l2.
Proof.
  revert l2. induction l1 as [|a l1 IH]; intros [|b l2]; simpl; try done.
  destruct (Z.compare a b) eqn:E; try done.
  apply Z.compare_eq in E as ->. intros ?. f_equal. auto.
Qed.

(** ** Least element of a list under a comparison *)

Section min_by.
Context {A : Type} (c : A → A → comparison).

Fixpoint min_by (l : list A) : option A :=
  match l with
  | [] => None
  | x :: l =>
      match min_by l with
      | None => Some x
      | Some y => match c y x with Lt => Some y | _ => Some x end
      end
  end.

Lemma min_by_None l : min_by l = None ↔ l = [].
Proof.
  destruct l as [|x l]; simpl; [done|].
  destruct (min_by l) as [y|]; [destruct (c y x)|]; done.
Qed.

Lemma min_by_elem l x : min_by l = Some x → x ∈ l.
Proof.
  revert x. induction l as [|a l IH]; intros x; simpl; [done|].
  destruct (min_by l) as [y|]; [destruct (c y a)|]; intros [= <-];
    set_solver by eauto.
Qed.

Context `{!GoodCmp c}.

Lemma min_by_least l x y : min_by l = Some x → y ∈ l → c y x ≠ Lt.
Proof.
  revert x y. induction l as [|a l IH]; intros x y; simpl; [done|].
  destruct (min_by l) as [m|] eqn:Em.
  - rewrite elem_of_cons. intros Hx [->|Hy].
    + destruct (c m a) eqn:E; inv_ok; rewrite ?cmp_refl; try done.
      rewrite (cmp_opp c x a), E. done.
    + specialize (IH m y eq_refl Hy).
      destruct (c m a) eqn:E; inv_ok; try done.
      * by rewrite <-(cmp_eq_r c _ _ y E).
      * intros Hlt. apply cmp_gt_lt in E; [|done].
        by rewrite (cmp_lt_trans c _ _ _ Hlt E) in IH.
  - apply min_by_None in Em as ->. intros [= <-] Hy%list_elem_of_singleton.
    subst. by rewrite cmp_refl.
Qed.

(** The least element does not depend on the order in which the rows are
    enumerated, as long as equal rows are the same row. *)
Lemma min_by_unique l x :
  (∀ y z, y ∈ l → z ∈ l → c y z = Eq → y = z) →
  x ∈ l → (∀ y, y ∈ l → c y x ≠ Lt) → min_by l = Some x.
Proof.
  intros Heq Hx Hmin. destruct (min_by l) as [m|] eqn:Em.
  - f_equal. pose proof (min_by_elem _ _ Em) as Hm.
    pose proof (min_by_least _ _ _ Em Hx) as H1.
    specialize (Hmin m Hm). apply Heq; try done.
    destruct (c m x) eqn:E; [done|done|].
    apply cmp_gt_lt in E; [done|done].
  - apply min_by_None in Em as ->. set_solver.
Qed.

Lemma min_by_perm l1 l2 :
  (∀ y z, y ∈ l1 → z ∈ l1 → c y z = Eq → y = z) →
  (∀ x, x ∈ l1 ↔ x ∈ l2) → min_by l1 = min_by l2.
Proof.
  intros Heq Hl. destruct (min_by l1) as [m|] eqn:E1.
  - symmetry. apply min_by_unique.
    + intros y z Hy Hz. apply Heq; by apply Hl.
    + apply Hl. by apply min_by_elem.
    + intros y Hy. apply (min_by_least l1); [done|]. by apply Hl.
  - apply min_by_None in E1 as ->. symmetry. apply min_by_None.
    destruct l2 as [|b l2]; [done|]. specialize (Hl b).
    rewrite elem_of_nil, elem_of_cons in Hl. tauto.
Qed.
End min_by.

(** ** Sorting under a comparison ([ORDER BY]) *)

Section sort_by.
Context {A : Type} (c : A → A → comparison).

Definition cmp_le (x y : A) : Prop := c x y ≠ Gt.
#[export] Instance cmp_le_dec : RelDecision cmp_le.
Proof. intros x y. unfold cmp_le. solve_decision. Defined.

Definition sort_by (l : list A) : list A := merge_sort cmp_le l.

Lemma sort_by_perm l : sort_by l ≡ₚ l.
Proof. apply merge_sort_Permutation. Qed.
Lemma elem_of_sort_by l x : x ∈ sort_by l ↔ x ∈ l.
Proof. by rewrite sort_by_perm. Qed.

Context `{!GoodCmp c}.

#[export] Instance cmp_le_trans : Transitive cmp_le.
Proof.
  intros x y z. unfold cmp_le. intros Hxy Hyz.
  destruct (c x y) eqn:E1; [by rewrite (cmp_eq_l c _ _ z E1)| |done].
  destruct (c y z) eqn:E2; [by rewrite <-(cmp_eq_r c _ _ x E2), E1| |done].
  by rewrite (cmp_lt_trans c _ _ _ E1 E2).
Qed.
#[export] Instance cmp_le_total : Total cmp_le.
Proof.
  intros x y. unfold cmp_le. rewrite (cmp_opp c x y). destruct (c x y); simpl; auto.
Qed.

Lemma sort_by_sorted l : StronglySorted cmp_le (sort_by l).
Proof. apply StronglySorted_merge_sort; apply _. Qed.

(** When only equal elements compare equal, the sorted list depends on the elements only. *)
Lemma sort_by_unique l1 l2 :
  (∀ x y, c x y = Eq → x = y) → l1 ≡ₚ l2 → sort_by l1 = sort_by l2.
Proof.
  intros Heq Hp. assert (AntiSymm (=) cmp_le) as Ha.
  { intros x y. unfold cmp_le. rewrite (cmp_opp c x y). intros H1 H2. apply Heq.
    by destruct (c x y). }
  apply (StronglySorted_unique cmp_le); [apply sort_by_sorted..|].
  by rewrite !sort_by_perm.
Qed.
End sort_by.

(** ** Lists strictly sorted by a comparison *)

Section strictly_sorted.
Context {A : Type} (c : A → A → comparison) `{!GoodCmp c}.

Lemma StronglySorted_NoDup l : StronglySorted (λ a b, c a b = Lt) l → NoDup l.
Proof.
  induction 1 as [|x l _ IH Hx]; constructor; [|done]. intros Hin.
  rewrite Forall_forall in Hx. specialize (Hx x Hin). by rewrite cmp_refl in Hx.
Qed.

(** What is left after the first [n] has [n] smaller elements. *)
Lemma elem_of_drop_sorted l n x :
  StronglySorted (λ a b, c a b = Lt) l →
  x ∈ drop n l ↔ x ∈ l ∧ (n <= length (filter (λ y, c y x = Lt) l))%nat.
Proof.
  intros Hs. revert n. induction Hs as [|a l Hl IH Ha]; intros n.
  - rewrite drop_nil, elem_of_nil. tauto.
  - rewrite Forall_forall in Ha. destruct n as [|n]; [cbn [drop]; split; [|tauto]; intros; split; [done|lia]|].
    cbn [drop]. rewrite IH, elem_of_cons. split.
    + intros [Hx Hle]. split; [by right|]. rewrite filter_cons_True by auto. cbn [length]. lia.
    + intros [ [->|Hx] Hle].
      * exfalso. rewrite filter_cons_False in Hle by (by rewrite cmp_refl).
        assert (filter (λ y, c y a = Lt) l = []) as E; [|rewrite E in Hle; cbn in Hle; lia].
        apply elem_of_nil_inv. intros y [E Hy]%list_elem_of_filter.
        by rewrite (cmp_opp c a y), (Ha y Hy) in E.
      * split; [done|]. rewrite filter_cons_True in Hle by auto. cbn [length] in Hle. lia.
Qed.
End strictly_sorted.

(** * Lists of rows with distinct keys *)

Lemma NoDup_omap_fst {A B} (f : Z * A → option B) (g : B → Z) l :
  (∀ x y, f x = Some y → g y = x.1) → NoDup (l.*1) → NoDup (g <$> omap f l).
Proof.
  intros Hg. induction l as [|x l IH]; csimpl; [constructor|].
  intros [Hx Hl]%NoDup_cons. destruct (f x) as [y|] eqn:E; [|auto]. csimpl.
  apply NoDup_cons. split; [|auto]. rewrite (Hg _ _ E).
  intros (z&Ez&(w&Hw&Ew)%list_elem_of_omap)%list_elem_of_fmap.
  apply Hx. rewrite Ez, (Hg _ _ Ew). by apply list_elem_of_fmap_2.
Qed.

Lemma NoDup_fmap_filter {A B} (g : A → B) (P : A → Prop) `{∀ x, Decision (P x)} l :
  NoDup (g <$> l) → NoDup (g <$> filter P l).
Proof.
  induction l as [|x l IH]; csimpl; [done|]. intros [Hx Hl]%NoDup_cons.
  destruct (decide (P x)); [rewrite filter_cons_True by done|rewrite filter_cons_False by done; auto].
  csimpl. apply NoDup_cons. split; [|auto]. intros (y&E&[_ Hy]%list_elem_of_filter)%list_elem_of_fmap.
  apply Hx. rewrite E. by apply list_elem_of_fmap_2.
Qed.

Lemma filter_id {A} (P : A → Prop) `{∀ x, Decision (P x)} (l : list A) :
  Forall P l → filter P l = l.
Proof. induction 1; [done|]. rewrite filter_cons_True by done. congruence. Qed.

Lemma StronglySorted_filter {A} (R : relation A) (P : A → Prop) `{∀ x, Decision (P x)} (l : list A) :
  StronglySorted R l → StronglySorted R (filter P l).
Proof.
  induction 1 as [|x l Hl IH Hx]; [constructor|].
  destruct (decide (P x)); [rewrite filter_cons_True by done|by rewrite filter_cons_False by done].
  constructor; [done|]. rewrite Forall_forall in *. intros y [_ Hy]%list_elem_of_filter. auto.
Qed.

(** * Sorted identifier lists ([ORDER BY id ASC], [sorted(set)]) *)

Definition sorted_ids (s : gset Z) : list Z := merge_sort Z.le (elements s).

Lemma elem_of_sorted_ids s i : i ∈ sorted_ids s ↔ i ∈ s.
Proof. unfold sorted_ids. by rewrite merge_sort_Permutation, elem_of_elements. Qed.
Lemma NoDup_sorted_ids s : NoDup (sorted_ids s).
Proof. unfold sorted_ids. rewrite merge_sort_Permutation. apply NoDup_elements. Qed.
Lemma sorted_ids_sorted s : StronglySorted Z.le (sorted_ids s).
Proof. apply StronglySorted_merge_sort; apply _. Qed.
Lemma sorted_ids_length s : length (sorted_ids s) = size s.
Proof. unfold sorted_ids. by rewrite merge_sort_Permutation. Qed.
Lemma sorted_ids_set s : list_to_set (sorted_ids s) =@{gset Z} s.
Proof. apply set_eq. intros i. by rewrite elem_of_list_to_set, elem_of_sorted_ids. Qed.

(** A strictly sorted list is determined by its elements. *)
Lemma sorted_ids_unique s l :
  NoDup l → StronglySorted Z.le l → (∀ i, i ∈ l ↔ i ∈ s) → sorted_ids s = l.
Proof.
  intros Hnd Hs Hl. apply (StronglySorted_unique Z.le); [apply sorted_ids_sorted|done|].
  apply NoDup_Permutation; [apply NoDup_sorted_ids|done|].
  intros i. by rewrite elem_of_sorted_ids, Hl.
Qed.

Lemma StronglySorted_take {A} (R : relation A) n (l : list A) :
  StronglySorted R l → StronglySorted R (take n l).
Proof.
  intros Hl. revert n. induction Hl as [|x l _ IH Hx]; intros [|n]; simpl; try constructor.
  - apply IH.
  - by apply Forall_take.
Qed.

Lemma StronglySorted_drop {A} (R : relation A) n (l : list A) :
  StronglySorted R l → StronglySorted R (drop n l).
Proof.
  intros H. rewrite <-(take_drop n l) in H. by eapply StronglySorted_app_1_r.
Qed.

(** Removing the first [n] identifiers in order leaves the rest, in order. *)
Lemma sorted_ids_drop s n :
  sorted_ids (s ∖ list_to_set (take n (sorted_ids s))) = drop n (sorted_ids s).
Proof.
  pose proof (NoDup_sorted_ids s) as Hnd.
  rewrite <-(take_drop n) in Hnd. apply NoDup_app in Hnd as (_ & Hdis & Hnd).
  apply sorted_ids_unique; [done|apply StronglySorted_drop, sorted_ids_sorted|].
  intros i. rewrite elem_of_difference, elem_of_list_to_set.
  rewrite <-(elem_of_sorted_ids s).
  assert (i ∈ sorted_ids s ↔ i ∈ take n (sorted_ids s) ∨ i ∈ drop n (sorted_ids s)) as ->.
  { by rewrite <-elem_of_app, take_drop. }
  specialize (Hdis i). tauto.
Qed.

(** An identifier above all others comes last. *)
Lemma sorted_ids_snoc s n : (∀ i, i ∈ s → i < n)%Z → sorted_ids (s ∪ {[n]}) = sorted_ids s ++ [n].
Proof.
  intros Hn. apply sorted_ids_unique.
  - apply NoDup_app. split_and!; [apply NoDup_sorted_ids| |apply NoDup_singleton].
    intros i Hi%elem_of_sorted_ids ->%list_elem_of_singleton. specialize (Hn _ Hi). lia.
  - apply StronglySorted_app_2; [|apply sorted_ids_sorted|repeat constructor].
    intros i j Hi%elem_of_sorted_ids ->%list_elem_of_singleton. specialize (Hn _ Hi). lia.
  - intros i. rewrite elem_of_app, elem_of_sorted_ids, list_elem_of_singleton. set_solver.
Qed.

(** ** Cardinalities *)

Lemma size_set_map_inj `{Countable A, Countable B} (f : A → B) (X : gset A) :
  (∀ x y, x ∈ X → y ∈ X → f x = f y → x = y) →
  size (set_map f X : gset B) = size X.
Proof.
  intros Hinj. unfold set_map. rewrite size_list_to_set.
  - by rewrite length_fmap.
  - assert (∀ x, x ∈ elements X → x ∈ X) as Hin by (intros x; apply elem_of_elements).
    pose proof (NoDup_elements X) as Hnd. revert Hin.
    induction Hnd as [|x l Hx Hnd IH]; intros Hin; simpl; constructor.
    + intros (y&E&Hy)%list_elem_of_fmap.
      apply Hinj in E as ->; [done|apply Hin; by left|apply Hin; by right].
    + apply IH. intros y Hy. apply Hin. by right.
Qed.

#[export] Hint Rewrite elem_of_sorted_ids sorted_ids_length sorted_ids_set : tca.
