(* ===== verification/PyValue.v ===== *)
(** Python values the modelled code manipulates: [str] as the list of its code
    points, [float] as IEEE binary64 values, JSON values, and the standard-library
    operations on them that the sources call. *)

From Stdlib Require Import SpecFloat.
From S2P Require Import Prelude.

(** * Strings

    A Python [str] is a sequence of Unicode code points, and [len], slicing,
    indexing and comparison work on code points. *)

Abbreviation pystr := (list Z) (only parsing).

(** ASCII literals: [u "abc"]. *)
Fixpoint u (s : string) : pystr :=
  match s with
  | EmptyString => []
  | String a s => Z.of_N (Ascii.N_of_ascii a) :: u s
  end.

Definition text_cmp : pystr → pystr → comparison := list_cmp Z.compare.
Definition text_ltb (a b : pystr) : bool :=
  match text_cmp a b with Lt => true | _ => false end.

#[export] Typeclasses Opaque text_cmp.

#[export] Instance text_cmp_good : GoodCmp text_cmp := list_cmp_good Z.compare _.

(** [str.isspace] on one code point: the code points CPython's [str.strip] and
    [str.split] treat as whitespace. *)
Definition is_space (c : Z) : bool :=
  (Z.leb 9 c && Z.leb c 13) || (Z.leb 28 c && Z.leb c 32) ||
  Z.eqb c 133 || Z.eqb c 160 || Z.eqb c 5760 ||
  (Z.leb 8192 c && Z.leb c 8202) || Z.eqb c 8232 || Z.eqb c 8233 ||
  Z.eqb c 8239 || Z.eqb c 8287 || Z.eqb c 12288.

Fixpoint lstrip (s : pystr) : pystr :=
  match s with
  | [] => []
  | c :: s' => if is_space c then lstrip s' else s
  end.
(** [s.strip()] *)
Definition strip (s : pystr) : pystr := reverse (lstrip (reverse (lstrip s))).

(** Truthiness of a [str] and of a [str | None]. *)
Definition str_truthy (s : pystr) : bool := match s with [] => false | _ => true end.
Definition opt_str_truthy (s : option pystr) : bool :=
  match s with Some s => str_truthy s | None => false end.

Fixpoint startswith (s p : pystr) : bool :=
  match p, s with
  | [], _ => true
  | _ :: _, [] => false
  | a :: p, b :: s => Z.eqb a b && startswith s p
  end.
Definition endswith (s p : pystr) : bool := startswith (reverse s) (reverse p).

(** [sep.join(parts)] *)
Fixpoint join (sep : pystr) (parts : list pystr) : pystr :=
  match parts with
  | [] => []
  | [p] => p
  | p :: ps => p ++ sep ++ join sep ps
  end.

(** ASCII [str.lower] and [str.upper] on a code point, as they act on the ASCII
    range. *)
Definition ascii_lower (c : Z) : Z := if Z.leb 65 c && Z.leb c 90 then c + 32 else c.
Definition ascii_upper (c : Z) : Z := if Z.leb 97 c && Z.leb c 122 then c - 32 else c.

(** Decimal digits of a non-negative integer, most significant first. The fuel is
    the number of binary digits, which bounds the number of decimal ones. *)
Fixpoint digits_aux (fuel : nat) (n : Z) (acc : pystr) : pystr :=
  match fuel with
  | O => acc
  | S fuel =>
      let acc := (48 + n mod 10)%Z :: acc in
      if Z.ltb n 10 then acc else digits_aux fuel (n / 10)%Z acc
  end.
Definition digits (n : Z) : pystr := digits_aux (S (Z.to_nat (Z.log2 n))) n [].
(** [str(n)] for an [int]. *)
Definition str_of_int (n : Z) : pystr :=
  if Z.ltb n 0 then 45%Z :: digits (- n) else digits n.

(** [s.replace(old, new)], for a non-empty [old]: [skip] characters of an occurrence are
    still to be passed over. *)
Fixpoint replace_from (old new : pystr) (skip : nat) (s : pystr) : pystr :=
  match s with
  | [] => []
  | c :: s' =>
      match skip with
      | S skip => replace_from old new skip s'
      | O => if startswith s old then new ++ replace_from old new (length old - 1) s'
             else c :: replace_from old new 0 s'
      end
  end.
Definition str_replace (old new s : pystr) : pystr := replace_from old new 0 s.

(** [f"{n:02d}"]-style zero padding to a width. *)
Definition zero_pad (width : nat) (s : pystr) : pystr :=
  replicate (width - length s) 48%Z ++ s.

(** [SQLite] [LENGTH(x)] of a text value: characters before the first NUL. *)
Fixpoint sql_length (s : pystr) : Z :=
  match s with
  | [] => 0
  | c :: s => if Z.eqb c 0 then 0 else Z.succ (sql_length s)
  end.

(** * Floats

    A Python [float] is an IEEE 754 binary64 value. *)

Abbreviation pyfloat := spec_float (only parsing).

#[export] Instance pyfloat_eq_dec : EqDecision pyfloat.
Proof. solve_decision. Defined.

(** [math.isfinite] *)
Definition isfinite (f : pyfloat) : bool :=
  match f with S754_zero _ | S754_finite _ _ _ => true | _ => false end.
(** [a >= b] on floats (false when either is NaN). *)
Definition float_ge (a b : pyfloat) : bool :=
  match SFcompare a b with Some Gt | Some Eq => true | _ => false end.
Definition float_le (a b : pyfloat) : bool := float_ge b a.
(** [float(n)]: raises [OverflowError] when the rounded result is infinite. *)
Definition float_of_int (n : Z) : result exn pyfloat :=
  let f := binary_normalize 53 1024 n 0 false in
  if isfinite f then Ok f else Err OverflowError.
(** [int(f)]: truncation toward zero of a finite float. *)
Definition trunc_float (f : pyfloat) : option Z :=
  match f with
  | S754_zero _ => Some 0%Z
  | S754_finite s m e =>
      let a := if Z.leb 0 e then Z.shiftl (Zpos m) e else Z.shiftr (Zpos m) (- e) in
      Some (if s then - a else a)%Z
  | _ => None
  end.
(** [f.is_integer()] *)
Definition is_integer (f : pyfloat) : bool :=
  match f with
  | S754_zero _ => true
  | S754_finite s m e =>
      Z.leb 0 e || Z.eqb (Z.land (Zpos m) (Z.ones (- e))) 0
  | _ => false
  end.

(** * JSON values ([JSONValue] of [settings_repo.py]) *)

Inductive JSONValue :=
  | JNull
  | JBool (b : bool)
  | JInt (n : Z)
  | JFloat (f : pyfloat)
  | JStr (s : pystr)
  | JList (l : list JSONValue)
  | JDict (d : list (pystr * JSONValue)).

#[export] Instance JSONValue_eq_dec : EqDecision JSONValue.
Proof.
  unfold EqDecision. fix go 1. intros x y.
  destruct x as [| | | | |l|d], y as [| | | | |l'|d'];
    try (right; discriminate); try (left; reflexivity);
    try (match goal with |- Decision (?f ?a = ?f ?b) =>
      let E := fresh in
      destruct (decide (a = b)) as [E|E];
        [left; rewrite E; reflexivity|right; intros [= ?]; contradiction] end).
  - assert (Decision (l = l')) as [E|E];
      [|left; rewrite E; reflexivity|right; intros [= ?]; contradiction].
    revert l'. induction l as [|a l IH]; intros [|b l'];
      [by left|by right|by right|].
    destruct (go a b), (IH l'); (left; congruence) || (right; congruence).
  - assert (Decision (d = d')) as [E|E];
      [|left; rewrite E; reflexivity|right; intros [= ?]; contradiction].
    revert d'. induction d as [|[k a] d IH]; intros [|[k' b] d'];
      [by left|by right|by right|].
    destruct (decide (k = k')), (go a b), (IH d');
      (left; congruence) || (right; congruence).
Defined.

(** [bool(v)] *)
Definition json_truthy (v : JSONValue) : bool :=
  match v with
  | JNull => false
  | JBool b => b
  | JInt n => negb (Z.eqb n 0)
  | JFloat f => match f with S754_zero _ => false | _ => true end
  | JStr s => str_truthy s
  | JList l => match l with [] => false | _ => true end
  | JDict d => match d with [] => false | _ => true end
  end.

(** [json.dumps(v, allow_nan=False)] succeeds exactly when every float of [v] is
    finite. *)
Fixpoint json_encodable (v : JSONValue) : bool :=
  match v with
  | JFloat f => isfinite f
  | JList l => forallb json_encodable l
  | JDict d => forallb (λ kv, json_encodable kv.2) d
  | _ => true
  end.

(** The value [json.dumps(v, sort_keys=True)] writes: the same value, the keys of every
    object in increasing order. *)
Fixpoint insert_key {A} (k : pystr) (v : A) (d : list (pystr * A)) : list (pystr * A) :=
  match d with
  | [] => [(k, v)]
  | (k', v') :: d' => if text_ltb k k' then (k, v) :: d else (k', v') :: insert_key k v d'
  end.
Fixpoint sort_keys (v : JSONValue) : JSONValue :=
  match v with
  | JList l => JList (map sort_keys l)
  | JDict d =>
      JDict (foldr (λ kv acc, insert_key kv.1 kv.2 acc) []
               (map (λ kv, (kv.1, sort_keys kv.2)) d))
  | v => v
  end.

(** Lookup of a key in a decoded object. *)
Fixpoint dict_get (d : list (pystr * JSONValue)) (k : pystr) : option JSONValue :=
  match d with
  | [] => None
  | (k', v) :: d => if bool_decide (k = k') then Some v else dict_get d k
  end.

(** * Shared lemmas *)

Lemma text_cmp_eq a b : text_cmp a b = Eq → a = b.
Proof. apply list_cmp_eq. Qed.

Lemma text_ltb_irrefl a : text_ltb a a = false.
Proof. unfold text_ltb. by rewrite (cmp_refl text_cmp). Qed.

Lemma text_ltb_trans a b c : text_ltb a b = true → text_ltb b c = true → text_ltb a c = true.
Proof.
  unfold text_ltb. destruct (text_cmp a b) eqn:E1; try done.
  destruct (text_cmp b c) eqn:E2; try done. intros _ _.
  by rewrite (cmp_lt_trans text_cmp _ _ _ E1 E2).
Qed.

(** A proper prefix compares below its extensions. *)
Lemma text_ltb_prefix a b : b ≠ [] → text_ltb a (a ++ b) = true.
Proof.
  intros Hb. unfold text_ltb. induction a as [|x a IH]; simpl.
  - by destruct b.
  - unfold text_cmp in *. simpl. by rewrite Z.compare_refl.
Qed.

Lemma lstrip_idem s : lstrip (lstrip s) = lstrip s.
Proof.
  induction s as [|c s IH]; simpl; [done|].
  destruct (is_space c) eqn:E; [done|]. simpl. by rewrite E.
Qed.

Lemma lstrip_nospace s c s' : lstrip s = c :: s' → is_space c = false.
Proof.
  induction s as [|d s IH]; simpl; [done|]. destruct (is_space d) eqn:E; [done|].
  by intros [= -> ->].
Qed.
Lemma lstrip_suffix s : ∃ p, s = p ++ lstrip s.
Proof.
  induction s as [|c s [p IH]]; simpl; [by exists []|].
  destruct (is_space c); [|by exists []]. exists (c :: p). simpl. congruence.
Qed.

(** Stripping removes spaces from both ends only, so a second time removes nothing. *)
Lemma strip_idem s : strip (strip s) = strip s.
Proof.
  unfold strip. set (t := lstrip s). set (r := lstrip (reverse t)).
  assert (lstrip (reverse r) = reverse r) as ->.
  { destruct (lstrip_suffix (reverse t)) as [p Hp]. fold r in Hp.
    assert (t = reverse r ++ reverse p) as Ht.
    { rewrite <-(reverse_involutive t), Hp, reverse_app. done. }
    destruct (reverse r) as [|c x] eqn:Er; [done|].
    assert (is_space c = false) as Hc.
    { apply (lstrip_nospace s c (x ++ reverse p)). fold t. by rewrite Ht. }
    simpl. by rewrite Hc. }
  rewrite reverse_involutive. f_equal. apply lstrip_idem.
Qed.

Lemma elem_of_lstrip c s : c ∈ lstrip s → c ∈ s.
Proof.
  induction s as [|d s IH]; simpl; [done|]. destruct (is_space d); [|done].
  intros H. apply elem_of_cons. auto.
Qed.
Lemma elem_of_strip c s : c ∈ strip s → c ∈ s.
Proof.
  unfold strip. rewrite elem_of_reverse. intros H%elem_of_lstrip. rewrite elem_of_reverse in H.
  by apply elem_of_lstrip.
Qed.

Example u_example : u "ab" = [97; 98]%Z.
Proof. reflexivity. Qed.
Example str_of_int_example : str_of_int (-1204) = u "-1204".
Proof. reflexivity. Qed.
Example strip_example : strip (u "  a b ") = u "a b".
Proof. reflexivity. Qed.
