(* ===== verification/PyTime.v ===== *)
(** Dates and times: Python [datetime] values with their UTC offset, the arithmetic
    and the text renderings the sources use (bound SQL parameters, isoformat) and
    SQLite's [CURRENT_TIMESTAMP] text. *)

From S2P Require Import Prelude PyValue.
Local Open Scope Z_scope.

(** A [datetime] is its wall-clock time in microseconds since
    [0001-01-01 00:00:00] and, for an aware value, its UTC offset in microseconds. *)
Record datetime := DT { dt_wall : Z; dt_offset : option Z }.

#[export] Instance datetime_eq_dec : EqDecision datetime.
Proof. solve_decision. Defined.

Definition us_per_second : Z := 1000000.
Definition seconds_per_day : Z := 86400.
(** Days from 0001-01-01 to 9999-12-31, both included. *)
Definition max_days : Z := 3652059.
Definition wall_limit : Z := max_days * seconds_per_day * us_per_second.

Definition in_range (wall : Z) : bool := Z.leb 0 wall && Z.ltb wall wall_limit.

(** [_normalize_datetime] (defined alike in scheduler, ingest, ops): a naive value
    is read as UTC. *)
Definition _normalize_datetime (value : datetime) : datetime :=
  match dt_offset value with
  | None => DT (dt_wall value) (Some 0)
  | Some _ => value
  end.

(** The instant of an aware value, in microseconds of UTC. *)
Definition instant (d : datetime) : Z :=
  dt_wall d - default 0 (dt_offset d).

(** [d + timedelta(microseconds=us)]: wall-clock arithmetic, [OverflowError] out of
    the year range 1..9999. *)
Definition dt_add (d : datetime) (us : Z) : result exn datetime :=
  let w := dt_wall d + us in
  if in_range w then Ok (DT w (dt_offset d)) else Err OverflowError.

(** [timedelta(days=n)]: magnitude limited to 999999999 days. *)
Definition timedelta_days (n : Z) : result exn Z :=
  if Z.leb (Z.abs n) 999999999 then Ok (n * seconds_per_day * us_per_second)
  else Err OverflowError.

(** Comparison of two aware values. *)
Definition dt_le (a b : datetime) : bool := Z.leb (instant a) (instant b).
Definition dt_lt (a b : datetime) : bool := Z.ltb (instant a) (instant b).

(** ** Calendar *)

Definition is_leap (y : Z) : bool :=
  Z.eqb (y mod 4) 0 && (negb (Z.eqb (y mod 100) 0) || Z.eqb (y mod 400) 0).

Definition month_lengths (y : Z) : list Z :=
  [31; if is_leap y then 29 else 28; 31; 30; 31; 30; 31; 31; 30; 31; 30; 31].

Fixpoint month_day (months : list Z) (m n : Z) : Z * Z :=
  match months with
  | [] => (m, n + 1)
  | len :: rest => if Z.ltb n len then (m, n + 1) else month_day rest (m + 1) (n - len)
  end.

(** Year, month and day of the [n]-th day from 0001-01-01 (day 0), by 400-, 100-,
    4- and 1-year cycles as CPython's [_ord2ymd]. *)
Definition ord2ymd (n : Z) : Z * Z * Z :=
  let n400 := n / 146097 in let n := n mod 146097 in
  let n100 := n / 36524 in let n' := n mod 36524 in
  let n4 := n' / 1461 in let n'' := n' mod 1461 in
  let n1 := n'' / 365 in let n''' := n'' mod 365 in
  let year := n400 * 400 + 1 + n100 * 100 + n4 * 4 + n1 in
  if Z.eqb n1 4 || Z.eqb n100 4 then (year - 1, 12, 31)
  else let '(m, d) := month_day (month_lengths year) 1 n''' in (year, m, d).

Definition pad (w : nat) (n : Z) : pystr := zero_pad w (str_of_int n).

Definition date_text (days : Z) : pystr :=
  let '(y, m, d) := ord2ymd days in
  pad 4 y ++ u "-" ++ pad 2 m ++ u "-" ++ pad 2 d.

Definition time_text (secs : Z) : pystr :=
  pad 2 (secs / 3600) ++ u ":" ++ pad 2 (secs / 60 mod 60) ++ u ":" ++ pad 2 (secs mod 60).

Definition offset_text (o : option Z) : pystr :=
  match o with
  | None => []
  | Some o =>
      let secs := Z.abs o / us_per_second in
      let us := Z.abs o mod us_per_second in
      (if Z.ltb o 0 then u "-" else u "+") ++ pad 2 (secs / 3600) ++ u ":" ++
      pad 2 (secs / 60 mod 60) ++
      (if Z.eqb (secs mod 60) 0 && Z.eqb us 0 then [] else u ":" ++ pad 2 (secs mod 60)) ++
      (if Z.eqb us 0 then [] else u "." ++ pad 6 us)
  end.

(** [d.isoformat(sep)] *)
Definition isoformat (sep : pystr) (d : datetime) : pystr :=
  let us := dt_wall d mod us_per_second in
  let secs := dt_wall d / us_per_second in
  date_text (secs / seconds_per_day) ++ sep ++ time_text (secs mod seconds_per_day) ++
  (if Z.eqb us 0 then [] else u "." ++ pad 6 us) ++ offset_text (dt_offset d).

(** The driver binds a [datetime] parameter as [d.isoformat(" ")]. *)
Definition sql_datetime (d : datetime) : pystr := isoformat (u " ") d.

(** SQLite's [CURRENT_TIMESTAMP] at a UTC wall-clock time. *)
Definition current_timestamp (wall : Z) : pystr :=
  let secs := wall / us_per_second in
  date_text (secs / seconds_per_day) ++ u " " ++ time_text (secs mod seconds_per_day).

(** ** Examples: 2024-02-29 is day 738944 (0-based) *)

Definition utc_day (days secs : Z) : datetime :=
  DT ((days * seconds_per_day + secs) * us_per_second) (Some 0).

Example iso_leap_day :
  sql_datetime (utc_day 738944 3661) = u "2024-02-29 01:01:01+00:00".
Proof. vm_compute. reflexivity. Qed.
Example iso_last_day :
  isoformat (u "T") (DT (wall_limit - 1) None) = u "9999-12-31T23:59:59.999999".
Proof. vm_compute. reflexivity. Qed.
Example iso_offset :
  isoformat (u "T") (DT 0 (Some (-19800 * us_per_second))) = u "0001-01-01T00:00:00-05:30".
Proof. vm_compute. reflexivity. Qed.

(** ** Lemmas *)

Lemma normalize_idem d : _normalize_datetime (_normalize_datetime d) = _normalize_datetime d.
Proof. destruct d as [w [o|]]; done. Qed.

Lemma normalize_aware d : is_Some (dt_offset (_normalize_datetime d)).
Proof. destruct d as [w [o|]]; eexists; done. Qed.

Lemma dt_add_Ok d us d' :
  dt_add d us = Ok d' → instant d' = instant d + us ∧ dt_offset d' = dt_offset d.
Proof.
  unfold dt_add, instant. destruct (in_range _); intros; inv_ok; simpl; split; [lia|done].
Qed.
