(* ===== verification/PyIso.v ===== *)
(** [datetime.fromisoformat], following CPython's C implementation: calendar dates
    ([YYYY-MM-DD], [YYYYMMDD]), ISO week dates ([YYYY-Www-D], [YYYYWwwD], day optional),
    a time of up to microseconds after any separator character, and a UTC offset. Used
    wherever the repositories read a timestamp back from text. The round trip with
    [isoformat] justifies keeping such columns as [datetime] values in Schema.v. *)

From S2P Require Import Prelude PyValue PyTime.
Local Open Scope Z_scope.

Module PyIso.

Definition is_digit (c : Z) : bool := Z.leb 48 c && Z.leb c 57.

(** Character [i], NUL past the end. *)
Definition at_pos (s : pystr) (i : nat) : Z := nth i s 0.

(** Exactly [n] ASCII digits: their value after [acc], and the rest. *)
Fixpoint parse_digits (n : nat) (acc : Z) (s : pystr) : option (Z * pystr) :=
  match n with
  | O => Some (acc, s)
  | S n =>
      match s with
      | c :: s => if is_digit c then parse_digits n (10 * acc + (c - 48)) s else None
      | [] => None
      end
  end.

Fixpoint skip_digits (s : pystr) : pystr :=
  match s with
  | c :: s' => if is_digit c then skip_digits s' else s
  | [] => []
  end.

(** ** The date *)

Definition DASH : Z := 45.
Definition COLON : Z := 58.
Definition LETTER_W : Z := 87.
Definition LETTER_Z : Z := 90.
Definition PLUS : Z := 43.

(** Where the date ends and the separator stands. *)
Definition find_separator (s : pystr) : option nat :=
  let len := length s in
  if Nat.eqb len 7 then Some 7%nat
  else if Z.eqb (at_pos s 4) DASH then
    if Z.eqb (at_pos s 5) LETTER_W then
      if Nat.ltb 8 len && Z.eqb (at_pos s 8) DASH then
        if Nat.eqb len 9 then None
        else if Nat.ltb 10 len && is_digit (at_pos s 10) then Some 8%nat
        else Some 10%nat
      else Some 8%nat
    else Some 10%nat
  else if Z.eqb (at_pos s 4) LETTER_W then
    let idx := (len - length (skip_digits (drop 7 s)))%nat in
    if Nat.ltb idx 9 then Some idx
    else if Nat.even idx then Some 7%nat else Some 8%nat
  else Some 8%nat.

(** 0-based day number of a date of the proleptic Gregorian calendar. *)
Definition days_before_year (y : Z) : Z :=
  let y := y - 1 in y * 365 + y / 4 - y / 100 + y / 400.
Definition days_before_month (y m : Z) : Z :=
  foldr Z.add 0 (take (Z.to_nat (m - 1)) (month_lengths y)).
Definition ymd2ord (y m d : Z) : option Z :=
  if Z.leb 1 y && Z.leb y 9999 && Z.leb 1 m && Z.leb m 12 && Z.leb 1 d &&
     Z.leb d (nth (Z.to_nat (m - 1)) (month_lengths y) 0)
  then Some (days_before_year y + days_before_month y m + (d - 1)) else None.

(** [date.fromisocalendar]; day 0 is a Monday. *)
Definition isoweek_to_ord (y w d : Z) : option Z :=
  let jan1 := days_before_year y in
  let first_weekday := jan1 mod 7 in
  let weeks := if Z.eqb first_weekday 3 || (Z.eqb first_weekday 2 && is_leap y)
               then 53 else 52 in
  if Z.leb 1 y && Z.leb y 9999 && Z.leb 1 w && Z.leb w weeks && Z.leb 1 d && Z.leb d 7 then
    let monday := jan1 - first_weekday + (if Z.leb 4 first_weekday then 7 else 0) in
    let day := monday + (w - 1) * 7 + (d - 1) in
    if Z.leb 0 day && Z.ltb day max_days then Some day else None
  else None.

(** Skip a dash when the date uses dashes. *)
Definition expect_dash (uses : bool) (s : pystr) : option pystr :=
  if uses then
    match s with c :: s => if Z.eqb c DASH then Some s else None | [] => None end
  else Some s.

Definition parse_date (s : pystr) : option Z :=
  '(y, s) ← parse_digits 4 0 s;
  let uses := Z.eqb (at_pos s 0) DASH in
  s ← expect_dash uses s;
  if Z.eqb (at_pos s 0) LETTER_W then
    '(w, s) ← parse_digits 2 0 (drop 1 s);
    match s with
    | [] => isoweek_to_ord y w 1
    | _ => s ← expect_dash uses s; '(d, _) ← parse_digits 1 0 s; isoweek_to_ord y w d
    end
  else
    '(m, s) ← parse_digits 2 0 s;
    s ← expect_dash uses s;
    '(d, _) ← parse_digits 2 0 s;
    ymd2ord y m d.

(** ** The time and the offset *)

(** The flag of these results tells that characters were left unread; [more] that the
    text goes on after [s] (with a UTC offset). *)

Definition parse_fraction (s : pystr) (more : bool) : option (Z * bool) :=
  let k := Nat.min 6 (length s) in
  '(v, s) ← parse_digits k 0 s;
  mret (v * 10 ^ Z.of_nat (6 - k),
        more || match skip_digits s with [] => false | _ => true end).

(** [HH[:?MM[:?SS[.fraction]]]]: [n] components are still allowed; [sep] tells whether
    the first two are separated by a colon, once known. *)
Fixpoint parse_hms (n : nat) (sep : option bool) (vals : list Z) (s : pystr) (more : bool)
    : option (list Z * Z * bool) :=
  match n with
  | O => '(us, rest) ← parse_fraction s more; mret (vals, us, rest)
  | S n =>
      '(v, t) ← parse_digits 2 0 s;
      let vals := vals ++ [v] in
      match t with
      | [] => mret (vals, 0, more)
      | c :: t' =>
          let sep := default (Z.eqb c COLON) sep in
          if match t' with [] => Z.ltb c 128 | _ => false end then mret (vals, 0, true)
          else if sep && Z.eqb c COLON then parse_hms n (Some sep) vals t' more
          else if Z.eqb c 46 || Z.eqb c 44 then
            '(us, rest) ← parse_fraction t' more; mret (vals, us, rest)
          else if negb sep then parse_hms n (Some sep) vals t more
          else None
      end
  end.

Definition hms_seconds (vals : list Z) : Z :=
  nth 0 vals 0 * 3600 + nth 1 vals 0 * 60 + nth 2 vals 0.

(** Split at the first sign or [Z]. *)
Fixpoint split_offset (s : pystr) : pystr * pystr :=
  match s with
  | c :: s' =>
      if Z.eqb c PLUS || Z.eqb c DASH || Z.eqb c LETTER_Z then ([], s)
      else let '(a, b) := split_offset s' in (c :: a, b)
  | [] => ([], [])
  end.

(** The offset in microseconds. *)
Definition parse_offset (s : pystr) : option Z :=
  match s with
  | c :: s =>
      if Z.eqb c LETTER_Z then match s with [] => Some 0 | _ => None end
      else
        '(vals, us, rest) ← parse_hms 3 None [] s false;
        if rest : bool then None
        else let o := hms_seconds vals * us_per_second + us in
             Some (if Z.eqb c DASH then - o else o)
  | [] => None
  end.

Definition parse_time (s : pystr) : option (Z * option Z) :=
  let '(time, offset) := split_offset s in
  '(vals, us, rest) ← parse_hms 3 None [] time (match offset with [] => false | _ => true end);
  if Z.ltb (nth 0 vals 0) 24 && Z.ltb (nth 1 vals 0) 60 && Z.ltb (nth 2 vals 0) 60 then
    let t := hms_seconds vals * us_per_second + us in
    match offset with
    | [] => if rest : bool then None else Some (t, None)
    | _ => o ← parse_offset offset; mret (t, Some o)
    end
  else None.

(** [datetime.fromisoformat(s)]; [None] is the [ValueError]. *)
Definition fromisoformat (s : pystr) : option datetime :=
  if Nat.ltb (length s) 7 then None
  else
    k ← find_separator s;
    day ← parse_date (take k s);
    let wall := day * seconds_per_day * us_per_second in
    match drop k s with
    | [] => Some (DT wall None)
    | _ :: time =>
        '(t, o) ← parse_time time;
        match o with
        | None => Some (DT (wall + t) None)
        | Some o =>
            if Z.ltb (Z.abs o) (seconds_per_day * us_per_second)
            then Some (DT (wall + t) (Some o)) else None
        end
    end.

(** ** Decimal fields *)

(** The last [w] decimal digits of [n]. *)
Fixpoint fixed (w : nat) (n : Z) : pystr :=
  match w with
  | O => []
  | S w => fixed w (n / 10) ++ [48 + n mod 10]
  end.

Lemma fixed_length w n : length (fixed w n) = w.
Proof. revert n. induction w as [|w IH]; intros n; simpl; [done|]. rewrite length_app, IH. simpl. lia. Qed.

Lemma fixed_zeros j k n : 0 ≤ n < 10 ^ Z.of_nat k → fixed (j + k) n = replicate j 48 ++ fixed k n.
Proof.
  revert n. induction k as [|k IH]; intros n Hn.
  - assert (n = 0) as -> by (simpl in Hn; lia). rewrite Nat.add_0_r, app_nil_r. clear Hn.
    induction j as [|j IH]; [done|]. simpl fixed. rewrite Z.div_0_l, IH by lia.
    simpl. change (48 + 0 mod 10) with 48. by rewrite <-replicate_S_end.
  - rewrite Nat.add_succ_r. simpl. rewrite IH, app_assoc; [done|].
    rewrite Nat2Z.inj_succ, Z.pow_succ_r in Hn by lia.
    split; [apply Z.div_pos; lia|]. apply Z.div_lt_upper_bound; lia.
Qed.

Lemma digits_aux_fixed fuel n acc :
  0 ≤ n < 2 ^ Z.of_nat fuel → (0 < fuel)%nat →
  ∃ k, digits_aux fuel n acc = fixed (S k) n ++ acc ∧ n < 10 ^ Z.of_nat (S k) ∧
       (k = O ∨ 10 ^ Z.of_nat k ≤ n).
Proof.
  revert n acc. induction fuel as [|fuel IH]; intros n acc Hn Hf; [lia|]. simpl.
  destruct (Z.ltb_spec n 10) as [H|H].
  - exists O. split_and!; [|simpl; lia|by left]. done.
  - rewrite Nat2Z.inj_succ, Z.pow_succ_r in Hn by lia.
    assert (1 ≤ n / 10 < 2 ^ Z.of_nat fuel) as Hd.
    { split; [apply Z.div_le_lower_bound; lia|apply Z.div_lt_upper_bound; lia]. }
    destruct (IH (n / 10) ((48 + n mod 10) :: acc)) as (k&E&Hu&Hl); [lia| |].
    { destruct fuel; [simpl in Hd; lia|lia]. }
    exists (S k). rewrite E. split_and!.
    + simpl. by rewrite <-!app_assoc.
    + rewrite Nat2Z.inj_succ, Z.pow_succ_r by lia.
      pose proof (Z.div_mod n 10). pose proof (Z.mod_pos_bound n 10). lia.
    + right. destruct Hl as [->|Hl]; [simpl; lia|].
      rewrite Nat2Z.inj_succ, Z.pow_succ_r by lia. pose proof (Z.mul_div_le n 10). lia.
Qed.

Lemma pad_fixed w n : (0 < w)%nat → 0 ≤ n < 10 ^ Z.of_nat w → pad w n = fixed w n.
Proof.
  intros Hw Hn. unfold pad, zero_pad, str_of_int.
  destruct (Z.ltb_spec n 0) as [?|_]; [lia|]. unfold digits.
  destruct (digits_aux_fixed (S (Z.to_nat (Z.log2 n))) n []) as (k&E&Hu&Hl); [|lia|].
  { split; [lia|]. rewrite Nat2Z.inj_succ, Z2Nat.id by apply Z.log2_nonneg.
    destruct (Z.eq_dec n 0) as [->|]; [done|]. apply Z.log2_spec. lia. }
  rewrite E, app_nil_r, fixed_length.
  assert (S k ≤ w)%nat as Hk.
  { destruct Hl as [->|Hl]; [lia|].
    assert (Z.of_nat k < Z.of_nat w); [|lia]. apply (Z.pow_lt_mono_r_iff 10); lia. }
  replace w with ((w - S k) + S k)%nat at 2 by lia.
  rewrite fixed_zeros by lia. done.
Qed.

Lemma parse_digits_add a b acc s :
  parse_digits (a + b) acc s = parse_digits a acc s ≫= λ '(v, s), parse_digits b v s.
Proof.
  revert acc s. induction a as [|a IH]; intros acc s; simpl; [done|].
  destruct s as [|c s]; [done|]. destruct (is_digit c); [apply IH|done].
Qed.

Lemma parse_fixed w acc n s :
  0 ≤ n < 10 ^ Z.of_nat w → parse_digits w acc (fixed w n ++ s) = Some (acc * 10 ^ Z.of_nat w + n, s).
Proof.
  revert n s. induction w as [|w IH]; intros n s Hn.
  - simpl in *. repeat f_equal. lia.
  - rewrite Nat2Z.inj_succ, Z.pow_succ_r in * by lia.
    replace (S w) with (w + 1)%nat by lia. rewrite parse_digits_add. rewrite Nat.add_1_r. simpl.
    rewrite <-app_assoc, IH.
    2:{ split; [apply Z.div_pos; lia|apply Z.div_lt_upper_bound; lia]. }
    simpl. unfold is_digit. pose proof (Z.mod_pos_bound n 10 ltac:(lia)).
    rewrite (proj2 (Z.leb_le _ _)), (proj2 (Z.leb_le _ _)) by lia. simpl.
    pose proof (Z.div_mod n 10 ltac:(lia)). do 2 f_equal. lia.
Qed.

(** The fields of a rendering, as lists of digits. *)
Lemma fixed2 n : fixed 2 n = [48 + n / 10 mod 10; 48 + n mod 10].
Proof. done. Qed.

(** ** The calendar *)

Lemma days_before_year_cycles a b c d :
  0 ≤ b < 4 → 0 ≤ c < 25 → 0 ≤ d < 4 →
  days_before_year (400 * a + 100 * b + 4 * c + d + 1)
  = 146097 * a + 36524 * b + 1461 * c + 365 * d.
Proof.
  intros. unfold days_before_year.
  replace (400 * a + 100 * b + 4 * c + d + 1 - 1) with (400 * a + 100 * b + 4 * c + d) by lia.
  assert ((400 * a + 100 * b + 4 * c + d) / 4 = 100 * a + 25 * b + c) as ->
    by (symmetry; apply (Z.div_unique _ 4 _ d); lia).
  assert ((400 * a + 100 * b + 4 * c + d) / 100 = 4 * a + b) as ->
    by (symmetry; apply (Z.div_unique _ 100 _ (4 * c + d)); lia).
  assert ((400 * a + 100 * b + 4 * c + d) / 400 = a) as ->
    by (symmetry; apply (Z.div_unique _ 400 _ (100 * b + 4 * c + d)); lia). lia.
Qed.

Lemma month_day_spec months m n :
  0 ≤ n < foldr Z.add 0 months →
  ∃ i, (i < length months)%nat ∧
    month_day months m n = (m + Z.of_nat i, n - foldr Z.add 0 (take i months) + 1) ∧
    1 ≤ n - foldr Z.add 0 (take i months) + 1 ≤ nth i months 0.
Proof.
  revert m n. induction months as [|len months IH]; intros m n Hn; simpl in Hn; [lia|].
  simpl. destruct (Z.ltb_spec n len).
  - exists O. simpl. split_and!; [lia| |lia|lia]. f_equal; lia.
  - destruct (IH (m + 1) (n - len)) as (i&Hi&E&Hr); [lia|]. exists (S i). simpl. rewrite E.
    split_and!; [lia| |lia|lia]. f_equal; lia.
Qed.

Lemma month_lengths_sum y : foldr Z.add 0 (month_lengths y) = if is_leap y then 366 else 365.
Proof. unfold month_lengths. by destruct (is_leap y). Qed.

Lemma ymd2ord_month_day y k m d :
  1 ≤ y ≤ 9999 → 0 ≤ k < (if is_leap y then 366 else 365) →
  month_day (month_lengths y) 1 k = (m, d) → ymd2ord y m d = Some (days_before_year y + k).
Proof.
  intros Hy Hk E. rewrite <-month_lengths_sum in Hk.
  destruct (month_day_spec _ 1 _ Hk) as (i&Hi&E'&Hr). rewrite E' in E. injection E as <- <-.
  unfold ymd2ord. change (length (month_lengths y)) with 12%nat in Hi.
  replace (Z.to_nat (1 + Z.of_nat i - 1)) with i by lia.
  match goal with |- (if ?c then _ else _) = _ =>
    assert (c = true) as -> by (rewrite !andb_true_iff, !Z.leb_le; lia) end.
  unfold days_before_month. replace (Z.to_nat (1 + Z.of_nat i - 1)) with i by lia. f_equal. lia.
Qed.

Lemma is_leap_cycles a b c d :
  0 ≤ b < 4 → 0 ≤ c < 25 → 0 ≤ d < 4 →
  is_leap (400 * a + 100 * b + 4 * c + d + 1) =
  Z.eqb d 3 && (negb (Z.eqb c 24) || Z.eqb b 3).
Proof.
  intros Hb Hc Hd. unfold is_leap. set (y := 400 * a + 100 * b + 4 * c + d + 1).
  assert (y mod 4 = (d + 1) mod 4) as ->.
  { unfold y. replace (400 * a + 100 * b + 4 * c + d + 1)
      with (d + 1 + (100 * a + 25 * b + c) * 4) by lia. by rewrite Z_mod_plus_full. }
  assert (y mod 100 = (4 * c + d + 1) mod 100) as ->.
  { unfold y. replace (400 * a + 100 * b + 4 * c + d + 1)
      with (4 * c + d + 1 + (4 * a + b) * 100) by lia. by rewrite Z_mod_plus_full. }
  assert (y mod 400 = (100 * b + 4 * c + d + 1) mod 400) as ->.
  { unfold y. replace (400 * a + 100 * b + 4 * c + d + 1)
      with (100 * b + 4 * c + d + 1 + a * 400) by lia. by rewrite Z_mod_plus_full. }
  assert (forallb (λ b, forallb (λ c, forallb (λ d,
    Bool.eqb (Z.eqb ((Z.of_nat d + 1) mod 4) 0 &&
       (negb (Z.eqb ((4 * Z.of_nat c + Z.of_nat d + 1) mod 100) 0) ||
        Z.eqb ((100 * Z.of_nat b + 4 * Z.of_nat c + Z.of_nat d + 1) mod 400) 0))
      (Z.eqb (Z.of_nat d) 3 && (negb (Z.eqb (Z.of_nat c) 24) || Z.eqb (Z.of_nat b) 3)))
    (seq 0 4)) (seq 0 25)) (seq 0 4) = true) as H by (vm_compute; reflexivity).
  rewrite forallb_forall in H. specialize (H (Z.to_nat b) ltac:(apply in_seq; lia)).
  rewrite forallb_forall in H. specialize (H (Z.to_nat c) ltac:(apply in_seq; lia)).
  rewrite forallb_forall in H. specialize (H (Z.to_nat d) ltac:(apply in_seq; lia)).
  rewrite !Z2Nat.id in H by lia. by apply eqb_prop in H.
Qed.

(** The last day of a leap year or of a 400-year cycle is the 366th of its year. *)
Lemma ymd2ord_last y :
  1 ≤ y ≤ 9999 → is_leap y = true → ymd2ord y 12 31 = Some (days_before_year y + 365).
Proof.
  intros Hy Hl. apply ymd2ord_month_day; [lia| |]; [by rewrite Hl|].
  unfold month_lengths. by rewrite Hl.
Qed.

(** [ord2ymd] renders a day number that [ymd2ord] reads back. *)
Lemma ymd2ord_ord2ymd n y m d :
  0 ≤ n < max_days → ord2ymd n = (y, m, d) → ymd2ord y m d = Some n.
Proof.
  unfold max_days. intros Hn. unfold ord2ymd.
  pose proof (Z.div_mod n 146097 ltac:(lia)) as E1. pose proof (Z.mod_pos_bound n 146097 ltac:(lia)).
  set (a := n / 146097) in *. set (r := n mod 146097) in *. clearbody a r.
  pose proof (Z.div_mod r 36524 ltac:(lia)) as E2. pose proof (Z.mod_pos_bound r 36524 ltac:(lia)).
  set (b := r / 36524) in *. set (r2 := r mod 36524) in *. clearbody b r2.
  pose proof (Z.div_mod r2 1461 ltac:(lia)) as E3. pose proof (Z.mod_pos_bound r2 1461 ltac:(lia)).
  set (c := r2 / 1461) in *. set (r3 := r2 mod 1461) in *. clearbody c r3.
  pose proof (Z.div_mod r3 365 ltac:(lia)) as E4. pose proof (Z.mod_pos_bound r3 365 ltac:(lia)).
  set (e := r3 / 365) in *. set (r4 := r3 mod 365) in *. clearbody e r4.
  cbv zeta. assert (0 ≤ a ≤ 24 ∧ 0 ≤ b ≤ 4 ∧ 0 ≤ c ≤ 24 ∧ 0 ≤ e ≤ 4) as (Ha&Hb&Hc&He) by lia.
  destruct (Z.eqb_spec e 4) as [E|He'].
  - subst e. simpl. intros [= <- <- <-]. assert (r4 = 0) as -> by lia.
    assert (b < 4) by lia. 
    replace (a * 400 + 1 + b * 100 + c * 4 + 4 - 1) with (400 * a + 100 * b + 4 * c + 3 + 1) by lia.
    rewrite ymd2ord_last; [rewrite days_before_year_cycles by lia; f_equal; lia|lia|].
    rewrite is_leap_cycles by lia. simpl.
    destruct (Z.eqb_spec c 24) as [->|?]; [|done]. simpl.
    destruct (Z.eqb_spec b 3); [done|]. exfalso. lia.
  - destruct (Z.eqb_spec b 4) as [E|Hb'].
    + subst b. simpl. intros [= <- <- <-]. assert (r2 = 0 ∧ c = 0 ∧ e = 0 ∧ r4 = 0) as (->&->&->&->) by lia.
      replace (a * 400 + 1 + 4 * 100 + 0 * 4 + 0 - 1) with (400 * a + 100 * 3 + 4 * 24 + 3 + 1) by lia.
      rewrite ymd2ord_last; [rewrite days_before_year_cycles by lia; f_equal; lia|lia|].
      by rewrite is_leap_cycles by lia.
    + cbn [orb]. replace (a * 400 + 1 + b * 100 + c * 4 + e) with (400 * a + 100 * b + 4 * c + e + 1) by lia.
      destruct (month_day (month_lengths (400 * a + 100 * b + 4 * c + e + 1)) 1 r4)
        as [m' d'] eqn:Em. intros [= <- <- <-].
      rewrite (ymd2ord_month_day _ r4 _ _); [|lia| |done].
      * rewrite days_before_year_cycles by lia. f_equal. lia.
      * case_match; lia.
Qed.

Lemma ymd2ord_range y m d n :
  ymd2ord y m d = Some n → 1 ≤ y ≤ 9999 ∧ 1 ≤ m ≤ 12 ∧ 1 ≤ d ≤ 31.
Proof.
  unfold ymd2ord. case_match eqn:E; [|done]. intros _.
  rewrite !andb_true_iff, !Z.leb_le in E. destruct E as [[[[[? ?] ?] ?] ?] Hd].
  split_and!; try lia. etransitivity; [exact Hd|].
  assert (Z.to_nat (m - 1) < 12)%nat as Hm by lia. revert Hm. generalize (Z.to_nat (m - 1)).
  intros k Hk. unfold month_lengths. do 12 (destruct k as [|k]; [simpl; try case_match; lia|]). lia.
Qed.

(** ** Rendering and reading back *)

Lemma date_text_fixed day :
  0 ≤ day < max_days →
  ∃ y m d, ymd2ord y m d = Some day ∧ 1 ≤ y ≤ 9999 ∧ 1 ≤ m ≤ 12 ∧ 1 ≤ d ≤ 31 ∧
    date_text day = fixed 4 y ++ DASH :: fixed 2 m ++ DASH :: fixed 2 d.
Proof.
  intros Hd. unfold date_text. destruct (ord2ymd day) as [[y m] d] eqn:E.
  pose proof (ymd2ord_ord2ymd _ _ _ _ Hd E) as Ho.
  destruct (ymd2ord_range _ _ _ _ Ho) as (Hy&Hm&Hdd). exists y, m, d.
  rewrite !pad_fixed by (simpl; lia). done.
Qed.

Lemma not_letter n c : 58 ≤ c → Z.eqb (48 + n mod 10) c = false.
Proof. intros. apply Z.eqb_neq. pose proof (Z.mod_pos_bound n 10 ltac:(lia)). lia. Qed.

Lemma parse_date_text day : 0 ≤ day < max_days → parse_date (date_text day) = Some day.
Proof.
  intros Hd. destruct (date_text_fixed day Hd) as (y&m&d&Ho&Hy&Hm&Hdd&->).
  unfold parse_date. rewrite parse_fixed by (simpl; lia). cbn [mbind option_bind].
  change (at_pos (DASH :: _) 0) with DASH. cbn [Z.eqb expect_dash DASH Pos.eqb mbind option_bind].
  assert (Z.eqb (at_pos (fixed 2 m ++ DASH :: fixed 2 d) 0) LETTER_W = false) as ->.
  { cbn [fixed app at_pos nth]. apply not_letter. unfold LETTER_W. lia. }
  rewrite parse_fixed by (simpl; lia). cbn [mbind option_bind expect_dash].
  change (Z.eqb DASH DASH) with true. cbn [mbind option_bind].
  rewrite <-(app_nil_r (fixed 2 d)), parse_fixed by (simpl; lia). cbn [mbind option_bind].
  by rewrite !Z.mul_0_l, !Z.add_0_l.
Qed.

Lemma date_text_separator day c s :
  0 ≤ day < max_days →
  let text := date_text day ++ c :: s in
  Nat.ltb (length text) 7 = false ∧ find_separator text = Some 10%nat ∧
  take 10 text = date_text day ∧ drop 10 text = c :: s.
Proof.
  intros Hd. destruct (date_text_fixed day Hd) as (y&m&d&Ho&Hy&Hm&Hdd&->).
  cbv zeta. cbn [fixed app]. split_and!; try done.
  unfold find_separator. cbn [length at_pos nth]. change (Z.eqb DASH DASH) with true.
  cbn [Nat.eqb]. by rewrite not_letter by (unfold LETTER_W; lia).
Qed.

(** A clock time [h:m:s] of two digits each. *)
Lemma time_text_fixed secs :
  0 ≤ secs < seconds_per_day →
  time_text secs =
    fixed 2 (secs / 3600) ++ COLON :: fixed 2 (secs / 60 mod 60) ++ COLON :: fixed 2 (secs mod 60).
Proof.
  unfold seconds_per_day. intros Hs. unfold time_text.
  rewrite !pad_fixed; [done|simpl; Z.to_euclidean_division_equations; lia..].
Qed.

Lemma parse_fraction_fixed us more :
  0 ≤ us < us_per_second → parse_fraction (fixed 6 us) more = Some (us, more).
Proof.
  unfold us_per_second. intros Hu. unfold parse_fraction. rewrite fixed_length. cbn [Nat.min].
  rewrite <-(app_nil_r (fixed 6 us)), parse_fixed by (simpl; lia).
  cbn [mbind option_bind]. rewrite Z.mul_1_r, orb_false_r. done.
Qed.

(** What follows the minutes, in a time or an offset. *)
Definition seconds_text (s us : Z) : pystr :=
  COLON :: fixed 2 s ++ (if Z.eqb us 0 then [] else 46 :: fixed 6 us).

Lemma parse_two {B} v s (acc : Z * pystr → option B) :
  0 ≤ v < 100 → parse_digits 2 0 (fixed 2 v ++ s) ≫= acc = acc (v, s).
Proof. intros Hv. by rewrite parse_fixed by (simpl; lia). Qed.

Lemma parse_hms_colon n sep vals v t more :
  0 ≤ v < 100 → default true sep = true → t ≠ [] →
  parse_hms (S n) sep vals (fixed 2 v ++ COLON :: t) more =
  parse_hms n (Some true) (vals ++ [v]) t more.
Proof.
  intros Hv Hs Ht. cbn [parse_hms]. rewrite parse_two by done. cbv iota beta zeta.
  destruct t as [|c t]; [done|]. by destruct sep as [[]|].
Qed.

Lemma parse_hms_end n sep vals v more :
  0 ≤ v < 100 → parse_hms (S n) sep vals (fixed 2 v) more = Some (vals ++ [v], 0, more).
Proof.
  intros Hv. cbn [parse_hms]. rewrite <-(app_nil_r (fixed 2 v)). by rewrite parse_two.
Qed.

Lemma parse_hms_dot n sep vals v us more :
  0 ≤ v < 100 → 0 ≤ us < us_per_second →
  parse_hms (S n) (Some sep) vals (fixed 2 v ++ 46 :: fixed 6 us) more =
  Some (vals ++ [v], us, more).
Proof.
  intros Hv Hu. cbn [parse_hms]. rewrite parse_two by done. cbv iota beta zeta.
  rewrite parse_fraction_fixed by done. cbn [default].
  rewrite (andb_comm sep). cbn [Z.eqb andb COLON Pos.eqb orb].
  by destruct (fixed 6 us) eqn:E; [apply (f_equal length) in E; rewrite fixed_length in E|].
Qed.

Lemma parse_hms_text h m s us more :
  0 ≤ h < 100 → 0 ≤ m < 100 → 0 ≤ s < 100 → 0 ≤ us < us_per_second →
  parse_hms 3 None [] (fixed 2 h ++ COLON :: fixed 2 m ++ seconds_text s us) more =
  Some ([h; m; s], us, more).
Proof.
  intros Hh Hm Hs Hu. unfold seconds_text.
  rewrite parse_hms_colon by done. rewrite parse_hms_colon by (done || by destruct (Z.eqb us 0)).
  destruct (Z.eqb_spec us 0) as [->|Hne].
  - rewrite app_nil_r. by apply parse_hms_end.
  - by apply parse_hms_dot.
Qed.

(** An offset of whole minutes has no seconds. *)
Lemma parse_hm_text h m more :
  0 ≤ h < 100 → 0 ≤ m < 100 →
  parse_hms 3 None [] (fixed 2 h ++ COLON :: fixed 2 m) more = Some ([h; m], 0, more).
Proof.
  intros Hh Hm. rewrite parse_hms_colon by done. by apply parse_hms_end.
Qed.

Definition sign (c : Z) : bool := Z.eqb c PLUS || Z.eqb c DASH || Z.eqb c LETTER_Z.

Lemma split_offset_app s t :
  forallb (λ c, negb (sign c)) s = true →
  split_offset (s ++ t) = (s ++ (split_offset t).1, (split_offset t).2).
Proof.
  induction s as [|c s IH]; simpl; [by destruct (split_offset t)|].
  rewrite andb_true_iff, negb_true_iff. unfold sign at 1. intros [-> Hs].
  by rewrite (IH Hs).
Qed.

Lemma fixed_no_sign w n : forallb (λ c, negb (sign c)) (fixed w n) = true.
Proof.
  revert n. induction w as [|w IH]; intros n; simpl; [done|].
  rewrite forallb_app, IH. simpl. pose proof (Z.mod_pos_bound n 10 ltac:(lia)).
  unfold sign, PLUS, DASH, LETTER_Z.
  repeat (rewrite (proj2 (Z.eqb_neq _ _)) by lia). done.
Qed.

Definition clock (secs us : Z) : pystr :=
  fixed 2 (secs / 3600) ++ COLON :: fixed 2 (secs / 60 mod 60) ++ seconds_text (secs mod 60) us.

Lemma clock_no_sign secs us : forallb (λ c, negb (sign c)) (clock secs us) = true.
Proof.
  unfold clock, seconds_text. rewrite forallb_app, fixed_no_sign. cbn [forallb andb].
  rewrite forallb_app, fixed_no_sign. cbn [forallb andb].
  rewrite forallb_app, fixed_no_sign. case_match; [done|].
  cbn [forallb andb]. by rewrite fixed_no_sign.
Qed.

Lemma parse_clock secs us more :
  0 ≤ secs < 360000 → 0 ≤ us < us_per_second →
  parse_hms 3 None [] (clock secs us) more =
    Some ([secs / 3600; secs / 60 mod 60; secs mod 60], us, more) ∧
  hms_seconds [secs / 3600; secs / 60 mod 60; secs mod 60] = secs.
Proof.
  intros Hs Hu. split.
  - apply parse_hms_text; [Z.to_euclidean_division_equations; lia..|done].
  - unfold hms_seconds. cbn [nth]. Z.to_euclidean_division_equations; lia.
Qed.

Lemma offset_text_parse o :
  Z.abs o < seconds_per_day * us_per_second →
  parse_offset (offset_text (Some o)) = Some o ∧
  split_offset (offset_text (Some o)) = ([], offset_text (Some o)) ∧
  offset_text (Some o) ≠ [].
Proof.
  intros Ho. unfold offset_text. set (secs := Z.abs o / us_per_second).
  set (us := Z.abs o mod us_per_second).
  assert (0 ≤ secs < seconds_per_day ∧ 0 ≤ us < us_per_second ∧
    Z.abs o = secs * us_per_second + us) as (Hs&Hu&Eo).
  { unfold secs, us, seconds_per_day, us_per_second in *. Z.to_euclidean_division_equations; lia. }
  unfold seconds_per_day in Hs. clearbody secs us.
  assert (parse_hms 3 None [] (pad 2 (secs / 3600) ++ u ":" ++ pad 2 (secs / 60 mod 60) ++
      (if Z.eqb (secs mod 60) 0 && Z.eqb us 0 then [] else u ":" ++ pad 2 (secs mod 60)) ++
      (if Z.eqb us 0 then [] else u "." ++ pad 6 us)) false
    = Some ([secs / 3600; secs / 60 mod 60] ++
        (if Z.eqb (secs mod 60) 0 && Z.eqb us 0 then [] else [secs mod 60]), us, false)) as Hp.
  { rewrite !pad_fixed by (unfold us_per_second in *; simpl; Z.to_euclidean_division_equations; lia).
    destruct (Z.eqb (secs mod 60) 0 && Z.eqb us 0) eqn:E.
    - apply andb_true_iff in E as [_ ->%Z.eqb_eq]. simpl (if Z.eqb 0 0 then _ else _).
      rewrite app_nil_r. apply parse_hm_text; Z.to_euclidean_division_equations; lia.
    - apply (parse_clock secs us false); [lia|done]. }
  assert (hms_seconds ([secs / 3600; secs / 60 mod 60] ++
      (if Z.eqb (secs mod 60) 0 && Z.eqb us 0 then [] else [secs mod 60])) = secs) as Hh.
  { destruct (Z.eqb (secs mod 60) 0 && Z.eqb us 0) eqn:E; [|apply (parse_clock secs us false); [lia|done]].
    apply andb_true_iff in E as [Hz%Z.eqb_eq _]. unfold hms_seconds. cbn [nth app].
    revert Hz. clear. Z.to_euclidean_division_equations; lia. }
  destruct (Z.ltb_spec o 0); (split_and!; [|done|done]);
    cbn [app u]; unfold parse_offset; cbv beta iota zeta;
    (match goal with |- context [Z.eqb ?c LETTER_Z] =>
       change (Z.eqb c LETTER_Z) with false end); cbv iota;
    match goal with |- context [parse_hms _ _ _ ?t _] => 
      change t with (pad 2 (secs / 3600) ++ u ":" ++ pad 2 (secs / 60 mod 60) ++
      (if Z.eqb (secs mod 60) 0 && Z.eqb us 0 then [] else u ":" ++ pad 2 (secs mod 60)) ++
      (if Z.eqb us 0 then [] else u "." ++ pad 6 us)) end;
    rewrite Hp; cbn [mbind option_bind]; rewrite Hh.
  - change (Z.eqb _ DASH) with true. cbv iota. f_equal. lia.
  - change (Z.eqb _ DASH) with false. cbv iota. f_equal. lia.
Qed.

(** A [datetime] that Python can construct. *)
Definition valid (d : datetime) : Prop :=
  in_range (dt_wall d) = true ∧
  ∀ o, dt_offset d = Some o → Z.abs o < seconds_per_day * us_per_second.

Lemma in_range_iff w : in_range w = true ↔ 0 ≤ w < wall_limit.
Proof. unfold in_range. rewrite andb_true_iff, Z.leb_le, Z.ltb_lt. done. Qed.

Lemma parse_hms_clock secs us more :
  0 ≤ secs < seconds_per_day → 0 ≤ us < us_per_second →
  parse_hms 3 None [] (time_text secs ++ (if Z.eqb us 0 then [] else u "." ++ pad 6 us)) more =
    Some ([secs / 3600; secs / 60 mod 60; secs mod 60], us, more) ∧
  hms_seconds [secs / 3600; secs / 60 mod 60; secs mod 60] = secs ∧
  forallb (λ c, negb (sign c))
    (time_text secs ++ (if Z.eqb us 0 then [] else u "." ++ pad 6 us)) = true.
Proof.
  intros Hs Hu. rewrite time_text_fixed by done.
  rewrite (pad_fixed 6) by (unfold us_per_second in Hu; simpl; lia).
  match goal with |- context [?a ++ ?b] => change (a ++ b) with (clock secs us) end.
  unfold seconds_per_day in Hs. destruct (parse_clock secs us more) as [H1 H2]; [lia|done|].
  split_and!; [done|done|]. apply (clock_no_sign secs us).
Qed.

(** Rendering a time and reading it back, after a date and any separator. *)
Lemma fromisoformat_isoformat c d :
  valid d → fromisoformat (isoformat [c] d) = Some d.
Proof.
  intros [Hr Ho]. apply in_range_iff in Hr. destruct d as [w o]. simpl in *.
  unfold isoformat. simpl dt_wall. simpl dt_offset.
  set (us := w mod us_per_second). set (secs := w / us_per_second).
  assert (0 ≤ us < us_per_second ∧ w = secs * us_per_second + us ∧
    0 ≤ secs / seconds_per_day < max_days ∧ 0 ≤ secs mod seconds_per_day < seconds_per_day ∧
    secs = secs / seconds_per_day * seconds_per_day + secs mod seconds_per_day)
    as (Hu&Ew&Hd&Hs&Es).
  { unfold us, secs, wall_limit, max_days, seconds_per_day, us_per_second in *.
    Z.to_euclidean_division_equations; lia. }
  clearbody us secs. set (day := secs / seconds_per_day) in *.
  set (s := secs mod seconds_per_day) in *. clearbody day s.
  destruct (date_text_separator day c
    (time_text s ++ (if Z.eqb us 0 then [] else u "." ++ pad 6 us) ++ offset_text o) Hd)
    as (Hl&Hf&Ht&Hdr). cbv zeta in *. unfold fromisoformat. cbn [app]. 
  rewrite Hl, Hf. cbn [mbind option_bind]. rewrite Ht, Hdr, parse_date_text by done.
  cbn [mbind option_bind]. cbv beta iota zeta.
  unfold parse_time. rewrite app_assoc.
  destruct (parse_hms_clock s us (match offset_text o with [] => false | _ => true end))
    as (Hp&Hh&Hn); [done..|].
  rewrite split_offset_app by done.
  assert (Z.ltb (nth 0 [s / 3600; s / 60 mod 60; s mod 60] 0) 24 &&
    Z.ltb (nth 1 [s / 3600; s / 60 mod 60; s mod 60] 0) 60 &&
    Z.ltb (nth 2 [s / 3600; s / 60 mod 60; s mod 60] 0) 60 = true) as Hv.
  { cbn [nth]. rewrite !andb_true_iff, !Z.ltb_lt. unfold seconds_per_day in Hs.
    Z.to_euclidean_division_equations; lia. }
  assert (day * seconds_per_day * us_per_second + (s * us_per_second + us) = w) as Ew' by lia.
  destruct o as [o|].
  - destruct (offset_text_parse o (Ho o eq_refl)) as (Hpo&Hsp&Hne).
    rewrite Hsp. cbn [fst snd]. rewrite app_nil_r, Hp. cbn [mbind option_bind].
    rewrite Hv, Hh, Hpo. destruct (offset_text (Some o)); [done|].
    cbn [mbind option_bind mret option_ret]. rewrite Ew'.
    by rewrite (proj2 (Z.ltb_lt _ _) (Ho o eq_refl)).
  - cbn [offset_text split_offset fst snd]. rewrite app_nil_r. cbn [offset_text] in Hp.
    rewrite Hp. cbn [mbind option_bind]. rewrite Hv, Hh. cbn [mbind option_bind].
    by rewrite Ew'.
Qed.

(** A UTC rendering ends in [+00:00] and has no other plus sign. *)
Definition no_plus (s : pystr) : bool := forallb (λ c, negb (Z.eqb c PLUS)) s.

Lemma no_plus_fixed w n : no_plus (fixed w n) = true.
Proof.
  unfold no_plus. rewrite forallb_forall. intros c Hc. pose proof (fixed_no_sign w n) as H.
  rewrite forallb_forall in H. specialize (H c Hc). unfold sign in H.
  by destruct (Z.eqb c PLUS).
Qed.

Lemma no_plus_app a b : no_plus (a ++ b) = no_plus a && no_plus b.
Proof. apply forallb_app. Qed.
Lemma no_plus_cons c b : no_plus (c :: b) = negb (Z.eqb c PLUS) && no_plus b.
Proof. done. Qed.

Lemma isoformat_utc c w :
  in_range w = true → c ≠ PLUS →
  ∃ body, isoformat [c] (DT w (Some 0)) = body ++ u "+00:00" ∧ no_plus body = true.
Proof.
  intros Hr Hc. apply in_range_iff in Hr. unfold isoformat. simpl dt_wall. simpl dt_offset.
  change (offset_text (Some 0)) with (u "+00:00"). rewrite !app_assoc.
  eexists. split; [reflexivity|].
  assert (0 ≤ w / us_per_second / seconds_per_day < max_days ∧
    0 ≤ (w / us_per_second) mod seconds_per_day < seconds_per_day ∧
    0 ≤ w mod us_per_second < us_per_second) as (Hd&Hs&Hu).
  { unfold wall_limit, max_days, seconds_per_day, us_per_second in *.
    Z.to_euclidean_division_equations; lia. }
  destruct (date_text_fixed _ Hd) as (y&m&d&_&_&_&_&->).
  rewrite time_text_fixed, (pad_fixed 6) by (unfold us_per_second in Hu; simpl; lia || done).
  repeat (rewrite ?no_plus_app, ?no_plus_cons, ?no_plus_fixed).
  rewrite (proj2 (Z.eqb_neq _ _) Hc).
  destruct (Z.eqb (w mod us_per_second) 0); [done|].
  change (u ".") with [46]. by rewrite no_plus_app, no_plus_fixed.
Qed.

(** ** The order of dates *)

Lemma compare_digits x y :
  (x ?= y) = match x / 10 ?= y / 10 with Eq => x mod 10 ?= y mod 10 | r => r end.
Proof.
  pose proof (Z.div_mod x 10). pose proof (Z.div_mod y 10).
  pose proof (Z.mod_pos_bound x 10). pose proof (Z.mod_pos_bound y 10).
  destruct (Z.compare_spec (x / 10) (y / 10));
    [destruct (Z.compare_spec (x mod 10) (y mod 10))|..];
    first [apply Z.compare_eq_iff|apply Z.compare_lt_iff|apply Z.compare_gt_iff]; lia.
Qed.

Lemma text_cmp_fixed w x y s t :
  0 ≤ x < 10 ^ Z.of_nat w → 0 ≤ y < 10 ^ Z.of_nat w →
  text_cmp (fixed w x ++ s) (fixed w y ++ t) =
    match x ?= y with Eq => text_cmp s t | r => r end.
Proof.
  revert x y s t. induction w as [|w IH]; intros x y s t Hx Hy.
  - cbn in Hx, Hy. by replace x with y by lia; rewrite Z.compare_refl.
  - rewrite Nat2Z.inj_succ, Z.pow_succ_r in Hx, Hy by lia. cbn [fixed]. rewrite <-!app_assoc.
    rewrite IH by (split; [apply Z.div_pos|apply Z.div_lt_upper_bound]; lia).
    rewrite (compare_digits x y). destruct (x / 10 ?= y / 10); [|done..].
    unfold text_cmp. cbn [app list_cmp].
    replace (48 + x mod 10 ?= 48 + y mod 10) with (x mod 10 ?= y mod 10);
      [by destruct (x mod 10 ?= y mod 10)|].
    destruct (Z.compare_spec (x mod 10) (y mod 10)); symmetry;
      first [apply Z.compare_eq_iff|apply Z.compare_lt_iff|apply Z.compare_gt_iff]; lia.
Qed.

Lemma days_before_next_year y :
  days_before_year (y + 1) = days_before_year y + (if is_leap y then 366 else 365).
Proof.
  unfold days_before_year, is_leap. replace (y + 1 - 1) with y by lia.
  destruct (Z.eqb_spec (y mod 4) 0), (Z.eqb_spec (y mod 100) 0), (Z.eqb_spec (y mod 400) 0);
    cbn [andb orb negb]; Z.to_euclidean_division_equations; lia.
Qed.
Lemma days_before_year_mono y y' : y ≤ y' → days_before_year y ≤ days_before_year y'.
Proof. unfold days_before_year. intros. Z.to_euclidean_division_equations; lia. Qed.

Lemma days_before_month_mono y m m' :
  1 ≤ m → m < m' → m' ≤ 12 →
  days_before_month y m + nth (Z.to_nat (m - 1)) (month_lengths y) 0 ≤ days_before_month y m'.
Proof.
  intros H1 H2 H3. unfold days_before_month, month_lengths.
  assert (∀ b : bool, let l := [31; if b then 29 else 28; 31; 30; 31; 30; 31; 31; 30; 31; 30; 31] in
    forallb (λ i, forallb (λ j, Nat.leb j i ||
      (foldr Z.add 0 (take i l) + nth i l 0 <=? foldr Z.add 0 (take j l))) (seq 0 12)) (seq 0 12) = true)
    as H by (intros []; vm_compute; reflexivity).
  specialize (H (is_leap y)). cbv zeta in H. rewrite forallb_forall in H.
  specialize (H (Z.to_nat (m - 1)) ltac:(apply in_seq; lia)). rewrite forallb_forall in H.
  specialize (H (Z.to_nat (m' - 1)) ltac:(apply in_seq; lia)).
  rewrite orb_true_iff, Nat.leb_le, Z.leb_le in H. destruct H; [lia|done].
Qed.
Lemma month_within_year y m :
  1 ≤ m ≤ 12 → days_before_month y m + nth (Z.to_nat (m - 1)) (month_lengths y) 0 ≤
    if is_leap y then 366 else 365.
Proof.
  intros Hm. destruct (decide (m = 12)) as [->|].
  - unfold days_before_month, month_lengths. by destruct (is_leap y).
  - transitivity (days_before_month y 12); [apply days_before_month_mono; lia|].
    unfold days_before_month, month_lengths. by destruct (is_leap y).
Qed.

Lemma ymd2ord_bounds y m d n :
  ymd2ord y m d = Some n → 1 ≤ y ≤ 9999 ∧ 1 ≤ m ≤ 12 ∧ 1 ≤ d ∧
    d ≤ nth (Z.to_nat (m - 1)) (month_lengths y) 0 ∧
    n = days_before_year y + days_before_month y m + (d - 1).
Proof.
  unfold ymd2ord. case_match eqn:E; [|done]. rewrite !andb_true_iff, !Z.leb_le in E.
  intros [= <-]. lia.
Qed.

Lemma days_before_month_nonneg y m : 0 ≤ days_before_month y m.
Proof.
  unfold days_before_month, month_lengths. generalize (Z.to_nat (m - 1)). intros k.
  do 12 (destruct k as [|k]; [cbn; try case_match; lia|]). cbn. destruct k; cbn; case_match; lia.
Qed.

(** Dates compare as year, month and day do. *)
Lemma ymd2ord_compare y m d y' m' d' n n' :
  ymd2ord y m d = Some n → ymd2ord y' m' d' = Some n' →
  (n ?= n') = match y ?= y' with Eq => match m ?= m' with Eq => d ?= d' | r => r end | r => r end.
Proof.
  assert (∀ y m d y' m' d' n n', ymd2ord y m d = Some n → ymd2ord y' m' d' = Some n' → y < y' → n < n')
    as Hyear.
  { clear. intros y m d y' m' d' n n' H H' Hy. apply ymd2ord_bounds in H as (?&?&?&?&->).
    apply ymd2ord_bounds in H' as (?&?&?&?&->). pose proof (month_within_year y m).
    pose proof (days_before_next_year y). pose proof (days_before_year_mono (y + 1) y').
    pose proof (days_before_month_nonneg y' m'). lia. }
  assert (∀ y m d m' d' n n', ymd2ord y m d = Some n → ymd2ord y m' d' = Some n' → m < m' → n < n')
    as Hmonth.
  { clear. intros y m d m' d' n n' H H' Hm. apply ymd2ord_bounds in H as (?&?&?&?&->).
    apply ymd2ord_bounds in H' as (?&?&?&?&->). pose proof (days_before_month_mono y m m'). lia. }
  intros H H'. destruct (Z.compare_spec y y') as [->|Hy|Hy];
    [|apply Z.compare_lt_iff; by eapply Hyear|apply Z.compare_gt_iff; by eapply Hyear].
  destruct (Z.compare_spec m m') as [->|Hm|Hm];
    [|apply Z.compare_lt_iff; by eapply Hmonth|apply Z.compare_gt_iff; by eapply Hmonth].
  apply ymd2ord_bounds in H as (_&_&_&_&->). apply ymd2ord_bounds in H' as (_&_&_&_&->).
  destruct (Z.compare_spec d d');
    first [apply Z.compare_eq_iff|apply Z.compare_lt_iff|apply Z.compare_gt_iff]; lia.
Qed.

End PyIso.
