(* ===== verification/PyText.v ===== *)
(** Text of the standard library the sources lean on: searching and splitting of [str],
    UTF-8, percent-encoding and query strings of [urllib.parse], and the properties of the
    Unicode database that are data rather than code. *)

From S2P Require Import Prelude PyValue.
Local Open Scope Z_scope.

(** * Searching and splitting *)

(** [c in s] *)
Definition mem (c : Z) (s : pystr) : bool := existsb (Z.eqb c) s.

(** [s.partition(c)]: the text before the first [c], and the text after it when there is
    one. *)
Fixpoint partition (c : Z) (s : pystr) : pystr * option pystr :=
  match s with
  | [] => ([], None)
  | d :: s' =>
      if c =? d then ([], Some s')
      else let '(before, after) := partition c s' in (d :: before, after)
  end.
(** [s.rpartition(c)]: the text before the last [c], when there is one, and the text
    after it. *)
Definition rpartition (c : Z) (s : pystr) : option pystr * pystr :=
  let '(after, before) := partition c (reverse s) in (reverse <$> before, reverse after).

(** [s.split(c)] *)
Fixpoint split_on (c : Z) (s : pystr) : list pystr :=
  match s with
  | [] => [[]]
  | d :: s' =>
      if c =? d then [] :: split_on c s'
      else match split_on c s' with
           | piece :: pieces => (d :: piece) :: pieces
           | [] => [[d]]
           end
  end.

(** [s.split()]: the maximal runs of characters that are not whitespace. *)
Fixpoint split_ws (s : pystr) : list pystr :=
  match s with
  | [] => []
  | c :: s' =>
      if is_space c then split_ws s'
      else match s' with
           | d :: _ =>
               if is_space d then [c] :: split_ws s'
               else match split_ws s' with
                    | word :: words => (c :: word) :: words
                    | [] => [[c]]
                    end
           | [] => [[c]]
           end
  end.

(** [s.isascii()], and the ASCII classes of a code point. *)
Definition isascii (s : pystr) : bool := forallb (λ c, c <? 128) s.
Definition is_digit (c : Z) : bool := (48 <=? c) && (c <=? 57).
Definition is_alpha (c : Z) : bool :=
  ((65 <=? c) && (c <=? 90)) || ((97 <=? c) && (c <=? 122)).
Definition is_hex (c : Z) : bool :=
  is_digit c || ((65 <=? c) && (c <=? 70)) || ((97 <=? c) && (c <=? 102)).

(** [int(s)] on a string of ASCII digits. *)
Definition int_of_digits (s : pystr) : Z := foldl (λ n c, 10 * n + (c - 48)) 0 s.

(** Code points of characters: what UTF-8 encodes. *)
Definition is_scalar (c : Z) : bool :=
  ((0 <=? c) && (c <? 55296)) || ((57344 <=? c) && (c <? 1114112)).

(** * Unicode data

    [str.lower], [unicodedata.normalize("NFKC", s)] and [str.isalnum] are tables of the
    Unicode database. The laws state what the tables do on the ASCII range. *)
Class UnicodeData := {
  lower : pystr → pystr;
  nfkc : pystr → pystr;
  isalnum : Z → bool;
}.
Class UnicodeLaws `{UnicodeData} : Prop := {
  lower_ascii s : isascii s = true → lower s = ascii_lower <$> s;
  nfkc_ascii s : isascii s = true → nfkc s = s;
  isalnum_ascii c : 0 <= c < 128 → isalnum c = is_digit c || is_alpha c;
  isalnum_space c : is_space c = true → isalnum c = false;
  isalnum_scalar c : isalnum c = true → is_scalar c = true;
}.

(** A database that knows ASCII only, for evaluating examples. *)
#[export] Instance ascii_data : UnicodeData := {|
  lower s := ascii_lower <$> s;
  nfkc s := s;
  isalnum c := is_digit c || is_alpha c;
|}.

#[export] Instance ascii_laws : @UnicodeLaws ascii_data.
Proof.
  split; try done; intros c; cbn; destruct (is_digit c || is_alpha c) eqn:E; try done.
  all: unfold is_space, is_scalar, is_digit, is_alpha in *;
    rewrite !orb_true_iff, !andb_true_iff, !Z.leb_le in *; rewrite ?Z.eqb_eq, ?Z.ltb_lt; lia.
Qed.

(** * UTF-8 *)

Definition UnicodeEncodeError : exn := AppError "UnicodeEncodeError".

(** Text made of characters only. *)
Definition scalar (s : pystr) : bool := forallb is_scalar s.

Definition utf8_char (c : Z) : list Z :=
  if c <? 128 then [c]
  else if c <? 2048 then [192 + c / 64; 128 + c mod 64]
  else if c <? 65536 then [224 + c / 4096; 128 + (c / 64) mod 64; 128 + c mod 64]
  else [240 + c / 262144; 128 + (c / 4096) mod 64; 128 + (c / 64) mod 64; 128 + c mod 64].

(** [s.encode("utf-8")] *)
Definition utf8_encode (s : pystr) : result exn (list Z) :=
  if scalar s then Ok (s ≫= utf8_char) else Err UnicodeEncodeError.

(** A character under construction: continuation bytes still expected, the value so far,
    and the range of the next byte. *)
Record pending := MkPending { todo : nat; value : Z; low : Z; high : Z }.

(** The first byte of a character: complete, or the state after it, or invalid. *)
Definition utf8_start (b : Z) : option (Z + pending) :=
  if b <? 128 then Some (inl b)
  else if (194 <=? b) && (b <=? 223) then Some (inr (MkPending 1 (b - 192) 128 191))
  else if b =? 224 then Some (inr (MkPending 2 0 160 191))
  else if b =? 237 then Some (inr (MkPending 2 13 128 159))
  else if (225 <=? b) && (b <=? 239) then Some (inr (MkPending 2 (b - 224) 128 191))
  else if b =? 240 then Some (inr (MkPending 3 0 144 191))
  else if (241 <=? b) && (b <=? 243) then Some (inr (MkPending 3 (b - 240) 128 191))
  else if b =? 244 then Some (inr (MkPending 3 4 128 143))
  else None.

Definition REPLACEMENT : Z := 65533.

(** Lenient decoding: every maximal ill-formed part becomes the text [bad]. *)
Fixpoint utf8_decode_from (bad : pystr) (st : option pending) (bs : list Z) : pystr :=
  let fresh b bs' :=
    match utf8_start b with
    | Some (inl c) => c :: utf8_decode_from bad None bs'
    | Some (inr p) => utf8_decode_from bad (Some p) bs'
    | None => bad ++ utf8_decode_from bad None bs'
    end in
  match bs with
  | [] => match st with Some _ => bad | None => [] end
  | b :: bs' =>
      match st with
      | None => fresh b bs'
      | Some (MkPending n v lo hi) =>
          if (lo <=? b) && (b <=? hi) then
            let v := 64 * v + (b - 128) in
            match n with
            | S (S n) => utf8_decode_from bad (Some (MkPending (S n) v 128 191)) bs'
            | _ => v :: utf8_decode_from bad None bs'
            end
          else bad ++ fresh b bs'
      end
  end.
(** [bs.decode("utf-8", "replace")] and [bs.decode("utf-8", "ignore")] *)
Definition utf8_decode : list Z → pystr := utf8_decode_from [REPLACEMENT] None.
Definition utf8_decode_ignore : list Z → pystr := utf8_decode_from [] None.

Definition UnicodeDecodeError : exn := AppError "UnicodeDecodeError".
(** [bs.decode("utf-8")]: the text that encodes to the bytes. Decoding leniently finds it
    when there is one, since no text encodes to ill-formed bytes. *)
Definition utf8_decode_strict (bs : list Z) : result exn pystr :=
  let s := utf8_decode bs in
  if bool_decide (utf8_encode s = Ok bs) then Ok s else Err UnicodeDecodeError.

(** * Percent-encoding *)

(** The characters [quote] never escapes: letters, digits and [_.-~]. *)
Definition always_safe (b : Z) : bool :=
  is_alpha b || is_digit b || (b =? 95) || (b =? 46) || (b =? 45) || (b =? 126).
Definition hex_digit (n : Z) : Z := if n <? 10 then 48 + n else 55 + n.
Definition hex_value (c : Z) : option Z :=
  if is_digit c then Some (c - 48)
  else if (65 <=? c) && (c <=? 70) then Some (c - 55)
  else if (97 <=? c) && (c <=? 102) then Some (c - 87)
  else None.

(** [quote_plus] on one byte: a space becomes a plus sign. *)
Definition quote_byte (b : Z) : pystr :=
  if b =? 32 then [43]
  else if always_safe b then [b]
  else [37; hex_digit (b / 16); hex_digit (b mod 16)].
Definition quote_plus (s : pystr) : result exn pystr :=
  bs ← utf8_encode s; mret (bs ≫= quote_byte).

(** [unquote_to_bytes] on an ASCII string: an escape with two hexadecimal digits is a
    byte, any other percent sign is itself. *)
Fixpoint unquote_to_bytes (s : pystr) : list Z :=
  match s with
  | [] => []
  | c :: s1 =>
      match s1 with
      | a :: b :: s2 =>
          match hex_value a, hex_value b with
          | Some x, Some y =>
              if c =? 37 then (16 * x + y) :: unquote_to_bytes s2
              else c :: unquote_to_bytes s1
          | _, _ => c :: unquote_to_bytes s1
          end
      | _ => c :: unquote_to_bytes s1
      end
  end.

(** [unquote]: each maximal ASCII run is unescaped and decoded by itself. *)
Fixpoint unquote_runs (run s : pystr) : pystr :=
  match s with
  | [] => utf8_decode (unquote_to_bytes run)
  | c :: s =>
      if c <? 128 then unquote_runs (run ++ [c]) s
      else utf8_decode (unquote_to_bytes run) ++ c :: unquote_runs [] s
  end.
Definition unquote (s : pystr) : pystr := unquote_runs [] s.
Definition unquote_plus (s : pystr) : pystr :=
  unquote ((λ c, if c =? 43 then 32 else c) <$> s).

(** * Query strings *)

Definition query_pair (name_value : pystr) : pystr * pystr :=
  let '(name, value) := partition 61 name_value in
  (unquote_plus name, unquote_plus (default [] value)).

(** [parse_qsl(qs, keep_blank_values=True)] *)
Definition parse_qsl (qs : pystr) : list (pystr * pystr) :=
  query_pair <$> filter (λ nv, nv ≠ []) (split_on 38 qs).

Definition encode_pair (kv : pystr * pystr) : result exn pystr :=
  k ← quote_plus kv.1; v ← quote_plus kv.2; mret (k ++ [61] ++ v).

(** [urlencode(params, doseq=True)] on pairs of strings *)
Definition urlencode (params : list (pystr * pystr)) : result exn pystr :=
  pieces ← traverse encode_pair params; mret (join [38] pieces).

Example utf8_example : utf8_encode [233; 8364; 128512] =
  Ok [195; 169; 226; 130; 172; 240; 159; 152; 128].
Proof. reflexivity. Qed.
Example utf8_decode_example :
  utf8_decode [195; 169; 226; 130; 65; 255; 237; 160; 128; 240; 159] =
  [233; 65533; 65; 65533; 65533; 65533; 65533; 65533].
Proof. reflexivity. Qed.
Example unquote_example : unquote_plus (u "a+b%20%E2%82%AC%zz%4") = u "a b " ++ [8364] ++ u "%zz%4".
Proof. reflexivity. Qed.
Example parse_qsl_example :
  parse_qsl (u "a=1&&b=x%3Dy&c") = [(u "a", u "1"); (u "b", u "x=y"); (u "c", [])].
Proof. vm_compute. reflexivity. Qed.

(** * Lemmas *)

Lemma mem_true c s : mem c s = true ↔ c ∈ s.
Proof.
  unfold mem. rewrite existsb_exists. split.
  - intros (x&Hx&->%Z.eqb_eq). by apply list_elem_of_In.
  - intros H. exists c. split; [by apply list_elem_of_In|by apply Z.eqb_refl].
Qed.
Lemma mem_false c s : mem c s = false ↔ c ∉ s.
Proof. rewrite <-mem_true. destruct (mem c s); naive_solver. Qed.

Lemma partition_app c s t : c ∉ s → partition c (s ++ c :: t) = (s, Some t).
Proof.
  induction s as [|d s IH]; intros H; simpl; [by rewrite Z.eqb_refl|].
  destruct (Z.eqb_spec c d) as [->|]; [set_solver|]. rewrite IH by set_solver. done.
Qed.
Lemma partition_none c s : c ∉ s → partition c s = (s, None).
Proof.
  induction s as [|d s IH]; intros H; simpl; [done|].
  destruct (Z.eqb_spec c d) as [->|]; [set_solver|]. rewrite IH by set_solver. done.
Qed.
Lemma partition_spec c s :
  match partition c s with
  | (before, Some after) => s = before ++ c :: after ∧ c ∉ before
  | (before, None) => s = before ∧ c ∉ before
  end.
Proof.
  induction s as [|d s IH]; simpl; [split; [done|apply not_elem_of_nil]|].
  destruct (Z.eqb_spec c d) as [->|]; [split; [done|apply not_elem_of_nil]|].
  destruct (partition c s) as [b [a|] ], IH as [-> ?]; (split; [done|set_solver]).
Qed.

Lemma rpartition_app c s t : c ∉ t → rpartition c (s ++ c :: t) = (Some s, t).
Proof.
  intros H. unfold rpartition. rewrite reverse_app, reverse_cons, <-app_assoc. simpl.
  rewrite partition_app by (by rewrite elem_of_reverse).
  simpl. by rewrite !reverse_involutive.
Qed.
Lemma rpartition_none c s : c ∉ s → rpartition c s = (None, s).
Proof.
  intros H. unfold rpartition. rewrite partition_none by (by rewrite elem_of_reverse).
  by rewrite reverse_involutive.
Qed.

Lemma startswith_iff s p : startswith s p = true ↔ ∃ t, s = p ++ t.
Proof.
  revert s. induction p as [|c p IH]; intros s; destruct s as [|d s]; cbn [startswith app]; [split; eauto..| |].
  - split; [done|]. by intros [t Ht].
  - rewrite andb_true_iff, Z.eqb_eq, IH. split; [by intros [-> [t ->] ]; exists t|].
    intros [t Ht]. injection Ht as -> ->. eauto.
Qed.

Lemma split_on_one c s : c ∉ s → split_on c s = [s].
Proof.
  induction s as [|d s IH]; intros H; simpl; [done|].
  destruct (Z.eqb_spec c d) as [->|]; [set_solver|]. by rewrite IH by set_solver.
Qed.
Lemma split_on_cons c s t : c ∉ s → split_on c (s ++ c :: t) = s :: split_on c t.
Proof.
  induction s as [|d s IH]; intros H; simpl; [by rewrite Z.eqb_refl|].
  destruct (Z.eqb_spec c d) as [->|]; [set_solver|]. by rewrite IH by set_solver.
Qed.
Lemma split_on_nonempty c s : split_on c s ≠ [].
Proof. destruct s as [|d s]; simpl; [done|]. destruct (c =? d), (split_on c s); done. Qed.
Lemma split_on_app c s t : split_on c (s ++ c :: t) = split_on c s ++ split_on c t.
Proof.
  induction s as [|d s IH]; simpl; [by rewrite Z.eqb_refl|].
  destruct (c =? d); rewrite IH; [done|]. pose proof (split_on_nonempty c s).
  by destruct (split_on c s).
Qed.
Lemma split_on_join c ps :
  ps ≠ [] → Forall (λ p, c ∉ p) ps → split_on c (join [c] ps) = ps.
Proof.
  intros Hne. induction 1 as [|p ps Hp Hps IH]; [done|].
  destruct ps as [|q ps]; simpl; [by apply split_on_one|].
  rewrite split_on_cons by done. f_equal. by apply IH.
Qed.
Lemma split_on_pieces c s : Forall (λ p, c ∉ p) (split_on c s).
Proof.
  induction s as [|d s IH]; simpl; [repeat constructor; apply not_elem_of_nil|].
  destruct (Z.eqb_spec c d) as [->|]; [constructor; [apply not_elem_of_nil|done]|].
  destruct (split_on c s); inversion_clear IH; repeat constructor; set_solver.
Qed.
Lemma join_split_on c s : join [c] (split_on c s) = s.
Proof.
  induction s as [|d s IH]; simpl; [done|].
  destruct (Z.eqb_spec c d) as [->|].
  - rewrite <-IH at 2. by destruct (split_on d s) eqn:E; [destruct s; simpl in E; repeat case_match|].
  - destruct (split_on c s) as [|p ps]; [by rewrite <-IH|].
    rewrite <-IH. by destruct ps.
Qed.

Lemma isascii_app s t : isascii (s ++ t) = isascii s && isascii t.
Proof. apply forallb_app. Qed.

(** ** UTF-8 *)

Lemma is_scalar_spec c :
  is_scalar c = true ↔ 0 <= c < 55296 ∨ 57344 <= c < 1114112.
Proof. unfold is_scalar. rewrite orb_true_iff, !andb_true_iff, !Z.leb_le, !Z.ltb_lt. done. Qed.

(** Decide the comparisons of a goal by linear arithmetic. *)
Ltac zbool :=
  repeat match goal with
  | |- context [?a <=? ?b] => destruct (Z.leb_spec a b); try lia
  | |- context [?a <? ?b] => destruct (Z.ltb_spec a b); try lia
  | |- context [?a =? ?b] => destruct (Z.eqb_spec a b); try lia
  end.

Lemma utf8_start_2 q : 2 <= q < 32 → utf8_start (192 + q) = Some (inr (MkPending 1 q 128 191)).
Proof. intros. unfold utf8_start. zbool. simpl. by replace (192 + q - 192) with q by lia. Qed.
Lemma utf8_start_3 q : 0 <= q < 16 →
  utf8_start (224 + q) =
  Some (inr (MkPending 2 q (if q =? 0 then 160 else 128) (if q =? 13 then 159 else 191))).
Proof.
  intros. unfold utf8_start. replace (224 + q - 224) with q by lia.
  zbool; simpl; try lia; repeat f_equal; lia.
Qed.
Lemma utf8_start_4 q : 0 <= q < 5 →
  utf8_start (240 + q) =
  Some (inr (MkPending 3 q (if q =? 0 then 144 else 128) (if q =? 4 then 143 else 191))).
Proof.
  intros. unfold utf8_start. replace (240 + q - 240) with q by lia.
  zbool; simpl; try lia; repeat f_equal; lia.
Qed.

Lemma utf8_decode_start bad b p bs :
  utf8_start b = Some (inr p) →
  utf8_decode_from bad None (b :: bs) = utf8_decode_from bad (Some p) bs.
Proof. intros H. simpl. by rewrite H. Qed.
Lemma utf8_decode_next bad n v lo hi x bs :
  lo <= 128 + x <= hi →
  utf8_decode_from bad (Some (MkPending n v lo hi)) (128 + x :: bs) =
  match n with
  | S (S n) => utf8_decode_from bad (Some (MkPending (S n) (64 * v + x) 128 191)) bs
  | _ => 64 * v + x :: utf8_decode_from bad None bs
  end.
Proof.
  intros H. cbn [utf8_decode_from].
  replace (128 + x - 128) with x by lia.
  by rewrite (proj2 (Z.leb_le _ _)), (proj2 (Z.leb_le _ _)) by lia.
Qed.

(** The decoder reads back one encoded character and goes on. *)
Lemma utf8_decode_char bad c rest :
  is_scalar c = true →
  utf8_decode_from bad None (utf8_char c ++ rest) = c :: utf8_decode_from bad None rest.
Proof.
  intros Hc%is_scalar_spec. unfold utf8_char.
  destruct (Z.ltb_spec c 128).
  { simpl. unfold utf8_start. by rewrite (proj2 (Z.ltb_lt _ _)) by lia. }
  destruct (Z.ltb_spec c 2048); [|destruct (Z.ltb_spec c 65536)]; cbn [app].
  - rewrite (utf8_decode_start _ _ (MkPending 1 (c / 64) 128 191))
      by (apply utf8_start_2; Z.to_euclidean_division_equations; lia).
    rewrite utf8_decode_next by (Z.to_euclidean_division_equations; lia).
    f_equal. Z.to_euclidean_division_equations; lia.
  - erewrite utf8_decode_start
      by (apply utf8_start_3; Z.to_euclidean_division_equations; lia).
    rewrite utf8_decode_next by (zbool; Z.to_euclidean_division_equations; lia).
    rewrite utf8_decode_next by (Z.to_euclidean_division_equations; lia).
    f_equal. Z.to_euclidean_division_equations; lia.
  - erewrite utf8_decode_start
      by (apply utf8_start_4; Z.to_euclidean_division_equations; lia).
    rewrite utf8_decode_next by (zbool; Z.to_euclidean_division_equations; lia).
    rewrite !utf8_decode_next by (Z.to_euclidean_division_equations; lia).
    f_equal. Z.to_euclidean_division_equations; lia.
Qed.

Lemma utf8_decode_from_encode bad s :
  scalar s = true → utf8_decode_from bad None (s ≫= utf8_char) = s.
Proof.
  induction s as [|c s IH]; [done|].
  intros [Hc Hs]%andb_true_iff. rewrite bind_cons, utf8_decode_char by done.
  by rewrite IH.
Qed.
Lemma utf8_decode_encode s : scalar s = true → utf8_decode (s ≫= utf8_char) = s.
Proof. apply utf8_decode_from_encode. Qed.

Lemma utf8_decode_strict_spec bs s :
  utf8_decode_strict bs = Ok s ↔ utf8_encode s = Ok bs.
Proof.
  unfold utf8_decode_strict. split.
  - case_bool_decide; [by intros [= <-]|done].
  - intros He. pose proof He as He'. unfold utf8_encode in He'.
    destruct (scalar s) eqn:Hs; [|done]. injection He' as <-.
    rewrite utf8_decode_encode by done. by rewrite bool_decide_eq_true_2.
Qed.

Lemma utf8_char_bytes c : is_scalar c = true → Forall (λ b, 0 <= b < 256) (utf8_char c).
Proof.
  intros Hc%is_scalar_spec. unfold utf8_char.
  repeat match goal with |- context [?a <? ?b] => destruct (Z.ltb_spec a b) end;
    repeat constructor; Z.to_euclidean_division_equations; lia.
Qed.
Lemma utf8_encode_bytes s bs : utf8_encode s = Ok bs → Forall (λ b, 0 <= b < 256) bs.
Proof.
  unfold utf8_encode. destruct (scalar s) eqn:Hs; [|done]. intros [= <-].
  revert Hs. induction s as [|c s IH]; [constructor|].
  intros [Hc Hs]%andb_true_iff. rewrite bind_cons.
  apply Forall_app. split; [by apply utf8_char_bytes|by apply IH].
Qed.

(** ** Percent-encoding *)

(** The characters of an encoded name or value, and of an encoded query. *)
Definition quoted_char (c : Z) : bool := always_safe c || (c =? 43) || (c =? 37).
Definition query_char (c : Z) : bool := quoted_char c || (c =? 38) || (c =? 61).

Definition bytes_upto (P : Z → bool) : bool := forallb P (seqZ 0 256).
Lemma bytes_upto_spec P b : bytes_upto P = true → 0 <= b < 256 → P b = true.
Proof.
  unfold bytes_upto. rewrite forallb_forall. intros H Hb. apply H.
  apply list_elem_of_In, elem_of_seqZ. lia.
Qed.

Lemma quote_byte_chars b : 0 <= b < 256 → Forall (λ c, quoted_char c = true) (quote_byte b).
Proof.
  intros Hb. apply Forall_forall. intros c Hc.
  assert (forallb quoted_char (quote_byte b) = true) as H.
  { by apply (bytes_upto_spec (λ b, forallb quoted_char (quote_byte b))). }
  rewrite forallb_forall in H. by apply H, list_elem_of_In.
Qed.

Lemma quoted_char_spec c : quoted_char c = true → 0 <= c < 128 ∧ c ∉ [32; 35; 38; 47; 61; 63].
Proof.
  unfold quoted_char, always_safe, is_alpha, is_digit.
  rewrite !orb_true_iff, !andb_true_iff, !Z.leb_le, !Z.eqb_eq. intros H.
  split; [lia|]. rewrite !not_elem_of_cons. split_and!; [lia..|apply not_elem_of_nil].
Qed.

Lemma unquote_to_bytes_char c s :
  c ≠ 37 → unquote_to_bytes (c :: s) = c :: unquote_to_bytes s.
Proof.
  intros Hc%Z.eqb_neq. cbn [unquote_to_bytes]. destruct s as [|a [|b s] ]; [done..|].
  rewrite Hc. by destruct (hex_value a), (hex_value b).
Qed.

Lemma hex_roundtrip n : 0 <= n < 16 → hex_value (hex_digit n) = Some n.
Proof.
  intros. unfold hex_digit, hex_value, is_digit. zbool; cbn; repeat f_equal; lia.
Qed.
Lemma unquote_to_bytes_escape x y s :
  0 <= x < 16 → 0 <= y < 16 →
  unquote_to_bytes (37 :: hex_digit x :: hex_digit y :: s) = 16 * x + y :: unquote_to_bytes s.
Proof.
  intros Hx Hy. cbn [unquote_to_bytes]. by rewrite !hex_roundtrip by done.
Qed.

Definition plus_to_space (c : Z) : Z := if c =? 43 then 32 else c.
Lemma plus_to_space_other c : c ≠ 43 → plus_to_space c = c.
Proof. unfold plus_to_space. by intros ->%Z.eqb_neq. Qed.

Lemma hex_digit_range n : 0 <= n < 16 → 48 <= hex_digit n < 71.
Proof. unfold hex_digit. zbool. Qed.

Lemma unquote_quote_byte b s :
  0 <= b < 256 →
  unquote_to_bytes (plus_to_space <$> quote_byte b ++ s) =
  b :: unquote_to_bytes (plus_to_space <$> s).
Proof.
  intros Hb. unfold quote_byte. destruct (Z.eqb_spec b 32) as [->|].
  { cbn [app]. rewrite fmap_cons. by apply (unquote_to_bytes_char 32). }
  destruct (always_safe b) eqn:Hs; cbn [app]; rewrite ?fmap_cons.
  - assert (b ≠ 37 ∧ b ≠ 43) as [? ?].
    { unfold always_safe, is_alpha, is_digit in Hs.
      rewrite !orb_true_iff, !andb_true_iff, !Z.leb_le, !Z.eqb_eq in Hs. lia. }
    by rewrite plus_to_space_other, unquote_to_bytes_char.
  - assert (0 <= b / 16 < 16 ∧ 0 <= b mod 16 < 16) as [Hx Hy]
      by (Z.to_euclidean_division_equations; lia).
    pose proof (hex_digit_range _ Hx). pose proof (hex_digit_range _ Hy).
    rewrite !plus_to_space_other by lia. rewrite unquote_to_bytes_escape by done.
    f_equal. Z.to_euclidean_division_equations; lia.
Qed.

Lemma unquote_runs_ascii run s :
  isascii s = true → unquote_runs run s = utf8_decode (unquote_to_bytes (run ++ s)).
Proof.
  revert run. induction s as [|c s IH]; intros run; simpl; [by rewrite app_nil_r|].
  intros [-> Hs]%andb_true_iff. by rewrite IH, <-app_assoc by done.
Qed.

Lemma quote_plus_chars s q : quote_plus s = Ok q → Forall (λ c, quoted_char c = true) q.
Proof.
  intros (bs&Hbs&[= <-])%bind_Ok_inv. apply utf8_encode_bytes in Hbs.
  induction Hbs as [|b bs Hb _ IH]; [constructor|].
  rewrite bind_cons. apply Forall_app. split; [by apply quote_byte_chars|done].
Qed.

(** Unquoting undoes quoting, for every text that can be encoded. *)
Lemma unquote_quote_plus s q : quote_plus s = Ok q → unquote_plus q = s.
Proof.
  intros H. pose proof (quote_plus_chars _ _ H) as Hq.
  apply bind_Ok_inv in H as (bs&Hbs&[= <-]). unfold unquote_plus, unquote.
  fold plus_to_space. rewrite unquote_runs_ascii; cycle 1.
  { unfold isascii. apply forallb_forall. intros c Hc%list_elem_of_In.
    apply list_elem_of_fmap in Hc as (d&->&Hd).
    rewrite Forall_forall in Hq. apply Hq, quoted_char_spec in Hd as [? _].
    unfold plus_to_space. destruct (d =? 43); [done|]. apply Z.ltb_lt. lia. }
  simpl. pose proof (utf8_encode_bytes _ _ Hbs) as Hb.
  assert (unquote_to_bytes (plus_to_space <$> (bs ≫= quote_byte)) = bs) as ->.
  { clear -Hb. induction Hb as [|b bs Hb _ IH]; [done|].
    rewrite bind_cons, unquote_quote_byte by done. by rewrite IH. }
  unfold utf8_encode in Hbs. destruct (scalar s) eqn:Hs; [|done]. injection Hbs as <-.
  by apply utf8_decode_encode.
Qed.

(** ** Query strings *)

Lemma quoted_char_not s c :
  Forall (λ c, quoted_char c = true) s → c ∈ [32; 35; 38; 47; 61; 63] → c ∉ s.
Proof.
  rewrite Forall_forall. intros H Hc Hin. by apply (quoted_char_spec c (H c Hin)).
Qed.

Lemma encode_pair_Ok kv p :
  encode_pair kv = Ok p →
  ∃ k v, p = k ++ [61] ++ v ∧ quote_plus kv.1 = Ok k ∧ quote_plus kv.2 = Ok v.
Proof.
  intros (k&Hk&H)%bind_Ok_inv. apply bind_Ok_inv in H as (v&Hv&[= <-]). eauto.
Qed.

Lemma query_pair_encode kv p :
  encode_pair kv = Ok p → query_pair p = kv ∧ p ≠ [] ∧ (38 ∉ p) ∧
    Forall (λ c, query_char c = true) p.
Proof.
  destruct kv as [key val]. intros (k&v&->&Hk&Hv)%encode_pair_Ok. simpl in Hk, Hv.
  pose proof (quote_plus_chars _ _ Hk) as Ck. pose proof (quote_plus_chars _ _ Hv) as Cv.
  split_and!.
  - unfold query_pair. simpl. rewrite partition_app by (eapply quoted_char_not; [done|set_solver]).
    simpl. by rewrite (unquote_quote_plus _ _ Hk), (unquote_quote_plus _ _ Hv).
  - by destruct k.
  - assert (38 ∉ k) by (eapply quoted_char_not; [done|set_solver]).
    assert (38 ∉ v) by (eapply quoted_char_not; [done|set_solver]). set_solver.
  - apply Forall_app. split; [|constructor; [done|] ].
    all: eapply Forall_impl; [done|]; intros c Hc; unfold query_char; by rewrite Hc.
Qed.

(** Parsing an encoded query returns the parameters it was made from, in order. *)
Lemma parse_qsl_urlencode params q :
  urlencode params = Ok q → parse_qsl q = params ∧ Forall (λ c, query_char c = true) q.
Proof.
  intros (ps&Hps%traverse_Ok&[= <-])%bind_Ok_inv.
  assert (query_pair <$> ps = params ∧ Forall (λ p, p ≠ [] ∧ (38 ∉ p) ∧
            Forall (λ c, query_char c = true) p) ps) as [<- Hall].
  { induction Hps as [|kv p params ps Hp _ [IH1 IH2] ]; [done|].
    apply query_pair_encode in Hp as (?&?&?&?).
    csimpl. split; [congruence|]. by constructor. }
  clear Hps. split.
  - unfold parse_qsl. destruct ps as [|p ps]; [done|].
    rewrite split_on_join; [|done|by eapply Forall_impl; [done|]; naive_solver].
    f_equal. apply filter_id. eapply Forall_impl; [done|]. naive_solver.
  - induction Hall as [|p ps (?&?&Hp) _ IH]; [constructor|]. simpl.
    destruct ps as [|p' ps]; [done|]. apply Forall_app. split; [done|]. by constructor.
Qed.

(** ** Numbers *)

Lemma int_of_digits_aux fuel n acc :
  0 <= n < 2 ^ Z.of_nat fuel → (0 < fuel)%nat →
  foldl (λ n c, 10 * n + (c - 48)) 0 (digits_aux fuel n acc) =
    foldl (λ n c, 10 * n + (c - 48)) n acc ∧
  (forallb is_digit acc = true → forallb is_digit (digits_aux fuel n acc) = true) ∧
  digits_aux fuel n acc ≠ [].
Proof.
  revert n acc. induction fuel as [|fuel IH]; intros n acc Hn Hf; [lia|]. cbn [digits_aux].
  assert (is_digit (48 + n mod 10) = true) as Hd.
  { unfold is_digit. rewrite andb_true_iff, !Z.leb_le. Z.to_euclidean_division_equations; lia. }
  destruct (Z.ltb_spec n 10) as [H|H].
  - split_and!; [|by cbn; rewrite Hd|done]. cbn [foldl]. f_equal.
    rewrite Z.mod_small by lia. lia.
  - rewrite Nat2Z.inj_succ, Z.pow_succ_r in Hn by lia.
    destruct (IH (n / 10) ((48 + n mod 10) :: acc)) as (E&Ha&Hne).
    + split; [apply Z.div_pos; lia|apply Z.div_lt_upper_bound; lia].
    + destruct fuel; [simpl in Hn; lia|lia].
    + split_and!; [|intros; apply Ha; by cbn; rewrite Hd|done].
      rewrite E. cbn [foldl]. f_equal. Z.to_euclidean_division_equations; lia.
Qed.

(** The digits of a number read back as the number. *)
Lemma int_of_str_of_int n :
  0 <= n →
  int_of_digits (str_of_int n) = n ∧ forallb is_digit (str_of_int n) = true ∧ str_of_int n ≠ [].
Proof.
  intros Hn. unfold str_of_int, digits. destruct (Z.ltb_spec n 0); [lia|].
  destruct (int_of_digits_aux (S (Z.to_nat (Z.log2 n))) n []) as (?&Hd&?); [|lia|auto].
  split; [lia|]. rewrite Nat2Z.inj_succ, Z2Nat.id by apply Z.log2_nonneg.
  destruct (Z.eq_dec n 0) as [->|]; [done|]. apply Z.log2_spec. lia.
Qed.

Lemma int_of_digits_nonneg s : forallb is_digit s = true → 0 <= int_of_digits s.
Proof.
  unfold int_of_digits. assert (0 <= 0) as H0 by lia. revert H0. generalize 0 at 2 4.
  induction s as [|c s IH]; intros n Hn; simpl; [done|].
  intros [ [?%Z.leb_le _]%andb_true_iff Hs]%andb_true_iff. apply IH; [lia|done].
Qed.
