(* ===== verification/PyCodec.v ===== *)
(** Codecs of the standard library: Base64 ([binascii]), [bytes.hex] and [bytes.fromhex],
    and [int] of a text. Bytes are integers from 0 to 255. *)

From S2P Require Import Prelude PyValue PyText.
Local Open Scope Z_scope.

Definition is_byte (b : Z) : Prop := 0 <= b < 256.

(** * Base64 *)

Definition base64_char (v : Z) : Z :=
  if v <? 26 then 65 + v
  else if v <? 52 then 71 + v
  else if v <? 62 then v - 4
  else if v =? 62 then 43 else 47.
Definition base64_value (c : Z) : option Z :=
  if (65 <=? c) && (c <=? 90) then Some (c - 65)
  else if (97 <=? c) && (c <=? 122) then Some (c - 71)
  else if is_digit c then Some (c + 4)
  else if c =? 43 then Some 62
  else if c =? 47 then Some 63
  else None.

(** [base64.b64encode] *)
Fixpoint b64encode (bs : list Z) : pystr :=
  match bs with
  | [] => []
  | [a] => [base64_char (a / 4); base64_char (a mod 4 * 16); 61; 61]
  | [a; b] =>
      [base64_char (a / 4); base64_char (a mod 4 * 16 + b / 16); base64_char (b mod 16 * 4); 61]
  | a :: b :: c :: bs =>
      base64_char (a / 4) :: base64_char (a mod 4 * 16 + b / 16) ::
      base64_char (b mod 16 * 4 + c / 64) :: base64_char (c mod 64) :: b64encode bs
  end.

(** [binascii.a2b_base64] as a machine: the position in the quad with the bits left over,
    and the padding characters seen since the last data character. In strict mode nothing
    but data followed by padding is accepted; otherwise other characters are skipped and
    what follows complete padding is ignored. *)
Fixpoint a2b (strict : bool) (quad left_bits : Z) (pads : Z) (padding : bool) (s : pystr)
    : option (list Z) :=
  match s with
  | [] => if quad =? 0 then Some [] else None
  | c :: s =>
      if c =? 61 then
        if (2 <=? quad) && (4 <=? quad + (pads + 1)) then
          if strict && str_truthy s then None else Some []
        else a2b strict quad left_bits (if 2 <=? quad then pads + 1 else pads) true s
      else
        match base64_value c with
        | None => if strict then None else a2b strict quad left_bits pads padding s
        | Some v =>
            if strict && padding then None
            else if quad =? 0 then a2b strict 1 v 0 padding s
            else if quad =? 1 then
              rest ← a2b strict 2 (v mod 16) 0 padding s; Some (left_bits * 4 + v / 16 :: rest)
            else if quad =? 2 then
              rest ← a2b strict 3 (v mod 4) 0 padding s; Some (left_bits * 16 + v / 4 :: rest)
            else
              rest ← a2b strict 0 0 0 padding s; Some (left_bits * 64 + v :: rest)
        end
  end.

(** [base64.b64decode(s, validate=strict)] of an ASCII text, [None] for [binascii.Error]. *)
Definition b64decode (strict : bool) (s : pystr) : option (list Z) :=
  match s with
  | 61 :: _ => if strict then None else a2b strict 0 0 0 false s
  | _ => a2b strict 0 0 0 false s
  end.

(** * Hexadecimal *)

Definition lower_hex (n : Z) : Z := if n <? 10 then 48 + n else 87 + n.
(** [bs.hex()] *)
Definition hex_of_bytes (bs : list Z) : pystr := bs ≫= λ b, [lower_hex (b / 16); lower_hex (b mod 16)].

(** [bytes.fromhex(s)]: pairs of digits, with ASCII whitespace between pairs. *)
Definition ascii_space (c : Z) : bool := ((9 <=? c) && (c <=? 13)) || (c =? 32).
Fixpoint bytes_of_hex (s : pystr) : option (list Z) :=
  match s with
  | [] => Some []
  | a :: s1 =>
      if ascii_space a then bytes_of_hex s1
      else match s1 with
           | b :: s2 =>
               match hex_value a, hex_value b with
               | Some x, Some y => rest ← bytes_of_hex s2; Some (16 * x + y :: rest)
               | _, _ => None
               end
           | [] => None
           end
  end.

(** * [int] *)

(** The value of a Unicode decimal digit; the ASCII ones are those of the code. *)
Class DecimalDigits := { decimal : Z → option Z }.
#[export] Instance ascii_digits : DecimalDigits :=
  {| decimal c := if is_digit c then Some (c - 48) else None |}.

(** A text with other characters than ASCII has its spaces and digits made ASCII first. *)
Definition ascii_form `{DecimalDigits} (s : pystr) : pystr :=
  if isascii s then s
  else (λ c, if c <? 127 then c else if is_space c then 32
             else match decimal c with Some d => 48 + d | None => 63 end) <$> s.

Fixpoint drop_ascii_space (s : pystr) : pystr :=
  match s with
  | [] => []
  | c :: s' => if ascii_space c then drop_ascii_space s' else s
  end.
Definition strip_ascii (s : pystr) : pystr :=
  reverse (drop_ascii_space (reverse (drop_ascii_space s))).

(** Digits with single underscores between them. *)
Fixpoint grouped_digits (need : bool) (s : pystr) : option pystr :=
  match s with
  | [] => if need then None else Some []
  | c :: s =>
      if is_digit c then rest ← grouped_digits false s; Some (c :: rest)
      else if (c =? 95) && negb need then grouped_digits true s
      else None
  end.

(** [int(s)], [None] for [ValueError]: also beyond 4300 digits. *)
Definition py_int `{DecimalDigits} (s : pystr) : option Z :=
  let '(negative, body) :=
    match strip_ascii (ascii_form s) with
    | 45 :: body => (true, body)
    | 43 :: body => (false, body)
    | body => (false, body)
    end in
  digits ← grouped_digits true body;
  if (4300 <? length digits)%nat then None
  else Some (if negative then - int_of_digits digits else int_of_digits digits).

(** * Round trips *)

Lemma below_spec n P v : forallb P (seqZ 0 n) = true → 0 <= v < n → P v = true.
Proof. rewrite forallb_forall. intros H Hv. apply H, list_elem_of_In, elem_of_seqZ. lia. Qed.

Lemma base64_roundtrip v :
  0 <= v < 64 →
  base64_value (base64_char v) = Some v ∧ base64_char v ≠ 61 ∧ (base64_char v <? 128) = true.
Proof.
  intros Hv. pose proof (below_spec 64
    (λ v, bool_decide (base64_value (base64_char v) = Some v) && negb (base64_char v =? 61) &&
          (base64_char v <? 128)) v) as H.
  destruct (andb_prop _ _ (H eq_refl Hv)) as [ [?%bool_decide_eq_true Hn]%andb_prop ?].
  split_and!; [done| |done]. apply negb_true_iff in Hn. by apply Z.eqb_neq.
Qed.

Lemma a2b_char strict quad left_bits pads v s :
  0 <= v < 64 →
  a2b strict quad left_bits pads false (base64_char v :: s) =
  if quad =? 0 then a2b strict 1 v 0 false s
  else if quad =? 1 then
    rest ← a2b strict 2 (v mod 16) 0 false s; Some (left_bits * 4 + v / 16 :: rest)
  else if quad =? 2 then
    rest ← a2b strict 3 (v mod 4) 0 false s; Some (left_bits * 16 + v / 4 :: rest)
  else
    rest ← a2b strict 0 0 0 false s; Some (left_bits * 64 + v :: rest).
Proof.
  intros Hv. destruct (base64_roundtrip v Hv) as (Hval&Hne%Z.eqb_neq&_).
  cbn [a2b]. by rewrite Hne, Hval, andb_false_r.
Qed.

Lemma a2b_pad2 strict left_bits : a2b strict 2 left_bits 0 false [61; 61] = Some [].
Proof. by destruct strict. Qed.
Lemma a2b_pad1 strict left_bits : a2b strict 3 left_bits 0 false [61] = Some [].
Proof. by destruct strict. Qed.

(** Decoding undoes encoding, in both modes. *)
Lemma a2b_b64encode strict bs :
  Forall is_byte bs → a2b strict 0 0 0 false (b64encode bs) = Some bs.
Proof.
  assert (∀ n bs, (length bs <= n)%nat → Forall is_byte bs →
            a2b strict 0 0 0 false (b64encode bs) = Some bs) as H; [|by eapply H].
  clear bs. induction n as [|n IH]; intros bs Hn Hb; [by destruct bs; [|simpl in Hn; lia]|].
  unfold is_byte in Hb. destruct bs as [|a [|b [|c bs] ] ]; cbn [b64encode]; [done|..].
  - apply Forall_cons in Hb as [Ha _].
    rewrite !a2b_char by (Z.to_euclidean_division_equations; lia).
    cbv beta iota. change (0 =? 0) with true. change (1 =? 0) with false.
    change (1 =? 1) with true. cbv iota. rewrite a2b_pad2. cbn [mbind option_bind].
    f_equal. f_equal. Z.to_euclidean_division_equations; lia.
  - apply Forall_cons in Hb as [Ha [Hb _]%Forall_cons].
    rewrite !a2b_char by (Z.to_euclidean_division_equations; lia).
    change (0 =? 0) with true. change (1 =? 0) with false. change (1 =? 1) with true.
    change (2 =? 0) with false. change (2 =? 1) with false. change (2 =? 2) with true.
    cbv iota. rewrite a2b_pad1. cbn [mbind option_bind].
    f_equal. f_equal; [|f_equal]; Z.to_euclidean_division_equations; lia.
  - apply Forall_cons in Hb as [Ha [Hb [Hc Hbs]%Forall_cons]%Forall_cons].
    rewrite !a2b_char by (Z.to_euclidean_division_equations; lia).
    change (0 =? 0) with true. change (1 =? 0) with false. change (1 =? 1) with true.
    change (2 =? 0) with false. change (2 =? 1) with false. change (2 =? 2) with true.
    change (3 =? 0) with false. change (3 =? 1) with false. change (3 =? 2) with false.
    cbv iota. rewrite IH by (done || simpl in Hn; lia). cbn [mbind option_bind].
    f_equal. f_equal; [|f_equal; [|f_equal] ]; Z.to_euclidean_division_equations; lia.
Qed.

Lemma b64decode_encode strict bs : Forall is_byte bs → b64decode strict (b64encode bs) = Some bs.
Proof.
  intros Hb. pose proof (a2b_b64encode strict bs Hb) as Ha. unfold b64decode.
  destruct (b64encode bs) as [|c s] eqn:E; [done|].
  assert (c ≠ 61) as Hc.
  { destruct bs as [|a [|b [|d bs] ] ]; [done|..]; cbn [b64encode] in E;
      apply Forall_cons in Hb as [Hr _]; unfold is_byte in Hr; injection E as <- _;
      apply base64_roundtrip; Z.to_euclidean_division_equations; lia. }
  destruct c as [|c|c]; try done. repeat (destruct c as [c|c|]; try done).
Qed.

Lemma b64encode_ascii bs : Forall is_byte bs → isascii (b64encode bs) = true.
Proof.
  assert (∀ v, 0 <= v < 64 → (base64_char v <? 128) = true) as Hc by apply base64_roundtrip.
  assert (∀ n bs, (length bs <= n)%nat → Forall is_byte bs → isascii (b64encode bs) = true) as H;
    [|by eapply H].
  clear bs. induction n as [|n IH]; intros bs Hn Hb; [by destruct bs; [|simpl in Hn; lia]|].
  unfold is_byte in Hb. destruct bs as [|a [|b [|c bs] ] ]; cbn [b64encode isascii forallb]; [done|..].
  - apply Forall_cons in Hb as [Ha _].
    rewrite !Hc by (Z.to_euclidean_division_equations; lia). done.
  - apply Forall_cons in Hb as [Ha [Hb _]%Forall_cons].
    rewrite !Hc by (Z.to_euclidean_division_equations; lia). done.
  - apply Forall_cons in Hb as [Ha [Hb [Hc' Hbs]%Forall_cons]%Forall_cons].
    rewrite !Hc by (Z.to_euclidean_division_equations; lia). cbn [andb].
    apply IH; [simpl in Hn; lia|done].
Qed.

Lemma lower_hex_roundtrip n :
  0 <= n < 16 → hex_value (lower_hex n) = Some n ∧ ascii_space (lower_hex n) = false.
Proof.
  intros Hn. pose proof (below_spec 16
    (λ n, bool_decide (hex_value (lower_hex n) = Some n) && negb (ascii_space (lower_hex n))) n) as H.
  by destruct (andb_prop _ _ (H eq_refl Hn)) as [?%bool_decide_eq_true ?%negb_true_iff].
Qed.
Lemma bytes_of_hex_of_bytes bs : Forall is_byte bs → bytes_of_hex (hex_of_bytes bs) = Some bs.
Proof.
  induction 1 as [|b bs Hb _ IH]; [done|]. unfold is_byte in Hb. unfold hex_of_bytes in *.
  rewrite bind_cons. cbn [app bytes_of_hex].
  destruct (lower_hex_roundtrip (b / 16)) as [-> ->]; [Z.to_euclidean_division_equations; lia|].
  destruct (lower_hex_roundtrip (b mod 16)) as [-> _]; [Z.to_euclidean_division_equations; lia|].
  rewrite IH. cbn. f_equal. f_equal. Z.to_euclidean_division_equations; lia.
Qed.

Lemma grouped_digits_digits need s :
  forallb is_digit s = true → (need = true → s ≠ []) → grouped_digits need s = Some s.
Proof.
  revert need. induction s as [|c s IH]; intros need Hs Hne; cbn [grouped_digits].
  - destruct need; [by destruct Hne|done].
  - apply andb_true_iff in Hs as [-> Hs]. by rewrite IH.
Qed.

(** Reading back the decimal digits of a number. *)
Lemma py_int_str_of_int `{DecimalDigits} n :
  0 <= n → (length (str_of_int n) <= 4300)%nat → py_int (str_of_int n) = Some n.
Proof.
  intros Hn Hlen. destruct (int_of_str_of_int n Hn) as (Hv&Hd&Hne).
  set (s := str_of_int n) in *. clearbody s.
  assert (∀ c, c ∈ s → 48 <= c <= 57) as Hc.
  { intros c Hc%list_elem_of_In. rewrite forallb_forall in Hd. apply Hd in Hc.
    apply andb_true_iff in Hc as [?%Z.leb_le ?%Z.leb_le]. lia. }
  assert (∀ t, (∀ c, c ∈ t → 48 <= c <= 57) → drop_ascii_space t = t) as Hdrop.
  { intros [|c t] Ht; [done|]. cbn [drop_ascii_space]. pose proof (Ht c (list_elem_of_here _ _)).
    assert (ascii_space c = false) as ->; [|done]. unfold ascii_space.
    destruct (Z.leb_spec 9 c), (Z.leb_spec c 13), (Z.eqb_spec c 32); cbn; try done; lia. }
  unfold py_int, ascii_form, strip_ascii.
  assert (isascii s = true) as ->.
  { apply forallb_forall. intros c Hin%list_elem_of_In%Hc. apply Z.ltb_lt. lia. }
  rewrite (Hdrop s Hc), Hdrop, reverse_involutive
    by (intros c; rewrite elem_of_reverse; apply Hc).
  destruct s as [|c s]; [done|]. pose proof (Hc c (list_elem_of_here _ _)) as Hr.
  assert (match c :: s with
          | 45 :: body => (true, body) | 43 :: body => (false, body)
          | body => (false, body) end = (false, c :: s)) as ->.
  { destruct c as [|c|c]; try lia. repeat (destruct c as [c|c|]; try done; try lia). }
  rewrite grouped_digits_digits by done. cbn [mbind option_bind].
  destruct (Nat.ltb_spec 4300 (length (c :: s))); [lia|]. by rewrite Hv.
Qed.

Example b64_example : b64encode (u "light w") = u "bGlnaHQgdw==".
Proof. reflexivity. Qed.
Example b64_strict_example :
  b64decode true (u "QUJD=") = Some (u "ABC") ∧ b64decode true (u "QQ=") = None ∧
  b64decode false (u "Q Q-==x") = Some (u "A").
Proof. vm_compute. done. Qed.
Example py_int_example :
  py_int (u " +1_000 ") = Some 1000 ∧ py_int (u "1__0") = None ∧ py_int (u "_1") = None ∧
  py_int (u "-07") = Some (-7).
Proof. vm_compute. done. Qed.
