(* ===== verification/PyJson.v ===== *)
(** [json.dumps] (compact, ASCII) and [json.loads] of CPython 3.12, and their round trip. *)

From Stdlib Require Import SpecFloat.
From S2P Require Import Prelude PyValue PyText PyCodec.
Local Open Scope Z_scope.

(** [float.__repr__] and [float] of a number's text. *)
Class FloatText := { float_repr : pyfloat → pystr; float_of_text : pystr → pyfloat }.

(** * Writing *)

Definition hex4 (n : Z) : pystr :=
  lower_hex <$> [n / 4096 mod 16; n / 256 mod 16; n / 16 mod 16; n mod 16].

(** One character of a text, with [ensure_ascii]. *)
Definition escape_char (c : Z) : pystr :=
  if c =? 34 then [92; 34]
  else if c =? 92 then [92; 92]
  else if c =? 10 then [92; 110]
  else if c =? 13 then [92; 114]
  else if c =? 9 then [92; 116]
  else if c =? 12 then [92; 102]
  else if c =? 8 then [92; 98]
  else if (32 <=? c) && (c <=? 126) then [c]
  else if c <? 65536 then [92; 117] ++ hex4 c
  else let n := c - 65536 in
       [92; 117] ++ hex4 (55296 + n / 1024) ++ [92; 117] ++ hex4 (56320 + n mod 1024).
Definition dumps_str (s : pystr) : pystr := [34] ++ (s ≫= escape_char) ++ [34].

Definition dumps_float `{FloatText} (f : pyfloat) : pystr :=
  match f with
  | S754_nan => u "NaN"
  | S754_infinity true => u "-Infinity"
  | S754_infinity false => u "Infinity"
  | f => float_repr f
  end.

(** [json.dumps(v, separators=(",", ":"))] *)
Fixpoint dumps `{FloatText} (v : JSONValue) : pystr :=
  match v with
  | JNull => u "null"
  | JBool true => u "true"
  | JBool false => u "false"
  | JInt n => str_of_int n
  | JFloat f => dumps_float f
  | JStr s => dumps_str s
  | JList l => [91] ++ join [44] (map dumps l) ++ [93]
  | JDict d =>
      [123] ++ join [44] (map (λ kv, dumps_str kv.1 ++ [58] ++ dumps kv.2) d) ++ [125]
  end.

(** [json.dumps(v, sort_keys=True)] writes the members of every object by key. *)
Definition key_cmp : pystr * JSONValue → pystr * JSONValue → comparison := cmp_on fst text_cmp.
Fixpoint sort_keys (v : JSONValue) : JSONValue :=
  match v with
  | JList l => JList (map sort_keys l)
  | JDict d => JDict (sort_by key_cmp (map (λ kv, (kv.1, sort_keys kv.2)) d))
  | v => v
  end.

(** * Reading *)

Definition JSONDecodeError : exn := AppError "JSONDecodeError".
Definition too_many_digits : exn :=
  ValueError "Exceeds the limit (4300 digits) for integer string conversion".

Fixpoint skip_ws (s : pystr) : pystr :=
  match s with
  | c :: s' => if (c =? 32) || (c =? 9) || (c =? 10) || (c =? 13) then skip_ws s' else s
  | [] => []
  end.

Definition hex4_value (a b c d : Z) : option Z :=
  w ← hex_value a; x ← hex_value b; y ← hex_value c; z ← hex_value d;
  Some (((w * 16 + x) * 16 + y) * 16 + z).

Definition simple_escape (c : Z) : option Z :=
  if (c =? 34) || (c =? 92) || (c =? 47) then Some c
  else if c =? 98 then Some 8
  else if c =? 102 then Some 12
  else if c =? 110 then Some 10
  else if c =? 114 then Some 13
  else if c =? 116 then Some 9
  else None.

(** The rest of a text after its opening quote, and what follows it. An escaped high
    surrogate joins an escaped low one right after it. *)
Fixpoint scan_string (s : pystr) : option (pystr * pystr) :=
  match s with
  | [] => None
  | c :: s1 =>
      if c =? 34 then Some ([], s1)
      else if c =? 92 then
        match s1 with
        | [] => None
        | e :: s2 =>
            if e =? 117 then
              match s2 with
              | a :: b :: c :: d :: s3 =>
                  hi ← hex4_value a b c d;
                  let alone := '(t, rest) ← scan_string s3; Some (hi :: t, rest) in
                  if (55296 <=? hi) && (hi <=? 56319) then
                    match s3 with
                    | x :: y :: a' :: b' :: c' :: d' :: s4 =>
                        match (if (x =? 92) && (y =? 117) then hex4_value a' b' c' d' else None) with
                        | Some lo =>
                            if (56320 <=? lo) && (lo <=? 57343) then
                              '(t, rest) ← scan_string s4;
                              Some (65536 + (hi - 55296) * 1024 + (lo - 56320) :: t, rest)
                            else alone
                        | None => alone
                        end
                    | _ => alone
                    end
                  else alone
              | _ => None
              end
            else
              x ← simple_escape e; '(t, rest) ← scan_string s2; Some (x :: t, rest)
        end
      else if c <? 32 then None
      else '(t, rest) ← scan_string s1; Some (c :: t, rest)
  end.

(** The digits at the start of a text. *)
Fixpoint span_digits (s : pystr) : pystr * pystr :=
  match s with
  | c :: s' => if is_digit c then let '(d, r) := span_digits s' in (c :: d, r) else ([], s)
  | [] => ([], [])
  end.

(** A number: an optional minus sign, [0] or digits that do not start with [0], then an
    optional fraction and an optional exponent, both with digits. *)
Definition scan_fraction (s : pystr) : pystr * pystr :=
  match s with
  | c :: s' =>
      if c =? 46 then
        match span_digits s' with ([], _) => ([], s) | (d, r) => (46 :: d, r) end
      else ([], s)
  | [] => ([], [])
  end.
Definition scan_exponent (s : pystr) : pystr * pystr :=
  match s with
  | e :: s' =>
      if (e =? 101) || (e =? 69) then
        let '(sign, s2) :=
          match s' with
          | c :: s2 => if (c =? 43) || (c =? 45) then ([c], s2) else ([], s')
          | [] => ([], [])
          end in
        match span_digits s2 with ([], _) => ([], s) | (d, r) => (e :: sign ++ d, r) end
      else ([], s)
  | [] => ([], [])
  end.

Definition int_part (s : pystr) : option (pystr * pystr) :=
  match s with
  | c :: s' =>
      if c =? 48 then Some ([48], s')
      else if is_digit c then Some (span_digits s) else None
  | [] => None
  end.

(** More than 4300 digits raise [ValueError]. *)
Definition number_value `{FloatText} (negative : bool) (digits extra : pystr) : result exn JSONValue :=
  match extra with
  | [] =>
      if (4300 <? length digits)%nat
      then Err too_many_digits
      else Ok (JInt (if negative then - int_of_digits digits else int_of_digits digits))
  | _ => Ok (JFloat (float_of_text ((if negative then [45] else []) ++ digits ++ extra)))
  end.
Definition scan_number `{FloatText} (s : pystr) : result exn (JSONValue * pystr) :=
  let '(negative, body) :=
    match s with
    | c :: s' => if c =? 45 then (true, s') else (false, s)
    | [] => (false, [])
    end in
  match int_part body with
  | None => Err JSONDecodeError
  | Some (digits, r) =>
      let '(frac, r) := scan_fraction r in
      let '(exponent, r) := scan_exponent r in
      v ← number_value negative digits (frac ++ exponent); mret (v, r)
  end.

(** [s] after a literal it starts with. *)
Definition after (p s : pystr) : option pystr := if startswith s p then Some (drop (length p) s) else None.

(** [dict(pairs)]: a key keeps its first place and its last value. *)
Fixpoint dict_set {A} (k : pystr) (v : A) (d : list (pystr * A)) : list (pystr * A) :=
  match d with
  | [] => [(k, v)]
  | (k', v') :: d => if bool_decide (k = k') then (k, v) :: d else (k', v') :: dict_set k v d
  end.
Definition dict_of {A} (pairs : list (pystr * A)) : list (pystr * A) :=
  foldl (λ d kv, dict_set kv.1 kv.2 d) [] pairs.

Definition literals : list (pystr * JSONValue) :=
  [(u "null", JNull); (u "true", JBool true); (u "false", JBool false); (u "NaN", JFloat S754_nan);
   (u "Infinity", JFloat (S754_infinity false)); (u "-Infinity", JFloat (S754_infinity true))].

(** The text after its first character, when that is [c]. *)
Definition peek (c : Z) (s : pystr) : option pystr :=
  match s with d :: s => if c =? d then Some s else None | [] => None end.
Definition expect (c : Z) (s : pystr) : result exn pystr :=
  match peek c s with Some s => Ok s | None => Err JSONDecodeError end.

(** A value, the elements of an array and the members of an object; every call consumes
    fuel, and the length of the text is enough. *)
Fixpoint scan_value `{FloatText} (fuel : nat) (s : pystr) : result exn (JSONValue * pystr) :=
  match fuel with
  | O => Err JSONDecodeError
  | S fuel =>
      match s with
      | [] => Err JSONDecodeError
      | c :: s1 =>
          if c =? 34 then
            match scan_string s1 with Some (t, r) => Ok (JStr t, r) | None => Err JSONDecodeError end
          else if c =? 91 then
            match peek 93 (skip_ws s1) with
            | Some r => Ok (JList [], r)
            | None => '(l, r) ← scan_elements fuel (skip_ws s1); mret (JList l, r)
            end
          else if c =? 123 then
            match peek 125 (skip_ws s1) with
            | Some r => Ok (JDict [], r)
            | None => '(d, r) ← scan_members fuel (skip_ws s1); mret (JDict (dict_of d), r)
            end
          else
            match list_find (λ lit, startswith s lit.1 = true) literals with
            | Some (_, (lit, v)) => Ok (v, drop (length lit) s)
            | None => scan_number s
            end
      end
  end
with scan_elements `{FloatText} (fuel : nat) (s : pystr) : result exn (list JSONValue * pystr) :=
  match fuel with
  | O => Err JSONDecodeError
  | S fuel =>
      '(v, r) ← scan_value fuel s;
      match peek 93 (skip_ws r) with
      | Some r => Ok ([v], r)
      | None =>
          r ← expect 44 (skip_ws r);
          '(l, r) ← scan_elements fuel (skip_ws r); mret (v :: l, r)
      end
  end
with scan_members `{FloatText} (fuel : nat) (s : pystr)
    : result exn (list (pystr * JSONValue) * pystr) :=
  match fuel with
  | O => Err JSONDecodeError
  | S fuel =>
      s1 ← expect 34 s;
      match scan_string s1 with
      | None => Err JSONDecodeError
      | Some (k, r) =>
          r ← expect 58 (skip_ws r);
          '(v, r) ← scan_value fuel (skip_ws r);
          match peek 125 (skip_ws r) with
          | Some r => Ok ([(k, v)], r)
          | None =>
              r ← expect 44 (skip_ws r);
              '(d, r) ← scan_members fuel (skip_ws r); mret ((k, v) :: d, r)
          end
      end
  end.

(** [json.loads] of a text. *)
Definition loads `{FloatText} (s : pystr) : result exn JSONValue :=
  if startswith s [65279] then Err JSONDecodeError
  else
    '(v, r) ← scan_value (S (length s)) (skip_ws s);
    match skip_ws r with [] => Ok v | _ => Err JSONDecodeError end.

(** * Round trip

    [loads] reads back what [dumps] wrote, for every value without a finite float whose
    texts are of Unicode scalar values, whose keys do not repeat and whose integers are
    below the interpreter's limit of digits. *)

Fixpoint writable (v : JSONValue) : Prop :=
  match v with
  | JInt n => (length (digits (Z.abs n)) <= 4300)%nat
  | JFloat f => isfinite f = false
  | JStr s => scalar s = true
  | JList l => foldr (λ v P, writable v ∧ P) True l
  | JDict d => NoDup d.*1 ∧ foldr (λ kv P, (scalar kv.1 = true ∧ writable kv.2) ∧ P) True d
  | JNull | JBool _ => True
  end.

Lemma json_induction (P : JSONValue → Prop) :
  P JNull → (∀ b, P (JBool b)) → (∀ n, P (JInt n)) → (∀ f, P (JFloat f)) → (∀ s, P (JStr s)) →
  (∀ l, Forall P l → P (JList l)) → (∀ d, Forall (λ kv, P kv.2) d → P (JDict d)) → ∀ v, P v.
Proof.
  intros Hn Hb Hi Hf Hs Hl Hd. fix go 1. intros [|b|n|f|s|l|d];
    [apply Hn|apply Hb|apply Hi|apply Hf|apply Hs|apply Hl|apply Hd].
  - induction l; constructor; [apply go|done].
  - induction d as [|[k v] d IH]; constructor; [apply go|apply IH].
Qed.

(** ** Texts *)

Lemma hex4_roundtrip n :
  0 <= n < 65536 →
  ∃ a b c d, hex4 n = [a; b; c; d] ∧ hex4_value a b c d = Some n.
Proof.
  intros Hn. unfold hex4, hex4_value. do 4 eexists. split; [reflexivity|].
  repeat (match goal with |- context [hex_value (lower_hex ?x)] =>
    destruct (lower_hex_roundtrip x) as [-> _]; [apply Z.mod_pos_bound; lia|] end; cbn [mbind option_bind]).
  f_equal. Z.to_euclidean_division_equations. lia.
Qed.

Definition prepend (c : Z) (o : option (pystr * pystr)) : option (pystr * pystr) :=
  '(t, r) ← o; Some (c :: t, r).

Lemma scan_escape c s :
  is_scalar c = true → scan_string (escape_char c ++ s) = prepend c (scan_string s).
Proof.
  intros Hc%is_scalar_spec. unfold escape_char.
  destruct (Z.eqb_spec c 34) as [->|]; [reflexivity|].
  destruct (Z.eqb_spec c 92) as [->|]; [reflexivity|].
  destruct (Z.eqb_spec c 10) as [->|]; [reflexivity|].
  destruct (Z.eqb_spec c 13) as [->|]; [reflexivity|].
  destruct (Z.eqb_spec c 9) as [->|]; [reflexivity|].
  destruct (Z.eqb_spec c 12) as [->|]; [reflexivity|].
  destruct (Z.eqb_spec c 8) as [->|]; [reflexivity|].
  destruct (Z.leb_spec 32 c), (Z.leb_spec c 126); cbn [andb].
  { cbn [app scan_string]. rewrite (proj2 (Z.eqb_neq c 34)), (proj2 (Z.eqb_neq c 92)) by done.
    by rewrite (proj2 (Z.ltb_ge c 32)) by lia. }
  all: destruct (Z.ltb_spec c 65536); try lia.
  all: try (destruct (hex4_roundtrip c) as (x&y&z&w&->&Hx); [lia|]; cbn; rewrite Hx; cbn;
    destruct (Z.leb_spec 55296 c), (Z.leb_spec c 56319); cbn; try done; lia).
  destruct (hex4_roundtrip (55296 + (c - 65536) / 1024)) as (x&y&z&w&->&Hx);
    [Z.to_euclidean_division_equations; lia|].
  destruct (hex4_roundtrip (56320 + (c - 65536) mod 1024)) as (x'&y'&z'&w'&->&Hx');
    [Z.to_euclidean_division_equations; lia|].
  cbn. rewrite Hx, Hx'. cbn.
  rewrite (proj2 (Z.leb_le 55296 _)) by (Z.to_euclidean_division_equations; lia).
  rewrite (proj2 (Z.leb_le _ 56319)) by (Z.to_euclidean_division_equations; lia).
  rewrite (proj2 (Z.leb_le 56320 _)) by (Z.to_euclidean_division_equations; lia).
  rewrite (proj2 (Z.leb_le _ 57343)) by (Z.to_euclidean_division_equations; lia).
  destruct (scan_string s) as [ [t r]|]; [|done]. cbn. do 3 f_equal.
  Z.to_euclidean_division_equations; lia.
Qed.

Lemma scan_dumps_str s r :
  scalar s = true → scan_string ((s ≫= escape_char) ++ 34 :: r) = Some (s, r).
Proof.
  induction s as [|c s IH]; [done|]. intros [Hc Hs]%andb_true_iff.
  rewrite bind_cons, <-app_assoc, scan_escape, IH by done. done.
Qed.
(** ** Numbers *)

(** What may follow a value in a compact text. *)
Definition stops (s : pystr) : bool :=
  match s with [] => true | c :: _ => (c =? 44) || (c =? 93) || (c =? 125) end.

Lemma stops_cases s :
  stops s = true → s = [] ∨ ∃ c t, s = c :: t ∧ (c = 44 ∨ c = 93 ∨ c = 125).
Proof.
  destruct s as [|c t]; [by left|]. intros [ [?%Z.eqb_eq|?%Z.eqb_eq]%orb_true_iff|?%Z.eqb_eq]%orb_true_iff;
    right; eauto 6.
Qed.
Ltac case_stops H := destruct (stops_cases _ H) as [->|(?&?&->&[->|[->| ->]])].

Lemma skip_ws_stops s : stops s = true → skip_ws s = s.
Proof. intros H. by case_stops H. Qed.

Lemma span_digits_app d r :
  forallb is_digit d = true → stops r = true → span_digits (d ++ r) = (d, r).
Proof.
  intros Hd Hr. induction d as [|c d IH]; simpl.
  - by case_stops Hr.
  - apply andb_true_iff in Hd as [-> Hd]. by rewrite IH.
Qed.

(** The digits of a number other than zero do not start with [0]. *)
Lemma digits_aux_head fuel n acc :
  0 < n < 2 ^ Z.of_nat fuel → ∃ c t, digits_aux fuel n acc = c :: t ∧ c ≠ 48.
Proof.
  revert n acc. induction fuel as [|fuel IH]; intros n acc Hn; [lia|]. cbn [digits_aux].
  destruct (Z.ltb_spec n 10).
  - rewrite Z.mod_small by lia. do 2 eexists. split; [done|lia].
  - apply IH. rewrite Nat2Z.inj_succ, Z.pow_succ_r in Hn by lia.
    Z.to_euclidean_division_equations; lia.
Qed.

Lemma int_part_digits n r :
  0 <= n → stops r = true → int_part (digits n ++ r) = Some (digits n, r).
Proof.
  intros Hn Hr. destruct (int_of_str_of_int n Hn) as (_&Hd&_).
  unfold str_of_int in Hd. destruct (Z.ltb_spec n 0); [lia|].
  destruct (Z.eq_dec n 0) as [->|Hne]; [done|].
  destruct (digits_aux_head (S (Z.to_nat (Z.log2 n))) n []) as (c&t&Ht&Hc).
  { split; [lia|]. rewrite Nat2Z.inj_succ, Z2Nat.id by apply Z.log2_nonneg.
    apply Z.log2_spec. lia. }
  fold (digits n) in Ht. rewrite Ht in *. cbn [app int_part].
  rewrite (proj2 (Z.eqb_neq c 48)) by done. pose proof Hd as [-> _]%andb_true_iff.
  by rewrite app_comm_cons, span_digits_app.
Qed.

(** Evaluate a literal of the goal. *)
Ltac eval_literal :=
  match goal with |- context [u ?x] => let y := eval vm_compute in (u x) in change (u x) with y end.

Section numbers.
Context `{FloatText}.

Lemma number_value_int negative n :
  0 <= n → (length (digits n) <= 4300)%nat →
  number_value negative (digits n) [] = Ok (JInt (if negative then - n else n)).
Proof.
  intros Hn Hl. unfold number_value. destruct (Nat.ltb_spec 4300 (length (digits n))); [lia|].
  destruct (int_of_str_of_int n Hn) as (Hv&_). unfold str_of_int in Hv.
  destruct (Z.ltb_spec n 0); [lia|]. by rewrite Hv.
Qed.

Lemma digits_cons n : 0 <= n → ∃ c t, digits n = c :: t ∧ is_digit c = true.
Proof.
  intros Hn. destruct (int_of_str_of_int n Hn) as (_&Hd&Hne).
  unfold str_of_int in *. destruct (Z.ltb_spec n 0); [lia|].
  destruct (digits n) as [|c t]; [done|]. apply andb_true_iff in Hd as [? _]. eauto.
Qed.
Lemma is_digit_spec c : is_digit c = true → 48 <= c <= 57.
Proof. unfold is_digit. rewrite andb_true_iff, !Z.leb_le. done. Qed.

Lemma scan_number_int n r :
  (length (digits (Z.abs n)) <= 4300)%nat → stops r = true →
  scan_number (str_of_int n ++ r) = Ok (JInt n, r).
Proof.
  intros Hl Hr. unfold scan_number, str_of_int.
  assert (scan_fraction r = ([], r) ∧ scan_exponent r = ([], r)) as [Hf He].
  { by case_stops Hr. }
  destruct (Z.ltb_spec n 0).
  - cbn [app Z.eqb Pos.eqb]. rewrite int_part_digits, Hf, He by (done || lia). cbn [app].
    rewrite number_value_int by (lia || by replace (- n) with (Z.abs n) by lia).
    cbn. by rewrite Z.opp_involutive.
  - destruct (digits_cons n) as (c&t&Hc&Hd%is_digit_spec); [lia|].
    pose proof (int_part_digits n r ltac:(lia) Hr) as Hi.
    pose proof (number_value_int false n ltac:(lia) ltac:(by rewrite Z.abs_eq in Hl by lia)) as Hv.
    rewrite Hc in *. cbn [app]. rewrite (proj2 (Z.eqb_neq c 45)) by lia.
    cbn [app] in Hi. rewrite Hi, Hf, He. cbn [app]. by rewrite Hv.
Qed.

(** How a written value starts. *)
Lemma dumps_head v :
  writable v → ∃ c t, dumps v = c :: t ∧ (c = 34 ∨ 45 <= c <= 91 ∨ 97 <= c <= 123).
Proof.
  destruct v as [|[]|n|[s|[]| |s m e]|s|l|d]; intros Hw; try done;
    cbn [dumps dumps_float]; try eval_literal; try (do 2 eexists; split; [reflexivity|lia]).
  unfold str_of_int. destruct (Z.ltb_spec n 0); [do 2 eexists; split; [done|lia]|].
  destruct (digits_cons n) as (c&t&->&Hd%is_digit_spec); [lia|]. do 2 eexists. split; [done|lia].
Qed.
End numbers.

(** ** Values *)

Section values.
Context `{FloatText}.

(** The fuel [scan_value] needs for a value. *)
Fixpoint fuel_for (v : JSONValue) : nat :=
  match v with
  | JList l => S (foldr (λ v n, S (fuel_for v + n)) 0 l)%nat
  | JDict d => S (foldr (λ kv n, S (fuel_for kv.2 + n)) 0 d)%nat
  | _ => 1%nat
  end.

Lemma length_join (parts : list pystr) :
  length (join [44] parts) = (foldr (λ p n, length p + n) 0 parts + (length parts - 1))%nat.
Proof.
  induction parts as [|p [|q parts] IH]; [done|simpl; lia|].
  change (join [44] (p :: q :: parts)) with (p ++ [44] ++ join [44] (q :: parts)).
  rewrite !length_app, IH. cbn [length foldr]. lia.
Qed.

Lemma fuel_for_length v : writable v → (fuel_for v <= length (dumps v))%nat.
Proof.
  induction v as [| | | | |l IH|d IH] using json_induction; intros Hw.
  1-5: match goal with |- (fuel_for ?v <= _)%nat =>
    destruct (dumps_head v Hw) as (?&?&->&_); cbn; lia end.
  - cbn [fuel_for dumps]. rewrite !length_app, length_join, length_map. cbn [length].
    cbn [writable] in Hw.
    assert (foldr (λ v n, S (fuel_for v + n)) 0 l <=
            foldr (λ p n, length p + n) 0 (map dumps l) + length l)%nat; [|destruct l; cbn in *; lia].
    induction IH as [|v l Hv _ IHl]; [done|]. destruct Hw as [Hw Hl].
    specialize (Hv Hw). specialize (IHl Hl). cbn in *. lia.
  - cbn [fuel_for dumps]. rewrite !length_app, length_join, length_map. cbn [length].
    cbn [writable] in Hw. destruct Hw as [_ Hw].
    assert (foldr (λ kv n, S (fuel_for kv.2 + n)) 0 d <=
            foldr (λ p n, length p + n) 0
              (map (λ kv, dumps_str kv.1 ++ [58%Z] ++ dumps kv.2) d) + length d)%nat;
      [|destruct d; cbn in *; lia].
    induction IH as [|kv d Hv _ IHd]; [done|]. destruct Hw as [ [_ Hw] Hd].
    specialize (Hv Hw). specialize (IHd Hd). cbn in *. rewrite !length_app. cbn. lia.
Qed.

Lemma dict_set_new {A} k (v : A) d : k ∉ d.*1 → dict_set k v d = d ++ [(k, v)].
Proof.
  induction d as [|[k' v'] d IH]; [done|]. rewrite fmap_cons, not_elem_of_cons. intros [Hk Hd].
  cbn. rewrite bool_decide_eq_false_2, IH by done. done.
Qed.
Lemma dict_of_id {A} (d : list (pystr * A)) : NoDup d.*1 → dict_of d = d.
Proof.
  unfold dict_of. change d with ([] ++ d) at 1 3. generalize (@nil (pystr * A)) as acc.
  induction d as [|[k v] d IH]; intros acc Hd; cbn; [by rewrite app_nil_r|].
  rewrite dict_set_new, IH, <-app_assoc.
  - done.
  - by rewrite <-app_assoc.
  - rewrite fmap_app, NoDup_app in Hd. destruct Hd as (_&Hd&_). intros Hk. apply (Hd k Hk). left.
Qed.

(** [scan_value] reads [v], and stops where its text ends. *)
Definition reads (v : JSONValue) : Prop :=
  ∀ fuel r, (fuel_for v <= fuel)%nat → stops r = true →
    scan_value fuel (dumps v ++ r) = Ok (v, r).

(** A written value starts neither with white space nor with a closing bracket. *)
Lemma skip_ws_dumps v r : writable v → skip_ws (dumps v ++ r) = dumps v ++ r.
Proof.
  intros Hw. destruct (dumps_head v Hw) as (c&t&->&Hc). cbn [app skip_ws].
  by rewrite !(proj2 (Z.eqb_neq c _)) by lia.
Qed.
Lemma peek_dumps v r k :
  writable v → k = 93 ∨ k = 125 → peek k (dumps v ++ r) = None.
Proof.
  intros Hw Hk. destruct (dumps_head v Hw) as (c&t&->&Hc). cbn [app peek].
  by rewrite (proj2 (Z.eqb_neq k c)) by lia.
Qed.

Lemma scan_elements_spec l r fuel :
  l ≠ [] → Forall (λ v, writable v ∧ reads v) l →
  (foldr (λ v n, S (fuel_for v + n)) 0 l <= fuel)%nat →
  scan_elements fuel (join [44] (map dumps l) ++ 93 :: r) = Ok (l, r).
Proof.
  intros Hne Hl. revert fuel Hne.
  induction Hl as [|v l [Hw Hv] Hl IH]; intros fuel Hne Hf; [done|].
  cbn [foldr] in Hf. destruct fuel as [|fuel]; [lia|]. cbn [scan_elements].
  destruct l as [|v' l].
  - cbn [map join]. rewrite Hv by (done || lia). done.
  - change (join [44] (map dumps (v :: v' :: l))) with
      (dumps v ++ 44 :: join [44] (map dumps (v' :: l))).
    rewrite <-app_assoc, <-app_comm_cons, Hv by (done || lia).
    cbn [mbind result_bind skip_ws expect peek Z.eqb Pos.eqb orb].
    apply Forall_cons in Hl as Hl'. destruct Hl' as [ [Hw' _] _].
    assert (skip_ws (join [44] (map dumps (v' :: l)) ++ 93 :: r) =
            join [44] (map dumps (v' :: l)) ++ 93 :: r) as ->.
    { destruct l; cbn [map join]; [|rewrite <-app_assoc]; by apply skip_ws_dumps. }
    rewrite IH by (done || lia). done.
Qed.

Lemma scan_members_spec d r fuel :
  d ≠ [] → Forall (λ kv, scalar kv.1 = true ∧ writable kv.2 ∧ reads kv.2) d →
  (foldr (λ kv n, S (fuel_for kv.2 + n)) 0 d <= fuel)%nat →
  scan_members fuel (join [44] (map (λ kv, dumps_str kv.1 ++ [58] ++ dumps kv.2) d) ++ 125 :: r) =
    Ok (d, r).
Proof.
  intros Hne Hd. revert fuel Hne.
  induction Hd as [|[k v] d (Hk&Hw&Hv) Hd IH]; intros fuel Hne Hf; [done|].
  cbn [foldr fst snd] in *. destruct fuel as [|fuel]; [lia|]. cbn [scan_members].
  set (f := λ kv : pystr * JSONValue, dumps_str kv.1 ++ [58] ++ dumps kv.2) in *.
  assert (∀ q, expect 34 ((dumps_str k ++ [58] ++ dumps v) ++ q) =
    Ok ((k ≫= escape_char) ++ 34 :: 58 :: dumps v ++ q)) as Hs.
  { intros q. unfold dumps_str. cbn. by rewrite <-!app_assoc. }
  destruct d as [|kv d].
  - cbn [map join]. unfold f at 1. cbn [fst snd]. rewrite Hs. cbn [mbind result_bind].
    rewrite scan_dumps_str by done. cbn [mbind result_bind skip_ws expect peek Z.eqb Pos.eqb orb].
    rewrite skip_ws_dumps, Hv by (done || lia). done.
  - change (join [44] (map f ((k, v) :: kv :: d))) with
      ((dumps_str k ++ [58] ++ dumps v) ++ 44 :: join [44] (map f (kv :: d))).
    rewrite <-(app_assoc (dumps_str k ++ _)), Hs. cbn [mbind result_bind].
    rewrite scan_dumps_str by done. cbn [mbind result_bind skip_ws expect peek Z.eqb Pos.eqb orb app].
    rewrite skip_ws_dumps, Hv by (done || lia).
    cbn [mbind result_bind skip_ws expect peek Z.eqb Pos.eqb orb app].
    assert (skip_ws (join [44] (map f (kv :: d)) ++ 125 :: r) =
            join [44] (map f (kv :: d)) ++ 125 :: r) as ->.
    { by destruct d. }
    rewrite IH by (done || lia). done.
Qed.

Lemma writable_list l : writable (JList l) → Forall writable l.
Proof. cbn. induction l as [|v l IH]; [constructor|]. intros [? ?]. constructor; auto. Qed.
Lemma writable_dict d :
  writable (JDict d) → NoDup d.*1 ∧ Forall (λ kv, scalar kv.1 = true ∧ writable kv.2) d.
Proof.
  intros [? Hd]. split; [done|]. induction d as [|v d IH]; [constructor|].
  destruct Hd as [? ?]. constructor; [done|]. apply IH; [|done]. by inversion_clear H0.
Qed.

Lemma startswith_nil s : startswith s [] = true.
Proof. by destruct s. Qed.
Lemma scan_literal i lit v fuel r :
  literals !! i = Some (lit, v) → scan_value (S fuel) (lit ++ r) = Ok (v, r).
Proof.
  intros Hi. destruct i as [|[|[|[|[|[|i] ] ] ] ] ]; try done; injection Hi as <- <-.
  all: try eval_literal; cbn [app scan_value Z.eqb Pos.eqb];
    unfold literals; cbn [list_find fst];
    repeat (rewrite decide_False by (eval_literal; cbn [startswith]; done));
    rewrite decide_True by (eval_literal; cbn [startswith Z.eqb Pos.eqb andb]; apply startswith_nil);
    reflexivity.
Qed.

Lemma reads_int n : writable (JInt n) → reads (JInt n).
Proof.
  intros Hw fuel r Hf Hr. destruct fuel as [|fuel]; [cbn in Hf; lia|].
  pose proof (scan_number_int n r Hw Hr) as Hs. destruct (dumps_head (JInt n) Hw) as (c&t&Hd&_).
  assert (c = 45 ∧ (∃ c' t', t = c' :: t' ∧ is_digit c' = true) ∨ is_digit c = true) as Hc.
  { cbn [dumps] in Hd. unfold str_of_int in Hd. destruct (Z.ltb_spec n 0) as [Hn|Hn].
    - injection Hd as <- <-. destruct (digits_cons (- n)) as (?&?&->&?); [lia|]. left. eauto.
    - destruct (digits_cons n Hn) as (?&?&E&?). rewrite E in Hd. injection Hd as <- <-. by right. }
  cbn [dumps] in *. rewrite Hd in *. cbn [app] in *.
  cbn [scan_value]. destruct Hc as [ [-> (c'&t'&->&Hc%is_digit_spec)]|Hc%is_digit_spec].
  - cbn [Z.eqb Pos.eqb]. assert (list_find (λ lit, startswith (45 :: (c' :: t') ++ r) lit.1 = true)
      literals = None) as ->; [|done].
    apply list_find_None. repeat constructor; cbn [fst app]; eval_literal;
      cbn [startswith]; try done.
    by rewrite (proj2 (Z.eqb_neq 73 c')), andb_false_r by lia.
  - rewrite !(proj2 (Z.eqb_neq c _)) by lia. assert (list_find (λ lit, startswith (c :: t ++ r) lit.1 = true)
      literals = None) as ->; [|done].
    apply list_find_None. repeat constructor; cbn [fst app]; eval_literal;
      cbn [startswith]; rewrite (proj2 (Z.eqb_neq _ c)) by lia; done.
Qed.

Lemma reads_all v : writable v → reads v.
Proof.
  induction v as [|b|n|f|s|l IH|d IH] using json_induction; intros Hw;
    [| |by apply reads_int|..]; intros [|fuel] r Hf Hr; cbn [fuel_for] in Hf; try lia.
  - by apply (scan_literal 0).
  - destruct b; [by apply (scan_literal 1)|by apply (scan_literal 2)].
  - destruct f as [|[]| |]; try done;
      [by apply (scan_literal 5)|by apply (scan_literal 4)|by apply (scan_literal 3)].
  - cbn [dumps dumps_str app scan_value Z.eqb Pos.eqb].
    rewrite <-app_assoc. cbn [app]. by rewrite scan_dumps_str.
  - pose proof (writable_list l Hw) as Hl.
    cbn [dumps app scan_value Z.eqb Pos.eqb]. rewrite <-app_assoc. cbn [app].
    destruct l as [|v l]; [done|]. set (l' := v :: l) in *.
    assert (skip_ws (join [44] (map dumps l') ++ 93 :: r) = join [44] (map dumps l') ++ 93 :: r ∧
      peek 93 (join [44] (map dumps l') ++ 93 :: r) = None) as [-> ->].
    { apply Forall_cons in Hl as [Hv _].
      destruct l; cbn [l' map join]; rewrite <-?app_assoc, peek_dumps, skip_ws_dumps by auto; done. }
    rewrite scan_elements_spec; [done|done| |lia].
    apply Forall_forall. intros w Hin. rewrite Forall_forall in Hl, IH. split; auto.
  - destruct (writable_dict d Hw) as [Hnd Hd].
    cbn [dumps app scan_value Z.eqb Pos.eqb]. rewrite <-app_assoc. cbn [app].
    destruct d as [|kv d]; [done|]. set (d' := kv :: d) in *.
    set (f := λ kv : pystr * JSONValue, dumps_str kv.1 ++ 58 :: dumps kv.2) in *.
    assert (skip_ws (join [44] (map f d') ++ 125 :: r) = join [44] (map f d') ++ 125 :: r ∧
      peek 125 (join [44] (map f d') ++ 125 :: r) = None) as [-> ->].
    { by destruct d. }
    unfold f. rewrite scan_members_spec; [|done| |lia].
    + cbn [mbind result_bind mret result_ret]. by rewrite dict_of_id.
    + apply Forall_forall. intros w Hin. rewrite Forall_forall in Hd, IH.
      destruct (Hd w Hin). auto.
Qed.

Lemma loads_dumps v : writable v → loads (dumps v) = Ok v.
Proof.
  intros Hw. unfold loads. pose proof (skip_ws_dumps v [] Hw) as Hs. rewrite app_nil_r in Hs.
  rewrite Hs. destruct (dumps_head v Hw) as (c&t&Hd&Hc).
  rewrite Hd at 1. cbn [startswith]. rewrite (proj2 (Z.eqb_neq 65279 c)) by lia. cbn [andb].
  pose proof (fuel_for_length v Hw).
  pose proof (reads_all v Hw (S (length (dumps v))) [] ltac:(lia) eq_refl) as Hr.
  rewrite app_nil_r in Hr. by rewrite Hr.
Qed.
End values.

(** The text is ASCII. *)
Definition printable (c : Z) : bool := (32 <=? c) && (c <=? 126).

Lemma printable_app s t : forallb printable (s ++ t) = forallb printable s && forallb printable t.
Proof. apply forallb_app. Qed.
Lemma printable_hex4 n : forallb printable (hex4 n) = true.
Proof.
  assert (∀ k, printable (lower_hex (k mod 16)) = true) as H.
  { intros k. assert (0 <= k mod 16 < 16) as Hk by (apply Z.mod_pos_bound; lia).
    by apply (below_spec 16 (λ k, printable (lower_hex k))) in Hk. }
  unfold hex4. cbn [fmap list_fmap forallb]. by rewrite !H.
Qed.
Lemma printable_escape c : forallb printable (escape_char c) = true.
Proof.
  unfold escape_char. repeat (case_match; [try reflexivity|]).
  all: rewrite ?printable_app, ?printable_hex4; try done.
  cbn. by rewrite andb_true_r.
Qed.
Lemma printable_dumps_str s : forallb printable (dumps_str s) = true.
Proof.
  unfold dumps_str. rewrite !printable_app. change (forallb printable [34]) with true.
  rewrite andb_true_r. cbn [andb]. induction s as [|c s IH]; [done|].
  by rewrite bind_cons, printable_app, printable_escape, IH.
Qed.
Lemma printable_join parts :
  Forall (λ p, forallb printable p = true) parts → forallb printable (join [44] parts) = true.
Proof.
  intros H. induction H as [|p parts Hp Hs IH]; [done|]. destruct parts as [|q parts]; [done|].
  change (join [44] (p :: q :: parts)) with (p ++ [44] ++ join [44] (q :: parts)).
  by rewrite !printable_app, Hp, IH.
Qed.

Lemma printable_dumps `{FloatText} v : writable v → forallb printable (dumps v) = true.
Proof.
  induction v as [|b|n|f|s|l IH|d IH] using json_induction; intros Hw.
  - done.
  - by destruct b.
  - assert (∀ k, 0 <= k → forallb printable (digits k) = true) as Hd.
    { intros k Hk. destruct (int_of_str_of_int k Hk) as (_&Hd&_). unfold str_of_int in Hd.
      destruct (Z.ltb_spec k 0); [lia|]. rewrite forallb_forall in Hd |- *. intros c Hc%Hd%is_digit_spec.
      unfold printable. apply andb_true_iff. rewrite !Z.leb_le. lia. }
    cbn [dumps]. unfold str_of_int. destruct (Z.ltb_spec n 0); [|by apply Hd].
    cbn [forallb]. rewrite Hd by lia. done.
  - by destruct f as [|[]| |].
  - apply printable_dumps_str.
  - apply writable_list in Hw. cbn [dumps]. rewrite !printable_app, printable_join; [done|].
    apply Forall_map. rewrite Forall_forall in *. auto.
  - apply writable_dict in Hw as [_ Hw]. cbn [dumps]. rewrite !printable_app, printable_join; [done|].
    apply Forall_map. rewrite Forall_forall in *. intros kv Hkv.
    rewrite !printable_app, printable_dumps_str, IH; [done..|]. by apply Hw.
Qed.
Lemma dumps_scalar `{FloatText} v : writable v → scalar (dumps v) = true.
Proof.
  intros Hp%printable_dumps. unfold scalar. rewrite forallb_forall in *. intros c Hc%Hp.
  apply andb_true_iff in Hc as [?%Z.leb_le ?%Z.leb_le]. apply is_scalar_spec. lia.
Qed.

(** ** Errors *)

Definition load_error (e : exn) : Prop := e = JSONDecodeError ∨ e = too_many_digits.

Section load_errors.
Context `{FloatText}.

Definition errors_ok {A} (r : result exn A) : Prop := ∀ e, r = Err e → load_error e.

Lemma errors_ok_Ok {A} (a : A) : errors_ok (Ok a).
Proof. done. Qed.
Lemma errors_ok_decode {A} : errors_ok (A:=A) (Err JSONDecodeError).
Proof. intros e [= <-]. by left. Qed.
Lemma errors_ok_bind {A B} (r : result exn A) (f : A → result exn B) :
  errors_ok r → (∀ a, errors_ok (f a)) → errors_ok (r ≫= f).
Proof. intros Hr Hf e. destruct r as [a|e']; [apply Hf|]. intros [= <-]. by apply Hr. Qed.
Lemma expect_errors c s : errors_ok (expect c s).
Proof. unfold expect. case_match; [apply errors_ok_Ok|apply errors_ok_decode]. Qed.
Lemma scan_number_errors s : errors_ok (scan_number s).
Proof.
  unfold scan_number. destruct (match s with [] => _ | _ => _ end) as [negative body].
  destruct (int_part body) as [ [digits r]|]; [|apply errors_ok_decode].
  destruct (scan_fraction r) as [frac r1]. destruct (scan_exponent r1) as [ex r2].
  apply errors_ok_bind; [|intros; apply errors_ok_Ok].
  unfold number_value. destruct (frac ++ ex); [|apply errors_ok_Ok].
  case_match; [|apply errors_ok_Ok]. intros e [= <-]. by right.
Qed.

Lemma scan_errors fuel :
  (∀ s, errors_ok (scan_value fuel s)) ∧ (∀ s, errors_ok (scan_elements fuel s)) ∧
  (∀ s, errors_ok (scan_members fuel s)).
Proof.
  induction fuel as [|fuel (IHv&IHe&IHm)]; [split_and!; intros; apply errors_ok_decode|].
  split_and!; intros s; cbn [scan_value scan_elements scan_members].
  - destruct s as [|c s]; [apply errors_ok_decode|].
    repeat case_match; try apply errors_ok_Ok; try apply errors_ok_decode;
      try apply scan_number_errors; apply errors_ok_bind; auto; intros [? ?]; apply errors_ok_Ok.
  - apply errors_ok_bind; [done|]. intros [v r]. case_match; [apply errors_ok_Ok|].
    apply errors_ok_bind; [apply expect_errors|]. intros r'.
    apply errors_ok_bind; [done|]. intros [? ?]. apply errors_ok_Ok.
  - apply errors_ok_bind; [apply expect_errors|]. intros s1.
    destruct (scan_string s1) as [ [k r]|]; [|apply errors_ok_decode].
    apply errors_ok_bind; [apply expect_errors|]. intros r1.
    apply errors_ok_bind; [done|]. intros [v r2]. case_match; [apply errors_ok_Ok|].
    apply errors_ok_bind; [apply expect_errors|]. intros r3.
    apply errors_ok_bind; [done|]. intros [? ?]. apply errors_ok_Ok.
Qed.

Lemma loads_errors_ok s : errors_ok (loads s).
Proof.
  unfold loads. case_match; [apply errors_ok_decode|].
  apply errors_ok_bind; [apply scan_errors|]. intros [v r]. case_match; [apply errors_ok_Ok|].
  apply errors_ok_decode.
Qed.
End load_errors.

#[export] Instance no_floats : FloatText :=
  {| float_repr _ := [48; 46; 48]; float_of_text _ := S754_zero false |}.
Example dumps_example :
  dumps (JDict [(u "a", JList [JInt (-1); JNull; JBool true]); (u "b", JStr [233; 34; 10; 128512])]) =
  u "{" ++ dumps_str (u "a") ++ u ":[-1,null,true]," ++ dumps_str (u "b") ++ u ":" ++
  [34] ++ u "\u00e9\" ++ [34] ++ u "\n\ud83d\ude00" ++ [34] ++ u "}".
Proof. vm_compute. reflexivity. Qed.
Example loads_example :
  loads (u " { " ++ [34] ++ u "a" ++ [34] ++ u " : [ ] , " ++ [34] ++ u "a" ++ [34] ++ u ":-0 } ") =
  Ok (JDict [(u "a", JInt 0)]).
Proof. vm_compute. reflexivity. Qed.
Example loads_errors :
  forallb (λ s, negb (is_ok (loads s)))
    [u "[1,]"; u "01"; u "{1:2}"; u "nul"; u "[1 2]"; u ""; u "-"; u "1 x"] = true.
Proof. vm_compute. reflexivity. Qed.
