(* ===== verification/PyRe.v ===== *)
(** Lines of a text, and Python's [re]: the regular expressions the program writes, matched
    by backtracking in the order of the standard library, and their parses, which say what a
    match consumed and recorded. *)

From S2P Require Import Prelude PyValue PyText PyCodec.
Local Open Scope Z_scope.

(** ** Lines *)

Definition line_break (c : Z) : bool :=
  bool_decide (c ∈ [10; 11; 12; 13; 28; 29; 30; 133; 8232; 8233]).
(** [str.splitlines(keepends)] *)
Fixpoint splitlines_ (keepends : bool) (s : pystr) : list pystr :=
  match s with
  | [] => []
  | c :: s' =>
      if line_break c then
        match s' with
        | d :: s'' =>
            if (c =? 13) && (d =? 10)
            then (if keepends then [c; d] else []) :: splitlines_ keepends s''
            else (if keepends then [c] else []) :: splitlines_ keepends s'
        | [] => [if keepends then [c] else []]
        end
      else match splitlines_ keepends s' with
           | line :: lines => (c :: line) :: lines
           | [] => [[c]]
           end
  end.
Definition splitlines : pystr → list pystr := splitlines_ false.

(** [sub in s] *)
Fixpoint contains (s sub : pystr) : bool :=
  startswith s sub || match s with [] => false | _ :: s => contains s sub end.

(** A line has no line break in it, and lines written one by one are read back. *)
Definition plain (line : pystr) : Prop := Forall (λ c, line_break c = false) line.

Lemma splitlines_plain s : Forall plain (splitlines s).
Proof.
  unfold splitlines. assert (∀ n, (length s <= n)%nat → Forall plain (splitlines_ false s)) as H; [|by eapply H].
  intros n. revert s. induction n as [|n IH]; intros [|c s] Hn; cbn in *; try lia; try constructor.
  destruct (line_break c) eqn:Ec.
  - destruct s as [|d s]; [by repeat constructor|]. cbn in Hn.
    destruct (_ && _); (constructor; [constructor|apply IH; cbn; lia]).
  - pose proof (IH s ltac:(lia)) as Hs. destruct (splitlines_ false s) as [|line lines].
    + by repeat constructor.
    + inversion Hs; subst. constructor; [by constructor|done].
Qed.
Lemma splitlines_line line s : plain line → splitlines (line ++ 10 :: s) = line :: splitlines s.
Proof.
  unfold splitlines. induction 1 as [|c line Hc _ IH].
  - cbn [app splitlines_]. change (line_break 10) with true. cbn match.
    destruct s as [|d s]; [done|]. done.
  - rewrite <-app_comm_cons. cbn [splitlines_]. by rewrite Hc, IH.
Qed.
Lemma splitlines_join lines :
  lines ≠ [] → Forall plain lines → splitlines (join [10] lines ++ [10]) = lines.
Proof.
  intros Hne H. induction H as [|line lines Hl H IH]; [done|]. destruct lines as [|line' lines].
  - cbn [join]. by apply splitlines_line.
  - change (join [10] (line :: line' :: lines)) with (line ++ [10] ++ join [10] (line' :: lines)).
    rewrite <-!app_assoc. cbn [app]. rewrite splitlines_line by done. by rewrite IH.
Qed.

Module PyRe.

(** [greedy] repetition tries one more turn first, lazy repetition the rest first. [Group]
    records what it consumed under a name. *)
Inductive regex :=
  | Empty
  | Class (accepts : Z → bool)
  | Seq (a b : regex)
  | Alt (a b : regex)
  | Star (greedy : bool) (a : regex)
  | Group (name : pystr) (a : regex)
  | Begin
  | End_
  | WordBoundary.

(** Names and their texts, the last recorded first. *)
Definition captures : Type := list (pystr * pystr).
Definition group (caps : captures) (name : pystr) : pystr :=
  match list_find (λ c : pystr * pystr, c.1 = name) caps with Some (_, c) => c.2 | None => [] end.

Section matching.
(** [\w]: letters, digits and the underscore. *)
Context (is_word : Z → bool).

Definition at_word (s : pystr) : bool := match s with c :: _ => is_word c | [] => false end.
(** The zero-width tests, on the text before, latest character first, and the text after. *)
Definition at_end (rest : pystr) : bool := bool_decide (rest = [] ∨ rest = [10]).
Definition at_boundary (before rest : pystr) : bool := xorb (at_word before) (at_word rest).

Definition orelse {A} (x y : option A) : option A := match x with Some _ => x | None => y end.

(** Repetition of a step that must consume something each time; [fuel] is the length of what
    is left. *)
Fixpoint repeat_ (greedy : bool)
    (step : pystr → pystr → captures → (pystr → pystr → captures → option captures) → option captures)
    (k : pystr → pystr → captures → option captures) (fuel : nat) (before rest : pystr)
    (caps : captures) : option captures :=
  match fuel with
  | O => k before rest caps
  | S fuel =>
      let more := step before rest caps (λ before' rest' caps',
        if (length rest' <? length rest)%nat then repeat_ greedy step k fuel before' rest' caps'
        else None) in
      let stop := k before rest caps in
      if greedy then orelse more stop else orelse stop more
  end.

(** [k] is the rest of the expression. *)
Fixpoint run (r : regex) (before rest : pystr) (caps : captures)
    (k : pystr → pystr → captures → option captures) : option captures :=
  match r with
  | Empty => k before rest caps
  | Class accepts =>
      match rest with
      | c :: rest => if accepts c then k (c :: before) rest caps else None
      | [] => None
      end
  | Seq a b => run a before rest caps (λ before rest caps, run b before rest caps k)
  | Alt a b => orelse (run a before rest caps k) (run b before rest caps k)
  | Star greedy a => repeat_ greedy (run a) k (length rest) before rest caps
  | Group name a =>
      run a before rest caps (λ before' rest' caps',
        k before' rest' ((name, take (length rest - length rest') rest) :: caps'))
  | Begin => match before with [] => k before rest caps | _ => None end
  | End_ => if at_end rest then k before rest caps else None
  | WordBoundary => if at_boundary before rest then k before rest caps else None
  end.

(** [pattern.match(s)] and [pattern.search(s)], with the groups. *)
Definition match_ (r : regex) (s : pystr) : option captures := run r [] s [] (λ _ _ caps, Some caps).
Fixpoint search_from (r : regex) (before rest : pystr) : option captures :=
  orelse (run r before rest [] (λ _ _ caps, Some caps))
    (match rest with [] => None | c :: rest => search_from r (c :: before) rest end).
Definition search (r : regex) (s : pystr) : option captures := search_from r [] s.

(** ** The parses of an expression

    [parses r before s rest caps caps']: between [before] and [rest] the expression can consume
    [s], and records [caps'] on top of [caps]. *)
Inductive parses : regex → pystr → pystr → pystr → captures → captures → Prop :=
  | parse_empty before rest caps : parses Empty before [] rest caps caps
  | parse_class p c before rest caps : p c = true → parses (Class p) before [c] rest caps caps
  | parse_seq a b before s t rest caps caps' caps'' :
      parses a before s (t ++ rest) caps caps' → parses b (reverse s ++ before) t rest caps' caps'' →
      parses (Seq a b) before (s ++ t) rest caps caps''
  | parse_left a b before s rest caps caps' :
      parses a before s rest caps caps' → parses (Alt a b) before s rest caps caps'
  | parse_right a b before s rest caps caps' :
      parses b before s rest caps caps' → parses (Alt a b) before s rest caps caps'
  | parse_stop g a before rest caps : parses (Star g a) before [] rest caps caps
  | parse_more g a before s t rest caps caps' caps'' :
      s ≠ [] → parses a before s (t ++ rest) caps caps' →
      parses (Star g a) (reverse s ++ before) t rest caps' caps'' →
      parses (Star g a) before (s ++ t) rest caps caps''
  | parse_group n a before s rest caps caps' :
      parses a before s rest caps caps' → parses (Group n a) before s rest caps ((n, s) :: caps')
  | parse_begin rest caps : parses Begin [] [] rest caps caps
  | parse_end before rest caps : at_end rest = true → parses End_ before [] rest caps caps
  | parse_boundary before rest caps :
      at_boundary before rest = true → parses WordBoundary before [] rest caps caps.

(** Matching explores the parses: a result comes from one of them, and there is a result when
    the rest of the expression accepts after some of them. *)
Definition explores (r : regex)
    (step : pystr → pystr → captures → (pystr → pystr → captures → option captures) → option captures)
    : Prop :=
  ∀ before rest caps k,
    (∀ x, step before rest caps k = Some x →
       ∃ s rest' caps', rest = s ++ rest' ∧ parses r before s rest' caps caps' ∧
         k (reverse s ++ before) rest' caps' = Some x) ∧
    (∀ s rest' caps', rest = s ++ rest' → parses r before s rest' caps caps' →
       is_Some (k (reverse s ++ before) rest' caps') → is_Some (step before rest caps k)).

Lemma orelse_Some {A} (x y : option A) z : orelse x y = Some z → x = Some z ∨ y = Some z.
Proof. destruct x; simpl; auto. Qed.
Lemma orelse_is_Some {A} (x y : option A) : is_Some x ∨ is_Some y → is_Some (orelse x y).
Proof. destruct x; simpl; [by eexists|]. by intros [[]|]. Qed.

Lemma repeat_explores g a step fuel before rest caps k :
  explores a step → (length rest <= fuel)%nat →
  (∀ x, repeat_ g step k fuel before rest caps = Some x →
     ∃ s rest' caps', rest = s ++ rest' ∧ parses (Star g a) before s rest' caps caps' ∧
       k (reverse s ++ before) rest' caps' = Some x) ∧
  (∀ s rest' caps', rest = s ++ rest' → parses (Star g a) before s rest' caps caps' →
     is_Some (k (reverse s ++ before) rest' caps') → is_Some (repeat_ g step k fuel before rest caps)).
Proof.
  intros Ha. revert before rest caps. induction fuel as [|fuel IH]; intros before rest caps Hf.
  - destruct rest as [|c rest]; [|simpl in Hf; lia]. simpl. split.
    + intros x Hx. exists [], [], caps. split_and!; [done|constructor|done].
    + intros s r' caps' E Hs Hk. symmetry in E. apply app_nil in E as [-> ->].
      inversion Hs; subst; [done|].
      match goal with H : _ ++ _ = [] |- _ => by apply app_nil in H as [-> ->] end.
  - cbn [repeat_].
    set (more := λ before' rest' caps', if (length rest' <? length rest)%nat
      then repeat_ g step k fuel before' rest' caps' else None).
    set (again := step before rest caps more).
    assert (∀ x, again = Some x → ∃ s rest' caps', rest = s ++ rest' ∧
      parses (Star g a) before s rest' caps caps' ∧ k (reverse s ++ before) rest' caps' = Some x) as Hagain.
    { intros x (s&r1&c1&->&Hs&Hm)%(proj1 (Ha _ _ _ _)). unfold more in Hm.
      destruct (Nat.ltb_spec (length r1) (length (s ++ r1))) as [Hl|]; [|done].
      apply (proj1 (IH _ r1 c1 ltac:(lia))) in Hm as (t&r2&c2&->&Ht&Hk). exists (s ++ t), r2, c2.
      rewrite <-app_assoc. split_and!; [done| |by rewrite reverse_app, <-app_assoc].
      apply parse_more with (caps' := c1); [|done..]. intros ->. simpl in Hl. lia. }
    split.
    + intros x Hx.
      assert (again = Some x ∨ k before rest caps = Some x) as [H|H]; [|by apply Hagain|].
      { destruct g; apply orelse_Some in Hx; tauto. }
      exists [], rest, caps. split_and!; [done|constructor|done].
    + intros s r' caps' E Hs Hk.
      assert (is_Some again ∨ is_Some (k before rest caps)) as Hor.
      2:{ destruct g; apply orelse_is_Some; tauto. }
      inversion Hs as [| | | | |????|??? s1 t1 ? c0 c1 c2 Hne H1 H2| | | |]; subst; [by right|left].
      apply (proj2 (Ha _ _ _ _)) with (s := s1) (rest' := t1 ++ r') (caps' := c1);
        [by rewrite <-app_assoc|done|]. unfold more.
      assert ((length (t1 ++ r') <? length ((s1 ++ t1) ++ r'))%nat = true) as ->.
      { apply Nat.ltb_lt. destruct s1; [done|]. rewrite !length_app. simpl. lia. }
      eapply (proj2 (IH _ (t1 ++ r') c1 _)); [done|exact H2|].
      by rewrite reverse_app, <-app_assoc in Hk.
      Unshelve. destruct s1; [done|]. rewrite !length_app in *. simpl in *. lia.
Qed.

Lemma run_explores r : explores r (run r).
Proof.
  induction r as [|p|a IHa b IHb|a IHa b IHb|g a IH|n a IH| | |]; intros before rest caps k; cbn [run].
  - split; [intros x H; exists [], rest, caps; split_and!; [done|constructor|done]|].
    intros s r' caps' -> Hs H. by inversion Hs; subst.
  - split.
    + destruct rest as [|c rest]; [done|]. destruct (p c) eqn:Ep; [|done].
      intros x H. exists [c], rest, caps. split_and!; [done|by constructor|done].
    + intros s r' caps' -> Hs H. inversion Hs as [|????? Hc| | | | | | | | |]; subst. simpl. by rewrite Hc.
  - split.
    + intros x (s&r1&c1&->&Hs&(t&r2&c2&->&Ht&H)%(proj1 (IHb _ _ _ _)))%(proj1 (IHa _ _ _ _)).
      exists (s ++ t), r2, c2. rewrite <-app_assoc.
      split_and!; [done|by econstructor|by rewrite reverse_app, <-app_assoc].
    + intros s r' caps' -> Hs H. inversion Hs as [| |??? s1 t1 ? c0 c1 c2 H1 H2| | | | | | | |]; subst.
      apply (proj2 (IHa _ _ _ _)) with (s := s1) (rest' := t1 ++ r') (caps' := c1);
        [by rewrite <-app_assoc|done|].
      eapply (proj2 (IHb _ _ _ _)); [done|done|]. by rewrite reverse_app, <-app_assoc in H.
  - split.
    + intros x [(s&r'&c'&E&Hs&H)%(proj1 (IHa _ _ _ _))|(s&r'&c'&E&Hs&H)%(proj1 (IHb _ _ _ _))]%orelse_Some;
        exists s, r', c'; (split_and!; [done| |done]); [by apply parse_left|by apply parse_right].
    + intros s r' caps' E Hs H. apply orelse_is_Some. inversion Hs; subst; [left|right].
      * by eapply (proj2 (IHa _ _ _ _)).
      * by eapply (proj2 (IHb _ _ _ _)).
  - by apply repeat_explores.
  - split.
    + intros x (s&r'&c'&->&Hs&H)%(proj1 (IH _ _ _ _)). eexists s, r', _. split_and!; [done|by constructor|].
      by rewrite length_app, Nat.add_sub, take_app_length in H.
    + intros s r' caps' -> Hs H. inversion Hs; subst. eapply (proj2 (IH _ _ _ _)); [done..|].
      by rewrite length_app, Nat.add_sub, take_app_length.
  - split.
    + destruct before; [|done]. intros x H. exists [], rest, caps. split_and!; [done|constructor|done].
    + intros s r' caps' -> Hs H. by inversion Hs; subst.
  - split.
    + destruct (at_end rest) eqn:E; [|done]. intros x H. exists [], rest, caps.
      split_and!; [done|by constructor|done].
    + intros s r' caps' -> Hs H. inversion Hs as [| | | | | | | | |??? He|]; subst. simpl. by rewrite He.
  - split.
    + destruct (at_boundary before rest) eqn:E; [|done]. intros x H. exists [], rest, caps.
      split_and!; [done|by constructor|done].
    + intros s r' caps' -> Hs H. inversion Hs as [| | | | | | | | | |??? He]; subst. simpl. by rewrite He.
Qed.

(** [match] answers with a parse of a prefix, whenever there is one. *)
Lemma match_sound r s m : match_ r s = Some m → ∃ t q, s = t ++ q ∧ parses r [] t q [] m.
Proof.
  unfold match_. intros (t&q&c&E&H&[= <-])%(proj1 (run_explores r [] s [] _)). by exists t, q.
Qed.
Lemma match_complete r t q m : parses r [] t q [] m → is_Some (match_ r (t ++ q)).
Proof. intros H. eapply (proj2 (run_explores r [] _ [] _)) with (s := t) (rest' := q); [done|exact H|by eexists]. Qed.
Lemma match_None r s t q m : match_ r s = None → s = t ++ q → ¬ parses r [] t q [] m.
Proof. intros H -> [x Hx]%match_complete. congruence. Qed.

Lemma search_from_sound r before rest m :
  search_from r before rest = Some m →
  ∃ p t q, rest = p ++ t ++ q ∧ parses r (reverse p ++ before) t q [] m.
Proof.
  revert before. induction rest as [|c rest IH]; intros before; cbn [search_from].
  - intros [(t&q&c&E&H&[= <-])%(proj1 (run_explores r before [] [] _))|?]%orelse_Some; [|done].
    by exists [], t, q.
  - intros [(t&q&c'&E&H&[= <-])%(proj1 (run_explores r before (c :: rest) [] _))
           |(p&t&q&->&H)%IH]%orelse_Some; [by exists [], t, q|].
    exists (c :: p), t, q. by rewrite reverse_cons, <-app_assoc.
Qed.
Lemma search_from_complete r before p t q m :
  parses r (reverse p ++ before) t q [] m → is_Some (search_from r before (p ++ t ++ q)).
Proof.
  revert before. induction p as [|c p IH]; intros before H.
  - assert (is_Some (run r before ([] ++ t ++ q) [] (λ _ _ caps, Some caps))) as Hr.
    { eapply (proj2 (run_explores r before _ [] _)) with (s := t) (rest' := q); [done|exact H|by eexists]. }
    destruct ([] ++ t ++ q); cbn [search_from]; apply orelse_is_Some; by left.
  - cbn [search_from app]. apply orelse_is_Some. right. apply IH.
    by rewrite reverse_cons, <-app_assoc in H.
Qed.
(** [search] finds a match exactly when some part of the text has a parse. *)
Lemma search_spec r s :
  is_Some (search r s) ↔ ∃ p t q m, s = p ++ t ++ q ∧ parses r (reverse p) t q [] m.
Proof.
  unfold search. split.
  - intros [m (p&t&q&E&H)%search_from_sound]. rewrite app_nil_r in H. by exists p, t, q, m.
  - intros (p&t&q&m&->&H). eapply search_from_complete. by rewrite app_nil_r.
Qed.

End matching.

(** ** Shorthands *)

Definition plus (greedy : bool) (a : regex) : regex := Seq a (Star greedy a).
Definition opt (a : regex) : regex := Alt a Empty.
Definition seq (rs : list regex) : regex := foldr Seq Empty rs.
Definition alt (rs : list regex) : regex :=
  match rs with [] => Class (λ _, false) | r :: rs => foldl Alt r rs end.
Definition char (c : Z) : regex := Class (Z.eqb c).
Definition lit (s : pystr) : regex := seq (char <$> s).
(** [\s], and [.] without [DOTALL]. *)
Definition space : regex := Class is_space.
Definition dot : regex := Class (λ c, negb (c =? 10)).

(** A letter under [IGNORECASE], which also accepts the dotted and dotless i, the long s and
    the Kelvin sign. *)
Definition letter_ci (c : Z) : regex :=
  Class (λ d, (ascii_lower d =? ascii_lower c) ||
    ((ascii_lower c =? 105) && ((d =? 304) || (d =? 305))) ||
    ((ascii_lower c =? 115) && (d =? 383)) || ((ascii_lower c =? 107) && (d =? 8490))).
Definition lit_ci (s : pystr) : regex := seq (letter_ci <$> s).

(** ** What the common expressions parse *)

Section shapes.
Context (is_word : Z → bool).
Implicit Types (before rest s : pystr) (caps : captures).
Local Abbreviation parses := (parses is_word).

Lemma parses_seq_cons r rs before s rest caps caps' :
  parses (seq (r :: rs)) before s rest caps caps' ↔
  ∃ s1 s2 caps1, s = s1 ++ s2 ∧ parses r before s1 (s2 ++ rest) caps caps1 ∧
    parses (seq rs) (reverse s1 ++ before) s2 rest caps1 caps'.
Proof.
  change (seq (r :: rs)) with (Seq r (seq rs)). split.
  - intros H. inversion H; subst. naive_solver.
  - intros (s1&s2&c1&->&H1&H2). by econstructor.
Qed.
Lemma parses_seq_intro r rs before s1 s2 rest caps caps1 caps' :
  parses r before s1 (s2 ++ rest) caps caps1 →
  parses (seq rs) (reverse s1 ++ before) s2 rest caps1 caps' →
  parses (seq (r :: rs)) before (s1 ++ s2) rest caps caps'.
Proof. intros. rewrite parses_seq_cons. eauto 10. Qed.
Lemma parses_seq_app rs rs' before s rest caps caps' :
  parses (seq (rs ++ rs')) before s rest caps caps' ↔
  ∃ s1 s2 caps1, s = s1 ++ s2 ∧ parses (seq rs) before s1 (s2 ++ rest) caps caps1 ∧
    parses (seq rs') (reverse s1 ++ before) s2 rest caps1 caps'.
Proof.
  revert before s caps. induction rs as [|r rs IH]; intros before s caps; cbn [app].
  - split; [intros H; exists [], s, caps; split_and!; [done|constructor|done]|].
    intros (s1&s2&c1&->&H1&H2). by inversion H1; subst.
  - rewrite parses_seq_cons. setoid_rewrite IH. setoid_rewrite parses_seq_cons. split.
    + intros (s1&s2&c1&->&H1&t1&t2&c2&->&H2&H3). exists (s1 ++ t1), t2, c2.
      rewrite <-app_assoc, reverse_app, <-app_assoc. split_and!; [done| |done].
      exists s1, t1, c1. by rewrite app_assoc.
    + intros (s12&t2&c2&->&(s1&t1&c1&->&H1&H2)&H3). exists s1, (t1 ++ t2), c1.
      rewrite <-!app_assoc. rewrite reverse_app, <-app_assoc in H3.
      split_and!; [done..|]. by exists t1, t2, c2.
Qed.
Lemma parses_seq_nil before s rest caps caps' :
  parses (seq []) before s rest caps caps' ↔ s = [] ∧ caps' = caps.
Proof. split; [intros H; by inversion H|]. intros [-> ->]. constructor. Qed.
Lemma parses_class p before s rest caps caps' :
  parses (Class p) before s rest caps caps' ↔ ∃ c, s = [c] ∧ p c = true ∧ caps' = caps.
Proof. split; [intros H; inversion H; subst; eauto|]. intros (c&->&Hc&->). by constructor. Qed.
Lemma parses_char c before s rest caps caps' :
  parses (char c) before s rest caps caps' ↔ s = [c] ∧ caps' = caps.
Proof.
  unfold char. rewrite parses_class. split; [by intros (d&->& ->%Z.eqb_eq&->)|].
  intros [-> ->]. exists c. by rewrite Z.eqb_refl.
Qed.
Lemma parses_lit w before s rest caps caps' :
  parses (lit w) before s rest caps caps' ↔ s = w ∧ caps' = caps.
Proof.
  revert before s caps. induction w as [|c w IH]; intros before s caps; [apply parses_seq_nil|].
  change (lit (c :: w)) with (seq (char c :: (char <$> w))). rewrite parses_seq_cons.
  change (seq (char <$> w)) with (lit w). split.
  - by intros (s1&s2&c1&->&[-> ->]%parses_char&[-> ->]%IH).
  - intros [-> ->]. exists [c], w, caps. by rewrite parses_char, IH.
Qed.
Lemma parses_star g p before s rest caps caps' :
  parses (Star g (Class p)) before s rest caps caps' ↔ Forall (λ c, p c = true) s ∧ caps' = caps.
Proof.
  split.
  - remember (Star g (Class p)) as r eqn:Er.
    induction 1 as [| | | | | |????????? Hne H1 _ H2 IH| | | |]; simplify_eq; [by split|].
    destruct (IH eq_refl) as [IH' ->]. apply parses_class in H1 as (c&->&Hc&->). split; [by constructor|done].
  - intros [Hs ->]. revert before. induction Hs as [|c s Hc _ IH]; intros before; [constructor|].
    apply (parse_more _ _ _ _ [c] s _ _ caps); [done|by constructor|apply IH].
Qed.
Lemma parses_plus g p before s rest caps caps' :
  parses (plus g (Class p)) before s rest caps caps' ↔
  s ≠ [] ∧ Forall (λ c, p c = true) s ∧ caps' = caps.
Proof.
  unfold plus. split.
  - intros H. inversion H as [| |??????? c1 ? H1 H2| | | | | | | |]; subst.
    apply parses_class in H1 as (c&->&Hc&->). apply parses_star in H2 as [H2 ->].
    split_and!; [done|by constructor|done].
  - intros (Hne&Hs&->). destruct Hs as [|c s' Hc Hs]; [done|].
    apply (parse_seq _ _ _ _ [c] s' _ _ caps); [by constructor|by apply parses_star].
Qed.
Lemma parses_group n r before s rest caps caps' :
  parses (Group n r) before s rest caps caps' ↔
  ∃ caps1, caps' = (n, s) :: caps1 ∧ parses r before s rest caps caps1.
Proof. split; [intros H; inversion H; subst; eauto|]. intros (c&->&H). by constructor. Qed.
Lemma parses_opt r before s rest caps caps' :
  parses (opt r) before s rest caps caps' ↔ parses r before s rest caps caps' ∨ s = [] ∧ caps' = caps.
Proof.
  unfold opt. split.
  - intros H. inversion H as [| | | |????????H1| | | | | |]; subst; [by left|right]. by inversion H1.
  - intros [H|[-> ->]]; [by apply parse_left|]. apply parse_right. constructor.
Qed.
Lemma parses_begin before s rest caps caps' :
  parses Begin before s rest caps caps' ↔ s = [] ∧ before = [] ∧ caps' = caps.
Proof. split; [intros H; by inversion H|]. intros (->&->&->). constructor. Qed.
Lemma parses_end before s rest caps caps' :
  parses End_ before s rest caps caps' ↔ s = [] ∧ at_end rest = true ∧ caps' = caps.
Proof. split; [intros H; by inversion H|]. intros (->&He&->). by constructor. Qed.
(** An expression without groups records nothing. *)
Fixpoint no_groups (r : regex) : bool :=
  match r with
  | Seq a b | Alt a b => no_groups a && no_groups b
  | Star _ a => no_groups a
  | Group _ _ => false
  | _ => true
  end.
Lemma parses_no_groups r before s rest caps caps' :
  no_groups r = true → parses r before s rest caps caps' → caps' = caps.
Proof.
  intros Hr Hp. induction Hp; cbn [no_groups] in *; rewrite ?andb_true_iff in Hr; try done;
    repeat match goal with H : _ ∧ _ |- _ => destruct H end; naive_solver.
Qed.
Lemma parses_boundary before s rest caps caps' :
  parses WordBoundary before s rest caps caps' ↔ s = [] ∧ at_boundary is_word before rest = true ∧ caps' = caps.
Proof. split; [intros H; by inversion H|]. intros (->&He&->). by constructor. Qed.
Lemma parses_alt a b before s rest caps caps' :
  parses (Alt a b) before s rest caps caps' ↔
  parses a before s rest caps caps' ∨ parses b before s rest caps caps'.
Proof.
  split; [intros H; inversion H; auto|]. intros [H|H]; [by apply parse_left|by apply parse_right].
Qed.
Lemma parses_seq_one r before s rest caps caps' :
  parses r before s rest caps caps' → parses (seq [r]) before s rest caps caps'.
Proof.
  intros H. rewrite <-(app_nil_r s). eapply parses_seq_intro; [exact H|]. by apply parses_seq_nil.
Qed.
Lemma parses_seq_end r before s caps caps' :
  parses r before s [] caps caps' → parses (seq [r; End_]) before s [] caps caps'.
Proof.
  intros H. rewrite <-(app_nil_r s). eapply parses_seq_intro; [exact H|]. apply parses_seq_one. by apply parses_end.
Qed.
End shapes.

Lemma group_here n s caps : group ((n, s) :: caps) n = s.
Proof. unfold group. cbn. by rewrite decide_True. Qed.
Lemma group_there n n' s caps : n ≠ n' → group ((n, s) :: caps) n' = group caps n'.
Proof. intros Hn. unfold group. cbn. rewrite decide_False by done. by destruct (list_find _ caps) as [ [] |]. Qed.

(** At the end of a line without line breaks nothing is left. *)
Lemma plain_end s rest : plain (s ++ rest) → at_end rest = true → rest = [].
Proof.
  unfold at_end. rewrite bool_decide_eq_true. intros [_ Hp]%Forall_app [->| ->]; [done|].
  by inversion Hp.
Qed.

(** Takes a parse apart. *)
Ltac parse_shape :=
  repeat match goal with
  | H : parses _ (seq (_ :: _)) _ _ _ _ _ |- _ =>
      apply parses_seq_cons in H; destruct H as (?&?&?&->&?&?)
  | H : parses _ (seq []) _ _ _ _ _ |- _ => apply parses_seq_nil in H; destruct H as [-> ->]
  | H : parses _ (char _) _ _ _ _ _ |- _ => apply parses_char in H; destruct H as [-> ->]
  | H : parses _ (lit _) _ _ _ _ _ |- _ => apply parses_lit in H; destruct H as [-> ->]
  | H : parses _ (Class _) _ _ _ _ _ |- _ => apply parses_class in H; destruct H as (?&->&?&->)
  | H : parses _ (plus _ (Class _)) _ _ _ _ _ |- _ => apply parses_plus in H; destruct H as (?&?&->)
  | H : parses _ (Star _ (Class _)) _ _ _ _ _ |- _ => apply parses_star in H; destruct H as (?&->)
  | H : parses _ (Group _ _) _ _ _ _ _ |- _ => apply parses_group in H; destruct H as (?&->&?)
  | H : parses _ Begin _ _ _ _ _ |- _ => apply parses_begin in H; destruct H as (->&?&->)
  | H : parses _ End_ _ _ _ _ _ |- _ => apply parses_end in H; destruct H as (->&?&->)
  end.

(** ** Matching a text of known shape *)

Section forward.
Context (is_word : Z → bool).
Implicit Types (before rest s t : pystr) (caps : captures)
  (k : pystr → pystr → captures → option captures).
Local Abbreviation run := (run is_word).

Lemma run_seq r rs before rest caps k :
  run (seq (r :: rs)) before rest caps k =
  run r before rest caps (λ before rest caps, run (seq rs) before rest caps k).
Proof. done. Qed.

Lemma run_char c before rest caps k : run (char c) before (c :: rest) caps k = k (c :: before) rest caps.
Proof. cbn. by rewrite Z.eqb_refl. Qed.
Lemma run_char_other c d before rest caps k : c ≠ d → run (char c) before (d :: rest) caps k = None.
Proof. intros H. cbn. by apply Z.eqb_neq in H as ->. Qed.

Lemma run_lit s before rest caps k :
  run (lit s) before (s ++ rest) caps k = k (reverse s ++ before) rest caps.
Proof.
  revert before. induction s as [|c s IH]; intros before; [done|].
  change (lit (c :: s)) with (seq (char c :: (char <$> s))). rewrite run_seq, <-app_comm_cons, run_char.
  change (seq (char <$> s)) with (lit s). rewrite IH. by rewrite reverse_cons, <-app_assoc.
Qed.

(** A greedy repetition takes the longest run, when what follows matches after it. *)
Lemma repeat_longest p ws t k caps fuel before x :
  Forall (λ c, p c = true) ws → (length (ws ++ t) <= fuel)%nat →
  match t with c :: _ => p c = false | [] => True end →
  k (reverse ws ++ before) t caps = Some x →
  repeat_ true (run (Class p)) k fuel before (ws ++ t) caps = Some x.
Proof.
  intros Hws Hf Ht. revert before fuel Hf. induction Hws as [|c ws Hc _ IH]; intros before fuel Hf Hk.
  - destruct fuel as [|fuel]; cbn [repeat_ app run]; [done|]. destruct t as [|c t]; [by cbn|].
    cbn [run]. by rewrite Ht.
  - destruct fuel as [|fuel]; [cbn in Hf; lia|]. cbn [repeat_ app run]. rewrite Hc.
    assert ((length (ws ++ t) <? length (c :: ws ++ t))%nat = true) as -> by (apply Nat.ltb_lt; cbn; lia).
    rewrite IH; [done|cbn in Hf; lia|]. by rewrite reverse_cons, <-app_assoc in Hk.
Qed.
Lemma star_longest p ws t k caps before x :
  Forall (λ c, p c = true) ws → match t with c :: _ => p c = false | [] => True end →
  k (reverse ws ++ before) t caps = Some x →
  run (Star true (Class p)) before (ws ++ t) caps k = Some x.
Proof. intros. by apply repeat_longest. Qed.
Lemma plus_longest p ws t k caps before x :
  ws ≠ [] → Forall (λ c, p c = true) ws → match t with c :: _ => p c = false | [] => True end →
  k (reverse ws ++ before) t caps = Some x →
  run (plus true (Class p)) before (ws ++ t) caps k = Some x.
Proof.
  intros Hne Hws Ht Hk. destruct Hws as [|c ws Hc Hws]; [done|].
  cbn [plus run app]. rewrite Hc. apply (star_longest p ws t); [done..|].
  by rewrite reverse_cons, <-app_assoc in Hk.
Qed.

(** A lazy repetition stops as soon as what follows matches. *)
Lemma repeat_shortest p ws t k caps fuel before x :
  Forall (λ c, p c = true) ws → (length ws <= fuel)%nat →
  (∀ a b, ws = a ++ b → b ≠ [] → k (reverse a ++ before) (b ++ t) caps = None) →
  k (reverse ws ++ before) t caps = Some x →
  repeat_ false (run (Class p)) k fuel before (ws ++ t) caps = Some x.
Proof.
  intros Hws. revert before fuel. induction Hws as [|c ws Hc _ IH]; intros before fuel Hf Hs Hk.
  - destruct fuel; cbn [repeat_ app]; cbn in Hk; by rewrite Hk.
  - destruct fuel as [|fuel]; [cbn in Hf; lia|]. cbn [repeat_].
    pose proof (Hs [] (c :: ws) eq_refl ltac:(done)) as H0. rewrite reverse_nil, app_nil_l in H0.
    rewrite H0. cbn [orelse run app].
    rewrite Hc. assert ((length (ws ++ t) <? length (c :: ws ++ t))%nat = true) as -> by (apply Nat.ltb_lt; cbn; lia).
    apply IH; [cbn in Hf; lia| |by rewrite reverse_cons, <-app_assoc in Hk].
    intros a b -> Hb. specialize (Hs (c :: a) b eq_refl Hb). by rewrite reverse_cons, <-app_assoc in Hs.
Qed.
Lemma plus_shortest p ws t k caps before x :
  ws ≠ [] → Forall (λ c, p c = true) ws →
  (∀ a b, ws = a ++ b → a ≠ [] → b ≠ [] → k (reverse a ++ before) (b ++ t) caps = None) →
  k (reverse ws ++ before) t caps = Some x →
  run (plus false (Class p)) before (ws ++ t) caps k = Some x.
Proof.
  intros Hne Hws Hs Hk. destruct Hws as [|c ws Hc Hws]; [done|]. cbn [plus run app]. rewrite Hc.
  apply (repeat_shortest p ws t); [done|rewrite length_app; lia| |].
  - intros a b -> Hb. specialize (Hs (c :: a) b eq_refl ltac:(done) Hb).
    by rewrite reverse_cons, <-app_assoc in Hs.
  - by rewrite reverse_cons, <-app_assoc in Hk.
Qed.

(** The empty text, and what [X\s*$] makes of a last character that is not blank. *)
Lemma run_end before caps k : run End_ before [] caps k = k before [] caps.
Proof. done. Qed.
Lemma run_nil before rest caps k : run (seq []) before rest caps k = k before rest caps.
Proof. done. Qed.
Definition trailer : regex := seq [Star true space; End_].
Lemma run_trailer before caps k : run trailer before [] caps k = k before [] caps.
Proof. cbn. by destruct (k before [] caps). Qed.
Lemma run_trailer_none s c before caps k :
  is_space c = false → run trailer before (s ++ [c]) caps k = None.
Proof.
  intros Hc. destruct (run _ _ _ _ _) as [x|] eqn:Hx; [exfalso|done].
  apply (proj1 (run_explores is_word _ _ _ _ _)) in Hx as (t&rest&c'&E&Ha&_). unfold trailer, space in Ha.
  parse_shape. match goal with H : at_end _ = true |- _ => rename H into He end.
  apply bool_decide_eq_true in He. rewrite app_nil_l in He. rewrite !app_nil_r in E.
  match goal with H : Forall _ ?w |- _ => rename H into Hw; assert (c ∈ w ++ rest) as [Hin|Hin]%elem_of_app end.
  { rewrite <-E. apply elem_of_app. right. left. }
  - rewrite Forall_forall in Hw. by rewrite (Hw c Hin) in Hc.
  - destruct He as [->| ->]; [by apply elem_of_nil in Hin|]. apply list_elem_of_singleton in Hin. by subst.
Qed.
End forward.

End PyRe.
