(* ===== verification/PySha.v ===== *)
(** [hashlib.sha256(data).hexdigest()], as FIPS 180-4 defines it: words are integers
    below 2^32 and bytes integers below 256. *)

From S2P Require Import Prelude PyValue PyText.
Local Open Scope Z_scope.

Definition word_mask : Z := 4294967295.
Definition add32 (x y : Z) : Z := Z.land (x + y) word_mask.
Definition rotr (n x : Z) : Z :=
  Z.lor (Z.shiftr x n) (Z.land (Z.shiftl x (32 - n)) word_mask).

Definition big_sigma0 (x : Z) : Z := Z.lxor (rotr 2 x) (Z.lxor (rotr 13 x) (rotr 22 x)).
Definition big_sigma1 (x : Z) : Z := Z.lxor (rotr 6 x) (Z.lxor (rotr 11 x) (rotr 25 x)).
Definition small_sigma0 (x : Z) : Z := Z.lxor (rotr 7 x) (Z.lxor (rotr 18 x) (Z.shiftr x 3)).
Definition small_sigma1 (x : Z) : Z := Z.lxor (rotr 17 x) (Z.lxor (rotr 19 x) (Z.shiftr x 10)).
Definition choose (x y z : Z) : Z := Z.lxor (Z.land x y) (Z.land (Z.lxor x word_mask) z).
Definition majority (x y z : Z) : Z :=
  Z.lxor (Z.land x y) (Z.lxor (Z.land x z) (Z.land y z)).

Definition initial_hash : list Z :=
  [
    1779033703; 3144134277; 1013904242; 2773480762; 1359893119; 2600822924; 528734635;
    1541459225].
Definition round_constants : list Z :=
  [
    1116352408; 1899447441; 3049323471; 3921009573; 961987163; 1508970993; 2453635748;
    2870763221; 3624381080; 310598401; 607225278; 1426881987; 1925078388; 2162078206;
    2614888103; 3248222580; 3835390401; 4022224774; 264347078; 604807628; 770255983;
    1249150122; 1555081692; 1996064986; 2554220882; 2821834349; 2952996808; 3210313671;
    3336571891; 3584528711; 113926993; 338241895; 666307205; 773529912; 1294757372;
    1396182291; 1695183700; 1986661051; 2177026350; 2456956037; 2730485921; 2820302411;
    3259730800; 3345764771; 3516065817; 3600352804; 4094571909; 275423344; 430227734;
    506948616; 659060556; 883997877; 958139571; 1322822218; 1537002063; 1747873779;
    1955562222; 2024104815; 2227730452; 2361852424; 2428436474; 2756734187; 3204031479;
    3329325298].

(** Padding to whole blocks of 64 bytes: one bit, zeros, and the length in bits. *)
Definition big_endian (width : nat) (n : Z) : list Z :=
  (λ i : nat, Z.land (Z.shiftr n (8 * Z.of_nat i)) 255) <$> reverse (seq 0 width).
Definition pad_message (data : list Z) : list Z :=
  let n := Z.of_nat (length data) in
  data ++ [128] ++ replicate (Z.to_nat ((55 - n) mod 64)) 0 ++ big_endian 8 (8 * n).

(** Big-endian words of a byte string. *)
Fixpoint words_of (bytes : list Z) : list Z :=
  match bytes with
  | a :: b :: c :: d :: bytes =>
      (Z.lor (Z.shiftl a 24) (Z.lor (Z.shiftl b 16) (Z.lor (Z.shiftl c 8) d))) :: words_of bytes
  | _ => []
  end.

(** The message schedule, the last sixteen words first. *)
Fixpoint extend (n : nat) (window : list Z) : list Z :=
  match n with
  | O => []
  | S n =>
      match window with
      | w16 :: w15 :: rest =>
          let w7 := nth 7 rest 0 in
          let w2 := nth 12 rest 0 in
          let w := add32 (add32 (small_sigma1 w2) w7) (add32 (small_sigma0 w15) w16) in
          w :: extend n (w15 :: rest ++ [w])
      | _ => []
      end
  end.
Definition schedule (block : list Z) : list Z := block ++ extend 48 block.

Definition round (st : list Z) (kw : Z * Z) : list Z :=
  match st with
  | [a; b; c; d; e; f; g; h] =>
      let t1 := add32 (add32 (add32 h (big_sigma1 e)) (add32 (choose e f g) kw.1)) kw.2 in
      let t2 := add32 (big_sigma0 a) (majority a b c) in
      [add32 t1 t2; a; b; c; add32 d t1; e; f; g]
  | _ => st
  end.

Definition compress (hash block : list Z) : list Z :=
  zip_with add32 hash (foldl round hash (zip round_constants (schedule block))).

Fixpoint compress_all (blocks : nat) (hash words : list Z) : list Z :=
  match blocks with
  | O => hash
  | S blocks => compress_all blocks (compress hash (take 16 words)) (drop 16 words)
  end.

Definition hex_byte (b : Z) : pystr :=
  let lower_hex n := if n <? 10 then 48 + n else 87 + n in
  [lower_hex (b / 16); lower_hex (b mod 16)].

Definition sha256 (data : list Z) : list Z :=
  let words := words_of (pad_message data) in
  compress_all (length words / 16) initial_hash words ≫= big_endian 4.
Definition sha256_hexdigest (data : list Z) : pystr := sha256 data ≫= hex_byte.

Example sha256_empty :
  sha256_hexdigest [] = u "e3b0c44298fc1c149afbf4c8996fb92427ae41e4649b934ca495991b7852b855".
Proof. vm_compute. reflexivity. Qed.
Example sha256_abc :
  sha256_hexdigest (u "abc") = u "ba7816bf8f01cfea414140de5dae2223b00361a396177a9cb410ff61f20015ad".
Proof. vm_compute. reflexivity. Qed.
Example sha256_two_blocks :
  sha256_hexdigest (u "abcdbcdecdefdefgefghfghighijhijkijkljklmklmnlmnomnopnopq") =
  u "248d6a61d20638b8e5c026930c3e6039a33ce45964ff2167f6ecedd419db06c1".
Proof. vm_compute. reflexivity. Qed.

(** [hmac.new(key, message, "sha256").hexdigest()] (RFC 2104) *)
Definition hmac_pad (pad : Z) (key : list Z) : list Z :=
  let key := if (64 <? length key)%nat then sha256 key else key in
  Z.lxor pad <$> (key ++ replicate (64 - length key) 0).
Definition hmac_sha256 (key message : list Z) : list Z :=
  sha256 (hmac_pad 92 key ++ sha256 (hmac_pad 54 key ++ message)).
Definition hmac_hexdigest (key message : list Z) : pystr := hmac_sha256 key message ≫= hex_byte.

Example hmac_example :
  hmac_hexdigest (u "Jefe") (u "what do ya want for nothing?") =
  u "5bdcc146bf60754e6a042426089575c75a003f089d2739839dec58b964ec3843".
Proof. vm_compute. reflexivity. Qed.
