(* ===== verification/PyUrl.v ===== *)
(** [urllib.parse.urlsplit] and [urlunsplit], the attributes of a split result, the
    validity check of bracketed hosts ([ipaddress]), and [posixpath.normpath], as in
    CPython 3.12. *)

From S2P Require Import Prelude PyValue PyText.
Local Open Scope Z_scope.

(** * Bracketed hosts *)

(** [IPv4Address._parse_octet] succeeds. *)
Definition ipv4_octet (s : pystr) : bool :=
  str_truthy s && forallb is_digit s && (length s <=? 3)%nat &&
  (bool_decide (s = [48]) || negb (startswith s [48])) && (int_of_digits s <=? 255).
Definition ipv4_valid (s : pystr) : bool :=
  let octets := split_on 46 s in (length octets =? 4)%nat && forallb ipv4_octet octets.

(** [IPv6Address._parse_hextet] succeeds. *)
Definition hextet (s : pystr) : bool :=
  str_truthy s && forallb is_hex s && (length s <=? 4)%nat.

(** The parts of an address between colons; a dotted suffix has become two hextets. *)
Definition ipv6_parts (s : pystr) : option (list pystr) :=
  let parts := split_on 58 s in
  if (length parts <? 3)%nat then None
  else
    let last_part := default [] (last parts) in
    if mem 46 last_part then
      if ipv4_valid last_part
      then Some (take (length parts - 1) parts ++ [[48]; [48]])
      else None
    else Some parts.

(** The positions of empty parts other than the first and the last. *)
Definition skips (parts : list pystr) : list nat :=
  filter (λ i, parts !! i = Some []) (seq 1 (length parts - 2)).

Definition ipv6_parts_valid (parts : list pystr) : bool :=
  let n := length parts in
  let first_empty := bool_decide (head parts = Some []) in
  let last_empty := bool_decide (last parts = Some []) in
  (n <=? 9)%nat &&
  match skips parts with
  | _ :: _ :: _ => false
  | [k] =>
      let hi := (k - Nat.b2n first_empty)%nat in
      let lo := (n - k - 1 - Nat.b2n last_empty)%nat in
      negb (first_empty && negb (hi =? 0)%nat) &&
      negb (last_empty && negb (lo =? 0)%nat) &&
      (hi + lo <=? 7)%nat &&
      forallb hextet (take hi parts) && forallb hextet (drop (n - lo) parts)
  | [] => (n =? 8)%nat && negb first_empty && negb last_empty && forallb hextet parts
  end.

(** [ipaddress.ip_address(s)] returns an IPv6 address. A scope identifier is allowed
    after a percent sign. *)
Definition ipv6_valid (s : pystr) : bool :=
  let '(addr, scope) := partition 37 s in
  negb (mem 47 s) &&
  match scope with
  | Some id => str_truthy id && negb (mem 37 id)
  | None => true
  end &&
  match ipv6_parts addr with Some parts => ipv6_parts_valid parts | None => false end.

(** The pattern [\Av[a-fA-F0-9]+\..+\Z]; [s] has no line feed. *)
Definition ipvfuture_valid (s : pystr) : bool :=
  match s with
  | 118 :: s =>
      match partition 46 s with
      | (version, Some (_ :: _)) => str_truthy version && forallb is_hex version
      | _ => false
      end
  | _ => false
  end.

Definition _check_bracketed_host (hostname : pystr) : bool :=
  if startswith hostname (u "v") then ipvfuture_valid hostname else ipv6_valid hostname.

Definition _check_bracketed_netloc (netloc : pystr) : bool :=
  let '(_, hostname_and_port) := rpartition 64 netloc in
  match partition 91 hostname_and_port with
  | (before_bracket, Some bracketed) =>
      let '(hostname, port) := partition 93 bracketed in
      bool_decide (before_bracket = []) &&
      match port with Some ((_ :: _) as port) => startswith port (u ":") | _ => true end &&
      _check_bracketed_host hostname
  | (hostname_and_port, None) => _check_bracketed_host (partition 58 hostname_and_port).1
  end.

(** * Splitting *)

Record SplitResult := MkSplit {
  scheme : pystr;
  netloc : pystr;
  path : pystr;
  query : pystr;
  fragment : pystr;
}.

(** Leading C0 control characters and spaces go, then tabs and line breaks anywhere. *)
Fixpoint lstrip_c0 (s : pystr) : pystr :=
  match s with
  | [] => []
  | c :: s' => if c <=? 32 then lstrip_c0 s' else s
  end.
Definition unsafe_char (c : Z) : Prop := c = 9 ∨ c = 10 ∨ c = 13.
#[export] Instance unsafe_char_dec c : Decision (unsafe_char c).
Proof. unfold unsafe_char. apply _. Defined.
Definition clean_url (s : pystr) : pystr := filter (λ c, ¬ unsafe_char c) (lstrip_c0 s).

Definition scheme_char (c : Z) : bool :=
  is_alpha c || is_digit c || (c =? 43) || (c =? 45) || (c =? 46).

Definition split_scheme (url : pystr) : pystr * pystr :=
  match partition 58 url with
  | ((c :: _) as pre, Some post) =>
      if is_alpha c && forallb scheme_char pre then (ascii_lower <$> pre, post)
      else ([], url)
  | _ => ([], url)
  end.

(** [_splitnetloc]: up to the first slash, question mark or number sign. *)
Definition netloc_delim (c : Z) : bool := (c =? 47) || (c =? 63) || (c =? 35).
Fixpoint _splitnetloc (url : pystr) : pystr * pystr :=
  match url with
  | [] => ([], [])
  | c :: url' =>
      if netloc_delim c then ([], url)
      else let '(domain, rest) := _splitnetloc url' in (c :: domain, rest)
  end.

(** The NFKC form of the network location must not contain a delimiter that it did not
    contain itself. *)
Definition _checknetloc `{UnicodeData} (netloc : pystr) : bool :=
  bool_decide (netloc = []) || isascii netloc ||
  let n := filter (λ c, c ∉ [64; 58; 35; 63]) netloc in
  let netloc2 := nfkc n in
  bool_decide (n = netloc2) || forallb (λ c, negb (mem c netloc2)) [47; 63; 35; 64; 58].

Definition brackets_ok (netloc : pystr) : bool :=
  if mem 91 netloc && mem 93 netloc then _check_bracketed_netloc netloc
  else negb (mem 91 netloc || mem 93 netloc).

Definition urlsplit `{UnicodeData} (url : pystr) : result exn SplitResult :=
  let url := clean_url url in
  let '(scheme, url) := split_scheme url in
  let '(netloc, url) :=
    match url with
    | 47 :: 47 :: rest => _splitnetloc rest
    | _ => ([], url)
    end in
  if brackets_ok netloc then
    let '(url, fragment) := partition 35 url in
    let '(path, query) := partition 63 url in
    if _checknetloc netloc
    then Ok (MkSplit scheme netloc path (default [] query) (default [] fragment))
    else Err (ValueError "netloc contains invalid characters under NFKC normalization")
  else Err (ValueError "Invalid IPv6 URL").

(** * The attributes of the network location *)

Definition _userinfo (netloc : pystr) : option pystr * option pystr :=
  match rpartition 64 netloc with
  | (Some userinfo, _) =>
      let '(username, password) := partition 58 userinfo in (Some username, password)
  | (None, _) => (None, None)
  end.

Definition _hostinfo (netloc : pystr) : pystr * option pystr :=
  let '(_, hostinfo) := rpartition 64 netloc in
  let '(hostname, port) :=
    match partition 91 hostinfo with
    | (_, Some bracketed) =>
        let '(hostname, rest) := partition 93 bracketed in
        (hostname, (partition 58 (default [] rest)).2)
    | (_, None) => partition 58 hostinfo
    end in
  (hostname, match port with Some ((_ :: _) as p) => Some p | _ => None end).

(** The zone of a scoped address keeps its case. *)
Definition hostname_of `{UnicodeData} (netloc : pystr) : option pystr :=
  match _hostinfo netloc with
  | ([], _) => None
  | (hostname, _) =>
      match partition 37 hostname with
      | (host, Some zone) => Some (lower host ++ [37] ++ zone)
      | (host, None) => Some (lower host)
      end
  end.

Definition port_of (netloc : pystr) : result exn (option Z) :=
  match (_hostinfo netloc).2 with
  | None => Ok None
  | Some port =>
      if forallb is_digit port then
        let n := int_of_digits port in
        if n <=? 65535 then Ok (Some n) else Err (ValueError "Port out of range 0-65535")
      else Err (ValueError "Port could not be cast to integer value")
  end.

(** * Assembling *)

(** The network location is not empty in the calls modelled. *)
Definition urlunsplit (r : SplitResult) : pystr :=
  let url := path r in
  let url :=
    if str_truthy (netloc r) then
      u "//" ++ netloc r ++ (if str_truthy url && negb (startswith url [47]) then 47 :: url else url)
    else url in
  let url := if str_truthy (scheme r) then scheme r ++ 58 :: url else url in
  let url := if str_truthy (query r) then url ++ 63 :: query r else url in
  if str_truthy (fragment r) then url ++ 35 :: fragment r else url.

(** * [posixpath.normpath] *)

Definition dot : pystr := [46].
Definition dotdot : pystr := [46; 46].

(** One component against the components kept so far, the last one first. *)
Definition norm_step (rooted : bool) (kept : list pystr) (comp : pystr) : list pystr :=
  if decide (comp = [] ∨ comp = dot) then kept
  else if decide (comp ≠ dotdot ∨ (rooted = false ∧ kept = []) ∨ head kept = Some dotdot)
  then comp :: kept
  else match kept with _ :: kept => kept | [] => [] end.
Definition norm_comps (rooted : bool) (comps : list pystr) : list pystr :=
  reverse (foldl (norm_step rooted) [] comps).

Definition initial_slashes (path : pystr) : nat :=
  match path with
  | 47 :: 47 :: 47 :: _ => 1
  | 47 :: 47 :: _ => 2
  | 47 :: _ => 1
  | _ => 0
  end.
Definition normpath (path : pystr) : pystr :=
  if str_truthy path then
    let slashes := initial_slashes path in
    let body := join [47] (norm_comps (0 <? slashes)%nat (split_on 47 path)) in
    let path := replicate slashes 47 ++ body in
    if str_truthy path then path else dot
  else dot.

Example normpath_example : normpath (u "/a/./b//../c/") = u "/a/c".
Proof. vm_compute. reflexivity. Qed.
Example ipv6_example :
  forallb ipv6_valid [u "::1"; u "::"; u "1:2:3:4:5:6:7:8"; u "fe80::1%eth0"; u "::ffff:1.2.3.4"] = true ∧
  existsb ipv6_valid [u "1.2.3.4"; u ":::"; u "1::2::3"; u "1:2:3:4:5:6:7"; u "g::"; u ":1:2:3:4:5:6:7"] = false.
Proof. vm_compute. done. Qed.
Example urlsplit_example :
  urlsplit (u " HTTP://User@Ex.ORG:80/a?b#c") =
  Ok (MkSplit (u "http") (u "User@Ex.ORG:80") (u "/a") (u "b") (u "c")).
Proof. vm_compute. reflexivity. Qed.

(** * Lemmas *)

(** ** Splitting what was put together *)

Definition tail_ok (rest : pystr) : Prop :=
  match rest with [] => True | c :: _ => netloc_delim c = true end.

Lemma splitnetloc_app nl rest :
  Forall (λ c, netloc_delim c = false) nl → tail_ok rest →
  _splitnetloc (nl ++ rest) = (nl, rest).
Proof.
  intros Hnl Hr. induction Hnl as [|c nl Hc _ IH]; simpl.
  - destruct rest as [|c rest]; [done|]. simpl in *. by rewrite Hr.
  - by rewrite Hc, IH.
Qed.

Lemma splitnetloc_spec s :
  let '(domain, rest) := _splitnetloc s in
  s = domain ++ rest ∧ Forall (λ c, netloc_delim c = false) domain ∧ tail_ok rest.
Proof.
  induction s as [|c s IH]; simpl; [done|].
  destruct (netloc_delim c) eqn:E; simpl; [by rewrite E|].
  destruct (_splitnetloc s) as [d r], IH as (->&?&?). simpl. auto.
Qed.

Lemma split_scheme_app s rest :
  forallb scheme_char s = true → (∃ c s', s = c :: s' ∧ is_alpha c = true) →
  split_scheme (s ++ 58 :: rest) = (ascii_lower <$> s, rest).
Proof.
  intros Hs (c&s'&->&Hc). unfold split_scheme. rewrite partition_app.
  - by rewrite Hc, Hs.
  - intros Hin%list_elem_of_In. rewrite forallb_forall in Hs. by apply Hs in Hin.
Qed.

(** The parts a URL text can be assembled from so that splitting finds them again. *)
Record splittable (s nl p q f : pystr) : Prop := MkSplittable {
  sp_scheme : forallb scheme_char s = true ∧ ∃ c s', s = c :: s' ∧ is_alpha c = true;
  sp_netloc : Forall (λ c, netloc_delim c = false) nl;
  sp_ascii : isascii nl = true;
  sp_unbracketed : (91 ∉ nl) ∧ (93 ∉ nl);
  sp_path : p = [] ∨ ∃ p', p = 47 :: p';
  sp_path_chars : (63 ∉ p) ∧ (35 ∉ p);
  sp_query : 35 ∉ q;
  sp_clean : Forall (λ c, ¬ unsafe_char c) (nl ++ p ++ q ++ f);
}.

(** The text with its optional parts; an absent query or fragment has no delimiter. *)
Definition assemble (s nl p : pystr) (q f : option pystr) : pystr :=
  s ++ u "://" ++ nl ++ p ++ match q with Some q => 63 :: q | None => [] end
    ++ match f with Some f => 35 :: f | None => [] end.

Lemma scheme_char_clean c : scheme_char c = true → 32 < c ∧ ¬ unsafe_char c.
Proof.
  unfold scheme_char, is_alpha, is_digit, unsafe_char.
  rewrite !orb_true_iff, !andb_true_iff, !Z.leb_le, !Z.eqb_eq. lia.
Qed.

Lemma clean_url_id s :
  Forall (λ c, ¬ unsafe_char c) s → (∃ c s', s = c :: s' ∧ 32 < c) → clean_url s = s.
Proof.
  intros Hs (c&s'&->&Hc). unfold clean_url. simpl.
  destruct (Z.leb_spec c 32); [lia|]. by apply filter_id.
Qed.

Lemma assemble_clean s nl p q f :
  splittable s nl p (default [] q) (default [] f) →
  clean_url (assemble s nl p q f) = assemble s nl p q f.
Proof.
  intros [(Hs&c&s'&->&Hc) _ _ _ _ _ _ Hcl]. apply clean_url_id.
  - rewrite !Forall_app in Hcl. destruct Hcl as (?&?&Hq&Hf).
    unfold assemble. rewrite !Forall_app. split_and!; try done.
    + rewrite forallb_forall in Hs. apply Forall_forall. intros d Hd%list_elem_of_In.
      by apply Hs, scheme_char_clean in Hd as [_ ?].
    + by_eval.
    + destruct q; [constructor; [unfold unsafe_char; lia|done]|done].
    + destruct f; [constructor; [unfold unsafe_char; lia|done]|done].
  - exists c. eexists. split; [done|].
    simpl in Hs. apply andb_true_iff in Hs as [?%scheme_char_clean _]. naive_solver.
Qed.

Lemma urlsplit_assemble `{UnicodeData} s nl p q f :
  splittable s nl p (default [] q) (default [] f) →
  urlsplit (assemble s nl p q f) =
  Ok (MkSplit (ascii_lower <$> s) nl p (default [] q) (default [] f)).
Proof.
  intros Hsp. unfold urlsplit. rewrite assemble_clean by done.
  destruct Hsp as [[Hs Ha] Hnl Has [Hb1 Hb2] Hp [Hp1 Hp2] Hq _].
  unfold assemble. change (u "://") with [58; 47; 47]. cbn [app].
  rewrite split_scheme_app by done. cbv beta iota. rewrite splitnetloc_app; [|done|].
  2: { destruct Hp as [-> | [p' ->] ]; [|done]. destruct q; [done|]. by destruct f. }
  cbv beta iota.
  assert (brackets_ok nl = true) as ->.
  { unfold brackets_ok. by rewrite (proj2 (mem_false 91 nl)), (proj2 (mem_false 93 nl)). }
  assert (_checknetloc nl = true) as Hchk.
  { unfold _checknetloc. by rewrite Has, orb_true_r. }
  assert (∀ t, 35 ∉ t → partition 35 (t ++ match f with Some f => 35 :: f | None => [] end) = (t, f))
    as Hf.
  { intros t Ht. destruct f; [by apply partition_app|]. rewrite app_nil_r. by apply partition_none. }
  rewrite app_assoc, Hf.
  2: { rewrite not_elem_of_app. split; [done|]. destruct q; set_solver. }
  assert (partition 63 (p ++ match q with Some q => 63 :: q | None => [] end) = (p, q)) as ->.
  { destruct q; [by apply partition_app|]. rewrite app_nil_r. by apply partition_none. }
  by rewrite Hchk.
Qed.

Lemma urlunsplit_assemble s nl p q :
  s ≠ [] → nl ≠ [] → (∃ p', p = 47 :: p') →
  urlunsplit (MkSplit s nl p q []) = assemble s nl p (if str_truthy q then Some q else None) None.
Proof.
  intros Hs Hnl [p' ->]. unfold urlunsplit, assemble. cbn [path netloc scheme query fragment].
  assert (startswith (47 :: p') [47] = true) as -> by (by destruct p').
  destruct s as [|c s]; [done|]. destruct nl as [|d nl]; [done|]. cbn [str_truthy negb andb].
  change (u "://") with (58 :: u "//").
  destruct q; cbn [str_truthy]; rewrite ?app_nil_r; repeat (rewrite <-app_assoc; simpl); done.
Qed.

(** ** Normalised paths *)

(** A component [normpath] keeps in an absolute path. *)
Definition clean_comp (comp : pystr) : Prop :=
  comp ≠ [] ∧ comp ≠ dot ∧ comp ≠ dotdot ∧ (47 ∉ comp).

Lemma norm_step_clean kept comp :
  Forall clean_comp kept → (47 ∉ comp) → Forall clean_comp (norm_step true kept comp).
Proof.
  intros Hk Hc. unfold norm_step. case_decide as H1; [done|]. case_decide as H2.
  - constructor; [|done]. destruct Hk as [|k kept Hk _]; unfold clean_comp in *; naive_solver.
  - by destruct Hk.
Qed.
Lemma norm_comps_clean comps :
  Forall (λ c, 47 ∉ c) comps → Forall clean_comp (norm_comps true comps).
Proof.
  intros H. unfold norm_comps. apply Forall_reverse.
  assert (Forall clean_comp []) as H0 by constructor. revert H0. generalize (@nil pystr).
  induction H as [|c comps Hc _ IH]; intros kept Hk; simpl; [done|].
  by apply IH, norm_step_clean.
Qed.

Lemma foldl_norm_clean kept comps :
  Forall clean_comp comps → foldl (norm_step true) kept comps = reverse comps ++ kept.
Proof.
  intros H. revert kept. induction H as [|c comps (H1&H2&H3&_) _ IH]; intros kept; [done|].
  cbn [foldl]. rewrite IH, reverse_cons, <-app_assoc. unfold norm_step.
  rewrite decide_False by naive_solver. by rewrite decide_True by auto.
Qed.

Lemma norm_step_empty kept : norm_step true kept [] = kept.
Proof. unfold norm_step. by rewrite decide_True by auto. Qed.

Lemma norm_comps_subset c comps x : c ∈ norm_comps true comps → x ∈ c → ∃ d, d ∈ comps ∧ x ∈ d.
Proof.
  unfold norm_comps. rewrite elem_of_reverse. intros Hc Hx.
  assert (c ∈ foldl (norm_step true) [] comps → c ∈ comps ∨ c ∈ @nil pystr) as H.
  { clear. generalize (@nil pystr). induction comps as [|d comps IH]; intros kept; simpl; [auto|].
    intros [? | H]%IH; [set_solver|]. unfold norm_step in H. case_decide; [auto|].
    case_decide; [set_solver|]. destruct kept; set_solver. }
  apply H in Hc as [? | ?%elem_of_nil]; [eauto|done].
Qed.

Lemma elem_of_join sep ps x : x ∈ join sep ps → x ∈ sep ∨ ∃ p, p ∈ ps ∧ x ∈ p.
Proof.
  induction ps as [|p ps IH]; simpl; [by intros ?%elem_of_nil|].
  destruct ps as [|q ps]; [set_solver|]. rewrite !elem_of_app. set_solver.
Qed.

Lemma join_snoc sep ps q : ps ≠ [] → join sep (ps ++ [q]) = join sep ps ++ sep ++ q.
Proof.
  induction ps as [|p ps IH]; intros Hne; [done|]. destruct ps as [|p' ps]; [done|].
  change (join sep ((p :: p' :: ps) ++ [q])) with (p ++ sep ++ join sep ((p' :: ps) ++ [q])).
  rewrite IH by done. cbn [join]. by rewrite <-!app_assoc.
Qed.

Lemma join_ends comps :
  Forall clean_comp comps → comps ≠ [] →
  (∃ d x, join [47] comps = d :: x ∧ d ≠ 47) ∧ (∃ x d, join [47] comps = x ++ [d] ∧ d ≠ 47).
Proof.
  induction 1 as [|c comps (Hne&_&_&Hc) _ IH]; [done|]. intros _. split.
  - destruct c as [|d c]; [done|]. simpl. destruct comps; eexists d, _; (split; [done|set_solver]).
  - destruct comps as [|c' comps].
    + simpl. destruct (exists_last Hne) as (x&d&->). exists x, d. split; [done|set_solver].
    + destruct IH as [_ (x&d&E&?)]; [done|]. cbn [join] in *. rewrite E.
      exists (c ++ [47] ++ x), d. by rewrite <-!app_assoc.
Qed.

(** ** What a split result looks like *)

Lemma tail_ok_path rest : tail_ok rest → (35 ∉ rest) → (63 ∉ rest) → rest = [] ∨ ∃ p, rest = 47 :: p.
Proof.
  destruct rest as [|c rest]; simpl; [auto|]. unfold netloc_delim.
  rewrite !orb_true_iff, !Z.eqb_eq. intros [ [-> | ->] | ->]; [eauto|set_solver..].
Qed.

Lemma partition_sub c s x :
  (x ∈ (partition c s).1 → x ∈ s) ∧ (x ∈ default [] (partition c s).2 → x ∈ s).
Proof.
  pose proof (partition_spec c s) as H.
  destruct (partition c s) as [a [b|] ], H as [-> _]; simpl; set_solver.
Qed.

Lemma split_scheme_sub url x : x ∈ (split_scheme url).2 → x ∈ url.
Proof.
  unfold split_scheme. pose proof (partition_spec 58 url) as H.
  destruct (partition 58 url) as [ [|c pre] [post|] ]; simpl; try done.
  destruct H as [E _]. destruct (_ && _); simpl; [|done]. rewrite E. set_solver.
Qed.

Lemma tail_partition c rest :
  tail_ok rest → (c = 35 ∨ c = 63) → tail_ok (partition c rest).1.
Proof.
  destruct rest as [|d rest]; simpl; [done|]. intros Hd Hc.
  destruct (Z.eqb_spec c d); simpl; [done|]. by destruct (partition c rest).
Qed.

(** The location, path and query found are free of the delimiters that end them and of the
    characters the splitter removes. *)
Lemma urlsplit_spec `{UnicodeData} url r :
  urlsplit url = Ok r →
  Forall (λ c, netloc_delim c = false) (netloc r) ∧
  ((63 ∉ path r) ∧ (35 ∉ path r)) ∧ (35 ∉ query r) ∧
  Forall (λ c, ¬ unsafe_char c) (netloc r ++ path r ++ query r) ∧
  (netloc r ≠ [] → path r = [] ∨ ∃ p, path r = 47 :: p).
Proof.
  unfold urlsplit. set (cu := clean_url url).
  assert (∀ x, x ∈ cu → ¬ unsafe_char x) as Hcl.
  { intros x Hx. unfold cu, clean_url in Hx. by apply list_elem_of_filter in Hx as [? _]. }
  destruct (split_scheme cu) as [sch rest] eqn:Es.
  assert (∀ x, x ∈ rest → ¬ unsafe_char x) as Hrest.
  { intros x Hx. apply Hcl, split_scheme_sub. by rewrite Es. }
  set (nr := match rest with 47 :: 47 :: rest' => _splitnetloc rest' | _ => ([], rest) end).
  assert (Forall (λ c, netloc_delim c = false) nr.1 ∧ (nr.1 ≠ [] → tail_ok nr.2) ∧
          ∀ x, x ∈ nr.1 ++ nr.2 → ¬ unsafe_char x) as (Hnl&Htl&Hsub).
  { unfold nr. clear nr. repeat case_match; try (split_and!; [constructor|done|done]).
    subst. pose proof (splitnetloc_spec l0) as Hs. destruct (_splitnetloc l0) as [d t].
    destruct Hs as (->&?&?). split_and!; [done|done|]. intros x Hx. apply Hrest. set_solver. }
  destruct nr as [nl rest']. simpl in Hnl, Htl, Hsub.
  destruct (brackets_ok nl); [|done].
  pose proof (partition_spec 35 rest') as H1. pose proof (tail_partition 35 rest') as T1.
  pose proof (partition_sub 35 rest') as S1.
  destruct (partition 35 rest') as [rest2 frag].
  pose proof (partition_spec 63 rest2) as H2. pose proof (tail_partition 63 rest2) as T2.
  pose proof (partition_sub 63 rest2) as S2.
  destruct (partition 63 rest2) as [pth qry].
  destruct (_checknetloc nl); [|done]. intros [= <-]. simpl in *.
  assert (35 ∉ rest2) as N2 by (by destruct frag, H1).
  assert (63 ∉ pth) as N3 by (by destruct qry, H2).
  assert (35 ∉ pth) by (intros Hx; by apply (proj1 (S2 _)) in Hx).
  split_and!; try done.
  - intros Hx. by apply (proj2 (S2 _)) in Hx.
  - apply Forall_forall. intros x Hx. apply Hsub. rewrite !elem_of_app in *.
    destruct Hx as [?|[Hx|Hx] ]; [by left|right..].
    + by apply (proj1 (S1 x)), (proj1 (S2 x)).
    + by apply (proj1 (S1 x)), (proj2 (S2 x)).
  - intros Hne. apply tail_ok_path; auto.
Qed.
