(* ===== verification/Normalize.v ===== *)
(** URL canonicalisation (src/tca/normalize/url_canonicalization.py) and the normalised
    texts the strategies compare (hash_normalization.py, similarity_normalization.py). *)

From S2P Require Import Prelude PyValue PyText PyUrl.
Local Open Scope Z_scope.

(** * URL canonicalisation *)

Module Url.

Definition TRACKING_QUERY_KEYS : list pystr := [u "fbclid"; u "gclid"].
Definition TELEGRAM_WRAPPER_HOSTS : list pystr := [u "t.me"; u "telegram.me"].
Definition TELEGRAM_WRAPPER_PATHS : list pystr := [u "/iv"; u "/share"; u "/share/url"].

(** [_DEFAULT_PORT_BY_SCHEME] *)
Definition default_port (scheme : pystr) : option Z :=
  if decide (scheme = u "http") then Some 80
  else if decide (scheme = u "https") then Some 443
  else None.
Definition _is_supported_http_scheme (scheme : pystr) : bool :=
  bool_decide (is_Some (default_port scheme)).

Definition _canonicalize_path (path : pystr) : pystr :=
  let normalized := normpath (if str_truthy path then path else [47]) in
  if endswith path [47] && negb (bool_decide (normalized = [47]))
  then normalized ++ [47] else normalized.

(** [list.sort] on pairs of strings. *)
Definition pair_cmp : pystr * pystr → pystr * pystr → comparison :=
  cmp_lex (cmp_on fst text_cmp) (cmp_on snd text_cmp).

Section unicode.
Context `{UnicodeData}.

Definition _is_tracking_query_param (key : pystr) : bool :=
  let lowered := lower key in
  startswith lowered (u "utm_") || bool_decide (lowered ∈ TRACKING_QUERY_KEYS).

Definition _canonicalize_query (query : pystr) : result exn pystr :=
  let kept := filter (λ kv, _is_tracking_query_param kv.1 = false) (parse_qsl query) in
  urlencode (sort_by pair_cmp kept).

(** User name and password as they are, the host in lower case, the port unless it is the
    default one of the scheme. *)
Definition _canonicalize_netloc (netloc scheme : pystr) : option pystr :=
  match hostname_of netloc with
  | None => None
  | Some hostname =>
      let hostname := lower hostname in
      match port_of netloc with
      | Err _ => None
      | Ok port =>
          let port := if decide (port = default_port scheme) then None else port in
          let userinfo :=
            match _userinfo netloc with
            | (Some name, Some password) => name ++ [58] ++ password ++ [64]
            | (Some name, None) => name ++ [64]
            | (None, _) => []
            end in
          Some (userinfo ++ hostname ++
                match port with Some p => 58 :: str_of_int p | None => [] end)
      end
  end.

(** One turn of the loop: the wrapped target, [None] when the candidate is returned. *)
Definition unwrap_once (candidate : pystr) : result exn (option pystr) :=
  split ← urlsplit candidate;
  mret match hostname_of (netloc split) with
       | Some host =>
           if decide (host ∈ TELEGRAM_WRAPPER_HOSTS ∧ path split ∈ TELEGRAM_WRAPPER_PATHS) then
             target ← list_find (λ kv, kv.1 = u "url") (parse_qsl (query split));
             Some (unquote target.2.2)
           else None
       | None => None
       end.
Fixpoint unwrap_loop (turns : nat) (candidate : pystr) : result exn pystr :=
  match turns with
  | O => mret candidate
  | S turns =>
      target ← unwrap_once candidate;
      match target with Some target => unwrap_loop turns target | None => mret candidate end
  end.
Definition _unwrap_telegram_url (value : pystr) : result exn pystr := unwrap_loop 2 value.

(** [None] when the value is not an HTTP URL; the encoding of the query may raise. *)
Definition canonicalize_url (value : option pystr) : result exn (option pystr) :=
  match value with
  | None => mret None
  | Some value =>
      let stripped := strip value in
      if str_truthy stripped then
        match target ← _unwrap_telegram_url stripped; urlsplit target with
        | Err _ => mret None
        | Ok split =>
            let scheme := lower (scheme split) in
            if _is_supported_http_scheme scheme then
              match _canonicalize_netloc (netloc split) scheme with
              | None => mret None
              | Some netloc =>
                  query ← _canonicalize_query (query split);
                  mret (Some (urlunsplit
                    (MkSplit scheme netloc (_canonicalize_path (path split)) query [])))
              end
            else mret None
        end
      else mret None
  end.
End unicode.

Example canonicalize_example :
  canonicalize_url (Some (u " HTTPS://Me@Example.ORG:443/a/../b/?utm_source=x&z=1&a=%20#top ")) =
  Ok (Some (u "https://Me@example.org/b/?a=+&z=1")).
Proof. vm_compute. reflexivity. Qed.
Example unwrap_example :
  canonicalize_url (Some (u "https://t.me/iv?url=https%3A%2F%2Fexample.org%2Fx&rhash=1")) =
  Ok (Some (u "https://example.org/x")).
Proof. vm_compute. reflexivity. Qed.
End Url.

(** * Canonical paths *)

Module Paths.
Import Url.

Lemma endswith_slash x d : endswith (x ++ [d]) [47] = (d =? 47).
Proof.
  unfold endswith. rewrite reverse_snoc. simpl. rewrite Z.eqb_sym.
  destruct (reverse x); by rewrite andb_true_r.
Qed.

(** Leading slashes, components, and whether a slash ends the path. *)
Definition build (slashes : nat) (comps : list pystr) (trail : bool) : pystr :=
  replicate slashes 47 ++ join [47] comps ++ (if trail then [47] else []).

Lemma normpath_rooted p :
  (∃ p', p = 47 :: p') →
  ∃ n comps, normpath p = build n comps false ∧ initial_slashes p = n ∧ (n = 1 ∨ n = 2)%nat ∧
    comps = norm_comps true (split_on 47 p) ∧ Forall clean_comp comps.
Proof.
  intros [p' ->]. unfold normpath, build.
  assert (initial_slashes (47 :: p') = 1%nat ∨ initial_slashes (47 :: p') = 2%nat) as Hn.
  { unfold initial_slashes. repeat case_match; auto. }
  set (n := initial_slashes _) in *. set (comps := split_on 47 (47 :: p')).
  exists n, (norm_comps true comps). split_and!; try done.
  - cbn [str_truthy]. assert ((0 <? n)%nat = true) as -> by (by destruct Hn as [-> | ->]).
    rewrite app_nil_r. by destruct Hn as [-> | ->].
  - apply norm_comps_clean, split_on_pieces.
Qed.

(** The shape of a canonical path. *)
Lemma canonical_path_shape p :
  p = [] ∨ (∃ p', p = 47 :: p') →
  ∃ n comps trail, _canonicalize_path p = build n comps trail ∧ Forall clean_comp comps ∧
    (n = 1 ∨ n = 2)%nat ∧ (comps = [] → trail = true → n = 2%nat).
Proof.
  intros Hp. unfold _canonicalize_path.
  set (q := if str_truthy p then p else [47]).
  assert (∃ q', q = 47 :: q') as Hq.
  { unfold q. destruct Hp as [-> | [p' ->] ]; simpl; eauto. }
  destruct (normpath_rooted q Hq) as (n&comps&E&_&Hn&_&Hc). rewrite E.
  destruct (endswith p [47]) eqn:Ee; simpl; [|by exists n, comps, false].
  case_bool_decide as Hone; simpl; [by exists n, comps, false|].
  exists n, comps, true. split_and!; [|done..|].
  - unfold build. by rewrite app_nil_r, <-app_assoc.
  - intros -> _. destruct Hn as [-> | ->]; [|done]. by destruct Hone.
Qed.

Lemma split_on_build n comps trail :
  Forall clean_comp comps → comps ≠ [] →
  split_on 47 (build n comps trail) =
  replicate n [] ++ comps ++ (if trail then [[]] else []).
Proof.
  intros Hc Hne. unfold build. induction n as [|n IH]; simpl; [|by rewrite IH].
  assert (Forall (λ p, 47 ∉ p) comps) as Hs
    by (eapply Forall_impl; [done|]; by intros ? (?&?&?&?)).
  destruct trail.
  - change [47] with ([47] ++ []) at 2. rewrite <-join_snoc by done.
    apply split_on_join; [by destruct comps|]. apply Forall_app. split; [done|].
    repeat constructor. apply not_elem_of_nil.
  - rewrite !app_nil_r. by apply split_on_join.
Qed.

Lemma norm_comps_build n comps (trail : bool) :
  Forall clean_comp comps →
  norm_comps true (replicate n [] ++ comps ++ (if trail then [[]] else [])) = comps.
Proof.
  intros Hc. unfold norm_comps. rewrite !foldl_app.
  assert (foldl (norm_step true) [] (replicate n []) = []) as ->.
  { clear. induction n as [|n IH]; [done|]. simpl. by rewrite norm_step_empty. }
  rewrite (foldl_norm_clean _ _ Hc). destruct trail; cbn [foldl];
    rewrite ?norm_step_empty, ?app_nil_r; by rewrite reverse_involutive.
Qed.

Lemma initial_slashes_build n comps trail :
  Forall clean_comp comps → comps ≠ [] → (n = 1 ∨ n = 2)%nat →
  initial_slashes (build n comps trail) = n.
Proof.
  intros Hc Hne Hn. destruct (join_ends comps Hc Hne) as [(d&x&E&Hd) _].
  unfold build. rewrite E.
  destruct Hn as [-> | ->]; cbn [replicate app initial_slashes];
    destruct d as [|d|]; try done; repeat (destruct d as [d|d|]; try done).
Qed.

Lemma normpath_build n comps trail :
  Forall clean_comp comps → comps ≠ [] → (n = 1 ∨ n = 2)%nat →
  normpath (build n comps trail) = build n comps false.
Proof.
  intros Hc Hne Hn.
  assert (∃ p', build n comps trail = 47 :: p') as Hp.
  { destruct Hn as [-> | ->]; unfold build; simpl; eauto. }
  destruct (normpath_rooted _ Hp) as (m&cs&->&Hm&_&->&_).
  by rewrite <-Hm, initial_slashes_build, split_on_build, norm_comps_build by done.
Qed.

Lemma canonical_path_build n comps trail :
  Forall clean_comp comps → comps ≠ [] → (n = 1 ∨ n = 2)%nat →
  _canonicalize_path (build n comps trail) = build n comps trail.
Proof.
  intros Hc Hne Hn.
  destruct (join_ends comps Hc Hne) as [_ (x&d&Ej&Hd)].
  unfold _canonicalize_path.
  assert (str_truthy (build n comps trail) = true) as ->.
  { destruct Hn as [-> | ->]; done. }
  rewrite normpath_build by done.
  assert (endswith (build n comps trail) [47] = trail) as ->.
  { unfold build. rewrite Ej. destruct trail.
    - by rewrite !app_assoc, endswith_slash.
    - rewrite app_nil_r, app_assoc, endswith_slash. by apply Z.eqb_neq. }
  destruct trail; simpl; [|done]. rewrite bool_decide_eq_false_2; simpl.
  - unfold build. by rewrite app_nil_r, <-app_assoc.
  - unfold build. rewrite Ej, app_nil_r. intros Hone.
    destruct Hn as [-> | ->]; simpl in Hone; injection Hone as Hone.
    all: by destruct x.
Qed.

(** A canonical path is a fixed point, unless it is nothing but two or three slashes. *)
Lemma canonical_path_fixpoint p :
  p = [] ∨ (∃ p', p = 47 :: p') →
  _canonicalize_path p ≠ [47; 47] → _canonicalize_path p ≠ [47; 47; 47] →
  _canonicalize_path (_canonicalize_path p) = _canonicalize_path p.
Proof.
  intros Hp H2 H3. destruct (canonical_path_shape p Hp) as (n&comps&trail&E&Hc&Hn&Ht).
  rewrite E in *. destruct (decide (comps = [])) as [->|Hne].
  { destruct trail; [by rewrite Ht in H3|]. by destruct Hn as [-> | ->]. }
  by apply canonical_path_build.
Qed.

Lemma canonical_path_chars p c :
  p = [] ∨ (∃ p', p = 47 :: p') →
  c ∈ _canonicalize_path p → c = 47 ∨ c ∈ p.
Proof.
  intros Hp. unfold _canonicalize_path. set (q := if str_truthy p then p else [47]).
  assert (∃ q', q = 47 :: q') as Hq.
  { unfold q. destruct Hp as [-> | [p' ->] ]; simpl; eauto. }
  assert (∀ x, x ∈ q → x = 47 ∨ x ∈ p) as Hqp.
  { unfold q. destruct p; [set_solver|]. simpl. set_solver. }
  assert (c ∈ normpath q → c = 47 ∨ c ∈ p) as Hnp.
  { destruct (normpath_rooted q Hq) as (n&comps&->&_&Hn&->&_). unfold build.
    rewrite !elem_of_app. intros [H|[H|H] ].
    - apply elem_of_replicate in H as [-> _]. by left.
    - apply elem_of_join in H as [?%list_elem_of_singleton|(k&Hk&Hx)]; [by left|].
      destruct (norm_comps_subset _ _ _ Hk Hx) as (d&Hd&Hxd). apply Hqp.
      rewrite <-(join_split_on 47 q). clear -Hd Hxd.
      induction (split_on 47 q) as [|e es IH]; [by apply elem_of_nil in Hd|]. simpl.
      destruct es as [|e' es]; [apply list_elem_of_singleton in Hd as ->; done|].
      rewrite !elem_of_app. apply elem_of_cons in Hd as [->|?]; [auto|]. right; right. auto.
    - by apply elem_of_nil in H. }
  destruct (_ && _); [|done]. rewrite elem_of_app, list_elem_of_singleton. naive_solver.
Qed.

(** Two ways to write one absolute path. Each step says what a writer may add without
    naming another resource: a path left empty, a slash repeated after a component, a
    segment that stays where it is, one that is left again, and the attempt to leave the
    root. *)
Definition rooted (x : pystr) : Prop := x = [] ∨ ∃ x', x = 47 :: x'.
Definition no_slash_first (y : pystr) : Prop := ∀ y', y ≠ 47 :: y'.
Inductive path_edit : pystr → pystr → Prop :=
  | empty_path : path_edit [] (u "/")
  | repeated_slash x y c : rooted x → c ∈ x → c ≠ 47 →
      path_edit (x ++ u "//" ++ y) (x ++ u "/" ++ y)
  | current_segment x y : rooted x → no_slash_first y →
      path_edit (x ++ u "/./" ++ y) (x ++ u "/" ++ y)
  | parent_segment x seg y : rooted x → no_slash_first y →
      seg ≠ [] → seg ≠ u "." → seg ≠ u ".." → 47 ∉ seg →
      path_edit (x ++ u "/" ++ seg ++ u "/../" ++ y) (x ++ u "/" ++ y)
  | parent_of_root y : no_slash_first y → path_edit (u "/../" ++ y) (u "/" ++ y).
Definition same_path : pystr → pystr → Prop := rtsc path_edit.

(** What [_canonicalize_path] reads off a path. *)
Lemma canonical_path_ext p q :
  rooted p → rooted q → p ≠ [] → q ≠ [] →
  initial_slashes p = initial_slashes q →
  norm_comps true (split_on 47 p) = norm_comps true (split_on 47 q) →
  endswith p [47] = endswith q [47] →
  _canonicalize_path p = _canonicalize_path q.
Proof.
  intros [->|[p' ->] ] [->|[q' ->] ] Hp Hq Hi Hn He; try done.
  unfold _canonicalize_path. cbn [str_truthy]. rewrite He.
  destruct (normpath_rooted (47 :: p')) as (n&cs&E&<-&_&->&_); [by eexists|].
  destruct (normpath_rooted (47 :: q')) as (m&ds&E'&<-&_&->&_); [by eexists|].
  by rewrite E, E', Hi, Hn.
Qed.

Definition slash_first (p : pystr) : bool := match p with c :: _ => c =? 47 | [] => false end.
Lemma initial_slashes_eq p :
  initial_slashes p =
  (if slash_first p then
     if slash_first (drop 1 p) then if slash_first (drop 2 p) then 1 else 2 else 1
   else 0)%nat.
Proof.
  assert (∀ A (a b : A) (c : Z), match c with 47 => a | _ => b end = if (c : Z) =? 47 then a else b) as Hm.
  { intros A a b c. destruct (Z.eqb_spec c 47) as [->|Hc]; [done|]. by repeat case_match. }
  unfold initial_slashes, slash_first.
  destruct p as [|x [|y [|z p] ] ]; cbn [drop]; rewrite ?Hm;
    try (destruct (x =? 47)); try (destruct (y =? 47)); try (destruct (z =? 47)); done.
Qed.
Lemma initial_slashes_no_slash x y :
  no_slash_first y → initial_slashes (x ++ 47 :: y) = initial_slashes (x ++ [47]).
Proof.
  intros Hy. assert (slash_first y = false) as Hs.
  { destruct y as [|d y]; [done|]. apply Z.eqb_neq. intros ->. by apply (Hy y). }
  rewrite !initial_slashes_eq.
  destruct x as [|a [|b [|c x] ] ]; cbn [app drop slash_first]; change (47 =? 47) with true;
    rewrite ?drop_0, ?Hs; cbn [slash_first]; try done; destruct y; simpl in *; by rewrite ?Hs.
Qed.
Lemma initial_slashes_other x c y :
  c ∈ x → c ≠ 47 → initial_slashes (x ++ y) = initial_slashes x.
Proof.
  intros Hc Hne%Z.eqb_neq. rewrite !initial_slashes_eq.
  destruct x as [|a [|b [|d x] ] ]; cbn [app drop slash_first]; rewrite ?elem_of_cons in Hc;
    try done; try (by apply elem_of_nil in Hc).
  - destruct Hc as [<-|Hc%elem_of_nil]; [by rewrite Hne|done].
  - destruct Hc as [<-|[<-|Hc%elem_of_nil] ]; [by rewrite Hne|rewrite Hne; by destruct (a =? 47)|done].
Qed.
Lemma endswith_slash_app x y : endswith (x ++ 47 :: y) [47] = endswith (47 :: y) [47].
Proof.
  destruct y as [|d y _] using rev_ind; [by rewrite endswith_slash|].
  by rewrite !app_comm_cons, app_assoc, !endswith_slash.
Qed.
Lemma rooted_app x y : rooted x → rooted (x ++ 47 :: y).
Proof. intros [->|[x' ->] ]; right; simpl; eauto. Qed.

Lemma norm_step_segment kept seg :
  seg ≠ [] → seg ≠ u "." → seg ≠ u ".." → norm_step true kept seg = seg :: kept.
Proof.
  intros H1 H2 H3. unfold norm_step. rewrite decide_False by (by intros [?|?]).
  by rewrite decide_True by (by left).
Qed.
Lemma norm_step_parent kept seg : seg ≠ u ".." → norm_step true (seg :: kept) (u "..") = kept.
Proof.
  intros H. unfold norm_step. rewrite decide_False by (by intros [?|?]).
  rewrite decide_False; [done|]. intros [?|[[? ?]|[= ?] ] ]; done.
Qed.

Lemma path_edit_canonical p q : path_edit p q → _canonicalize_path p = _canonicalize_path q.
Proof.
  assert (∀ (x y : pystr), x ++ 47 :: y ≠ []) as Hne by (intros [|] ?; done).
  assert (∀ y, no_slash_first y → no_slash_first (46 :: 46 :: 47 :: y)) as Hdd by (by intros ????).
  assert (∀ y, no_slash_first (46 :: 47 :: y)) as Hd by (by intros ???).
  assert (∀ x y, norm_comps true (split_on 47 (x ++ 47 :: y)) =
    reverse (foldl (norm_step true) (foldl (norm_step true) [] (split_on 47 x)) (split_on 47 y))) as Hfold.
  { intros x y. unfold norm_comps. by rewrite split_on_app, foldl_app. }
  destruct 1 as [|x y c Hx Hc Hne47|x y Hx Hy|x seg y Hx Hy H1 H2 H3 H4|y Hy]; [done|..];
    repeat change (u "/" ++ ?z) with (47 :: z); apply canonical_path_ext;
    try apply rooted_app; try apply Hne; try (by right; eexists); try done.
  - by rewrite !(initial_slashes_other x c).
  - change (u "//" ++ y) with (47 :: 47 :: y). rewrite !Hfold. cbn [split_on].
    change (47 =? 47) with true. cbn [foldl]. by rewrite norm_step_empty.
  - change (u "//" ++ y) with ([47] ++ 47 :: y). by rewrite app_assoc, !endswith_slash_app.
  - change (u "/./" ++ y) with (47 :: 46 :: 47 :: y).
    by rewrite (initial_slashes_no_slash x y), (initial_slashes_no_slash x (46 :: 47 :: y)).
  - change (u "/./" ++ y) with (47 :: [46] ++ 47 :: y). rewrite !Hfold, split_on_app. by rewrite foldl_app.
  - change (u "/./" ++ y) with ([47; 46] ++ 47 :: y). by rewrite app_assoc, !endswith_slash_app.
  - rewrite (initial_slashes_no_slash x y), (initial_slashes_no_slash x (seg ++ _)); [done| |done].
    destruct seg; [done|]. intros y' [= -> _]. set_solver.
  - change (u "/../" ++ y) with (47 :: [46; 46] ++ 47 :: y).
    rewrite !Hfold, !split_on_app, !foldl_app, (split_on_one 47 seg) by done.
    cbn [foldl]. rewrite norm_step_segment by done.
    change (split_on 47 [46; 46]) with [u ".."]. cbn [foldl]. by rewrite norm_step_parent.
  - change (u "/../" ++ y) with ([47; 46; 46] ++ 47 :: y).
    by rewrite app_comm_cons, !app_assoc, !endswith_slash_app.
  - pose proof (initial_slashes_no_slash [] y Hy) as E1.
    pose proof (initial_slashes_no_slash [] (46 :: 46 :: 47 :: y) (Hdd y Hy)) as E2.
    cbn [app] in E1, E2. change (u "/../" ++ y) with (47 :: 46 :: 46 :: 47 :: y). by rewrite E1, E2.
  - change (u "/../" ++ y) with ([47; 46; 46] ++ 47 :: y). by rewrite endswith_slash_app.
Qed.
Lemma same_path_canonical p q : same_path p q → _canonicalize_path p = _canonicalize_path q.
Proof.
  induction 1 as [|p q r [H|H] _ IH]; [done|..]; apply path_edit_canonical in H; congruence.
Qed.
End Paths.

(** * Canonical queries *)

Module Queries.
Import Url.

#[export] Instance pair_cmp_good : GoodCmp pair_cmp.
Proof. unfold pair_cmp. apply _. Qed.
Lemma pair_cmp_eq x y : pair_cmp x y = Eq → x = y.
Proof.
  destruct x as [a b], y as [a' b']. unfold pair_cmp, cmp_lex, cmp_on. simpl.
  destruct (text_cmp a a') eqn:E; [|done..]. intros E'.
  apply text_cmp_eq in E as ->. by apply text_cmp_eq in E' as ->.
Qed.

Section unicode.
Context `{UnicodeData}.

(** The parameters that stay, in canonical order. *)
Definition kept (params : list (pystr * pystr)) : list (pystr * pystr) :=
  sort_by pair_cmp (filter (λ kv, _is_tracking_query_param kv.1 = false) params).

Lemma canonicalize_query_eq q : _canonicalize_query q = urlencode (kept (parse_qsl q)).
Proof. done. Qed.

Lemma kept_perm l1 l2 : l1 ≡ₚ l2 → kept l1 = kept l2.
Proof.
  intros Hp. apply (sort_by_unique _ _ _ pair_cmp_eq). by rewrite Hp.
Qed.
Lemma kept_idemp l : kept (kept l) = kept l.
Proof.
  unfold kept at 1 3. apply (sort_by_unique _ _ _ pair_cmp_eq).
  rewrite filter_id; [by unfold kept; rewrite sort_by_perm|].
  apply Forall_forall. intros kv. unfold kept. rewrite elem_of_sort_by, list_elem_of_filter. tauto.
Qed.
Lemma kept_tracking l1 l2 :
  Forall (λ kv, _is_tracking_query_param kv.1 = true) l2 → kept (l1 ++ l2) = kept l1.
Proof.
  intros Ht. unfold kept. rewrite filter_app.
  assert (filter (λ kv, _is_tracking_query_param kv.1 = false) l2 = []) as ->.
  { induction Ht as [|kv l Hkv _ IH]; [done|]. rewrite filter_cons_False; [done|].
    by rewrite Hkv. }
  by rewrite app_nil_r.
Qed.

(** A canonical query is a fixed point. *)
Lemma canonical_query_fixpoint q r :
  _canonicalize_query q = Ok r →
  _canonicalize_query r = Ok r ∧ Forall (λ c, query_char c = true) r.
Proof.
  rewrite !canonicalize_query_eq. intros Hr.
  destruct (parse_qsl_urlencode _ _ Hr) as [Hp Hc]. by rewrite Hp, kept_idemp.
Qed.
End unicode.
End Queries.

(** * Canonical network locations *)

Module Authorities.
Import Url.

(** User information, host and port around their delimiters. *)
Definition authority (ui : option pystr) (host : pystr) (port : option pystr) : pystr :=
  match ui with Some t => t ++ [64] | None => [] end ++ host ++
  match port with Some p => 58 :: p | None => [] end.

Record plain_host (host : pystr) (port : option pystr) : Prop := MkPlain {
  ph_host : 64 ∉ host ∧ 58 ∉ host ∧ 91 ∉ host;
  ph_port : 64 ∉ default [] port ∧ 91 ∉ default [] port;
}.

Lemma rpartition_authority ui host port :
  plain_host host port →
  rpartition 64 (authority ui host port) =
  (ui, host ++ match port with Some p => 58 :: p | None => [] end).
Proof.
  intros [(?&?&?) [??] ]. unfold authority.
  set (hp := host ++ _). assert (64 ∉ hp) as Hhp.
  { unfold hp. destruct port; set_solver. }
  destruct ui as [t|]; [|by apply rpartition_none].
  rewrite <-app_assoc. by apply rpartition_app.
Qed.

(** Every unbracketed network location has this form. *)
Lemma authority_inv nl :
  (91 ∉ nl) → ∃ ui host port, nl = authority ui host port ∧ plain_host host port.
Proof.
  intros Hb. unfold authority.
  assert (∃ ui hp, nl = match ui with Some t => t ++ [64] | None => [] end ++ hp ∧ 64 ∉ hp)
    as (ui&hp&->&Hhp).
  { pose proof (partition_spec 64 (reverse nl)) as Hs.
    destruct (partition 64 (reverse nl)) as [after [before|] ], Hs as [E Hn].
    - exists (Some (reverse before)), (reverse after). split; [|by rewrite elem_of_reverse].
      rewrite <-(reverse_involutive nl), E, reverse_app, reverse_cons. done.
    - exists None, nl. split; [done|]. rewrite <-elem_of_reverse. by rewrite E. }
  pose proof (partition_spec 58 hp) as Hs.
  destruct (partition 58 hp) as [host [port|] ], Hs as [-> Hn].
  - exists ui, host, (Some port). split; [done|]. constructor; simpl; destruct ui; set_solver.
  - exists ui, host, None. rewrite app_nil_r. split; [done|].
    constructor; simpl; destruct ui; set_solver.
Qed.

Lemma hostinfo_authority ui host port :
  plain_host host port →
  _hostinfo (authority ui host port) =
  (host, match port with Some ((_ :: _) as p) => Some p | _ => None end).
Proof.
  intros Hp. unfold _hostinfo. rewrite rpartition_authority by done.
  destruct Hp as [(?&?&?) [??] ].
  rewrite partition_none by (destruct port; set_solver).
  destruct port as [p|]; [by rewrite partition_app|].
  by rewrite app_nil_r, partition_none.
Qed.

Lemma userinfo_authority ui host port :
  plain_host host port →
  match _userinfo (authority ui host port) with
  | (Some name, Some password) => name ++ [58] ++ password ++ [64]
  | (Some name, None) => name ++ [64]
  | (None, _) => []
  end = match ui with Some t => t ++ [64] | None => [] end.
Proof.
  intros Hp. unfold _userinfo. rewrite rpartition_authority by done.
  destruct ui as [t|]; [|done]. pose proof (partition_spec 58 t) as Hs.
  destruct (partition 58 t) as [a [b|] ], Hs as [-> _]; [by rewrite <-!app_assoc|done].
Qed.

(** The number a port text stands for. *)
Definition port_value (port : option pystr) : option (option Z) :=
  match port with
  | Some ((_ :: _) as p) =>
      if forallb is_digit p && (int_of_digits p <=? 65535)
      then Some (Some (int_of_digits p)) else None
  | _ => Some None
  end.
Definition effective (scheme : pystr) (port : option Z) : option pystr :=
  if decide (port = default_port scheme) then None else str_of_int <$> port.

Section unicode.
Context `{UnicodeLaws}.

Lemma ascii_lower_idemp c : ascii_lower (ascii_lower c) = ascii_lower c.
Proof.
  unfold ascii_lower. destruct ((65 <=? c) && (c <=? 90)) eqn:E; [|by rewrite E].
  apply andb_true_iff in E as [?%Z.leb_le ?%Z.leb_le].
  destruct (Z.leb_spec 65 (c + 32)), (Z.leb_spec (c + 32) 90); simpl; lia.
Qed.
Lemma ascii_lower_fmap_idemp (s : pystr) : ascii_lower <$> (ascii_lower <$> s) = ascii_lower <$> s.
Proof.
  rewrite <-list_fmap_compose. apply list_fmap_ext. intros _ c _. apply ascii_lower_idemp.
Qed.
Lemma isascii_lower s : isascii s = true → isascii (ascii_lower <$> s) = true.
Proof.
  unfold isascii. rewrite !forallb_forall. intros Hs c Hc%list_elem_of_In.
  apply list_elem_of_fmap in Hc as (d&->&Hd%list_elem_of_In%Hs). unfold ascii_lower.
  destruct ((65 <=? d) && (d <=? 90)) eqn:E; [|done].
  apply andb_true_iff in E as [? ?%Z.leb_le]. apply Z.ltb_lt. lia.
Qed.

Lemma hostname_authority ui host port :
  plain_host host port → isascii host = true → host ≠ [] →
  ∃ h, hostname_of (authority ui host port) = Some h ∧ lower h = ascii_lower <$> host.
Proof.
  intros Hp Ha Hne. unfold hostname_of. rewrite hostinfo_authority by done.
  destruct host as [|c host]; [done|]. set (hst := c :: host) in *.
  pose proof (partition_spec 37 hst) as Hs.
  destruct (partition 37 hst) as [h [zone|] ], Hs as [E _].
  - exists (lower h ++ [37] ++ zone). split; [done|].
    rewrite E, isascii_app in Ha. apply andb_true_iff in Ha as [Hh Hz].
    rewrite (lower_ascii h Hh), lower_ascii.
    + rewrite E, !fmap_app, ascii_lower_fmap_idemp. done.
    + rewrite isascii_app, isascii_lower by done. done.
  - exists (lower h). split; [done|]. subst h.
    rewrite (lower_ascii _ Ha), lower_ascii by (by apply isascii_lower).
    apply ascii_lower_fmap_idemp.
Qed.

Lemma port_of_authority ui host port :
  plain_host host port →
  match port_of (authority ui host port) with Ok p => Some p | Err _ => None end =
  port_value port.
Proof.
  intros Hp. unfold port_of. rewrite hostinfo_authority by done. cbn [snd].
  destruct port as [ [|c p]|]; cbn [port_value]; [done| |done].
  destruct (forallb is_digit (c :: p)); cbn [andb]; [|done].
  by destruct (int_of_digits (c :: p) <=? 65535).
Qed.

(** What canonicalisation makes of an authority: [None] for a bad port or no host. *)
Lemma canonicalize_netloc_authority scheme ui host port :
  plain_host host port → isascii host = true →
  _canonicalize_netloc (authority ui host port) scheme =
  if str_truthy host then
    p ← port_value port; Some (authority ui (ascii_lower <$> host) (effective scheme p))
  else None.
Proof.
  intros Hp Ha. unfold _canonicalize_netloc. destruct host as [|c host].
  { unfold hostname_of. by rewrite hostinfo_authority. }
  destruct (hostname_authority ui (c :: host) port Hp Ha) as (h&->&->); [done|].
  pose proof (port_of_authority ui (c :: host) port Hp) as Hport.
  rewrite userinfo_authority by done.
  destruct (port_of _) as [pv|]; rewrite <-Hport; cbn [str_truthy mbind option_bind]; [|done].
  unfold authority, effective. by destruct (decide (pv = _)); [|destruct pv].
Qed.

Lemma effective_port scheme port p :
  port_value port = Some p →
  (∀ x, effective scheme p = Some x → forallb is_digit x = true) ∧
  port_value (effective scheme p) = Some (if decide (p = default_port scheme) then None else p).
Proof.
  intros Hp. assert (∀ n, p = Some n → 0 <= n <= 65535) as Hn.
  { intros n ->. unfold port_value in Hp. destruct port as [ [|c x]|]; try done.
    destruct (forallb is_digit (c :: x)) eqn:Hd; [|done]. cbn [andb] in Hp.
    destruct (Z.leb_spec (int_of_digits (c :: x)) 65535); [|done]. injection Hp as <-.
    split; [|done]. by apply int_of_digits_nonneg. }
  unfold effective. case_decide; [done|]. destruct p as [n|]; [|done].
  destruct (int_of_str_of_int n) as (E&Hd&Hne); [by apply Hn|]. simpl. split.
  - by intros ? [= <-].
  - destruct (str_of_int n) as [|c x]; [done|]. unfold port_value.
    rewrite Hd, E. by rewrite (proj2 (Z.leb_le _ _)) by by apply Hn.
Qed.

Lemma effective_idemp scheme p :
  effective scheme (if decide (p = default_port scheme) then None else p) = effective scheme p.
Proof.
  unfold effective. destruct (decide (p = default_port scheme)) as [E|E].
  - by case_decide.
  - by rewrite decide_False.
Qed.
End unicode.
End Authorities.

(** * Canonical URLs *)

Module Canonical.
Import Url Paths Queries Authorities.

Section unicode.
Context `{UnicodeLaws}.

Lemma scheme_isascii s : forallb scheme_char s = true → isascii s = true.
Proof.
  unfold isascii. rewrite !forallb_forall. intros Hs c Hc%Hs. revert Hc.
  unfold scheme_char, is_alpha, is_digit.
  rewrite !orb_true_iff, !andb_true_iff, !Z.leb_le, !Z.eqb_eq, Z.ltb_lt. lia.
Qed.

(** Canonicalising an assembled text that is not a wrapper works on its parts. *)
Lemma canonicalize_assemble s nl p q f :
  splittable s nl p (default [] q) (default [] f) →
  is_Some (default_port (ascii_lower <$> s)) →
  strip (assemble s nl p q f) = assemble s nl p q f →
  unwrap_once (assemble s nl p q f) = Ok None →
  canonicalize_url (Some (assemble s nl p q f)) =
  match _canonicalize_netloc nl (ascii_lower <$> s) with
  | None => Ok None
  | Some n =>
      q' ← _canonicalize_query (default [] q);
      Ok (Some (urlunsplit (MkSplit (ascii_lower <$> s) n (_canonicalize_path p) q' [])))
  end.
Proof.
  intros Hsp Hport Hstrip Hun. unfold canonicalize_url. rewrite Hstrip.
  pose proof (urlsplit_assemble _ _ _ _ _ Hsp) as Hsplit.
  destruct (sp_scheme _ _ _ _ _ Hsp) as [Hs (c&s'&Es&_)].
  assert (str_truthy (assemble s nl p q f) = true) as -> by (by rewrite Es).
  unfold _unwrap_telegram_url. cbn [unwrap_loop]. rewrite Hun. cbn [mbind result_bind mret result_ret].
  rewrite Hsplit. cbn [scheme netloc path query].
  rewrite lower_ascii by (by apply isascii_lower, scheme_isascii).
  rewrite ascii_lower_fmap_idemp. unfold _is_supported_http_scheme.
  by rewrite bool_decide_eq_true_2.
Qed.

(** What a canonical result was made from. *)
Lemma canonicalize_inv v c :
  canonicalize_url (Some v) = Ok (Some c) →
  ∃ sp n q,
    (target ← _unwrap_telegram_url (strip v); urlsplit target) = Ok sp ∧
    is_Some (default_port (lower (scheme sp))) ∧
    _canonicalize_netloc (netloc sp) (lower (scheme sp)) = Some n ∧
    _canonicalize_query (query sp) = Ok q ∧
    c = urlunsplit (MkSplit (lower (scheme sp)) n (_canonicalize_path (path sp)) q []).
Proof.
  unfold canonicalize_url, _is_supported_http_scheme.
  destruct (str_truthy (strip v)); [|done].
  destruct (target ← _ ; _) as [sp|]; [|done].
  case_bool_decide; [|done]. destruct (_canonicalize_netloc _ _) as [n|] eqn:En; [|done].
  intros (q&Hq&[= <-])%bind_Ok_inv. exists sp, n, q. by split_and!.
Qed.

Lemma supported_scheme s :
  is_Some (default_port s) → (s = u "http" ∨ s = u "https") ∧ ascii_lower <$> s = s ∧
    forallb scheme_char s = true ∧ ∃ c s', s = c :: s' ∧ is_alpha c = true.
Proof.
  unfold default_port. intros [x Hx]. case_decide as H1; [|case_decide as H2; [|done] ].
  - split; [auto|]. subst. split_and!; [done|done|]. by eexists _, _.
  - split; [auto|]. subst. split_and!; [done|done|]. by eexists _, _.
Qed.

(** Characters that may stand in an ASCII location without brackets. *)
Definition plain_char (c : Z) : Prop :=
  netloc_delim c = false ∧ c < 128 ∧ c ≠ 91 ∧ c ≠ 93 ∧ ¬ unsafe_char c.

Lemma plain_char_other c : 48 <= c <= 58 ∨ 97 <= c <= 122 → plain_char c.
Proof.
  unfold plain_char, netloc_delim, unsafe_char. rewrite !orb_false_iff, !Z.eqb_neq. lia.
Qed.
Lemma plain_char_lower c : plain_char c → plain_char (ascii_lower c).
Proof.
  unfold ascii_lower. destruct ((65 <=? c) && (c <=? 90)) eqn:E; [|done].
  apply andb_true_iff in E as [?%Z.leb_le ?%Z.leb_le]. intros _. apply plain_char_other. lia.
Qed.
Lemma plain_char_digits x : forallb is_digit x = true → Forall plain_char x.
Proof.
  rewrite forallb_forall. intros Hx. apply Forall_forall. intros c Hc%list_elem_of_In%Hx.
  apply andb_true_iff in Hc as [?%Z.leb_le ?%Z.leb_le]. apply plain_char_other. lia.
Qed.

Lemma plain_authority ui host port port' :
  (∀ x, port' = Some x → forallb is_digit x = true) →
  Forall plain_char (authority ui host port) →
  Forall plain_char (authority ui (ascii_lower <$> host) port').
Proof.
  intros Hd. unfold authority. rewrite !Forall_app. intros (?&Hh&_). split_and!; [done| |].
  - apply Forall_fmap. eapply Forall_impl; [done|]. apply plain_char_lower.
  - destruct port' as [x|]; [|done]. constructor; [apply plain_char_other; lia|].
    by apply plain_char_digits, Hd.
Qed.

Lemma elem_of_lower x (s : pystr) : x ∈ ascii_lower <$> s → ¬ 97 <= x <= 122 → x ∈ s.
Proof.
  intros (c&->&Hc)%list_elem_of_fmap. unfold ascii_lower.
  destruct ((65 <=? c) && (c <=? 90)) eqn:E; [|done].
  apply andb_true_iff in E as [?%Z.leb_le ?%Z.leb_le]. lia.
Qed.

Lemma plain_host_canonical host port port' :
  plain_host host port → (∀ x, port' = Some x → forallb is_digit x = true) →
  plain_host (ascii_lower <$> host) port'.
Proof.
  intros [(?&?&?) _] Hd. constructor.
  - split_and!; intros Hx%elem_of_lower; try lia; done.
  - destruct port' as [x|]; simpl; [|set_solver].
    pose proof (Hd _ eq_refl) as Hx. rewrite forallb_forall in Hx.
    split; intros Hin%list_elem_of_In%Hx; done.
Qed.

Lemma authority_nonempty ui host port : host ≠ [] → authority ui host port ≠ [].
Proof. unfold authority. destruct ui as [ [|? ?]|], host; done. Qed.

(** The canonical location of an authority is its own canonical location. *)
Lemma canonical_netloc_fixpoint scheme nl n :
  Forall plain_char nl → _canonicalize_netloc nl scheme = Some n →
  _canonicalize_netloc n scheme = Some n ∧ Forall plain_char n ∧ n ≠ [].
Proof.
  intros Hpl. assert (91 ∉ nl) as Hb.
  { intros Hin. rewrite Forall_forall in Hpl. apply Hpl in Hin.
    destruct Hin as (_&_&Hx&_). by apply Hx. }
  destruct (authority_inv nl Hb) as (ui&host&port&->&Hp).
  assert (isascii host = true) as Ha.
  { unfold isascii. apply forallb_forall. intros c Hc%list_elem_of_In. apply Z.ltb_lt.
    rewrite Forall_forall in Hpl. destruct (Hpl c) as (?&?&_); [|done].
    unfold authority. rewrite !elem_of_app. auto. }
  rewrite canonicalize_netloc_authority by done.
  destruct (str_truthy host) eqn:Hne; [|done].
  destruct (port_value port) as [p|] eqn:Hpv; [|done]. cbn [mbind option_bind]. intros [= <-].
  destruct (effective_port scheme port p Hpv) as [Hd Hev].
  rewrite canonicalize_netloc_authority; [|by apply (plain_host_canonical host port)|by apply isascii_lower].
  split_and!.
  - rewrite Hev. cbn [mbind option_bind]. rewrite effective_idemp, ascii_lower_fmap_idemp.
    by destruct host.
  - by apply (plain_authority ui host port).
  - apply authority_nonempty. by destruct host.
Qed.

Lemma plain_splittable s nl p q f :
  forallb scheme_char s = true ∧ (∃ c s', s = c :: s' ∧ is_alpha c = true) →
  Forall plain_char nl → (p = [] ∨ ∃ p', p = 47 :: p') → (63 ∉ p) ∧ (35 ∉ p) → (35 ∉ q) →
  Forall (λ c, ¬ unsafe_char c) (p ++ q ++ f) →
  splittable s nl p q f.
Proof.
  intros Hs Hnl Hp Hpc Hq Hcl. pose proof Hnl as Hnl'. rewrite Forall_forall in Hnl'.
  constructor; try done.
  - eapply Forall_impl; [done|]. by intros ? (?&_).
  - unfold isascii. apply forallb_forall. intros c Hc%list_elem_of_In%Hnl'.
    apply Z.ltb_lt. by destruct Hc as (_&?&_).
  - split; intros (_&_&Hx&Hy&_)%Hnl'; [by apply Hx|by apply Hy].
  - apply Forall_app. split; [|done]. eapply Forall_impl; [done|]. by intros ? (_&_&_&_&?).
Qed.

(** The canonical parts can be put together and split again. *)
Lemma canonical_splittable sp n q' :
  is_Some (default_port (lower (scheme sp))) →
  Forall plain_char n → (path sp = [] ∨ ∃ p', path sp = 47 :: p') →
  (63 ∉ path sp) ∧ (35 ∉ path sp) → Forall (λ c, ¬ unsafe_char c) (path sp) →
  Forall (λ c, query_char c = true) q' →
  splittable (lower (scheme sp)) n (_canonicalize_path (path sp)) q' [].
Proof.
  intros Hs Hn Hp [H63 H35] Hcl Hq. apply supported_scheme in Hs as (_&_&Hs).
  assert (∀ c, c ∈ q' → ¬ unsafe_char c ∧ c ≠ 35) as Hq'.
  { rewrite Forall_forall in Hq. intros c Hc%Hq. revert Hc.
    unfold query_char, quoted_char, always_safe, is_alpha, is_digit, unsafe_char.
    rewrite !orb_true_iff, !andb_true_iff, !Z.leb_le, !Z.eqb_eq. lia. }
  apply plain_splittable; try done.
  - destruct (canonical_path_shape _ Hp) as (k&comps&trail&->&_&Hk&_).
    right. unfold build. destruct Hk as [-> | ->]; simpl; eauto.
  - split; intros Hin; apply (canonical_path_chars _ _ Hp) in Hin as [?|?]; done.
  - intros Hin. by apply Hq' in Hin as [_ []].
  - rewrite app_nil_r. apply Forall_app. split; apply Forall_forall.
    + intros c Hc. apply (canonical_path_chars _ _ Hp) in Hc as [->|Hc].
      * unfold unsafe_char. lia.
      * rewrite Forall_forall in Hcl. by apply Hcl.
    + intros c Hc. by apply Hq'.
Qed.

(** C22. A canonical URL is its own canonical URL, so that stored forms compare as texts:
    for every input whose host is ASCII and not in brackets, if the result does not end in
    whitespace, is not itself a Telegram wrapper and its path is not two or three slashes
    alone. *)
Theorem canonical_fixpoint v c sp :
  canonicalize_url (Some v) = Ok (Some c) →
  (target ← _unwrap_telegram_url (strip v); urlsplit target) = Ok sp →
  isascii (netloc sp) = true → (91 ∉ netloc sp) → (93 ∉ netloc sp) →
  strip c = c → unwrap_once c = Ok None →
  _canonicalize_path (path sp) ∉ [u "//"; u "///"] →
  canonicalize_url (Some c) = Ok (Some c).
Proof.
  intros Hc Hsp Ha H91 H93 Hstrip Hun Hpath.
  destruct (canonicalize_inv v c Hc) as (sp'&n&q&Hsp'&Hs&Hn&Hq&->).
  rewrite Hsp in Hsp'. injection Hsp' as <-.
  apply bind_Ok_inv in Hsp as (t&_&Hsp).
  destruct (urlsplit_spec _ _ Hsp) as (Hnl&Hpc&_&Hcl&Hp).
  rewrite !Forall_app in Hcl. destruct Hcl as (Hcl1&Hcl2&_).
  assert (Forall plain_char (netloc sp)) as Hpl.
  { apply Forall_forall. intros x Hx. rewrite Forall_forall in Hnl, Hcl1.
    unfold isascii in Ha. rewrite forallb_forall in Ha. split_and!; [by apply Hnl| | | |by apply Hcl1].
    - by apply Z.ltb_lt, Ha, list_elem_of_In.
    - by intros ->.
    - by intros ->. }
  destruct (canonical_netloc_fixpoint _ _ _ Hpl Hn) as (Hn'&Hpn&Hne).
  destruct (canonical_query_fixpoint _ _ Hq) as [Hq' Hqc].
  assert (netloc sp ≠ []) as Hnn.
  { intros E. rewrite E in Hn. by unfold _canonicalize_netloc, hostname_of in Hn. }
  specialize (Hp Hnn).
  pose proof (canonical_splittable sp n q Hs Hpn Hp Hpc Hcl2 Hqc) as Hsplit.
  rewrite !not_elem_of_cons in Hpath. destruct Hpath as (Hp2&Hp3&_).
  destruct (supported_scheme _ Hs) as (_&Hlow&_&(c0&s'&Es&_)).
  set (qo := if str_truthy q then Some q else None).
  assert (default [] qo = q) as Hqo by (unfold qo; by destruct q).
  assert (urlunsplit (MkSplit (lower (scheme sp)) n (_canonicalize_path (path sp)) q []) =
          assemble (lower (scheme sp)) n (_canonicalize_path (path sp)) qo None) as E.
  { apply urlunsplit_assemble; [by rewrite Es|done|].
    destruct (canonical_path_shape _ Hp) as (k&comps&trail&->&_&Hk&_).
    unfold build. destruct Hk as [-> | ->]; simpl; eauto. }
  rewrite E in *. rewrite canonicalize_assemble; rewrite ?Hlow, ?Hqo; try done.
  rewrite Hn', Hq'. cbn [mbind result_bind].
  by rewrite canonical_path_fixpoint, E by done.
Qed.

(** One way of writing a URL. *)
Record Spelling := MkSpelling {
  w_scheme : pystr;
  w_userinfo : option pystr;
  w_host : pystr;
  w_port : option pystr;
  w_path : pystr;
  w_query : option pystr;
  w_fragment : option pystr;
}.
Definition text (w : Spelling) : pystr :=
  assemble (w_scheme w) (authority (w_userinfo w) (w_host w) (w_port w)) (w_path w)
    (w_query w) (w_fragment w).

(** A direct HTTP URL with an ASCII host, not a Telegram wrapper. *)
Record http_url (w : Spelling) : Prop := MkHttp {
  hu_scheme : is_Some (default_port (ascii_lower <$> w_scheme w));
  hu_split : splittable (w_scheme w) (authority (w_userinfo w) (w_host w) (w_port w))
    (w_path w) (default [] (w_query w)) (default [] (w_fragment w));
  hu_host : plain_host (w_host w) (w_port w) ∧ isascii (w_host w) = true ∧ w_host w ≠ [];
  hu_port : is_Some (port_value (w_port w));
  hu_strip : strip (text w) = text w;
  hu_direct : unwrap_once (text w) = Ok None;
}.

(** The port named or, failing that, the default one of the scheme. *)
Definition port_number (w : Spelling) : option Z :=
  default None (port_value (w_port w)) ∪ default_port (ascii_lower <$> w_scheme w).
Definition params (q : option pystr) : list (pystr * pystr) := parse_qsl (default [] q).

(** The parameters that name no part of the resource, by the names of their keys. *)
Definition tracking (kv : pystr * pystr) : Prop :=
  (∃ rest, lower kv.1 = u "utm_" ++ rest) ∨ lower kv.1 = u "fbclid" ∨ lower kv.1 = u "gclid".

(** Two spellings of one resource: scheme and host up to case, the same port whether named
    or not, two ways to write one path, the same parameters in any order, each with
    whatever tracking ones; fragments do not count. *)
Record same_resource (w1 w2 : Spelling) : Prop := MkSame {
  sr_scheme : ascii_lower <$> w_scheme w1 = ascii_lower <$> w_scheme w2;
  sr_userinfo : w_userinfo w1 = w_userinfo w2;
  sr_host : ascii_lower <$> w_host w1 = ascii_lower <$> w_host w2;
  sr_port : port_number w1 = port_number w2;
  sr_path : same_path (w_path w1) (w_path w2);
  sr_query : ∃ kvs t1 t2, params (w_query w1) ≡ₚ kvs ++ t1 ∧ params (w_query w2) ≡ₚ kvs ++ t2 ∧
    Forall tracking (t1 ++ t2);
}.

Definition shown_port (w : Spelling) : option pystr :=
  effective (ascii_lower <$> w_scheme w) (port_number w).

Lemma effective_port_number w p :
  is_Some (default_port (ascii_lower <$> w_scheme w)) → port_value (w_port w) = Some p →
  effective (ascii_lower <$> w_scheme w) p = shown_port w.
Proof.
  intros [d Hd] Hp. unfold shown_port, port_number, effective. rewrite Hp, Hd. cbn [default].
  destruct p as [n|]; simpl; [done|]. by rewrite decide_True.
Qed.

(** The canonical form of a direct URL, part by part. *)
Lemma canonicalize_http w :
  http_url w →
  canonicalize_url (Some (text w)) =
  q ← urlencode (kept (params (w_query w)));
  Ok (Some (urlunsplit (MkSplit (ascii_lower <$> w_scheme w)
    (authority (w_userinfo w) (ascii_lower <$> w_host w) (shown_port w))
    (_canonicalize_path (w_path w)) q []))).
Proof.
  intros [Hs Hsp (Hp&Ha&Hne) [p Hpv] Hstrip Hun]. unfold text in *.
  rewrite canonicalize_assemble, canonicalize_netloc_authority by done.
  assert (str_truthy (w_host w) = true) as -> by (by destruct (w_host w)).
  rewrite Hpv. cbn [mbind option_bind]. by rewrite (effective_port_number w p).
Qed.

Lemma is_tracking_iff kv : _is_tracking_query_param kv.1 = true ↔ tracking kv.
Proof.
  unfold _is_tracking_query_param, tracking. rewrite orb_true_iff, bool_decide_eq_true, startswith_iff.
  unfold TRACKING_QUERY_KEYS. rewrite !elem_of_cons, elem_of_nil. tauto.
Qed.
Lemma kept_params l kvs t :
  l ≡ₚ kvs ++ t → Forall tracking t → kept l = kept kvs.
Proof.
  intros Hl Ht. rewrite (kept_perm _ _ Hl). apply kept_tracking.
  eapply Forall_impl; [done|]. intros kv. apply is_tracking_iff.
Qed.
(** What is kept and what is dropped. *)
Lemma kept_split l :
  ∃ t, l ≡ₚ kept l ++ t ∧ Forall tracking t ∧ Forall (λ kv, ¬ tracking kv) (kept l) ∧
       StronglySorted (λ a b, pair_cmp a b ≠ Gt) (kept l).
Proof.
  exists (filter (λ kv, _is_tracking_query_param kv.1 = true) l). unfold kept. split_and!.
  - rewrite sort_by_perm. induction l as [|kv l IH]; [done|]. rewrite !filter_cons.
    destruct (_is_tracking_query_param kv.1) eqn:E; repeat case_decide; try congruence.
    + by rewrite <-Permutation_middle, <-IH.
    + simpl. by rewrite <-IH.
  - apply Forall_forall. intros kv [Hk _]%list_elem_of_filter. by apply is_tracking_iff.
  - apply Forall_forall. intros kv [Hk _]%elem_of_sort_by%list_elem_of_filter.
    intros Ht%is_tracking_iff. congruence.
  - apply (sort_by_sorted pair_cmp).
Qed.

(** A path without anything [path_edit] could take away. *)
Definition clean_path (p : pystr) : Prop :=
  p = u "/" ∨ ∃ comps trail, p = build 1 comps trail ∧ comps ≠ [] ∧ Forall clean_comp comps.
Lemma clean_path_canonical p : clean_path p → _canonicalize_path p = p.
Proof.
  intros [->|(comps&trail&->&Hne&Hc)]; [done|]. apply canonical_path_build; auto.
Qed.

(** C23. The canonical form does not depend on how a URL is spelled: two spellings of one
    resource have the same canonical form (or fail alike, when a parameter has no UTF-8
    form). It consists of the scheme and host in lower case, the user information, the port
    unless it is the default one, a path without empty, [.] and [..] segments (the one clean
    path that is written like the path given, if there is one), and the parameters that are
    not for tracking, all of them and in the order of their keys and values; the fragment is
    gone. *)
Theorem canonical_spelling w1 w2 :
  http_url w1 → http_url w2 → same_resource w1 w2 →
  canonicalize_url (Some (text w1)) = canonicalize_url (Some (text w2)) ∧
  (∀ c, canonicalize_url (Some (text w1)) = Ok (Some c) →
     ∃ path query t,
       c = urlunsplit (MkSplit (ascii_lower <$> w_scheme w1)
             (authority (w_userinfo w1) (ascii_lower <$> w_host w1) (shown_port w1)) path query []) ∧
       (∃ n comps trail, path = build n comps trail ∧ Forall clean_comp comps) ∧
       (∀ p, clean_path p → same_path (w_path w1) p → path = p) ∧
       params (w_query w1) ≡ₚ parse_qsl query ++ t ∧ Forall tracking t ∧
       Forall (λ kv, ¬ tracking kv) (parse_qsl query) ∧
       StronglySorted (λ a b, pair_cmp a b ≠ Gt) (parse_qsl query)).
Proof.
  intros H1 H2 [Es Eu Eh Ep Epath (kvs&t1&t2&Eq1&Eq2&[Ht1 Ht2]%Forall_app)].
  rewrite !canonicalize_http by done. split.
  - unfold shown_port. rewrite (kept_params _ _ _ Eq1), (kept_params _ _ _ Eq2) by done.
    by rewrite Es, Eu, Eh, Ep, (same_path_canonical _ _ Epath).
  - intros c (q&Hq&[= <-])%bind_Ok_inv. apply parse_qsl_urlencode in Hq as [Hq _].
    destruct (kept_split (params (w_query w1))) as (t&Hp&Ht&Hn&Hs).
    exists (_canonicalize_path (w_path w1)), q, t. rewrite Hq. split_and!; try done.
    + destruct (canonical_path_shape (w_path w1)) as (n&comps&trail&E&Hc&_); [|by eauto].
      apply (sp_path _ _ _ _ _ (hu_split _ H1)).
    + intros p Hclean Hsame. rewrite (same_path_canonical _ _ Hsame). by apply clean_path_canonical.
Qed.
End unicode.

(** ** Instances *)

Definition sample_spelling : Spelling :=
  MkSpelling (u "HTTPS") (Some (u "me:x")) (u "Example.ORG") (Some (u "443")) (u "/a/../b/")
    (Some (u "z=1&utm_source=feed&a=%20")) (Some (u "top")).
Definition sample_plain : Spelling :=
  MkSpelling (u "https") (Some (u "me:x")) (u "example.org") None (u "/b/")
    (Some (u "a=+&z=1")) None.

Ltac http_sample :=
  constructor; [eexists; vm_compute; reflexivity
    |constructor; [split; [vm_compute; reflexivity|eexists _, _; split; [reflexivity|vm_compute; reflexivity] ]
       |by_eval|vm_compute; reflexivity|split; by_eval|right; eexists; reflexivity
       |split; by_eval|by_eval|by_eval]
    |split; [constructor; split_and!; by_eval|split; [vm_compute; reflexivity|discriminate] ]
    |eexists; vm_compute; reflexivity|vm_compute; reflexivity|vm_compute; reflexivity].

Lemma sample_spelling_http : http_url sample_spelling.
Proof. http_sample. Qed.
Lemma sample_plain_http : http_url sample_plain.
Proof. http_sample. Qed.
(** [/a/../b/] is written like [/b/]: the segment [a] is left again. *)
Lemma sample_same_path : same_path (u "/a/../b/") (u "/b/").
Proof.
  apply rtsc_lr. apply (parent_segment [] (u "a") (u "b/")); try done; [by left|by_eval].
Qed.
Lemma sample_same : same_resource sample_spelling sample_plain.
Proof.
  constructor; try (vm_compute; reflexivity); [exact sample_same_path|].
  exists [(u "z", u "1"); (u "a", u " ")], [(u "utm_source", u "feed")], [].
  assert (params (w_query sample_spelling) =
    [(u "z", u "1"); (u "utm_source", u "feed"); (u "a", u " ")]) as -> by (vm_compute; reflexivity).
  assert (params (w_query sample_plain) = [(u "a", u " "); (u "z", u "1")]) as ->
    by (vm_compute; reflexivity).
  split_and!.
  - simpl. apply Permutation_skip, Permutation_swap.
  - rewrite app_nil_r. apply Permutation_swap.
  - constructor; [|constructor]. left. exists (u "source"). by vm_compute.
Qed.

Lemma canonical_spelling_witness :
  canonicalize_url (Some (text sample_spelling)) = canonicalize_url (Some (text sample_plain)) ∧
  canonicalize_url (Some (text sample_plain)) = Ok (Some (u "https://me:x@example.org/b/?a=+&z=1")).
Proof.
  split; [|vm_compute; reflexivity].
  apply (canonical_spelling sample_spelling sample_plain);
    [apply sample_spelling_http|apply sample_plain_http|apply sample_same].
Defined.

Definition sample_url : pystr := u " HTTP://Example.org:8080//a/./b?b=2&a=1#x".
Definition sample_canonical : pystr := u "http://example.org:8080//a/b?a=1&b=2".
Lemma canonical_fixpoint_witness :
  canonicalize_url (Some sample_url) = Ok (Some sample_canonical) ∧
  canonicalize_url (Some sample_canonical) = Ok (Some sample_canonical).
Proof.
  split; [vm_compute; reflexivity|].
  apply (canonical_fixpoint sample_url sample_canonical
    (MkSplit (u "http") (u "Example.org:8080") (u "//a/./b") (u "b=2&a=1") (u "x")));
    first [vm_compute; reflexivity | by_eval].
Defined.

(** Each proviso of [canonical_fixpoint] is needed: an IPv6 host loses its brackets, and
    the result is no URL any more; a path of two slashes grows a third, which a second pass
    collapses; whitespace before a fragment survives until the next pass; and a wrapper in
    a wrapper in a wrapper is unwrapped one level short. *)
Example ipv6_brackets_lost :
  canonicalize_url (Some (u "http://[::1]/a")) = Ok (Some (u "http://::1/a")) ∧
  canonicalize_url (Some (u "http://::1/a")) = Ok None.
Proof. split; vm_compute; reflexivity. Qed.
Example double_slash_grows :
  canonicalize_url (Some (u "http://a.b//")) = Ok (Some (u "http://a.b///")) ∧
  canonicalize_url (Some (u "http://a.b///")) = Ok (Some (u "http://a.b/")).
Proof. split; vm_compute; reflexivity. Qed.
Example inner_space_survives :
  canonicalize_url (Some (u "http://a.b/x #top")) = Ok (Some (u "http://a.b/x ")) ∧
  canonicalize_url (Some (u "http://a.b/x ")) = Ok (Some (u "http://a.b/x")).
Proof. split; vm_compute; reflexivity. Qed.
Example wrapped_three_times :
  let v := u "https://t.me/iv?url=https%3A//t.me/iv%3Furl%3Dhttps%253A//t.me/iv%253Furl%253Dhttp%25253A//a.b/" in
  let c := u "https://t.me/iv?url=http%3A%2F%2Fa.b%2F" in
  canonicalize_url (Some v) = Ok (Some c) ∧
  canonicalize_url (Some c) = Ok (Some (u "http://a.b/")).
Proof. vm_compute. done. Qed.
End Canonical.
