(* ===== verification/Texts.v ===== *)
(** The normalised texts that strategies hash and compare
    (src/tca/normalize/hash_normalization.py, similarity_normalization.py). *)

From S2P Require Import Prelude PyValue PyText PyUrl Normalize.
Import Url.
Local Open Scope Z_scope.

(** * Embedded URLs

    The pattern [https?://[^\s]+], ignoring case: for the letter s that includes U+017F,
    which folds to it. *)

Definition same_letter (p c : Z) : bool :=
  (c =? p) || (c =? ascii_upper p) || ((p =? 115) && (c =? 383)).
Fixpoint match_letters (p s : pystr) : option pystr :=
  match p, s with
  | [], _ => Some s
  | a :: p, c :: s => if same_letter a c then match_letters p s else None
  | _ :: _, [] => None
  end.

(** The non-blank characters at the start of a text. *)
Fixpoint span_nonspace (s : pystr) : pystr :=
  match s with
  | [] => []
  | c :: s => if is_space c then [] else c :: span_nonspace s
  end.

(** The length of a match that starts here. *)
Definition match_url (s : pystr) : option nat :=
  rest ← match_letters (u "http") s;
  let after_s := match match_letters (u "s") rest with Some r => r | None => rest end in
  tail ← match_letters (u "://") after_s;
  match span_nonspace tail with
  | [] => None
  | n => Some (length s - length tail + length n)%nat
  end.

Section unicode.
Context `{UnicodeData}.

Definition _canonicalize_match (candidate : pystr) : result exn pystr :=
  normalized ← canonicalize_url (Some candidate);
  mret (default candidate normalized).

(** [_URL_PATTERN.sub(_canonicalize_match, value)]: [skip] characters of a match already
    replaced are still to be passed over. *)
Fixpoint sub_urls (skip : nat) (s : pystr) : result exn pystr :=
  match s with
  | [] => mret []
  | c :: s' =>
      match skip with
      | S skip => sub_urls skip s'
      | O =>
          match match_url s with
          | Some n =>
              m ← _canonicalize_match (take n s);
              rest ← sub_urls (n - 1) s';
              mret (m ++ rest)
          | None => rest ← sub_urls 0 s'; mret (c :: rest)
          end
      end
  end.
Definition _normalize_embedded_urls (value : pystr) : result exn pystr := sub_urls 0 value.

(** ** The text that is hashed: words of letters and digits *)

Definition blank_out (c : Z) : Z := if isalnum c then c else 32.
Definition _collapse_non_alphanumeric (value : pystr) : pystr :=
  join [32] (split_ws (blank_out <$> value)).

Definition normalize_hash_text (value : option pystr) : result exn pystr :=
  match value with
  | None | Some [] => mret []
  | Some value =>
      normalized ← _normalize_embedded_urls (lower (nfkc value));
      mret (_collapse_non_alphanumeric normalized)
  end.

(** [f"{title or ''}\n{body or ''}"] *)
Definition title_and_body (title body : option pystr) : pystr :=
  default [] title ++ [10] ++ default [] body.
Definition build_hash_normalized_input (title body : option pystr) : result exn pystr :=
  normalize_hash_text (Some (title_and_body title body)).

(** ** The text that is compared by tokens *)

(** [re.sub("\s+", " ", value)] *)
Fixpoint squeeze (in_run : bool) (s : pystr) : pystr :=
  match s with
  | [] => []
  | c :: s =>
      if is_space c then (if in_run then squeeze true s else 32 :: squeeze true s)
      else c :: squeeze false s
  end.
Definition _collapse_repeated_whitespace (value : pystr) : pystr := strip (squeeze false value).

Definition normalize_similarity_text (value : option pystr) : result exn pystr :=
  match value with
  | None | Some [] => mret []
  | Some value =>
      normalized ← _normalize_embedded_urls (lower (nfkc value));
      mret (_collapse_repeated_whitespace normalized)
  end.
Definition build_similarity_normalized_input (title body : option pystr) : result exn pystr :=
  normalize_similarity_text (Some (title_and_body title body)).
End unicode.

Example hash_text_example :
  build_hash_normalized_input (Some (u "Big News!")) (Some (u "See HTTP://A.b:80/x?utm_a=1, now.")) =
  Ok (u "big news see http a b x now").
Proof. vm_compute. reflexivity. Qed.
Example similarity_text_example :
  normalize_similarity_text (Some (u "  Big   News: http://A.b/./x#y  ")) =
  Ok (u "big news: http://a.b/x").
Proof. vm_compute. reflexivity. Qed.

(** * Lemmas *)

(** ** Words *)

Definition word (w : pystr) : Prop := w ≠ [] ∧ Forall (λ c, is_space c = false) w.

Lemma split_ws_words s : Forall word (split_ws s).
Proof.
  induction s as [|c s IH]; cbn [split_ws]; [constructor|].
  destruct (is_space c) eqn:Ec; [done|].
  assert (word [c]) as Hw by (split; [done|by repeat constructor]).
  destruct s as [|d s]; [by repeat constructor|].
  destruct (is_space d) eqn:Ed; [by constructor|].
  destruct (split_ws (d :: s)) as [|w ws]; [by repeat constructor|].
  inversion IH as [|? ? [? ?] ?]; subst. constructor; [|done].
  split; [done|by constructor].
Qed.

Lemma split_ws_word w : word w → split_ws w = [w].
Proof.
  intros [Hne Hw]. induction Hw as [|c w Hc Hw IH]; [done|]. cbn [split_ws]. rewrite Hc.
  destruct w as [|d w]; [done|]. inversion Hw; subst.
  assert (is_space d = false) as -> by done. by rewrite IH.
Qed.
Lemma split_ws_app w s c :
  word w → is_space c = true → split_ws (w ++ c :: s) = w :: split_ws s.
Proof.
  intros [Hne Hw] Hc. induction Hw as [|d w Hd Hw IH]; [done|].
  cbn [app split_ws]. rewrite Hd. destruct w as [|e w].
  - cbn [app]. rewrite Hc. cbn [split_ws]. by rewrite Hc.
  - cbn [app] in *. inversion Hw; subst. assert (is_space e = false) as -> by done.
    by rewrite IH.
Qed.

Lemma split_ws_join ws : Forall word ws → split_ws (join [32] ws) = ws.
Proof.
  induction 1 as [|w ws Hw Hws IH]; [done|]. destruct ws as [|w' ws]; [by apply split_ws_word|].
  change (join [32] (w :: w' :: ws)) with (w ++ 32 :: join [32] (w' :: ws)).
  by rewrite split_ws_app, IH.
Qed.

Lemma elem_of_split_ws s w x : w ∈ split_ws s → x ∈ w → x ∈ s.
Proof.
  intros Hw Hx. revert w Hw Hx. induction s as [|c s IH]; cbn [split_ws].
  { by intros w Hw%elem_of_nil. }
  assert (∀ w, w ∈ [[c]] → x ∈ w → x ∈ c :: s) as Hone.
  { intros w ->%list_elem_of_singleton ->%list_elem_of_singleton. apply list_elem_of_here. }
  assert (∀ w, w ∈ split_ws s → x ∈ w → x ∈ c :: s) as Hrest
    by (intros; apply list_elem_of_further; eauto).
  destruct (is_space c); [done|]. destruct s as [|d s]; [done|].
  destruct (is_space d).
  - intros w [-> | Hw]%elem_of_cons Hx; [|by eapply Hrest].
    apply list_elem_of_singleton in Hx as ->. apply list_elem_of_here.
  - destruct (split_ws (d :: s)) as [|w' ws]; [done|].
    intros w [-> | Hw]%elem_of_cons; [|by apply Hrest, list_elem_of_further].
    intros [-> | Hx]%elem_of_cons; [apply list_elem_of_here|].
    eapply Hrest; [apply list_elem_of_here|done].
Qed.

Lemma split_ws_sep s c t : is_space c = true → split_ws (s ++ c :: t) = split_ws s ++ split_ws t.
Proof.
  intros Hc. induction s as [|d s IH]; cbn [app split_ws]; [by rewrite Hc|].
  destruct (is_space d) eqn:Ed; [done|]. destruct s as [|e s]; cbn [app] in *.
  - rewrite Hc. cbn [split_ws]. by rewrite Hc.
  - destruct (is_space e) eqn:Ee; [by rewrite IH|]. rewrite IH.
    pose proof (split_ws_words (e :: s)) as Hw.
    assert (split_ws (e :: s) ≠ []) as Hne.
    { cbn [split_ws]. rewrite Ee. destruct s as [|f s]; [done|].
      destruct (is_space f); [done|]. by destruct (split_ws (f :: s)). }
    by destruct (split_ws (e :: s)).
Qed.

(** ** Replacing links *)

Lemma match_letters_inv p s r :
  match_letters p s = Some r →
  ∃ q, s = q ++ r ∧ Forall2 (λ a c, same_letter a c = true) p q.
Proof.
  revert s. induction p as [|a p IH]; intros s; simpl.
  - intros [= ->]. by exists [].
  - destruct s as [|c s]; [done|]. destruct (same_letter a c) eqn:E; [|done].
    intros (q&->&?)%IH. exists (c :: q). split; [done|by constructor].
Qed.

Lemma same_letter_spec p c :
  same_letter p c = true → c = p ∨ c = ascii_upper p ∨ p = 115 ∧ c = 383.
Proof. unfold same_letter. rewrite !orb_true_iff, andb_true_iff, !Z.eqb_eq. tauto. Qed.

Lemma letters_nonspace p q :
  Forall (λ a, (47 <= a <= 58 ∨ 97 <= a <= 122)) p → Forall2 (λ a c, same_letter a c = true) p q →
  Forall (λ c, is_space c = false) q.
Proof.
  intros Hp Hq. induction Hq as [|a c p q Hc%same_letter_spec _ IH]; [constructor|].
  inversion_clear Hp. constructor; [|by apply IH].
  assert (47 <= c <= 122 ∨ c = 383) as Hr.
  { destruct Hc as [-> | [-> | [_ ->] ] ]; [lia| |by right].
    unfold ascii_upper. destruct ((97 <=? a) && (a <=? 122)) eqn:E; [|lia].
    apply andb_true_iff in E as [?%Z.leb_le ?%Z.leb_le]. lia. }
  destruct (is_space c) eqn:E; [|done]. unfold is_space in E.
  rewrite !orb_true_iff, !andb_true_iff, !Z.leb_le, !Z.eqb_eq in E. lia.
Qed.

(** A match has a colon, and no whitespace before it. *)
Lemma match_url_colon s n :
  match_url s = Some n → ∃ q r, s = q ++ 58 :: r ∧ Forall (λ c, is_space c = false) q.
Proof.
  unfold match_url. destruct (match_letters (u "http") s) as [rest|] eqn:E1; [|done].
  cbn [mbind option_bind].
  set (after_s := match match_letters (u "s") rest with Some r => r | None => rest end).
  assert (∃ q, rest = q ++ after_s ∧ Forall (λ c, is_space c = false) q) as (q&Eq&Hq).
  { unfold after_s. destruct (match_letters (u "s") rest) as [r|] eqn:E; [|by exists []].
    apply match_letters_inv in E as (q&->&Hq). exists q. split; [done|].
    eapply letters_nonspace; [|done]. by_eval. }
  clearbody after_s. destruct (match_letters (u "://") after_s) as [tail|] eqn:E2; [|done].
  intros _. apply match_letters_inv in E1 as (q1&->&H1), E2 as (q2&->&H2).
  apply letters_nonspace in H1; [|by_eval].
  inversion H2 as [|? c ? q2' Hc _]; subst.
  assert (c = 58) as -> by (by apply same_letter_spec in Hc as [? | [? | [? ?] ] ]).
  exists (q1 ++ q), (q2' ++ tail). rewrite <-!app_assoc. split; [done|]. by apply Forall_app.
Qed.

Lemma match_url_none t c z :
  (58 ∉ t) → is_space c = true → match_url (t ++ c :: z) = None.
Proof.
  intros Ht Hc. destruct (match_url (t ++ c :: z)) as [n|] eqn:E; [|done]. exfalso.
  apply match_url_colon in E as (q&r&E&Hq). revert q E Hq.
  induction t as [|d t IH]; intros q E Hq.
  - destruct q as [|e q]; simpl in E; injection E as -> ->; [done|].
    inversion Hq; congruence.
  - destruct q as [|e q]; simpl in E; injection E as -> E; [set_solver|].
    inversion Hq; subst. apply (IH ltac:(set_solver) q); done.
Qed.

Lemma sub_urls_skip x s `{UnicodeData} : sub_urls (length x) (x ++ s) = sub_urls 0 s.
Proof. induction x as [|c x IH]; [done|]. exact IH. Qed.

(** Text that ends in whitespace and has no colon takes no part in a replacement. *)
Definition detached (pre : pystr) : Prop :=
  pre = [] ∨ ∃ t c, pre = t ++ [c] ∧ is_space c = true ∧ (58 ∉ t).

Lemma sub_urls_detached `{UnicodeData} pre z :
  detached pre → sub_urls 0 (pre ++ z) = r ← sub_urls 0 z; Ok (pre ++ r).
Proof.
  intros [-> | (t&c&->&Hc&Ht)]; [cbn [app]; by destruct (sub_urls 0 z)|].
  rewrite <-app_assoc. cbn [app]. induction t as [|d t IH].
  - pose proof (match_url_none [] c z Ht Hc) as Hm. cbn [app sub_urls] in *. rewrite Hm.
    by destruct (sub_urls 0 z).
  - pose proof (match_url_none (d :: t) c z Ht Hc) as Hm. cbn [app sub_urls] in *. rewrite Hm.
    cbn [app] in IH. rewrite IH by set_solver. by destruct (sub_urls 0 z).
Qed.

Lemma match_letters_app p s r t :
  match_letters p s = Some r → match_letters p (s ++ t) = Some (r ++ t).
Proof.
  revert s. induction p as [|a p IH]; intros s; simpl; [by intros [= ->]|].
  destruct s as [|c s]; [done|]. simpl. destruct (same_letter a c); [apply IH|done].
Qed.

Lemma match_letters_length p s r : match_letters p s = Some r → (length r <= length s)%nat.
Proof. intros (q&->&_)%match_letters_inv. rewrite length_app. lia. Qed.

Definition blank_start (post : pystr) : Prop :=
  match post with [] => True | c :: _ => is_space c = true end.

Lemma span_nonspace_prefix s : span_nonspace s `prefix_of` s.
Proof.
  induction s as [|c s IH]; simpl; [done|]. destruct (is_space c).
  - apply prefix_nil.
  - by apply prefix_cons.
Qed.
Lemma span_nonspace_app s post :
  span_nonspace s = s → blank_start post → span_nonspace (s ++ post) = s.
Proof.
  intros Hs Hp. induction s as [|c s IH]; simpl in *.
  - destruct post as [|c post]; [done|]. simpl in *. by rewrite Hp.
  - destruct (is_space c); [done|]. injection Hs as Hs. by rewrite IH.
Qed.

(** A text that is one match from end to end. *)
Definition is_link (l : pystr) : bool := bool_decide (match_url l = Some (length l)).

Lemma match_url_link l post :
  is_link l = true → blank_start post → match_url (l ++ post) = Some (length l).
Proof.
  intros Hl%bool_decide_eq_true Hp. unfold match_url in *.
  destruct (match_letters (u "http") l) as [rest|] eqn:E1; [|done].
  rewrite (match_letters_app _ _ _ post E1). cbn [mbind option_bind] in *.
  destruct rest as [|c rest]; [done|].
  set (opt := λ r, match match_letters (u "s") r with Some r' => r' | None => r end) in *.
  assert (opt ((c :: rest) ++ post) = opt (c :: rest) ++ post) as Eo.
  { unfold opt. change (u "s") with [115]. cbn [app match_letters].
    by destruct (same_letter 115 c). }
  change (match match_letters (u "s") (c :: rest) with Some r => r | None => c :: rest end)
    with (opt (c :: rest)) in Hl.
  change (match match_letters (u "s") ((c :: rest) ++ post) with
          | Some r => r | None => (c :: rest) ++ post end) with (opt ((c :: rest) ++ post)).
  assert (length (opt (c :: rest)) <= length l)%nat as Ho.
  { transitivity (length (c :: rest)); [|by eapply match_letters_length]. unfold opt.
    destruct (match_letters (u "s") (c :: rest)) eqn:E; [|done]. by eapply match_letters_length. }
  rewrite Eo. clear Eo. generalize dependent (opt (c :: rest)). intros after_s Hl Ho.
  destruct (match_letters (u "://") after_s) as [tail|] eqn:E2; [|done].
  rewrite (match_letters_app _ _ _ post E2). cbn [mbind option_bind] in *.
  assert (length tail <= length l)%nat as Hlen.
  { by etransitivity; [eapply match_letters_length|]. }
  assert (span_nonspace tail = tail) as Es.
  { pose proof (span_nonspace_prefix tail) as Hpre. destruct Hpre as [k Hk].
    destruct (span_nonspace tail) as [|d n] eqn:Es; [done|]. injection Hl as Hl.
    apply (f_equal length) in Hk as Hk'. rewrite length_app in Hk'. simpl in Hk'.
    destruct k; [by rewrite app_nil_r in Hk|]. simpl in Hk'. lia. }
  rewrite (span_nonspace_app _ _ Es Hp). rewrite Es in Hl.
  destruct tail as [|d tail]; [done|]. rewrite !length_app. f_equal. simpl in *. lia.
Qed.

(** A link between detached text and whitespace is replaced by its canonical form. *)
Lemma sub_urls_link `{UnicodeData} pre l post :
  detached pre → is_link l = true → blank_start post →
  _normalize_embedded_urls (pre ++ l ++ post) =
  m ← _canonicalize_match l; rest ← _normalize_embedded_urls post; Ok (pre ++ m ++ rest).
Proof.
  intros Hpre Hl Hp. unfold _normalize_embedded_urls. rewrite sub_urls_detached by done.
  pose proof (match_url_link l post Hl Hp) as Hm.
  destruct l as [|c l]; [done|]. cbn [app sub_urls] in *. rewrite Hm.
  replace (take (length (c :: l)) (c :: l ++ post)) with (c :: l)
    by (change (c :: l ++ post) with ((c :: l) ++ post); by rewrite take_app_length).
  replace (length (c :: l) - 1)%nat with (length l) by (simpl; lia).
  rewrite sub_urls_skip. destruct (_canonicalize_match (c :: l)); simpl; [|done].
  by destruct (sub_urls 0 post).
Qed.

(** ** The text that is hashed *)

Section laws.
Context `{UnicodeLaws}.

Definition alnum_word (w : pystr) : Prop := w ≠ [] ∧ Forall (λ c, isalnum c = true) w.

Lemma alnum_word_word w : alnum_word w → word w.
Proof.
  intros [Hne Hw]. split; [done|]. eapply Forall_impl; [done|]. cbv beta. intros c Hc.
  destruct (is_space c) eqn:E; [|done]. apply isalnum_space in E. congruence.
Qed.

(** The words of a text: its maximal runs of letters and digits. *)
Definition alnum_words (s : pystr) : list pystr := split_ws (blank_out <$> s).

Lemma alnum_words_alnum s : Forall alnum_word (alnum_words s).
Proof.
  unfold alnum_words. apply Forall_forall. intros w Hw.
  pose proof (split_ws_words (blank_out <$> s)) as Hall. rewrite Forall_forall in Hall.
  destruct (Hall w Hw) as [Hne Hsp]. split; [done|]. rewrite Forall_forall in Hsp.
  apply Forall_forall. intros c Hc. pose proof (Hsp c Hc) as Hs.
  apply (elem_of_split_ws _ _ _ Hw) in Hc as (d&->&_)%list_elem_of_fmap.
  unfold blank_out in *. destruct (isalnum d) eqn:E; [done|]. by vm_compute in Hs.
Qed.

Lemma collapse_words s : split_ws (_collapse_non_alphanumeric s) = alnum_words s.
Proof.
  unfold _collapse_non_alphanumeric. apply split_ws_join.
  eapply Forall_impl; [apply alnum_words_alnum|]. apply alnum_word_word.
Qed.

Lemma join_words_nil ws : Forall word ws → join [32] ws = [] ↔ ws = [].
Proof.
  intros Hws. split; [|by intros ->]. destruct Hws as [|w ws [Hne _] _]; [done|].
  simpl. by destruct ws, w.
Qed.

Lemma hash_text_cases v r :
  normalize_hash_text v = Ok r → r = [] ∨ ∃ s, r = _collapse_non_alphanumeric s.
Proof.
  destruct v as [ [|c v]|]; [intros [= <-]; by left| |intros [= <-]; by left].
  intros (s&_&[= <-])%bind_Ok_inv. right. by exists s.
Qed.

(** A hash text has a UTF-8 form: a lone surrogate is not alphanumeric. *)
Lemma hash_text_scalar v r : normalize_hash_text v = Ok r → scalar r = true.
Proof.
  intros Hr. destruct (hash_text_cases _ _ Hr) as [-> | [s ->] ].
  { done. }
  unfold scalar. apply forallb_forall. intros c Hc%list_elem_of_In.
  apply elem_of_join in Hc as [->%list_elem_of_singleton|(w&Hw&Hc)]; [done|].
  pose proof (alnum_words_alnum s) as Hall. rewrite Forall_forall in Hall.
  destruct (Hall w Hw) as [_ Ha]. rewrite Forall_forall in Ha. by apply isalnum_scalar, Ha.
Qed.

(** A text without [://] has no links. *)
Definition no_scheme (s : pystr) : Prop := ∀ p q, s ≠ p ++ u "://" ++ q.
Lemma no_scheme_cons c s : no_scheme (c :: s) → no_scheme s.
Proof. intros Hs p q ->. by apply (Hs (c :: p) q). Qed.
Lemma no_scheme_sep s c t :
  c ≠ 58 → c ≠ 47 → no_scheme s → no_scheme t → no_scheme (s ++ c :: t).
Proof.
  intros H1 H2 Hs Ht p q E. change (u "://" ++ q) with (58 :: 47 :: 47 :: q) in E.
  apply app_eq_inv in E as [ (k&->&E)|(k&->&E) ].
  - destruct k as [|k1 [|k2 [|k3 k] ] ]; injection E; intros; subst; try congruence.
    by apply (Hs p k).
  - destruct k as [|k1 k]; injection E; intros; subst; [congruence|]. by apply (Ht k q).
Qed.
Lemma no_scheme_lower s : no_scheme s → no_scheme (ascii_lower <$> s).
Proof.
  assert (∀ c, 47 ≤ ascii_lower c ≤ 58 → ascii_lower c = c) as Hlow.
  { intros c. unfold ascii_lower. destruct ((65 <=? c) && (c <=? 90)) eqn:E; [|done].
    apply andb_true_iff in E as [?%Z.leb_le ?%Z.leb_le]. lia. }
  intros Hs p q E. change (u "://" ++ q) with (58 :: 47 :: 47 :: q) in E.
  apply fmap_app_inv in E as (p'&r&->&E&->).
  destruct r as [|c1 [|c2 [|c3 r] ] ]; simpl in E; simplify_eq.
  apply (Hs p' r). f_equal. change (u "://" ++ r) with (58 :: 47 :: 47 :: r).
  rewrite Hlow in H1 by lia. rewrite Hlow in H2 by lia. rewrite Hlow in H3 by lia. by subst.
Qed.

Lemma no_scheme_check s :
  forallb (λ c, negb (startswith c (u "://"))) (s :: ((λ i, drop (S i) s) <$> seq 0 (length s))) = true →
  no_scheme s.
Proof.
  intros Hc p q E. rewrite forallb_forall in Hc.
  assert (startswith (drop (length p) s) (u "://") = true) as Hs.
  { apply startswith_iff. exists q. by rewrite E, drop_app_length. }
  assert (drop (length p) s ∈ s :: ((λ i, drop (S i) s) <$> seq 0 (length s))) as Hin.
  { destruct p as [|a p]; [by left|right]. apply list_elem_of_fmap. exists (length p).
    split; [done|]. apply elem_of_seq. rewrite E, length_app. simpl. lia. }
  apply list_elem_of_In, Hc in Hin. by rewrite Hs in Hin.
Qed.

Lemma match_url_no_scheme s : no_scheme s → match_url s = None.
Proof.
  intros Hs. unfold match_url. destruct (match_letters (u "http") s) as [rest|] eqn:E1; [|done].
  cbn [mbind option_bind].
  set (after_s := match match_letters (u "s") rest with Some r => r | None => rest end).
  assert (∃ q, rest = q ++ after_s) as (q&Eq).
  { unfold after_s. destruct (match_letters (u "s") rest) as [r|] eqn:E; [|by exists []].
    apply match_letters_inv in E as (q&->&_). by exists q. }
  clearbody after_s. destruct (match_letters (u "://") after_s) as [tail|] eqn:E2; [|done].
  exfalso. apply match_letters_inv in E1 as (q1&->&_), E2 as (q2&->&H2). subst rest.
  apply (Hs (q1 ++ q) tail). rewrite <-app_assoc. do 3 f_equal.
  change (u "://") with [58; 47; 47] in *.
  assert (∀ p c, 47 ≤ p ≤ 58 → same_letter p c = true → c = p) as Hsame.
  { intros p c Hp [?|[->|[-> _] ] ]%same_letter_spec; [done| |lia]. unfold ascii_upper.
    destruct ((97 <=? p) && (p <=? 122)) eqn:E; [|done].
    apply andb_true_iff in E as [?%Z.leb_le _]. lia. }
  apply Forall2_cons_inv_l in H2 as (c1&q3&Hc1&H2&->).
  apply Forall2_cons_inv_l in H2 as (c2&q4&Hc2&H2&->).
  apply Forall2_cons_inv_l in H2 as (c3&q5&Hc3&H2&->). apply Forall2_nil_inv_l in H2 as ->.
  apply Hsame in Hc1, Hc2, Hc3; try lia. by subst.
Qed.
Lemma no_links s : no_scheme s → _normalize_embedded_urls s = Ok s.
Proof.
  unfold _normalize_embedded_urls. induction s as [|c s IH]; intros Hs; [done|].
  pose proof (match_url_no_scheme (c :: s) Hs) as Hm. cbn [sub_urls]. rewrite Hm.
  rewrite IH by (by eapply no_scheme_cons). done.
Qed.

Lemma normalize_hash_ascii v :
  isascii v = true →
  normalize_hash_text (Some v) =
  n ← _normalize_embedded_urls (ascii_lower <$> v); Ok (_collapse_non_alphanumeric n).
Proof.
  intros Hv. destruct v as [|c v]; [done|]. cbn [normalize_hash_text].
  by rewrite (nfkc_ascii _ Hv), (lower_ascii _ Hv).
Qed.

Lemma lower_not_in x (s : pystr) : ¬ 97 <= x <= 122 → (x ∉ s) → x ∉ ascii_lower <$> s.
Proof. intros Hx Hs Hin. by apply Canonical.elem_of_lower in Hin. Qed.

Lemma space_lower c : is_space c = true → is_space (ascii_lower c) = true.
Proof.
  intros Hc. unfold ascii_lower. destruct ((65 <=? c) && (c <=? 90)) eqn:E; [|done].
  exfalso. unfold is_space in Hc.
  rewrite !orb_true_iff, !andb_true_iff, !Z.leb_le, !Z.eqb_eq in *. lia.
Qed.
Lemma detached_lower pre : detached pre → detached (ascii_lower <$> pre).
Proof.
  intros [-> | (t&x&->&Hx&Ht)]; [by left|right].
  exists (ascii_lower <$> t), (ascii_lower x). rewrite fmap_app.
  split_and!; [done|by apply space_lower|apply lower_not_in; [lia|done] ].
Qed.
Lemma blank_start_lower post : blank_start post → blank_start (ascii_lower <$> post).
Proof. destruct post as [|c post]; [done|]. apply space_lower. Qed.

(** The words of two texts with a blank between them. *)
Lemma alnum_words_sep s c t :
  is_space c = true → alnum_words (s ++ c :: t) = alnum_words s ++ alnum_words t.
Proof.
  intros Hc. unfold alnum_words. rewrite fmap_app, fmap_cons.
  assert (blank_out c = 32) as ->; [|by apply split_ws_sep].
  unfold blank_out. by rewrite (isalnum_space _ Hc).
Qed.
Lemma title_and_body_nonempty title body : ∃ c v, title_and_body title body = c :: v.
Proof. unfold title_and_body. destruct (default [] title); simpl; eauto. Qed.

(** C24. What the content hash of an item is computed from. It consists of words of letters
    and digits between single spaces. When the title and the body, normalised (NFKC) and in
    lower case, have no [://], and so no links, the words are exactly those of that text,
    title first. When both are ASCII besides, they are the words of the title in lower case
    followed by those of the body: case, punctuation, line breaks and where the title ends
    do not count, and nothing else is lost. In ASCII text a link that stands between blanks,
    with no colon before it, counts by its canonical form only. *)
Theorem hash_text_invariant :
  (∀ title body r, build_hash_normalized_input title body = Ok r →
     Forall alnum_word (split_ws r) ∧ r = join [32] (split_ws r)) ∧
  (∀ title body, no_scheme (lower (nfkc (default [] title ++ 10 :: default [] body))) →
     build_hash_normalized_input title body =
     Ok (join [32] (alnum_words (lower (nfkc (default [] title ++ 10 :: default [] body)))))) ∧
  (∀ title body, isascii (default [] title) = true → isascii (default [] body) = true →
     no_scheme (default [] title) → no_scheme (default [] body) →
     build_hash_normalized_input title body =
     Ok (join [32] (alnum_words (ascii_lower <$> default [] title) ++
                    alnum_words (ascii_lower <$> default [] body)))) ∧
  (∀ t1 b1 t2 b2 pre l1 l2 post c,
     default [] t1 ++ 10 :: default [] b1 = pre ++ l1 ++ post →
     default [] t2 ++ 10 :: default [] b2 = pre ++ l2 ++ post →
     isascii (pre ++ l1 ++ post) = true → isascii (pre ++ l2 ++ post) = true →
     detached pre → is_link (ascii_lower <$> l1) = true → is_link (ascii_lower <$> l2) = true →
     blank_start post →
     canonicalize_url (Some (ascii_lower <$> l1)) = Ok (Some c) →
     canonicalize_url (Some (ascii_lower <$> l2)) = Ok (Some c) →
     build_hash_normalized_input t1 b1 = build_hash_normalized_input t2 b2).
Proof.
  assert (∀ title body, no_scheme (lower (nfkc (default [] title ++ 10 :: default [] body))) →
    build_hash_normalized_input title body =
    Ok (join [32] (alnum_words (lower (nfkc (default [] title ++ 10 :: default [] body)))))) as Hgen.
  { intros title body Hn. unfold build_hash_normalized_input.
    destruct (title_and_body_nonempty title body) as (c&v&E). rewrite E. cbn [normalize_hash_text].
    rewrite <-E. unfold title_and_body. cbn [app]. by rewrite no_links. }
  split_and!; [|done|..].
  - intros title body r Hr. destruct (hash_text_cases _ _ Hr) as [-> | [s ->] ].
    { split; [constructor|done]. }
    rewrite collapse_words. split; [apply alnum_words_alnum|done].
  - intros title body Ht Hb Nt Nb.
    assert (isascii (default [] title ++ 10 :: default [] body) = true) as Ha
      by (unfold isascii in *; rewrite forallb_app; cbn [forallb]; by rewrite Ht, Hb).
    assert (lower (nfkc (default [] title ++ 10 :: default [] body)) =
      (ascii_lower <$> default [] title) ++ 10 :: (ascii_lower <$> default [] body)) as E
      by (by rewrite (nfkc_ascii _ Ha), (lower_ascii _ Ha), fmap_app).
    rewrite Hgen; rewrite E; [by rewrite alnum_words_sep|].
    apply no_scheme_sep; [done..| |]; by apply no_scheme_lower.
  - intros t1 b1 t2 b2 pre l1 l2 post c E1 E2 H1 H2 Hpre L1 L2 Hp C1 C2.
    unfold build_hash_normalized_input, title_and_body. cbn [app]. rewrite E1, E2.
    rewrite !normalize_hash_ascii by done.
    rewrite !fmap_app, !sub_urls_link by auto using detached_lower, blank_start_lower.
    unfold _canonicalize_match. by rewrite C1, C2.
Qed.
End laws.

Definition sample_link1 : pystr := u "HTTP://A.b:80/x/../y?utm_source=q&k=1".
Definition sample_link2 : pystr := u "http://a.B/y?k=1#top".
Definition sample_canonical : pystr := u "http://a.b/y?k=1".
Lemma hash_text_invariant_witness :
  build_hash_normalized_input (Some (u "Read: this")) (Some (u "NOW!")) =
    Ok (join [32] [u "read"; u "this"; u "now"]) ∧
  build_hash_normalized_input (Some (u "Read this")) (Some (sample_link1 ++ u " today!")) =
  build_hash_normalized_input (Some (u "Read this")) (Some (sample_link2 ++ u " today!")) ∧
  build_hash_normalized_input (Some (u "Read this")) (Some (sample_link2 ++ u " today!")) =
  Ok (u "read this http a b y k 1 today").
Proof.
  destruct hash_text_invariant as (_&_&Hplain&Hlink). split_and!; [| |vm_compute; reflexivity].
  - rewrite Hplain; [vm_compute; reflexivity|vm_compute; reflexivity|vm_compute; reflexivity| |];
      apply no_scheme_check; vm_compute; reflexivity.
  - apply (Hlink _ _ _ _ (u "Read this" ++ [10]) sample_link1 sample_link2 (u " today!")
      sample_canonical); try (vm_compute; reflexivity).
    right. exists (u "Read this"), 10. split_and!; [reflexivity|reflexivity|by_eval].
Defined.
