(* ===== verification/Schema.v ===== *)
(** The SQLite database: a record per table row, the tables, referential actions of
    the foreign keys declared by the migrations under alembic/versions/, and the
    referential-integrity invariant.

    A table is a finite map from its primary key to its row. [dedupe_members] and
    [channel_group_members] have no column besides their key pair that the code
    reads, and are sets of pairs: [(cluster_id, item_id)] and
    [(group_id, channel_id)]. JSON columns hold the JSON value their text denotes.
    Text columns that statements compare or order by hold their text. *)

From S2P Require Import Prelude PyValue PyTime.
Local Open Scope Z_scope.

(** * Rows *)

(** [telegram_accounts] *)
Record Account := MkAccount {
  ac_api_id : Z;
  ac_api_hash_encrypted : list Z;
  ac_phone_number : option pystr;
  ac_session_encrypted : option (list Z);
  ac_key_version : Z;
  ac_paused_at : option datetime;
  ac_pause_reason : option pystr;
}.

(** [telegram_channels] *)
Record Channel := MkChannel {
  ch_account_id : Z;
  ch_telegram_channel_id : Z;
  ch_name : pystr;
  ch_username : option pystr;
  ch_is_enabled : bool;
}.

(** [channel_groups] *)
Record Group := MkGroup {
  gr_name : pystr;
  gr_description : option pystr;
  gr_horizon_override : option Z;
}.

(** [ChannelCursor] of channel_state_repo.py, the content of [cursor_json]. *)
Record ChannelCursor := MkCursor {
  last_message_id : option Z;
  next_offset_id : option Z;
  last_polled_at : datetime;
}.

(** [channel_state] *)
Record ChannelState := MkChannelState {
  cs_cursor : option ChannelCursor;
  cs_paused_until : option datetime;
  cs_last_success_at : option datetime;
}.

(** [raw_messages] *)
Record RawMessage := MkRaw {
  rm_channel_id : Z;
  rm_message_id : Z;
  rm_payload : JSONValue;
  rm_created_at : pystr;
  rm_updated_at : pystr;
}.

(** [items] *)
Record Item := MkItem {
  it_channel_id : Z;
  it_message_id : Z;
  it_raw_message_id : option Z;
  it_published_at : option pystr;
  it_title : option pystr;
  it_body : option pystr;
  it_canonical_url : option pystr;
  it_canonical_url_hash : option pystr;
  it_content_hash : option pystr;
  it_dedupe_state : pystr;
  it_created_at : pystr;
  it_updated_at : pystr;
}.

(** [dedupe_clusters] *)
Record Cluster := MkCluster {
  cl_key : pystr;
  cl_representative : option Z;
}.

(** [dedupe_decisions] *)
Record DecisionRow := MkDecision {
  de_item_id : Z;
  de_cluster_id : option Z;
  de_candidate_item_id : option Z;
  de_strategy_name : pystr;
  de_outcome : pystr;
  de_reason_code : option pystr;
  de_score : option pyfloat;
  de_metadata : option JSONValue;
  de_created_at : pystr;
}.

(** [ingest_errors] *)
Record IngestError := MkIngestError {
  ie_channel_id : option Z;
  ie_stage : pystr;
  ie_error_code : pystr;
  ie_error_message : pystr;
  ie_payload_ref : option pystr;
  ie_created_at : pystr;
}.

(** [notifications] *)
Record Notification := MkNotification {
  no_type : pystr;
  no_severity : pystr;
  no_message : pystr;
  no_payload : option JSONValue;
  no_is_acknowledged : bool;
  no_acknowledged_at : option pystr;
  no_created_at : pystr;
}.

(** [poll_jobs] *)
Record PollJob := MkPollJob {
  pj_channel_id : Z;
  pj_correlation_id : pystr;
}.

(** [bot_deliveries] *)
Record Delivery := MkDelivery {
  dl_cluster_id : Z;
  dl_delivered_at : pystr;
  dl_message_id : option pystr;
}.

(** [auth_key_rotation], the row [id = 1] *)
Record Rotation := MkRotation {
  ro_target_key_version : Z;
  ro_last_rotated_account_id : Z;
  ro_completed_at : option pystr;
}.

(** [auth_session_state], keyed by [session_id] *)
Record AuthSession := MkAuthSession {
  as_phone_number : pystr;
  as_status : pystr;
  as_expires_at : Z;
  as_telegram_session : option pystr;
}.

(** * The database *)

Record Db := MkDb {
  accounts : gmap Z Account;
  channels : gmap Z Channel;
  groups : gmap Z Group;
  group_members : gset (Z * Z);
  channel_states : gmap Z ChannelState;
  raw_messages : gmap Z RawMessage;
  items : gmap Z Item;
  clusters : gmap Z Cluster;
  members : gset (Z * Z);
  decisions : gmap Z DecisionRow;
  ingest_errors : gmap Z IngestError;
  notifications : gmap Z Notification;
  settings : gmap pystr JSONValue;
  poll_jobs : gmap Z PollJob;
  deliveries : gmap Z Delivery;
  rotation : option Rotation;
  auth_sessions : gmap pystr AuthSession;
}.

Definition empty_db : Db :=
  MkDb ∅ ∅ ∅ ∅ ∅ ∅ ∅ ∅ ∅ ∅ ∅ ∅ ∅ ∅ ∅ None ∅.

(** Replace one table. *)
Definition set_accounts (x : gmap Z Account) (db : Db) : Db :=
  MkDb x (channels db) (groups db) (group_members db) (channel_states db) (raw_messages db) (items db) (clusters db) (members db) (decisions db) (ingest_errors db) (notifications db) (settings db) (poll_jobs db) (deliveries db) (rotation db) (auth_sessions db).
Definition set_channels (x : gmap Z Channel) (db : Db) : Db :=
  MkDb (accounts db) x (groups db) (group_members db) (channel_states db) (raw_messages db) (items db) (clusters db) (members db) (decisions db) (ingest_errors db) (notifications db) (settings db) (poll_jobs db) (deliveries db) (rotation db) (auth_sessions db).
Definition set_groups (x : gmap Z Group) (db : Db) : Db :=
  MkDb (accounts db) (channels db) x (group_members db) (channel_states db) (raw_messages db) (items db) (clusters db) (members db) (decisions db) (ingest_errors db) (notifications db) (settings db) (poll_jobs db) (deliveries db) (rotation db) (auth_sessions db).
Definition set_group_members (x : gset (Z * Z)) (db : Db) : Db :=
  MkDb (accounts db) (channels db) (groups db) x (channel_states db) (raw_messages db) (items db) (clusters db) (members db) (decisions db) (ingest_errors db) (notifications db) (settings db) (poll_jobs db) (deliveries db) (rotation db) (auth_sessions db).
Definition set_channel_states (x : gmap Z ChannelState) (db : Db) : Db :=
  MkDb (accounts db) (channels db) (groups db) (group_members db) x (raw_messages db) (items db) (clusters db) (members db) (decisions db) (ingest_errors db) (notifications db) (settings db) (poll_jobs db) (deliveries db) (rotation db) (auth_sessions db).
Definition set_raw_messages (x : gmap Z RawMessage) (db : Db) : Db :=
  MkDb (accounts db) (channels db) (groups db) (group_members db) (channel_states db) x (items db) (clusters db) (members db) (decisions db) (ingest_errors db) (notifications db) (settings db) (poll_jobs db) (deliveries db) (rotation db) (auth_sessions db).
Definition set_items (x : gmap Z Item) (db : Db) : Db :=
  MkDb (accounts db) (channels db) (groups db) (group_members db) (channel_states db) (raw_messages db) x (clusters db) (members db) (decisions db) (ingest_errors db) (notifications db) (settings db) (poll_jobs db) (deliveries db) (rotation db) (auth_sessions db).
Definition set_clusters (x : gmap Z Cluster) (db : Db) : Db :=
  MkDb (accounts db) (channels db) (groups db) (group_members db) (channel_states db) (raw_messages db) (items db) x (members db) (decisions db) (ingest_errors db) (notifications db) (settings db) (poll_jobs db) (deliveries db) (rotation db) (auth_sessions db).
Definition set_members (x : gset (Z * Z)) (db : Db) : Db :=
  MkDb (accounts db) (channels db) (groups db) (group_members db) (channel_states db) (raw_messages db) (items db) (clusters db) x (decisions db) (ingest_errors db) (notifications db) (settings db) (poll_jobs db) (deliveries db) (rotation db) (auth_sessions db).
Definition set_decisions (x : gmap Z DecisionRow) (db : Db) : Db :=
  MkDb (accounts db) (channels db) (groups db) (group_members db) (channel_states db) (raw_messages db) (items db) (clusters db) (members db) x (ingest_errors db) (notifications db) (settings db) (poll_jobs db) (deliveries db) (rotation db) (auth_sessions db).
Definition set_ingest_errors (x : gmap Z IngestError) (db : Db) : Db :=
  MkDb (accounts db) (channels db) (groups db) (group_members db) (channel_states db) (raw_messages db) (items db) (clusters db) (members db) (decisions db) x (notifications db) (settings db) (poll_jobs db) (deliveries db) (rotation db) (auth_sessions db).
Definition set_notifications (x : gmap Z Notification) (db : Db) : Db :=
  MkDb (accounts db) (channels db) (groups db) (group_members db) (channel_states db) (raw_messages db) (items db) (clusters db) (members db) (decisions db) (ingest_errors db) x (settings db) (poll_jobs db) (deliveries db) (rotation db) (auth_sessions db).
Definition set_settings (x : gmap pystr JSONValue) (db : Db) : Db :=
  MkDb (accounts db) (channels db) (groups db) (group_members db) (channel_states db) (raw_messages db) (items db) (clusters db) (members db) (decisions db) (ingest_errors db) (notifications db) x (poll_jobs db) (deliveries db) (rotation db) (auth_sessions db).
Definition set_poll_jobs (x : gmap Z PollJob) (db : Db) : Db :=
  MkDb (accounts db) (channels db) (groups db) (group_members db) (channel_states db) (raw_messages db) (items db) (clusters db) (members db) (decisions db) (ingest_errors db) (notifications db) (settings db) x (deliveries db) (rotation db) (auth_sessions db).
Definition set_deliveries (x : gmap Z Delivery) (db : Db) : Db :=
  MkDb (accounts db) (channels db) (groups db) (group_members db) (channel_states db) (raw_messages db) (items db) (clusters db) (members db) (decisions db) (ingest_errors db) (notifications db) (settings db) (poll_jobs db) x (rotation db) (auth_sessions db).
Definition set_rotation (x : option Rotation) (db : Db) : Db :=
  MkDb (accounts db) (channels db) (groups db) (group_members db) (channel_states db) (raw_messages db) (items db) (clusters db) (members db) (decisions db) (ingest_errors db) (notifications db) (settings db) (poll_jobs db) (deliveries db) x (auth_sessions db).
Definition set_auth_sessions (x : gmap pystr AuthSession) (db : Db) : Db :=
  MkDb (accounts db) (channels db) (groups db) (group_members db) (channel_states db) (raw_messages db) (items db) (clusters db) (members db) (decisions db) (ingest_errors db) (notifications db) (settings db) (poll_jobs db) (deliveries db) (rotation db) x.

(** * Row identifiers

    The [id] columns are SQLite [INTEGER PRIMARY KEY] columns without AUTOINCREMENT:
    an insert that gives no id takes one more than the largest id in the table. *)

Definition max_id {A} (t : gmap Z A) : Z := foldr Z.max 0 ((map_to_list t).*1).
Definition next_id {A} (t : gmap Z A) : Z := max_id t + 1.

(** The driver binds integers of 64 bits; another one raises [OverflowError]. *)
Definition bindable (n : Z) : bool := (- 2 ^ 63 <=? n) && (n <? 2 ^ 63).

(** * Referential actions *)

(** [DELETE FROM t WHERE id IN ids], on the table itself. *)
Definition drop_ids {A} (ids : gset Z) (t : gmap Z A) : gmap Z A :=
  filter (λ kv : Z * A, kv.1 ∉ ids) t.

(** [ON DELETE SET NULL] on one nullable reference. *)
Definition null_if (ids : gset Z) (o : option Z) : option Z :=
  match o with
  | Some i => if decide (i ∈ ids) then None else Some i
  | None => None
  end.

(** Ids of the rows satisfying a condition ([SELECT id FROM t WHERE ...]). *)
Definition ids_where {A} (p : A → bool) (t : gmap Z A) : gset Z :=
  dom (filter (λ kv : Z * A, p kv.2 = true) t).

Definition null_representative (ids : gset Z) (c : Cluster) : Cluster :=
  MkCluster (cl_key c) (null_if ids (cl_representative c)).
Definition null_raw_message (ids : gset Z) (i : Item) : Item :=
  MkItem (it_channel_id i) (it_message_id i) (null_if ids (it_raw_message_id i))
    (it_published_at i) (it_title i) (it_body i) (it_canonical_url i)
    (it_canonical_url_hash i) (it_content_hash i) (it_dedupe_state i)
    (it_created_at i) (it_updated_at i).
Definition null_candidate (ids : gset Z) (d : DecisionRow) : DecisionRow :=
  MkDecision (de_item_id d) (de_cluster_id d) (null_if ids (de_candidate_item_id d))
    (de_strategy_name d) (de_outcome d) (de_reason_code d) (de_score d)
    (de_metadata d) (de_created_at d).
Definition null_cluster (ids : gset Z) (d : DecisionRow) : DecisionRow :=
  MkDecision (de_item_id d) (null_if ids (de_cluster_id d)) (de_candidate_item_id d)
    (de_strategy_name d) (de_outcome d) (de_reason_code d) (de_score d)
    (de_metadata d) (de_created_at d).
Definition null_error_channel (ids : gset Z) (e : IngestError) : IngestError :=
  MkIngestError (null_if ids (ie_channel_id e)) (ie_stage e) (ie_error_code e)
    (ie_error_message e) (ie_payload_ref e) (ie_created_at e).

(** [DELETE FROM raw_messages WHERE id IN ids]: [items.raw_message_id] is nulled. *)
Definition delete_raw_messages (ids : gset Z) (db : Db) : Db :=
  set_items (null_raw_message ids <$> items db)
    (set_raw_messages (drop_ids ids (raw_messages db)) db).

(** [DELETE FROM items WHERE id IN ids]: memberships and decisions of the items go,
    representatives and decision candidates that named them are nulled. *)
Definition delete_items (ids : gset Z) (db : Db) : Db :=
  set_items (drop_ids ids (items db))
    (set_members (filter (λ m : Z * Z, m.2 ∉ ids) (members db))
      (set_decisions
        (null_candidate ids <$>
          filter (λ kv : Z * DecisionRow, de_item_id kv.2 ∉ ids) (decisions db))
        (set_clusters (null_representative ids <$> clusters db) db))).

(** [DELETE FROM dedupe_clusters WHERE id IN ids]: memberships and deliveries go,
    decisions keep their row with a null cluster. *)
Definition delete_clusters (ids : gset Z) (db : Db) : Db :=
  set_clusters (drop_ids ids (clusters db))
    (set_members (filter (λ m : Z * Z, m.1 ∉ ids) (members db))
      (set_decisions (null_cluster ids <$> decisions db)
        (set_deliveries
          (filter (λ kv : Z * Delivery, dl_cluster_id kv.2 ∉ ids) (deliveries db)) db))).

(** [DELETE FROM telegram_channels WHERE id IN ids]: items and raw messages of the
    channels go (with their own actions), memberships, polling state and queued
    jobs go, ingest errors keep their row with a null channel. *)
Definition delete_channels (ids : gset Z) (db : Db) : Db :=
  let item_ids := ids_where (λ i, bool_decide (it_channel_id i ∈ ids)) (items db) in
  let raw_ids := ids_where (λ r, bool_decide (rm_channel_id r ∈ ids)) (raw_messages db) in
  let db := delete_raw_messages raw_ids (delete_items item_ids db) in
  set_channels (drop_ids ids (channels db))
    (set_group_members (filter (λ m : Z * Z, m.2 ∉ ids) (group_members db))
      (set_channel_states (drop_ids ids (channel_states db))
        (set_poll_jobs
          (filter (λ kv : Z * PollJob, pj_channel_id kv.2 ∉ ids) (poll_jobs db))
          (set_ingest_errors (null_error_channel ids <$> ingest_errors db) db)))).

(** [DELETE FROM channel_groups WHERE id IN ids] *)
Definition delete_groups (ids : gset Z) (db : Db) : Db :=
  set_groups (drop_ids ids (groups db))
    (set_group_members (filter (λ m : Z * Z, m.1 ∉ ids) (group_members db)) db).

(** The kernel unfolds the program's definitions before these. *)
Strategy 900 [delete_raw_messages delete_items delete_clusters delete_channels delete_groups].
Strategy 1000 [set_accounts set_channels set_groups set_group_members set_channel_states
  set_raw_messages set_items set_clusters set_members set_decisions set_ingest_errors
  set_notifications set_settings set_poll_jobs set_deliveries set_rotation set_auth_sessions].

(** * Referential integrity

    The FOREIGN KEY and UNIQUE constraints of the migrations, enforced because every
    connection runs [PRAGMA foreign_keys=ON]. *)

Definition ref {A} (t : gmap Z A) (o : option Z) : Prop :=
  ∀ i, o = Some i → is_Some (t !! i).

Record wf_db (db : Db) : Prop := {
  fk_channels_account i c :
    channels db !! i = Some c → is_Some (accounts db !! ch_account_id c);
  uq_channels i j c d :
    channels db !! i = Some c → channels db !! j = Some d →
    ch_telegram_channel_id c = ch_telegram_channel_id d → i = j;
  fk_group_members g c :
    (g, c) ∈ group_members db → is_Some (groups db !! g) ∧ is_Some (channels db !! c);
  uq_group_members g g' c :
    (g, c) ∈ group_members db → (g', c) ∈ group_members db → g = g';
  fk_channel_states i s :
    channel_states db !! i = Some s → is_Some (channels db !! i);
  fk_raw_messages i r :
    raw_messages db !! i = Some r → is_Some (channels db !! rm_channel_id r);
  uq_raw_messages i j r r' :
    raw_messages db !! i = Some r → raw_messages db !! j = Some r' →
    rm_channel_id r = rm_channel_id r' → rm_message_id r = rm_message_id r' → i = j;
  fk_items_channel i x :
    items db !! i = Some x → is_Some (channels db !! it_channel_id x);
  fk_items_raw i x :
    items db !! i = Some x → ref (raw_messages db) (it_raw_message_id x);
  uq_items i j x y :
    items db !! i = Some x → items db !! j = Some y →
    it_channel_id x = it_channel_id y → it_message_id x = it_message_id y → i = j;
  uq_items_raw i j x y r :
    items db !! i = Some x → items db !! j = Some y →
    it_raw_message_id x = Some r → it_raw_message_id y = Some r → i = j;
  fk_clusters_representative i c :
    clusters db !! i = Some c → ref (items db) (cl_representative c);
  uq_clusters i j c d :
    clusters db !! i = Some c → clusters db !! j = Some d → cl_key c = cl_key d → i = j;
  fk_members c i :
    (c, i) ∈ members db → is_Some (clusters db !! c) ∧ is_Some (items db !! i);
  fk_decisions i d :
    decisions db !! i = Some d →
    is_Some (items db !! de_item_id d) ∧ ref (clusters db) (de_cluster_id d) ∧
    ref (items db) (de_candidate_item_id d);
  fk_ingest_errors i e :
    ingest_errors db !! i = Some e → ref (channels db) (ie_channel_id e);
  fk_poll_jobs i j :
    poll_jobs db !! i = Some j → is_Some (channels db !! pj_channel_id j);
  uq_poll_jobs i j p q :
    poll_jobs db !! i = Some p → poll_jobs db !! j = Some q →
    pj_correlation_id p = pj_correlation_id q → i = j;
  fk_deliveries i d :
    deliveries db !! i = Some d → is_Some (clusters db !! dl_cluster_id d);
  uq_deliveries i j d e :
    deliveries db !! i = Some d → deliveries db !! j = Some e →
    dl_cluster_id d = dl_cluster_id e → i = j;
}.

(** * Transactions

    [async with write_session_factory() as session]: statements run on a working
    copy; [commit] publishes it, an exception rolls back. *)

Definition atomically {A} (db : Db) (body : result exn (A * Db)) : result exn A * Db :=
  match body with
  | Ok (a, db') => (Ok a, db')
  | Err e => (Err e, db)
  end.

(** * Lemmas *)

Lemma max_id_spec {A} (t : gmap Z A) i x : t !! i = Some x → i ≤ max_id t.
Proof.
  intros H. unfold max_id.
  assert (i ∈ (map_to_list t).*1) as Hi.
  { apply list_elem_of_fmap. exists (i, x). split; [done|]. by apply elem_of_map_to_list. }
  induction ((map_to_list t).*1) as [|j l IH]; [by apply elem_of_nil in Hi|].
  apply elem_of_cons in Hi as [->|Hi]; simpl; [lia|]. specialize (IH Hi). lia.
Qed.

Lemma next_id_fresh {A} (t : gmap Z A) : t !! next_id t = None.
Proof.
  destruct (t !! next_id t) as [x|] eqn:E; [|done].
  apply max_id_spec in E. unfold next_id in E. lia.
Qed.

Lemma next_id_pos {A} (t : gmap Z A) : 0 < next_id t.
Proof.
  unfold next_id, max_id. induction ((map_to_list t).*1); simpl; lia.
Qed.

Lemma lookup_drop_ids {A} ids (t : gmap Z A) i :
  drop_ids ids t !! i = if decide (i ∈ ids) then None else t !! i.
Proof.
  unfold drop_ids. rewrite map_lookup_filter. destruct (t !! i); simpl;
    repeat case_decide; done.
Qed.

Lemma lookup_drop_ids_Some {A} ids (t : gmap Z A) i x :
  drop_ids ids t !! i = Some x ↔ t !! i = Some x ∧ i ∉ ids.
Proof. rewrite lookup_drop_ids. case_decide; naive_solver. Qed.

Lemma elem_of_ids_where {A} (p : A → bool) (t : gmap Z A) i :
  i ∈ ids_where p t ↔ ∃ x, t !! i = Some x ∧ p x = true.
Proof.
  unfold ids_where. rewrite elem_of_dom. unfold is_Some.
  by setoid_rewrite map_lookup_filter_Some.
Qed.

Lemma null_if_Some ids o i : null_if ids o = Some i ↔ o = Some i ∧ i ∉ ids.
Proof. destruct o; simpl; [case_decide|]; naive_solver. Qed.

Lemma ref_null_drop {A} ids (t : gmap Z A) o :
  ref t o → ref (drop_ids ids t) (null_if ids o).
Proof.
  intros H i [-> Hi]%null_if_Some. destruct (H i eq_refl) as [x Hx].
  exists x. by apply lookup_drop_ids_Some.
Qed.

Lemma ref_null {A} ids (t : gmap Z A) o : ref t o → ref t (null_if ids o).
Proof. intros H i [-> Hi]%null_if_Some. by apply H. Qed.

Lemma is_Some_drop_ids {A} ids (t : gmap Z A) i :
  is_Some (t !! i) → i ∉ ids → is_Some (drop_ids ids t !! i).
Proof. intros [x Hx] Hi. exists x. by apply lookup_drop_ids_Some. Qed.

Lemma is_Some_fmap {A B} (f : A → B) (t : gmap Z A) i :
  is_Some ((f <$> t) !! i) ↔ is_Some (t !! i).
Proof. rewrite lookup_fmap. apply fmap_is_Some. Qed.

Lemma ref_fmap {A B} (f : A → B) (t : gmap Z A) o : ref (f <$> t) o ↔ ref t o.
Proof. unfold ref. by setoid_rewrite is_Some_fmap. Qed.

#[export] Hint Resolve ref_null_drop ref_null is_Some_drop_ids : tca.
#[export] Hint Rewrite @is_Some_fmap @ref_fmap @lookup_drop_ids_Some null_if_Some
  @elem_of_ids_where : tca.

(** Normalise the lookups of a modified database. *)
Ltac db_lookups :=
  repeat match goal with
    | H : (_ <$> _) !! _ = Some _ |- _ =>
        rewrite lookup_fmap, fmap_Some in H; destruct H as (?&?&->)
    | H : drop_ids _ _ !! _ = Some _ |- _ => apply lookup_drop_ids_Some in H as [? ?]
    | H : filter _ _ !! _ = Some _ |- _ => apply map_lookup_filter_Some in H as [? ?]
    | H : _ ∈ filter _ _ |- _ => apply elem_of_filter in H as [? ?]
    | H : null_if _ _ = Some _ |- _ => apply null_if_Some in H as [? ?]
    end; simpl in *.

Lemma empty_db_wf : wf_db empty_db.
Proof. split; simpl; intros; set_solver. Qed.

(** Each referential action preserves integrity. *)
Ltac wf_fields :=
  let H := fresh "W" in
  intros H; destruct H; split; simpl; intros; do 2 db_lookups; autorewrite with tca;
  eauto 5 with tca.

Lemma delete_raw_messages_wf ids db : wf_db db → wf_db (delete_raw_messages ids db).
Proof. wf_fields. Qed.

Lemma delete_items_wf ids db : wf_db db → wf_db (delete_items ids db).
Proof.
  wf_fields.
  - edestruct fk_members0; eauto with tca.
  - edestruct fk_decisions0 as (?&?&?); eauto 6 with tca.
Qed.

Lemma delete_clusters_wf ids db : wf_db db → wf_db (delete_clusters ids db).
Proof.
  wf_fields.
  - edestruct fk_members0; eauto with tca.
  - edestruct fk_decisions0 as (?&?&?); eauto 6 with tca.
Qed.

Lemma delete_groups_wf ids db : wf_db db → wf_db (delete_groups ids db).
Proof.
  wf_fields.
  edestruct fk_group_members0; eauto with tca.
Qed.

(** Dropping channels that own no item and no raw message any more. *)
Lemma drop_channels_wf ids db :
  wf_db db →
  (∀ i x, items db !! i = Some x → it_channel_id x ∉ ids) →
  (∀ i r, raw_messages db !! i = Some r → rm_channel_id r ∉ ids) →
  wf_db (set_channels (drop_ids ids (channels db))
    (set_group_members (filter (λ m : Z * Z, m.2 ∉ ids) (group_members db))
      (set_channel_states (drop_ids ids (channel_states db))
        (set_poll_jobs
          (filter (λ kv : Z * PollJob, pj_channel_id kv.2 ∉ ids) (poll_jobs db))
          (set_ingest_errors (null_error_channel ids <$> ingest_errors db) db))))).
Proof.
  intros W Hi Hr. revert W. wf_fields.
  edestruct fk_group_members0; eauto with tca.
Qed.

Lemma delete_channels_wf ids db : wf_db db → wf_db (delete_channels ids db).
Proof.
  intros W. unfold delete_channels.
  apply drop_channels_wf; [by apply delete_raw_messages_wf, delete_items_wf| |];
    simpl; intros i x H; db_lookups;
    match goal with H : _ ∉ ids_where _ _ |- _ => rewrite elem_of_ids_where in H end;
    intros Hx; naive_solver eauto using bool_decide_eq_true_2.
Qed.

(** ** Existence tests over a table ([EXISTS (SELECT 1 FROM t WHERE ...)]) *)

Definition any_row {A} (p : A → bool) (t : gmap Z A) : bool :=
  negb (bool_decide (ids_where p t = ∅)).

Lemma any_row_true {A} (p : A → bool) (t : gmap Z A) :
  any_row p t = true ↔ ∃ i x, t !! i = Some x ∧ p x = true.
Proof.
  unfold any_row. rewrite negb_true_iff, bool_decide_eq_false. split.
  - intros H. apply set_choose_L in H as [i Hi]. exists i. by apply elem_of_ids_where.
  - intros (i&x&Hi&Hp) E. assert (i ∈ ids_where p t) as Hin
      by (apply elem_of_ids_where; eauto). set_solver.
Qed.
Lemma any_row_false {A} (p : A → bool) (t : gmap Z A) :
  any_row p t = false ↔ ∀ i x, t !! i = Some x → p x = false.
Proof.
  rewrite <-not_true_iff_false, any_row_true. split.
  - intros H i x Hi. destruct (p x) eqn:E; [|done]. destruct H; eauto.
  - intros H (i&x&Hi&Hp). rewrite (H i x Hi) in Hp. done.
Qed.

(** A nullable reference resolves. *)
Definition refb {A} (t : gmap Z A) (o : option Z) : bool :=
  match o with None => true | Some i => bool_decide (is_Some (t !! i)) end.

Lemma refb_true {A} (t : gmap Z A) o : refb t o = true ↔ ref t o.
Proof.
  unfold refb, ref. destruct o as [j|]; [rewrite bool_decide_eq_true|]; naive_solver.
Qed.

(** * Insert statements on the dedupe tables *)

(** [INSERT INTO dedupe_clusters (cluster_key, representative_item_id) ... RETURNING id] *)
Definition insert_cluster (key : pystr) (rep : option Z) (db : Db) : result exn (Z * Db) :=
  if any_row (λ c, bool_decide (cl_key c = key)) (clusters db)
  then Err (IntegrityError (UniqueFailed "dedupe_clusters.cluster_key"))
  else if refb (items db) rep
  then let i := next_id (clusters db) in
       Ok (i, set_clusters (<[i := MkCluster key rep]> (clusters db)) db)
  else Err (IntegrityError ForeignKeyFailed).

(** [INSERT INTO dedupe_members ... ON CONFLICT DO NOTHING RETURNING cluster_id] *)
Definition insert_member (c i : Z) (db : Db) : result exn (option Z * Db) :=
  if decide ((c, i) ∈ members db) then Ok (None, db)
  else if decide (is_Some (clusters db !! c) ∧ is_Some (items db !! i))
  then Ok (Some c, set_members ({[(c, i)]} ∪ members db) db)
  else Err (IntegrityError ForeignKeyFailed).

(** [INSERT INTO dedupe_decisions ... RETURNING id] *)
Definition insert_decision (d : DecisionRow) (db : Db) : result exn (Z * Db) :=
  if decide (is_Some (items db !! de_item_id d)) then
    if refb (clusters db) (de_cluster_id d) && refb (items db) (de_candidate_item_id d)
    then let i := next_id (decisions db) in
         Ok (i, set_decisions (<[i := d]> (decisions db)) db)
    else Err (IntegrityError ForeignKeyFailed)
  else Err (IntegrityError ForeignKeyFailed).

(** [INSERT INTO notifications ... RETURNING id] *)
Definition insert_notification (n : Notification) (db : Db) : Z * Db :=
  let i := next_id (notifications db) in
  (i, set_notifications (<[i := n]> (notifications db)) db).

Lemma lookup_insert_cases {A} (t : gmap Z A) i j (x y : A) :
  <[i := x]> t !! j = Some y ↔ (i = j ∧ x = y) ∨ (i ≠ j ∧ t !! j = Some y).
Proof. apply lookup_insert_Some. Qed.

Lemma is_Some_insert {A} (t : gmap Z A) i j (x : A) :
  is_Some (t !! j) → is_Some (<[i := x]> t !! j).
Proof. intros H. rewrite lookup_insert. case_decide; [by eexists|done]. Qed.
Lemma ref_insert {A} (t : gmap Z A) i (x : A) o : ref t o → ref (<[i := x]> t) o.
Proof. intros H j Hj. apply is_Some_insert. by apply H. Qed.
#[export] Hint Resolve is_Some_insert ref_insert : tca.

(** Split the lookups in a table that gained a row. *)
Ltac insert_cases :=
  repeat match goal with H : <[_ := _]> _ !! _ = Some _ |- _ =>
    apply lookup_insert_cases in H as [[? ?]|[? ?]]; subst; simpl in * end.

Lemma insert_cluster_wf key rep db i db' :
  insert_cluster key rep db = Ok (i, db') → wf_db db → wf_db db'.
Proof.
  unfold insert_cluster. destruct (any_row _ _) eqn:Ek; [done|].
  destruct (refb _ _) eqn:Er; [|done]. apply refb_true in Er.
  pose proof (proj1 (any_row_false _ _) Ek) as Hk.
  pose proof (next_id_fresh (clusters db)) as Hf.
  assert (∀ i c, clusters db !! i = Some c → cl_key c ≠ key) as Hk'.
  { intros j c Hc. apply Hk in Hc. by apply bool_decide_eq_false in Hc. }
  intros [= <- <-]. wf_fields; insert_cases; eauto with tca; try done;
    try by edestruct Hk'; eauto.
  - edestruct fk_members0; eauto with tca.
  - edestruct fk_decisions0 as (?&?&?); eauto 6 with tca.
Qed.

Lemma insert_member_wf c i db o db' :
  insert_member c i db = Ok (o, db') → wf_db db → wf_db db'.
Proof.
  unfold insert_member. case_decide; [by intros [= <- <-]|].
  case_decide as Hr; [|done]. intros [= <- <-]. wf_fields.
  match goal with H : _ ∈ _ ∪ _ |- _ =>
    apply elem_of_union in H as [[= -> ->]%elem_of_singleton|?] end; eauto.
Qed.

Lemma insert_decision_wf d db i db' :
  insert_decision d db = Ok (i, db') → wf_db db → wf_db db'.
Proof.
  unfold insert_decision. case_decide as Hi; [|done].
  destruct (_ && _) eqn:E; [|done]. apply andb_true_iff in E as [Ec Ea].
  apply refb_true in Ec, Ea. intros [= <- <-]. wf_fields.
  insert_cases; eauto.
Qed.

Lemma insert_notification_wf n db : wf_db db → wf_db (insert_notification n db).2.
Proof. wf_fields. Qed.

(** An UPDATE of [representative_item_id]. *)
Lemma set_clusters_wf t db :
  wf_db db →
  (∀ c, is_Some (clusters db !! c) → is_Some (t !! c)) →
  (∀ c row, t !! c = Some row → ∃ row0, clusters db !! c = Some row0 ∧
     cl_key row = cl_key row0 ∧ ref (items db) (cl_representative row)) →
  wf_db (set_clusters t db).
Proof.
  intros W Hd Ht. assert (∀ o, ref (clusters db) o → ref t o) as Href.
  { intros o Ho i Hi. apply Hd. by apply Ho. }
  destruct W; split; simpl; intros; eauto.
  - by edestruct Ht as (?&?&?&?).
  - edestruct (Ht i) as (?&?&?&?); [done|]. edestruct (Ht j) as (?&?&?&?); [done|].
    eapply uq_clusters0; [done..|]. congruence.
  - edestruct fk_members0; eauto.
  - edestruct fk_decisions0 as (?&?&?); eauto 6.
Qed.

(** A change of the channel rows. *)
Lemma set_channels_wf t db :
  wf_db db →
  (∀ i, is_Some (channels db !! i) → is_Some (t !! i)) →
  (∀ i c, t !! i = Some c → is_Some (accounts db !! ch_account_id c)) →
  (∀ i j c d, t !! i = Some c → t !! j = Some d →
     ch_telegram_channel_id c = ch_telegram_channel_id d → i = j) →
  wf_db (set_channels t db).
Proof.
  intros W Ht Ha Hu. assert (∀ o, ref (channels db) o → ref t o) as Hr.
  { intros o Ho i Hi. apply Ht. by apply Ho. }
  destruct W; split; simpl; intros; eauto. edestruct fk_group_members0; eauto.
Qed.

(** A change of the job rows. *)
Lemma set_poll_jobs_wf t db :
  wf_db db →
  (∀ i j, t !! i = Some j → is_Some (channels db !! pj_channel_id j)) →
  (∀ i k j j', t !! i = Some j → t !! k = Some j' →
     pj_correlation_id j = pj_correlation_id j' → i = k) →
  wf_db (set_poll_jobs t db).
Proof. intros W Hc Hu. destruct W; split; simpl; eauto. Qed.

(** A change of the member rows. *)
Lemma set_members_wf ms db :
  wf_db db →
  (∀ c i, (c, i) ∈ ms → is_Some (clusters db !! c) ∧ is_Some (items db !! i)) →
  wf_db (set_members ms db).
Proof. intros W H. destruct W; split; simpl; eauto. Qed.

(** A change of the raw messages, or of the items, that keeps every id. *)
Lemma set_raw_messages_wf t db :
  wf_db db →
  (∀ i, is_Some (raw_messages db !! i) → is_Some (t !! i)) →
  (∀ i r, t !! i = Some r → is_Some (channels db !! rm_channel_id r)) →
  (∀ i j r r', t !! i = Some r → t !! j = Some r' →
     rm_channel_id r = rm_channel_id r' → rm_message_id r = rm_message_id r' → i = j) →
  wf_db (set_raw_messages t db).
Proof.
  intros W Ht Hc Hu. assert (∀ o, ref (raw_messages db) o → ref t o) as Hr.
  { intros o Ho i Hi. apply Ht. by apply Ho. }
  destruct W; split; simpl; intros; eauto.
Qed.

Lemma set_items_wf t db :
  wf_db db →
  (∀ i, is_Some (items db !! i) → is_Some (t !! i)) →
  (∀ i x, t !! i = Some x →
     is_Some (channels db !! it_channel_id x) ∧ ref (raw_messages db) (it_raw_message_id x)) →
  (∀ i j x y, t !! i = Some x → t !! j = Some y →
     it_channel_id x = it_channel_id y → it_message_id x = it_message_id y → i = j) →
  (∀ i j x y r, t !! i = Some x → t !! j = Some y →
     it_raw_message_id x = Some r → it_raw_message_id y = Some r → i = j) →
  wf_db (set_items t db).
Proof.
  intros W Ht Hc Hu Hur. assert (∀ o, ref (items db) o → ref t o) as Hr.
  { intros o Ho i Hi. apply Ht. by apply Ho. }
  destruct W; split; simpl; intros; eauto.
  - by eapply Hc.
  - by eapply Hc.
  - edestruct fk_members0; eauto.
  - edestruct fk_decisions0 as (?&?&?); eauto.
Qed.

(** A change of the account rows that keeps every id. *)
Lemma set_accounts_wf t db :
  wf_db db → (∀ i, is_Some (accounts db !! i) → is_Some (t !! i)) → wf_db (set_accounts t db).
Proof. intros W Ht. destruct W; split; simpl; eauto. Qed.

(** A change of the delivery rows. *)
Lemma set_deliveries_wf t db :
  wf_db db →
  (∀ i d, t !! i = Some d → is_Some (clusters db !! dl_cluster_id d)) →
  (∀ i j d e, t !! i = Some d → t !! j = Some e → dl_cluster_id d = dl_cluster_id e → i = j) →
  wf_db (set_deliveries t db).
Proof. intros W Hc Hu. destruct W; split; simpl; eauto. Qed.

(** Tables no constraint mentions. *)
Lemma set_rotation_wf r db : wf_db db → wf_db (set_rotation r db).
Proof. intros W. destruct W; split; simpl; eauto. Qed.
Lemma set_auth_sessions_wf t db : wf_db db → wf_db (set_auth_sessions t db).
Proof. intros W. destruct W; split; simpl; eauto. Qed.

(** ** The row a unique constraint finds *)

Definition first_row {A} (p : A → bool) (t : gmap Z A) : option (Z * A) :=
  match sorted_ids (ids_where p t) with
  | [] => None
  | i :: _ => pair i <$> t !! i
  end.

Lemma first_row_Some {A} (p : A → bool) (t : gmap Z A) i x :
  first_row p t = Some (i, x) → t !! i = Some x ∧ p x = true.
Proof.
  unfold first_row. destruct (sorted_ids (ids_where p t)) as [|j l] eqn:E; [done|].
  assert (j ∈ ids_where p t) as Hj by (apply elem_of_sorted_ids; rewrite E; by left).
  apply elem_of_ids_where in Hj as (y&Hy&Hp). rewrite Hy. by intros [= <- <-].
Qed.

Lemma first_row_None {A} (p : A → bool) (t : gmap Z A) :
  first_row p t = None → ∀ i x, t !! i = Some x → p x = false.
Proof.
  unfold first_row. destruct (sorted_ids (ids_where p t)) as [|j l] eqn:E.
  - intros _ i x Hx. destruct (p x) eqn:Ep; [|done].
    assert (i ∈ sorted_ids (ids_where p t)) as Hi
      by (apply elem_of_sorted_ids, elem_of_ids_where; eauto).
    rewrite E in Hi. by apply elem_of_nil in Hi.
  - assert (j ∈ ids_where p t) as Hj by (apply elem_of_sorted_ids; rewrite E; by left).
    apply elem_of_ids_where in Hj as (y&Hy&Hp). by rewrite Hy.
Qed.

Lemma first_row_unique {A} (p : A → bool) (t : gmap Z A) i x :
  (∀ j y, t !! j = Some y → p y = true → j = i) → t !! i = Some x → p x = true →
  first_row p t = Some (i, x).
Proof.
  intros Hu Hx Hp. destruct (first_row p t) as [[j y]|] eqn:E.
  - apply first_row_Some in E as [Hy Hpy]. pose proof (Hu j y Hy Hpy). subst j. congruence.
  - apply first_row_None with (i := i) (x := x) in E; [congruence|done].
Qed.

Lemma max_id_fmap {A B} (f : A → B) (t : gmap Z A) : max_id (f <$> t) = max_id t.
Proof.
  unfold max_id. rewrite map_to_list_fmap, <-list_fmap_compose. done.
Qed.
Lemma next_id_fmap {A B} (f : A → B) (t : gmap Z A) : next_id (f <$> t) = next_id t.
Proof. unfold next_id. by rewrite max_id_fmap. Qed.

(** Two databases with the same tables are the same. *)
Lemma db_eq (db db' : Db) :
  accounts db = accounts db' →
  channels db = channels db' →
  groups db = groups db' →
  group_members db = group_members db' →
  channel_states db = channel_states db' →
  raw_messages db = raw_messages db' →
  items db = items db' →
  clusters db = clusters db' →
  members db = members db' →
  decisions db = decisions db' →
  ingest_errors db = ingest_errors db' →
  notifications db = notifications db' →
  settings db = settings db' →
  poll_jobs db = poll_jobs db' →
  deliveries db = deliveries db' →
  rotation db = rotation db' →
  auth_sessions db = auth_sessions db' →
  db = db'.
Proof. destruct db, db'; simpl. by intros -> -> -> -> -> -> -> -> -> -> -> -> -> -> -> -> ->. Qed.

(** ** Deleting in two statements is deleting the union *)

Lemma drop_ids_union {A} a b (t : gmap Z A) :
  drop_ids b (drop_ids a t) = drop_ids (a ∪ b) t.
Proof.
  apply map_eq. intros i. rewrite !lookup_drop_ids.
  repeat case_decide; set_solver.
Qed.
Lemma drop_ids_empty {A} (t : gmap Z A) : drop_ids ∅ t = t.
Proof. apply map_eq. intros i. rewrite lookup_drop_ids. by case_decide; [set_solver|]. Qed.
Lemma null_if_union a b o : null_if b (null_if a o) = null_if (a ∪ b) o.
Proof. destruct o; simpl; repeat (case_decide; simpl); set_solver. Qed.
Lemma null_if_empty o : null_if ∅ o = o.
Proof. destruct o; simpl; [by case_decide; [set_solver|]|done]. Qed.

Lemma fmap_union {A} (f : gset Z → A → A) a b (t : gmap Z A) :
  (∀ x, f b (f a x) = f (a ∪ b) x) → f b <$> (f a <$> t) = f (a ∪ b) <$> t.
Proof. intros H. rewrite <-map_fmap_compose. apply map_fmap_ext. intros i x _. apply H. Qed.
Lemma fmap_same {A} (f : A → A) (t : gmap Z A) : (∀ x, f x = x) → f <$> t = t.
Proof. intros H. rewrite <-(map_fmap_id t) at 2. apply map_fmap_ext. intros i x _. apply H. Qed.

Lemma null_raw_message_union a b x :
  null_raw_message b (null_raw_message a x) = null_raw_message (a ∪ b) x.
Proof. unfold null_raw_message. simpl. by rewrite null_if_union. Qed.
Lemma null_representative_union a b x :
  null_representative b (null_representative a x) = null_representative (a ∪ b) x.
Proof. unfold null_representative. simpl. by rewrite null_if_union. Qed.
Lemma null_candidate_union a b x :
  null_candidate b (null_candidate a x) = null_candidate (a ∪ b) x.
Proof. unfold null_candidate. simpl. by rewrite null_if_union. Qed.

Lemma delete_raw_messages_union a b db :
  delete_raw_messages b (delete_raw_messages a db) = delete_raw_messages (a ∪ b) db.
Proof.
  apply db_eq; simpl; try done; [apply drop_ids_union|].
  apply fmap_union, null_raw_message_union.
Qed.
Lemma delete_raw_messages_empty db : delete_raw_messages ∅ db = db.
Proof.
  apply db_eq; simpl; try done; [apply drop_ids_empty|].
  apply fmap_same. intros []. unfold null_raw_message. simpl. by rewrite null_if_empty.
Qed.

Lemma filter_members_union (a b : gset Z) (ms : gset (Z * Z)) :
  filter (λ m : Z * Z, m.2 ∉ b) (filter (λ m : Z * Z, m.2 ∉ a) ms) =
  filter (λ m : Z * Z, m.2 ∉ a ∪ b) ms.
Proof. apply set_eq. intros m. rewrite !elem_of_filter. set_solver. Qed.

Lemma filter_decisions_union (a b : gset Z) (t : gmap Z DecisionRow) :
  null_candidate b <$> filter (λ kv : Z * DecisionRow, de_item_id kv.2 ∉ b)
    (null_candidate a <$> filter (λ kv : Z * DecisionRow, de_item_id kv.2 ∉ a) t) =
  null_candidate (a ∪ b) <$> filter (λ kv : Z * DecisionRow, de_item_id kv.2 ∉ a ∪ b) t.
Proof.
  apply map_eq. intros i. rewrite !lookup_fmap, !map_lookup_filter, lookup_fmap, map_lookup_filter.
  destruct (t !! i) as [d|]; simpl; [|done].
  repeat (case_guard; simpl); try done; try set_solver. by rewrite null_candidate_union.
Qed.

Lemma delete_items_union a b db : delete_items b (delete_items a db) = delete_items (a ∪ b) db.
Proof.
  apply db_eq; simpl; try done.
  - apply drop_ids_union.
  - apply fmap_union, null_representative_union.
  - apply filter_members_union.
  - apply filter_decisions_union.
Qed.
Lemma delete_items_empty db : delete_items ∅ db = db.
Proof.
  apply db_eq; simpl; try done.
  - apply drop_ids_empty.
  - apply fmap_same. intros []. unfold null_representative. simpl. by rewrite null_if_empty.
  - apply set_eq. intros m. rewrite elem_of_filter. set_solver.
  - rewrite map_filter_id by set_solver. apply fmap_same. intros [].
    unfold null_candidate. simpl. by rewrite null_if_empty.
Qed.

(** * A decision procedure for integrity, and a small database *)

Definition all_rows {A} (p : Z → A → bool) (t : gmap Z A) : bool :=
  forallb (λ kv, p kv.1 kv.2) (map_to_list t).
Definition has {A} (t : gmap Z A) (i : Z) : bool := bool_decide (is_Some (t !! i)).
Definition all_pairs (p : Z → Z → bool) (s : gset (Z * Z)) : bool :=
  forallb (λ m, p m.1 m.2) (elements s).

Definition wf_check (db : Db) : bool :=
  all_rows (λ i c, has (accounts db) (ch_account_id c) &&
    all_rows (λ j d, bool_decide (ch_telegram_channel_id c = ch_telegram_channel_id d → i = j))
      (channels db)) (channels db) &&
  all_pairs (λ g c, has (groups db) g && has (channels db) c &&
    all_pairs (λ g' c', bool_decide (c = c' → g = g')) (group_members db)) (group_members db) &&
  all_rows (λ i _, has (channels db) i) (channel_states db) &&
  all_rows (λ i r, has (channels db) (rm_channel_id r) &&
    all_rows (λ j r', bool_decide (rm_channel_id r = rm_channel_id r' →
      rm_message_id r = rm_message_id r' → i = j)) (raw_messages db)) (raw_messages db) &&
  all_rows (λ i x, has (channels db) (it_channel_id x) &&
    refb (raw_messages db) (it_raw_message_id x) &&
    all_rows (λ j y, bool_decide (it_channel_id x = it_channel_id y →
      it_message_id x = it_message_id y → i = j) &&
      bool_decide (it_raw_message_id x = it_raw_message_id y →
        it_raw_message_id x = None ∨ i = j)) (items db)) (items db) &&
  all_rows (λ i c, refb (items db) (cl_representative c) &&
    all_rows (λ j d, bool_decide (cl_key c = cl_key d → i = j)) (clusters db)) (clusters db) &&
  all_pairs (λ c i, has (clusters db) c && has (items db) i) (members db) &&
  all_rows (λ _ d, has (items db) (de_item_id d) && refb (clusters db) (de_cluster_id d) &&
    refb (items db) (de_candidate_item_id d)) (decisions db) &&
  all_rows (λ _ e, refb (channels db) (ie_channel_id e)) (ingest_errors db) &&
  all_rows (λ i p, has (channels db) (pj_channel_id p) &&
    all_rows (λ j q, bool_decide (pj_correlation_id p = pj_correlation_id q → i = j))
      (poll_jobs db)) (poll_jobs db) &&
  all_rows (λ i d, has (clusters db) (dl_cluster_id d) &&
    all_rows (λ j e, bool_decide (dl_cluster_id d = dl_cluster_id e → i = j))
      (deliveries db)) (deliveries db).

Lemma all_rows_spec {A} (p : Z → A → bool) t :
  all_rows p t = true → ∀ i x, t !! i = Some x → p i x = true.
Proof.
  unfold all_rows. rewrite forallb_forall. intros H i x Hx.
  apply (H (i, x)). apply list_elem_of_In. by apply elem_of_map_to_list.
Qed.
Lemma all_pairs_spec (p : Z → Z → bool) s :
  all_pairs p s = true → ∀ c i, (c, i) ∈ s → p c i = true.
Proof.
  unfold all_pairs. rewrite forallb_forall. intros H c i Hx.
  apply (H (c, i)). apply list_elem_of_In. by apply elem_of_elements.
Qed.

Lemma has_true {A} (t : gmap Z A) i : has t i = true ↔ is_Some (t !! i).
Proof. apply bool_decide_eq_true. Qed.

(** Read a conjunction of checks as propositions. *)
Ltac reflect_checks :=
  repeat match goal with
    | H : _ && _ = true |- _ => apply andb_true_iff in H as [? ?]
    | H : has _ _ = true |- _ => rewrite has_true in H
    | H : refb _ _ = true |- _ => rewrite refb_true in H
    | H : bool_decide _ = true |- _ => rewrite bool_decide_eq_true in H
    end.
(** Use the check of a table's rows at the row at hand. *)
Ltac at_row :=
  multimatch goal with
  | H : all_rows _ ?t = true, H' : ?t !! _ = Some _ |- _ =>
      pose proof (all_rows_spec _ _ H _ _ H'); clear H; cbv beta in *; reflect_checks
  | H : all_pairs _ ?s = true, H' : (_, _) ∈ ?s |- _ =>
      pose proof (all_pairs_spec _ _ H _ _ H'); clear H; cbv beta in *; reflect_checks
  end.

Lemma wf_check_sound db : wf_check db = true → wf_db db.
Proof.
  unfold wf_check. intros H. reflect_checks. split; intros; first [at_row; solve [eauto] | at_row; at_row; solve [eauto]
    | at_row; at_row; solve [match goal with
        H : it_raw_message_id _ = it_raw_message_id _ → _ |- _ => destruct H; congruence end]].
Qed.

(** One account, three channels in two groups, five items in two clusters. *)
Definition sample_time (n : Z) : pystr := u "2024-03-0" ++ str_of_int n ++ u " 10:00:00".
Definition sample_item (ch m : Z) (url : option pystr) (title : pystr) (day : Z) : Item :=
  MkItem ch m None (Some (sample_time day)) (Some title) None url None None (u "pending")
    (sample_time day) (sample_time day).
Definition sample_db : Db :=
  set_accounts {[1 := MkAccount 11 [7] (Some (u "+155")) (Some [9]) 1 None None]}
  (set_channels {[1 := MkChannel 1 101 (u "alpha") None true;
                  2 := MkChannel 1 102 (u "beta") None true;
                  3 := MkChannel 1 103 (u "gamma") None false]}
  (set_groups {[1 := MkGroup (u "news") None (Some 90); 2 := MkGroup (u "tech") None None]}
  (set_group_members {[(1, 1); (2, 2)]}
  (set_raw_messages {[1 := MkRaw 1 5 JNull (sample_time 1) (sample_time 1)]}
  (set_items {[1 := sample_item 1 1 None (u "short") 1;
               2 := sample_item 1 2 (Some (u "https://a.example/x")) (u "t") 2;
               3 := sample_item 2 1 None (u "a longer title") 3;
               4 := sample_item 2 2 None (u "other") 4;
               5 := sample_item 3 1 None (u "other") 4]}
  (set_clusters {[1 := MkCluster (u "k1") (Some 1);
                  2 := MkCluster (u "k2") (Some 3);
                  3 := MkCluster (u "k3") None]}
  (set_members {[(1, 1); (2, 2); (2, 3)]}
  (set_deliveries {[1 := MkDelivery 2 (sample_time 3) None]} empty_db)))))))).

Lemma sample_db_wf : wf_db sample_db.
Proof. apply wf_check_sound. vm_compute. reflexivity. Qed.
