(* ===== verification/Candidates.v ===== *)
(** Reduction of the items to the candidates worth comparing
    (src/tca/dedupe/candidate_selection.py). *)

From S2P Require Import Prelude PyValue PyTime PyIso PyText PyUrl Schema.
Local Open Scope Z_scope.

(** * SQLite *)

(** [x LIKE p]: a percent sign stands for any text, an underscore for any character, and
    ASCII letters match in either case. *)
Fixpoint like (p : pystr) : pystr → bool :=
  match p with
  | [] => λ s, bool_decide (s = [])
  | c :: p =>
      if c =? 37 then
        (fix any s := like p s || match s with [] => false | _ :: s => any s end)
      else λ s,
        match s with
        | [] => false
        | d :: s => ((c =? 95) || (ascii_lower c =? ascii_lower d)) && like p s
        end
  end.

(** [strftime('%s', t)] as an integer, NULL for a text that is not a time. *)
Class SqliteClock := { epoch_seconds : pystr → option Z }.

Module Candidates.

Definition MAX_CANDIDATES_DEFAULT : Z := 50.

Record CandidateRecord := MkCandidate {
  item_id : Z;
  published_at : option datetime;
  canonical_url_hash : option pystr;
  url_domain : option pystr;
  rare_title_tokens : gset pystr;
}.

(** [int(horizon.total_seconds())] of a timedelta in microseconds. *)
Definition horizon_seconds (horizon : Z) : Z := Z.quot horizon us_per_second.

Section sql.
Context `{SqliteClock}.

(** The time filter; an unknown time on either side passes. *)
Definition within_horizon (stored new : option pystr) (horizon : Z) : bool :=
  match stored, new with
  | Some stored, Some new =>
      match epoch_seconds stored, epoch_seconds new with
      | Some a, Some b => Z.abs (a - b) <=? horizon_seconds horizon
      | _, _ => false
      end
  | _, _ => true
  end.

(** The blocking conditions; a NULL column matches none of them. *)
Definition hash_condition (new : CandidateRecord) (x : Item) : bool :=
  opt_str_truthy (canonical_url_hash new) &&
  bool_decide (it_canonical_url_hash x = canonical_url_hash new).
Definition domain_condition (new : CandidateRecord) (x : Item) : bool :=
  match url_domain new, it_canonical_url x with
  | Some ((_ :: _) as d), Some url =>
      like (u "%//" ++ d ++ u "/%") url || like (u "%//" ++ d) url
  | _, _ => false
  end.
Definition token_condition (new : CandidateRecord) (x : Item) : bool :=
  match it_title x with
  | Some title => existsb (λ t, like (37 :: t ++ [37]) title) (elements (rare_title_tokens new))
  | None => false
  end.

(** Some blocking condition was generated. *)
Definition has_blocking_key (new : CandidateRecord) : bool :=
  opt_str_truthy (canonical_url_hash new) || opt_str_truthy (url_domain new) ||
  negb (bool_decide (rare_title_tokens new = ∅)).

(** The WHERE clause. *)
Definition eligible (new : CandidateRecord) (horizon id : Z) (x : Item) : bool :=
  negb (id =? item_id new) &&
  within_horizon (it_published_at x) (isoformat (u "T") <$> published_at new) horizon &&
  (hash_condition new x || domain_condition new x || token_condition new x).

(** ORDER BY id ASC *)
Definition item_rows (db : Db) : list (Z * Item) :=
  omap (λ id, (λ x, (id, x)) <$> items db !! id) (sorted_ids (dom (items db))).

Definition parse_published (value : option pystr) : result exn (option datetime) :=
  match value with
  | Some ((_ :: _) as s) =>
      match PyIso.fromisoformat s with
      | Some d => Ok (Some (_normalize_datetime d))
      | None => Err (ValueError "Invalid isoformat string")
      end
  | _ => Ok None
  end.
Definition parse_domain `{UnicodeData} (canonical_url : option pystr) : result exn (option pystr) :=
  match canonical_url with
  | Some ((_ :: _) as url) =>
      split ← urlsplit url;
      mret (if str_truthy (netloc split) then Some (netloc split) else None)
  | _ => Ok None
  end.
Definition shared_tokens (new : CandidateRecord) (title : option pystr) : gset pystr :=
  match title with
  | Some ((_ :: _) as title) => filter (λ t, t ∈ split_ws title) (rare_title_tokens new)
  | _ => ∅
  end.

Definition candidate_of `{UnicodeData} (new : CandidateRecord) (row : Z * Item)
    : result exn CandidateRecord :=
  published ← parse_published (it_published_at row.2);
  domain ← parse_domain (it_canonical_url row.2);
  mret (MkCandidate row.1 published (it_canonical_url_hash row.2) domain
          (shared_tokens new (it_title row.2))).

Definition select_candidates `{UnicodeData} (new : CandidateRecord) (horizon max_candidates : Z)
    (db : Db) : result exn (list CandidateRecord) :=
  if max_candidates <=? 0 then Ok []
  else if has_blocking_key new then
    let rows := filter (λ r, eligible new horizon r.1 r.2 = true) (item_rows db) in
    traverse (candidate_of new) (take (Z.to_nat max_candidates) rows)
  else Ok [].

(** * LIKE *)

Lemma like_nil s : like [] s = true ↔ s = [].
Proof. simpl. by rewrite bool_decide_eq_true. Qed.

Lemma like_cons_any p s :
  like (37 :: p) s = true ↔ ∃ a b, s = a ++ b ∧ like p b = true.
Proof.
  cbn [like]. rewrite Z.eqb_refl. induction s as [|c s IH].
  - rewrite orb_false_r. split; [intros; by exists [], []|].
    intros ([|??]&b&E&Hb); [|done]. by rewrite E.
  - rewrite orb_true_iff, IH. split.
    + intros [Hp|(a&b&->&Hb)]; [by exists [], (c :: s)|by exists (c :: a), b].
    + intros ([|d a]&b&E&Hb); [left; by rewrite E|right].
      injection E as <- ->. by exists a, b.
Qed.
Lemma like_cons_char c p s :
  c ≠ 37 →
  like (c :: p) s = true ↔
  ∃ d s', s = d :: s' ∧ (c = 95 ∨ ascii_lower c = ascii_lower d) ∧ like p s' = true.
Proof.
  intros Hc%Z.eqb_neq. cbn [like]. rewrite Hc. destruct s as [|d s].
  - split; [done|]. by intros (?&?&?&_).
  - rewrite andb_true_iff, orb_true_iff, !Z.eqb_eq. split.
    + intros [? ?]. by exists d, s.
    + intros (?&?&[= <- <-]&?&?). done.
Qed.

Lemma like_app p q s :
  like (p ++ q) s = true ↔ ∃ a b, s = a ++ b ∧ like p a = true ∧ like q b = true.
Proof.
  revert s. induction p as [|c p IH]; intros s; cbn [app].
  - split; [intros; by exists [], s|]. intros (a&b&->&->%like_nil&?). done.
  - destruct (decide (c = 37)) as [->|Hc].
    + rewrite like_cons_any. setoid_rewrite like_cons_any. setoid_rewrite IH. split.
      * intros (a&?&->&a'&b&->&?&?). exists (a ++ a'), b.
        rewrite <-app_assoc. split_and!; [done|by exists a, a'|done].
      * intros (?&b&->&(a&a'&->&?)&?). exists a, (a' ++ b).
        rewrite <-app_assoc. split; [done|by exists a', b].
    + rewrite like_cons_char by done. setoid_rewrite (like_cons_char c) ; [|done..].
      setoid_rewrite IH. split.
      * intros (d&?&->&?&a&b&->&?&?). exists (d :: a), b.
        split_and!; [done|by exists d, a|done].
      * intros (?&b&->&(d&a&->&?&?)&?). exists d, (a ++ b).
        split_and!; [done|done|by exists a, b].
Qed.

(** A text matches itself, in any case, whatever wildcards it holds. *)
Lemma like_same p s : ascii_lower <$> p = ascii_lower <$> s → like p s = true.
Proof.
  revert s. induction p as [|c p IH]; intros [|d s] E; try done.
  injection E as Ec E. destruct (decide (c = 37)) as [->|Hc].
  - apply like_cons_any. exists [d], s. split; [done|]. by apply IH.
  - apply like_cons_char; [done|]. exists d, s. split_and!; [done|by right|by apply IH].
Qed.

(** Without wildcards there is nothing else. *)
Definition literal (p : pystr) : Prop := (37 ∉ p) ∧ (95 ∉ p).
Lemma like_literal p s : literal p → like p s = true ↔ ascii_lower <$> p = ascii_lower <$> s.
Proof.
  intros [H1 H2]. split; [|apply like_same]. revert s.
  induction p as [|c p IH]; intros s; [by intros ->%like_nil|].
  rewrite not_elem_of_cons in H1, H2. rewrite like_cons_char by naive_solver.
  intros (d&s'&->&[?|E]&Hs); [naive_solver|]. csimpl. rewrite E. f_equal. apply IH; naive_solver.
Qed.

Lemma like_any s : like [37] s = true.
Proof. apply like_cons_any. exists s, []. by rewrite app_nil_r. Qed.

(** Substring up to ASCII case. *)
Definition contains_ci (t s : pystr) : Prop :=
  ∃ a m b, s = a ++ m ++ b ∧ ascii_lower <$> m = ascii_lower <$> t.

Lemma like_contains t s :
  (contains_ci t s → like (37 :: t ++ [37]) s = true) ∧
  (literal t → like (37 :: t ++ [37]) s = true → contains_ci t s).
Proof.
  split.
  - intros (a&m&b&->&E). apply like_cons_any. exists a, (m ++ b). split; [done|].
    apply like_app. exists m, b. split_and!; [done|by apply like_same|apply like_any].
  - intros Ht (a&?&->&(m&b&->&Hm&_)%like_app)%like_cons_any. exists a, m, b.
    split; [done|]. symmetry. by apply like_literal.
Qed.

(** * Selection *)

Lemma elem_of_item_rows db i x : (i, x) ∈ item_rows db ↔ items db !! i = Some x.
Proof.
  unfold item_rows. rewrite list_elem_of_omap. split.
  - intros (j&_&Hj). destruct (items db !! j) eqn:E; [|done]. injection Hj as <- <-. done.
  - intros H1. exists i. rewrite H1. split; [|done].
    rewrite elem_of_sorted_ids. apply elem_of_dom. eauto.
Qed.

Lemma item_rows_ids db : (item_rows db).*1 = sorted_ids (dom (items db)).
Proof.
  unfold item_rows.
  assert (∀ i, i ∈ sorted_ids (dom (items db)) → is_Some (items db !! i)) as Hd.
  { intros i. by rewrite elem_of_sorted_ids, elem_of_dom. }
  induction (sorted_ids (dom (items db))) as [|i l IH]; [done|]. csimpl.
  destruct (Hd i) as [x Hx]; [set_solver|]. rewrite Hx. csimpl. f_equal. apply IH.
  intros j Hj. apply Hd. set_solver.
Qed.

(** The ids of the items that qualify, in order. *)
Definition eligible_ids (new : CandidateRecord) (horizon : Z) (db : Db) : list Z :=
  (filter (λ r, eligible new horizon r.1 r.2 = true) (item_rows db)).*1.

Lemma eligible_has_key new horizon i x :
  eligible new horizon i x = true → has_blocking_key new = true.
Proof.
  unfold eligible, has_blocking_key, hash_condition, domain_condition, token_condition.
  rewrite !andb_true_iff, !orb_true_iff, !andb_true_iff. intros [_ [ [ [Hh _]|Hd]|Ht] ].
  - auto.
  - left; right. by destruct (url_domain new) as [ [|??]|].
  - right. destruct (it_title x) as [title|]; [|done].
    case_bool_decide as E; [|done]. by rewrite E, elements_empty in Ht.
Qed.

Lemma eligible_ids_sorted new horizon db :
  StronglySorted Z.lt (eligible_ids new horizon db) ∧
  ∀ i, i ∈ eligible_ids new horizon db ↔
    ∃ x, items db !! i = Some x ∧ eligible new horizon i x = true.
Proof.
  split.
  - unfold eligible_ids.
    assert (StronglySorted Z.lt (item_rows db).*1) as Hs.
    { rewrite item_rows_ids. pose proof (sorted_ids_sorted (dom (items db))) as Hle.
      pose proof (NoDup_sorted_ids (dom (items db))) as Hnd.
      induction Hle as [|i l _ IH Hi]; [constructor|]. apply NoDup_cons in Hnd as [Hn Hnd].
      constructor; [by apply IH|]. rewrite Forall_forall in *. intros j Hj.
      specialize (Hi j Hj). assert (i ≠ j) by congruence. lia. }
    clear -Hs. induction (item_rows db) as [|[i x] l IH]; [constructor|].
    csimpl in *. apply StronglySorted_inv in Hs as [Hs Hi]. rewrite filter_cons.
    case_decide; [|by apply IH]. csimpl. constructor; [by apply IH|].
    rewrite Forall_forall in *. intros j ([k y]&->&[_ Hk]%list_elem_of_filter)%list_elem_of_fmap.
    apply Hi, list_elem_of_fmap. by exists (k, y).
  - intros i. unfold eligible_ids. rewrite list_elem_of_fmap. split.
    + intros ([j x]&->&[He Hj]%list_elem_of_filter). apply elem_of_item_rows in Hj. by exists x.
    + intros (x&Hx&He). exists (i, x). split; [done|].
      apply list_elem_of_filter. split; [done|]. by apply elem_of_item_rows.
Qed.

(** What a returned record says of its row. *)
Lemma candidate_of_fields `{UnicodeData} new r c :
  candidate_of new r = Ok c →
  item_id c = r.1 ∧ canonical_url_hash c = it_canonical_url_hash r.2 ∧
  rare_title_tokens c = shared_tokens new (it_title r.2).
Proof.
  unfold candidate_of. intros (p&_&(d&_&[= <-])%bind_Ok_inv)%bind_Ok_inv. done.
Qed.
Lemma candidate_ids `{UnicodeData} new rows cs :
  Forall2 (λ r c, candidate_of new r = Ok c) rows cs → item_id <$> cs = rows.*1.
Proof.
  induction 1 as [|r c rows cs (Hc&_&_)%candidate_of_fields _ IH]; [done|]. csimpl. by rewrite IH, Hc.
Qed.
Lemma elem_of_shared_tokens new title t :
  t ∈ shared_tokens new title ↔
  t ∈ rare_title_tokens new ∧ ∃ s, title = Some s ∧ t ∈ split_ws s.
Proof.
  unfold shared_tokens. destruct title as [[|c s]|].
  - split; [set_solver|]. by intros [_ (?&[= <-]&?%elem_of_nil)].
  - rewrite elem_of_filter. naive_solver.
  - split; [set_solver|]. by intros [_ (?&?&_)].
Qed.

(** What an item can share with the new one. *)
Definition same_hash (new : CandidateRecord) (x : Item) : Prop :=
  ∃ h, h ≠ [] ∧ canonical_url_hash new = Some h ∧ it_canonical_url_hash x = Some h.
Definition same_domain (new : CandidateRecord) (x : Item) : Prop :=
  ∃ s n p q, n ≠ [] ∧ s ≠ [] ∧ url_domain new = Some n ∧
    it_canonical_url x = Some (urlunsplit (MkSplit s n (47 :: p) q [])).
(** A rare token is a whole word of the title, up to ASCII case: no letter or digit is next
    to it. *)
Definition word_edge `{UnicodeData} (c : option Z) : Prop := ∀ d, c = Some d → isalnum d = false.
Definition shares_token `{UnicodeData} (new : CandidateRecord) (x : Item) : Prop :=
  ∃ t a w b, t ∈ rare_title_tokens new ∧ it_title x = Some (a ++ w ++ b) ∧
    ascii_lower <$> w = ascii_lower <$> t ∧ word_edge (last a) ∧ word_edge (head b).
(** The text of a rare token occurs somewhere in the title, within a word perhaps. *)
Definition mentions_token (new : CandidateRecord) (x : Item) : Prop :=
  ∃ t title, t ∈ rare_title_tokens new ∧ it_title x = Some title ∧ contains_ci t title.
Lemma shares_mentions `{UnicodeData} new x : shares_token new x → mentions_token new x.
Proof. intros (t&a&w&b&Ht&Hx&E&_). exists t, (a ++ w ++ b). split_and!; [done..|]. by exists a, w, b. Qed.

Lemma same_hash_condition new x : hash_condition new x = true ↔ same_hash new x.
Proof.
  unfold hash_condition, same_hash. rewrite andb_true_iff, bool_decide_eq_true. split.
  - intros [Ht E]. destruct (canonical_url_hash new) as [ [|c h]|]; try done.
    by exists (c :: h).
  - intros (h&Hne&->&->). split; [|done]. by destruct h.
Qed.

Lemma same_domain_condition new x : same_domain new x → domain_condition new x = true.
Proof.
  intros (s&n&p&q&Hn&Hs&Hd&Hx). unfold domain_condition. rewrite Hd, Hx.
  rewrite urlunsplit_assemble by eauto. unfold assemble. destruct n as [|c n]; [done|].
  apply orb_true_iff. left. set (d := c :: n). set (rest := match (if str_truthy q then Some q else None) with
    | Some q => 63 :: q | None => [] end).
  replace (u "%//" ++ d ++ u "/%") with (37 :: ((u "//" ++ d ++ [47]) ++ [37]))
    by (rewrite <-!app_assoc; done).
  apply like_contains. exists (s ++ [58]), (u "//" ++ d ++ [47]), (p ++ rest ++ []).
  split; [|done]. by rewrite <-!app_assoc.
Qed.

Lemma token_condition_iff new x :
  (mentions_token new x → token_condition new x = true) ∧
  (set_Forall literal (rare_title_tokens new) → token_condition new x = true → mentions_token new x).
Proof.
  unfold token_condition, mentions_token. split.
  - intros (t&title&Ht&->&Hc). apply existsb_exists. exists t. split.
    + by apply list_elem_of_In, elem_of_elements.
    + by apply like_contains.
  - intros Hl. destruct (it_title x) as [title|]; [|done].
    intros (t&Ht%list_elem_of_In%elem_of_elements&Hc)%existsb_exists. exists t, title.
    split_and!; [done|done|]. apply (like_contains t title); [by apply Hl|done].
Qed.

(** The URL names the domain after a double slash, before a slash or at its end. *)
Definition names_domain (new : CandidateRecord) (x : Item) : Prop :=
  ∃ d url, url_domain new = Some d ∧ it_canonical_url x = Some url ∧
    (contains_ci (u "//" ++ d ++ [47]) url ∨
     ∃ a m, url = a ++ m ∧ ascii_lower <$> m = ascii_lower <$> (u "//" ++ d)).

Lemma literal_app p q : literal p → literal q → literal (p ++ q).
Proof. unfold literal. rewrite !not_elem_of_app. naive_solver. Qed.

Lemma domain_condition_sound new x :
  (∀ d, url_domain new = Some d → literal d) → domain_condition new x = true →
  names_domain new x.
Proof.
  unfold domain_condition, names_domain. intros Hl.
  destruct (url_domain new) as [d|]; [|done]. specialize (Hl d eq_refl).
  destruct (it_canonical_url x) as [url|]; [|by destruct d].
  intros Hc. exists d, url. split; [done|]. split; [done|].
  assert (like (u "%//" ++ d ++ u "/%") url || like (u "%//" ++ d) url = true) as Hor
    by (by destruct d). clear Hc.
  assert (literal (u "//") ∧ literal [47]) as [Hs H1] by (split; split; by_eval).
  apply orb_true_iff in Hor as [Hd|Hd].
  - left. replace (u "%//" ++ d ++ u "/%") with (37 :: ((u "//" ++ d ++ [47]) ++ [37])) in Hd
      by (rewrite <-!app_assoc; done).
    apply like_contains in Hd; [done|]. by repeat apply literal_app.
  - right. change (u "%//" ++ d) with (37 :: (u "//" ++ d)) in Hd.
    apply like_cons_any in Hd as (a&m&->&Hm). exists a, m. split; [done|].
    apply like_literal in Hm; [by rewrite Hm|by apply literal_app].
Qed.

(** The prefix of a sorted list holds a member or is full of smaller ones. *)
Lemma elem_of_take_sorted (l : list Z) n i :
  StronglySorted Z.lt l → i ∈ l →
  i ∈ take n l ∨ length (take n l) = n ∧ ∀ j, j ∈ take n l → j < i.
Proof.
  intros Hl Hi. rewrite <-(take_drop n l) in Hi. apply elem_of_app in Hi as [Hi|Hi]; [by left|right].
  split.
  - rewrite length_take. destruct (Nat.le_gt_cases n (length l)); [lia|].
    rewrite drop_ge in Hi by lia. by apply elem_of_nil in Hi.
  - intros j Hj. rewrite <-(take_drop n l) in Hl. clear -Hl Hj Hi.
    induction (take n l) as [|k l' IH]; [by apply elem_of_nil in Hj|].
    cbn [app] in Hl. apply StronglySorted_inv in Hl as [Hl Hk].
    apply elem_of_cons in Hj as [->|Hj]; [|by apply IH].
    rewrite Forall_forall in Hk. apply Hk. apply elem_of_app. by right.
Qed.

Lemma selected_rows `{UnicodeData} new horizon max db cs :
  0 < max → select_candidates new horizon max db = Ok cs →
  Forall2 (λ r c, candidate_of new r = Ok c)
    (take (Z.to_nat max) (filter (λ r, eligible new horizon r.1 r.2 = true) (item_rows db))) cs.
Proof.
  intros Hmax Hcs. unfold select_candidates in Hcs.
  rewrite (proj2 (Z.leb_gt max 0)) in Hcs by done.
  destruct (has_blocking_key new) eqn:Hk; [by apply traverse_Ok|]. injection Hcs as <-.
  destruct (filter _ (item_rows db)) as [|[i x] l] eqn:El; [by rewrite take_nil|]. exfalso.
  assert ((i, x) ∈ filter (λ r, eligible new horizon r.1 r.2 = true) (item_rows db)) as Hin
    by (rewrite El; by left).
  apply list_elem_of_filter in Hin as [He%eligible_has_key _]. congruence.
Qed.

(** C25. Candidate selection returns at most [max] records, in the order of the items' ids,
    each item once and never the new one. It misses no item that is within the time horizon
    and shares the canonical URL hash, the location of its canonical URL, or a rare token
    as a word of its title (ASCII case ignored), unless [max] items with smaller ids are
    returned. Every record describes a stored item within the horizon and names just those
    rare tokens that are words of its title. When neither the domain nor the tokens hold a
    LIKE wildcard, the item has the hash, or a URL with the domain after a double slash, or
    a title in which some rare token occurs, if only inside a word. *)
Theorem select_candidates_spec `{UnicodeData} new horizon max db cs :
  0 < max → select_candidates new horizon max db = Ok cs →
  Z.of_nat (length cs) <= max ∧
  StronglySorted Z.lt (item_id <$> cs) ∧ (item_id new ∉ item_id <$> cs) ∧
  (∀ i x, items db !! i = Some x → i ≠ item_id new →
     within_horizon (it_published_at x) (isoformat (u "T") <$> published_at new) horizon = true →
     same_hash new x ∨ same_domain new x ∨ shares_token new x →
     i ∈ item_id <$> cs ∨
     Z.of_nat (length cs) = max ∧ ∀ j, j ∈ item_id <$> cs → j < i) ∧
  (∀ c, c ∈ cs → ∃ x, items db !! item_id c = Some x ∧
     within_horizon (it_published_at x) (isoformat (u "T") <$> published_at new) horizon = true ∧
     canonical_url_hash c = it_canonical_url_hash x ∧
     (∀ t, t ∈ rare_title_tokens c ↔
        t ∈ rare_title_tokens new ∧ ∃ title, it_title x = Some title ∧ t ∈ split_ws title) ∧
     ((∀ d, url_domain new = Some d → literal d) → set_Forall literal (rare_title_tokens new) →
      same_hash new x ∨ names_domain new x ∨ mentions_token new x)).
Proof.
  intros Hmax Hcs. pose proof (selected_rows new horizon max db cs Hmax Hcs) as Hrows.
  destruct (eligible_ids_sorted new horizon db) as [Hsort Hids].
  assert (item_id <$> cs = take (Z.to_nat max) (eligible_ids new horizon db)) as E.
  { unfold eligible_ids. rewrite <-fmap_take. by eapply candidate_ids. }
  assert (length cs = length (take (Z.to_nat max) (eligible_ids new horizon db))) as El
    by (by rewrite <-E, length_fmap).
  rewrite E, El. split_and!.
  - rewrite length_take. lia.
  - by apply StronglySorted_take.
  - intros (x&_&He)%(elem_of_sublist _ _ _)%Hids; [|apply sublist_take].
    unfold eligible in He. by rewrite Z.eqb_refl in He.
  - intros i x Hx Hne Hw Hsh.
    destruct (elem_of_take_sorted (eligible_ids new horizon db) (Z.to_nat max) i Hsort)
      as [?|[? ?] ]; [|by left|right; split; [lia|done] ].
    apply Hids. exists x. split; [done|]. unfold eligible. apply Z.eqb_neq in Hne.
    rewrite Hne, Hw. cbn [negb andb]. rewrite !orb_true_iff, same_hash_condition.
    destruct Hsh as [?|[?%same_domain_condition|Ht%shares_mentions%token_condition_iff] ]; auto.
  - intros c Hc. apply list_elem_of_lookup in Hc as [k Hk].
    destruct (Forall2_lookup_r _ _ _ _ _ Hrows Hk) as ([i x]&Hr&Hf).
    apply list_elem_of_lookup_2 in Hr.
    pose proof (elem_of_sublist _ _ _ Hr (sublist_take _ _)) as Hin.
    apply list_elem_of_filter in Hin as [He Hx%elem_of_item_rows].
    apply candidate_of_fields in Hf as (->&->&->). exists x. unfold eligible in He. simpl in He |- *.
    rewrite !andb_true_iff, !orb_true_iff, same_hash_condition in He.
    destruct He as [ [_ Hw] Hcond]. split_and!; [done..| |].
    + intros t. apply elem_of_shared_tokens.
    + intros Hd Ht. destruct Hcond as [ [?|Hc]|Hc]; [by left|right; left|right; right].
      * by apply domain_condition_sound.
      * by apply token_condition_iff.
Qed.
End sql.

(** A clock that knows no time at all, so that the filter passes untimed items only. *)
#[export] Instance no_clock : SqliteClock := {| epoch_seconds _ := None |}.

Definition sample_item (title url : pystr) : Item :=
  MkItem 1 1 None None (Some title) None (Some url) None None (u "pending") [] [].
Definition sample_db : Db :=
  set_items {[ 1 := sample_item (u "Rates fall") (u "http://a.b/1");
               2 := sample_item (u "Weather") (u "http://c.d/");
               3 := sample_item (u "RATES rise") (u "http://e.f/") ]} empty_db.
Definition sample_new : CandidateRecord :=
  MkCandidate 9 None None (Some (u "a.b")) {[ u "rates" ]}.

Lemma select_candidates_spec_witness :
  ∃ cs, select_candidates sample_new 0 50 sample_db = Ok cs ∧ item_id <$> cs = [1; 3].
Proof.
  destruct (select_candidates sample_new 0 50 sample_db) as [cs|] eqn:E; [|by vm_compute in E].
  exists cs. split; [reflexivity|].
  destruct (select_candidates_spec sample_new 0 50 sample_db cs) as (_&_&_&Hall&_); [lia|exact E|].
  assert (item_id <$> cs = [1; 3]) as Ec by (vm_compute in E; by injection E as <-).
  assert (shares_token sample_new (sample_item (u "RATES rise") (u "http://e.f/"))) as Hsh.
  { exists (u "rates"), [], (u "RATES"), (u " rise"). split_and!; [set_solver| | | |].
    - reflexivity.
    - vm_compute. reflexivity.
    - intros ? [=].
    - intros d [= <-]. reflexivity. }
  assert (items sample_db !! 3 = Some (sample_item (u "RATES rise") (u "http://e.f/"))) as H3
    by (vm_compute; reflexivity).
  destruct (Hall 3 _ H3 ltac:(discriminate) eq_refl (or_intror (or_intror Hsh))) as [_|[_ Hlt] ];
    [exact Ec|].
  specialize (Hlt 3). rewrite Ec in Hlt. exfalso.
  assert (3 < 3) as Hirr by (apply Hlt; right; left). by apply Z.lt_irrefl in Hirr.
Defined.

(** The design document blocks on whole title tokens, by a full-text query; LIKE finds the
    token [art] inside a word, and an underscore in a token matches any character. *)
Example token_inside_word :
  let new := MkCandidate 9 None None None {[ u "art" ]} in
  let db := set_items {[ 1 := sample_item (u "Match starts") (u "http://a.b/1") ]} empty_db in
  ∃ cs, select_candidates new 0 50 db = Ok cs ∧
        ((λ c, (item_id c, elements (rare_title_tokens c))) <$> cs) = [(1, [])].
Proof. eexists. split; vm_compute; reflexivity. Qed.
Example underscore_in_token :
  let new := MkCandidate 9 None None None {[ u "a_b" ]} in
  let db := set_items {[ 1 := sample_item (u "axb") (u "http://a.b/1") ]} empty_db in
  ∃ cs, select_candidates new 0 50 db = Ok cs ∧ item_id <$> cs = [1].
Proof. eexists. split; vm_compute; reflexivity. Qed.
End Candidates.
