(* ===== verification/Notifications.v ===== *)
(** The notifications repository (src/tca/storage/notifications_repo.py) and the
    ingest-errors repository (src/tca/storage/ingest_errors_repo.py). *)

From S2P Require Import Prelude PyValue PyTime PyIso Schema.
Local Open Scope Z_scope.

(** [_coerce_datetime] of the repositories: a stored text read back, naive as UTC;
    [err] is the repository's decode error. *)
Definition coerce_datetime (err : exn) (text : pystr) : result exn datetime :=
  match PyIso.fromisoformat text with
  | Some d => Ok (_normalize_datetime d)
  | None => Err err
  end.

Definition coerce_optional_datetime (err : exn) (text : option pystr)
    : result exn (option datetime) :=
  match text with
  | None => Ok None
  | Some text => d ← coerce_datetime err text; mret (Some d)
  end.

(** What the statements' [CURRENT_TIMESTAMP] writes reads back, to the second. *)
Lemma coerce_current_timestamp err now :
  in_range now = true →
  coerce_datetime err (current_timestamp now) =
    Ok (DT (now / us_per_second * us_per_second) (Some 0)).
Proof.
  intros Hr. apply PyIso.in_range_iff in Hr. set (w := now / us_per_second * us_per_second).
  assert (0 ≤ w < wall_limit ∧ w mod us_per_second = 0 ∧ w / us_per_second = now / us_per_second)
    as (Hw&Hm&Hd).
  { unfold w, wall_limit, max_days, seconds_per_day, us_per_second in *.
    Z.to_euclidean_division_equations; lia. }
  assert (current_timestamp now = isoformat (u " ") (DT w None)) as ->.
  { unfold current_timestamp, isoformat. simpl dt_wall. rewrite Hm, Hd. cbn [Z.eqb offset_text].
    by rewrite !app_nil_r. }
  unfold coerce_datetime. change (u " ") with [32].
  rewrite PyIso.fromisoformat_isoformat; [done|]. split; [by apply PyIso.in_range_iff|done].
Qed.

Module Notifications.

Definition NotificationsRepositoryError : exn := AppError "NotificationsRepositoryError".

Record NotificationRecord := MkRecord {
  notification_id : Z;
  type : pystr;
  severity : pystr;
  message : pystr;
  payload : JSONValue;
}.

Record NotificationListRecord := MkListRecord {
  li_record : NotificationRecord;
  is_acknowledged : bool;
  acknowledged_at : option datetime;
  created_at : datetime;
}.

(** Python's [None] is both the absent payload and the JSON null. *)
Definition _encode_payload_json (payload : JSONValue) : option JSONValue :=
  match payload with JNull => None | p => Some (sort_keys p) end.
Definition _decode_payload_json (payload : option JSONValue) : JSONValue :=
  default JNull payload.

Definition _decode_row (i : Z) (n : Notification) : NotificationRecord :=
  MkRecord i (no_type n) (no_severity n) (no_message n) (_decode_payload_json (no_payload n)).

Definition _decode_list_row (i : Z) (n : Notification) : result exn NotificationListRecord :=
  ack ← coerce_optional_datetime NotificationsRepositoryError (no_acknowledged_at n);
  created ← coerce_datetime NotificationsRepositoryError (no_created_at n);
  mret (MkListRecord (_decode_row i n) (no_is_acknowledged n) ack created).

Definition new_row (now : pystr) (type severity message : pystr) (payload : JSONValue)
  : Notification :=
  MkNotification type severity message (_encode_payload_json payload) false None now.

Definition create (now : pystr) (type severity message : pystr) (payload : JSONValue) (db : Db)
    : NotificationRecord * Db :=
  let row := new_row now type severity message payload in
  let '(i, db) := insert_notification row db in
  (_decode_row i row, db).

(** An absent or empty filter selects everything. *)
Definition selected (filter : option (list pystr)) (value : pystr) : bool :=
  match filter with
  | None | Some [] => true
  | Some l => bool_decide (value ∈ l)
  end.

Definition matches (severities types : option (list pystr)) (n : Notification) : bool :=
  selected severities (no_severity n) && selected types (no_type n).

(** [ORDER BY created_at DESC, id DESC] *)
Definition newest_first : Z * Notification → Z * Notification → comparison :=
  cmp_lex (cmp_desc (cmp_on (λ r : Z * Notification, no_created_at r.2) text_cmp))
    (cmp_desc (cmp_on (λ r : Z * Notification, r.1) Z.compare)).

#[export] Instance newest_first_good : GoodCmp newest_first.
Proof. unfold newest_first. apply _. Qed.

Definition select_notifications (severities types : option (list pystr)) (db : Db)
    : list (Z * Notification) :=
  sort_by newest_first
    (filter (λ r : Z * Notification, matches severities types r.2 = true)
      (map_to_list (notifications db))).

Definition decode_list (rows : list (Z * Notification)) : result exn (list NotificationListRecord) :=
  traverse (λ r, _decode_list_row r.1 r.2) rows.

Definition list_notifications (severities types : option (list pystr)) (db : Db)
    : result exn (list NotificationListRecord) :=
  decode_list (select_notifications severities types db).

Definition acknowledge_row (now : pystr) (n : Notification) : Notification :=
  MkNotification (no_type n) (no_severity n) (no_message n) (no_payload n) true
    (Some (default now (no_acknowledged_at n))) (no_created_at n).

(** The update is committed before the row is decoded. *)
Definition acknowledge (now : pystr) (i : Z) (db : Db)
    : result exn (option NotificationListRecord) * Db :=
  match notifications db !! i with
  | None => (Ok None, db)
  | Some n =>
      let n := acknowledge_row now n in
      (r ← _decode_list_row i n; mret (Some r),
       set_notifications (<[i := n]> (notifications db)) db)
  end.

(** ** Lemmas *)

Lemma create_db now ty sv ms p db :
  (create now ty sv ms p db).2 = set_notifications
    (<[next_id (notifications db) := new_row now ty sv ms p]> (notifications db)) db.
Proof. done. Qed.

Lemma create_notification_wf now ty sv ms p db : wf_db db → wf_db (create now ty sv ms p db).2.
Proof.
  intros W. unfold create. pose proof (insert_notification_wf (new_row now ty sv ms p) db W).
  by destruct (insert_notification _ db).
Qed.

Lemma select_elem severities types db i n :
  (i, n) ∈ select_notifications severities types db ↔
  notifications db !! i = Some n ∧ matches severities types n = true.
Proof.
  unfold select_notifications. rewrite elem_of_sort_by, list_elem_of_filter, elem_of_map_to_list.
  simpl. tauto.
Qed.

Lemma select_NoDup severities types db :
  NoDup (select_notifications severities types db).*1.
Proof.
  unfold select_notifications. rewrite sort_by_perm.
  pose proof (NoDup_fst_map_to_list (notifications db)) as H. revert H.
  induction (map_to_list (notifications db)) as [|x l IH]; simpl; [done|].
  rewrite NoDup_cons. intros [Hx Hl]. rewrite filter_cons. case_decide; [|by apply IH].
  rewrite fmap_cons, NoDup_cons. split; [|by apply IH].
  intros Hin. apply Hx. apply list_elem_of_fmap in Hin as (y&->&[_ Hy]%list_elem_of_filter).
  apply list_elem_of_fmap. eauto.
Qed.

Lemma decode_list_row_Ok i n r :
  _decode_list_row i n = Ok r →
  li_record r = _decode_row i n ∧ is_acknowledged r = no_is_acknowledged n ∧
  coerce_optional_datetime NotificationsRepositoryError (no_acknowledged_at n)
    = Ok (acknowledged_at r) ∧
  coerce_datetime NotificationsRepositoryError (no_created_at n) = Ok (created_at r).
Proof.
  unfold _decode_list_row. destruct (coerce_optional_datetime _ _); [|done].
  destruct (coerce_datetime _ _); [|done]. by intros [= <-].
Qed.

Definition record_id (r : NotificationListRecord) : Z := notification_id (li_record r).

Lemma decode_list_ids rows l : decode_list rows = Ok l → record_id <$> l = rows.*1.
Proof.
  intros H%traverse_Ok. induction H as [|[i n] r rows l Hr H IH]; [done|].
  csimpl. rewrite IH. apply decode_list_row_Ok in Hr as [Hr _]. unfold record_id. by rewrite Hr.
Qed.

(** The listing is determined by its rows and their order. *)
Lemma select_unique severities types db rows :
  NoDup rows → StronglySorted (cmp_le newest_first) rows →
  (∀ i n, (i, n) ∈ rows ↔ notifications db !! i = Some n ∧ matches severities types n = true) →
  select_notifications severities types db = rows.
Proof.
  intros Hnd Hs Hin. apply (StronglySorted_unique_strong (cmp_le newest_first)); try done.
  - intros [i1 m1] [i2 m2] [H1 _]%select_elem [H2 _]%Hin H12 H21. unfold cmp_le in *.
    assert (newest_first (i1, m1) (i2, m2) = Eq) as E.
    { destruct (newest_first (i1, m1) (i2, m2)) eqn:E; try done.
      rewrite (cmp_opp newest_first (i1, m1)), E in H21. done. }
    unfold newest_first, cmp_lex, cmp_desc, cmp_on in E. simpl in E.
    destruct (text_cmp _ _); try done. apply Z.compare_eq in E. congruence.
  - apply sort_by_sorted. apply _.
  - apply NoDup_Permutation; [eapply NoDup_fmap_1, select_NoDup|done|].
    intros [i m]. by rewrite select_elem, Hin.
Qed.

(** A new row that passes the filters is listed first when no stored one is later. *)
Lemma select_insert severities types db n :
  (∀ i m, notifications db !! i = Some m → text_cmp (no_created_at m) (no_created_at n) ≠ Gt) →
  select_notifications severities types (insert_notification n db).2 =
  (if matches severities types n then [(next_id (notifications db), n)] else []) ++
  select_notifications severities types db.
Proof.
  intros Ht. set (k := next_id (notifications db)).
  pose proof (next_id_fresh (notifications db)) as Hk. fold k in Hk.
  assert (∀ x, x ∈ select_notifications severities types db → newest_first (k, n) x = Lt) as Hlt.
  { intros [i m] [Hi _]%select_elem. unfold newest_first, cmp_lex, cmp_desc, cmp_on. simpl.
    specialize (Ht i m Hi). destruct (text_cmp (no_created_at m) (no_created_at n)); [|done|done].
    apply Z.compare_lt_iff. apply max_id_spec in Hi. unfold k, next_id. lia. }
  assert (NoDup (select_notifications severities types db)) as Hnd
    by (eapply NoDup_fmap_1, select_NoDup).
  apply select_unique.
  - destruct (matches severities types n); [|done]. constructor; [|done].
    intros [H _]%select_elem. congruence.
  - pose proof (sort_by_sorted newest_first (filter (λ r : Z * Notification,
      matches severities types r.2 = true) (map_to_list (notifications db)))) as Hs.
    destruct (matches severities types n); [|done]. constructor; [done|].
    apply Forall_forall. intros x Hx. unfold cmp_le. by rewrite Hlt.
  - intros i m. rewrite elem_of_app, select_elem. simpl. fold k. rewrite lookup_insert_Some.
    destruct (matches severities types n) eqn:Em.
    + rewrite list_elem_of_singleton. split.
      * intros [[= -> ->]|[H M]]; [by auto|]. split; [|done]. right. split; [congruence|done].
      * intros [[[<- <-]|[_ H]] M]; auto.
    + rewrite elem_of_nil. split.
      * intros [[]|[H M]]. split; [|done]. right. split; [congruence|done].
      * intros [[[<- <-]|[_ H]] M]; [congruence|auto].
Qed.

(** Listing returns exactly the notifications that pass the filters, each once,
    newest first; a notification created afterwards at a time no earlier than the stored
    ones comes first when it passes the filters, with the payload it was given (keys
    sorted), unacknowledged, before what was listed already. *)
Theorem create_then_list severities types now ty sv ms p db l r db' :
  in_range now = true →
  (∀ i m, notifications db !! i = Some m → text_cmp (no_created_at m) (current_timestamp now) ≠ Gt) →
  list_notifications severities types db = Ok l →
  create (current_timestamp now) ty sv ms p db = (r, db') →
  (∃ rows, NoDup rows ∧ StronglySorted (cmp_le newest_first) rows ∧
     (∀ i n, (i, n) ∈ rows ↔
        notifications db !! i = Some n ∧ matches severities types n = true) ∧
     Forall2 (λ x r, _decode_list_row x.1 x.2 = Ok r) rows l) ∧
  notifications db !! notification_id r = None ∧ type r = ty ∧ severity r = sv ∧
  message r = ms ∧ payload r = sort_keys p ∧
  list_notifications severities types db' =
    Ok ((if selected severities sv && selected types ty
         then [MkListRecord r false None (DT (now / us_per_second * us_per_second) (Some 0))]
         else []) ++ l).
Proof.
  intros Hr Ht Hl Hc. unfold list_notifications in Hl. unfold create in Hc.
  set (row := new_row (current_timestamp now) ty sv ms p) in *.
  assert (r = _decode_row (next_id (notifications db)) row ∧ db' = (insert_notification row db).2)
    as [-> ->] by (by injection Hc as <- <-).
  split_and!; try done.
  - exists (select_notifications severities types db). split_and!.
    + eapply NoDup_fmap_1, select_NoDup.
    + apply sort_by_sorted, _.
    + apply select_elem.
    + by apply traverse_Ok.
  - simpl. apply next_id_fresh.
  - simpl. unfold _encode_payload_json, _decode_payload_json. by destruct p.
  - unfold list_notifications. rewrite select_insert by exact Ht. unfold decode_list in *. rewrite traverse_app, Hl.
    change (matches severities types row) with (selected severities sv && selected types ty).
    destruct (selected severities sv && selected types ty); [|done]. simpl.
    unfold traverse, _decode_list_row. csimpl. by rewrite coerce_current_timestamp by done.
Qed.

(** Acknowledging a notification sets its flag and keeps the time of the first
    acknowledgement, whatever happens to the read-back; doing it again changes nothing;
    an unknown id changes nothing and returns [None]; no other notification and no other
    table is touched. *)
Theorem acknowledge_idempotent now later i db r db' :
  acknowledge now i db = (r, db') →
  (notifications db !! i = None → r = Ok None ∧ db' = db) ∧
  (∀ n, notifications db !! i = Some n →
     notifications db' !! i = Some (acknowledge_row now n) ∧
     (∀ t, no_acknowledged_at n = Some t → no_acknowledged_at (acknowledge_row now n) = Some t) ∧
     (∀ rec, r = Ok (Some rec) → is_acknowledged rec = true ∧ li_record rec = _decode_row i n) ∧
     acknowledge later i db' = (r, db')) ∧
  (∀ j, j ≠ i → notifications db' !! j = notifications db !! j) ∧
  set_notifications (notifications db) db' = db.
Proof.
  unfold acknowledge. destruct (notifications db !! i) as [n|] eqn:En.
  - intros [= <- <-]. split_and!; [done| | |by destruct db].
    + intros ? [= <-]. simpl. rewrite lookup_insert_eq.
      assert (acknowledge_row later (acknowledge_row now n) = acknowledge_row now n) as -> by done.
      split_and!; [done|by intros t Ht; simpl; rewrite Ht| |].
      * intros rec H. destruct (_decode_list_row i (acknowledge_row now n)) as [r|] eqn:Er; [|done].
        injection H as <-. apply decode_list_row_Ok in Er as (H1&H2&_). done.
      * f_equal. rewrite insert_insert_eq. by destruct db.
    + intros j Hj. simpl. by rewrite lookup_insert_ne.
  - intros [= <- <-]. split_and!; [done..|by destruct db].
Qed.

(** ** Instance: one notification in an empty list, then acknowledged *)

Definition sample_now : Z := (738944 * seconds_per_day + 36000) * us_per_second.

Lemma create_then_list_witness :
  ∃ l, list_notifications (Some [u "high"]) None
         (create (current_timestamp sample_now) (u "t") (u "high") (u "m") JNull sample_db).2 = Ok l ∧
       length l = 1%nat.
Proof.
  destruct (create (current_timestamp sample_now) (u "t") (u "high") (u "m") JNull sample_db)
    as [r db'] eqn:E.
  destruct (create_then_list (Some [u "high"]) None sample_now (u "t") (u "high") (u "m") JNull
    sample_db [] r db' eq_refl ltac:(by intros i m H; vm_compute in H) ltac:(by vm_compute) E)
    as (_&_&_&_&_&_&H).
  cbn [snd]. rewrite H. eexists. split; [reflexivity|]. by vm_compute.
Defined.

Lemma acknowledge_idempotent_witness :
  let db := (create (u "2024-03-01 10:00:00") (u "t") (u "high") (u "m") JNull sample_db).2 in
  let db' := (acknowledge (u "2024-03-02 10:00:00") 1 db).2 in
  (acknowledge (u "2024-03-03 10:00:00") 1 db').2 = db'.
Proof.
  intros db db'.
  destruct (acknowledge_idempotent (u "2024-03-02 10:00:00") (u "2024-03-03 10:00:00") 1 db _ db'
    (surjective_pairing _)) as (_&H&_).
  destruct (H _ ltac:(by vm_compute)) as (_&_&_&E). by rewrite E.
Defined.

End Notifications.

Module IngestErrors.

Definition IngestErrorDecodeError : exn := AppError "IngestErrorDecodeError".

Record IngestErrorRecord := MkErrorRecord {
  error_id : Z;
  channel_id : option Z;
  stage : pystr;
  error_code : pystr;
  error_message : pystr;
  payload_ref : option pystr;
  created_at : datetime;
}.

Definition _decode_ingest_error_row (i : Z) (e : IngestError) : result exn IngestErrorRecord :=
  t ← coerce_datetime IngestErrorDecodeError (ie_created_at e);
  mret (MkErrorRecord i (ie_channel_id e) (ie_stage e) (ie_error_code e) (ie_error_message e)
          (ie_payload_ref e) t).

(** [CHECK (stage IN (...))] of the migration. *)
Definition stages : list pystr := [u "fetch"; u "normalize"; u "dedupe"; u "auth"].

Definition insert_error (e : IngestError) (db : Db) : result exn (Z * Db) :=
  if bool_decide (ie_stage e ∈ stages) then
    if refb (channels db) (ie_channel_id e) then
      let i := next_id (ingest_errors db) in
      Ok (i, set_ingest_errors (<[i := e]> (ingest_errors db)) db)
    else Err (IntegrityError ForeignKeyFailed)
  else Err (IntegrityError (CheckFailed "ck_ingest_errors_stage")).

(** The insert is committed before the row is decoded. *)
Definition create (now : pystr) (channel : option Z) (stage code message : pystr)
    (payload : option pystr) (db : Db) : result exn IngestErrorRecord * Db :=
  let e := MkIngestError channel stage code message payload now in
  match insert_error e db with
  | Err x => (Err x, db)
  | Ok (i, db) => (_decode_ingest_error_row i e, db)
  end.

Lemma create_error_wf now ch st code ms p db : wf_db db → wf_db (create now ch st code ms p db).2.
Proof.
  intros W. unfold create, insert_error. case_match; [|by case_match].
  destruct (bool_decide _); [|done]. destruct (refb _ _) eqn:Er; [|done]. simplify_eq/=.
  apply refb_true in Er. revert W. wf_fields. insert_cases; eauto.
Qed.

End IngestErrors.
