(* ===== verification/Settings.v ===== *)
(** The dynamic settings: the key/value repository (src/tca/storage/settings_repo.py) and
    the seeding of the defaults at startup (src/tca/storage/settings_seed.py). *)

From Stdlib Require Import SpecFloat.
From S2P Require Import Prelude PyValue Schema.
Local Open Scope Z_scope.

Module Settings.

Definition SettingAlreadyExistsError : exn := AppError "SettingAlreadyExistsError".
Definition SettingValueEncodeError : exn := AppError "SettingValueEncodeError".
Definition SettingValueDecodeError : exn := AppError "SettingValueDecodeError".

Record SettingRecord := MkSetting { key : pystr; value : JSONValue }.

#[export] Instance SettingRecord_eq_dec : EqDecision SettingRecord.
Proof. solve_decision. Defined.

(** ** Encoding

    [json.dumps(..., allow_nan=False)] of a JSON value fails on a non-finite number
    only. The column holds the text; the table holds the value it denotes, and since
    [json.dumps] writes distinct values as distinct texts, comparing the one is
    comparing the other. *)

Definition _encode_value_json (value : JSONValue) : result exn JSONValue :=
  if json_encodable value then Ok value else Err SettingValueEncodeError.

(** [_is_json_value]: a number read back from the text [1e999] is infinite. *)
Definition _is_json_value : JSONValue → bool := json_encodable.

Definition _decode_row (key : pystr) (value : JSONValue) : result exn SettingRecord :=
  if _is_json_value value then Ok (MkSetting key value) else Err SettingValueDecodeError.

(** ** Operations *)

(** [INSERT INTO settings], unique key. *)
Definition insert_setting (k : pystr) (v : JSONValue) (db : Db) : result exn Db :=
  match settings db !! k with
  | Some _ => Err (IntegrityError (UniqueFailed "settings.key"))
  | None => Ok (set_settings (<[k := v]> (settings db)) db)
  end.

Definition _is_duplicate_key_integrity_error (e : exn) : bool :=
  bool_decide (e = IntegrityError (UniqueFailed "settings.key")).

Definition create (k : pystr) (v : JSONValue) (db : Db) : result exn SettingRecord * Db :=
  match _encode_value_json v with
  | Err e => (Err e, db)
  | Ok v =>
      match insert_setting k v db with
      | Ok db => (_decode_row k v, db)
      | Err e =>
          (Err (if _is_duplicate_key_integrity_error e then SettingAlreadyExistsError else e), db)
      end
  end.

Definition get_by_key (k : pystr) (db : Db) : result exn (option SettingRecord) :=
  match settings db !! k with
  | None => Ok None
  | Some v => r ← _decode_row k v; mret (Some r)
  end.

Definition update (k : pystr) (v : JSONValue) (db : Db) : result exn (option SettingRecord) * Db :=
  match _encode_value_json v with
  | Err e => (Err e, db)
  | Ok v =>
      match settings db !! k with
      | None => (Ok None, db)
      | Some _ => (r ← _decode_row k v; mret (Some r), set_settings (<[k := v]> (settings db)) db)
      end
  end.

Definition upsert (k : pystr) (v : JSONValue) (db : Db) : result exn SettingRecord * Db :=
  match _encode_value_json v with
  | Err e => (Err e, db)
  | Ok v => (_decode_row k v, set_settings (<[k := v]> (settings db)) db)
  end.

Definition delete_if_value_matches (k : pystr) (v : JSONValue) (db : Db) : result exn bool * Db :=
  match _encode_value_json v with
  | Err e => (Err e, db)
  | Ok v =>
      if decide (settings db !! k = Some v)
      then (Ok true, set_settings (base.delete k (settings db)) db)
      else (Ok false, db)
  end.

Definition delete (k : pystr) (db : Db) : Db := set_settings (base.delete k (settings db)) db.

(** ** Seeding *)

(** The double [0.92]. *)
Definition title_similarity_default : pyfloat := S754_finite false 8286623314361713 (-53).

Definition DYNAMIC_SETTINGS_DEFAULTS : list (pystr * JSONValue) :=
  [(u "dedupe.default_horizon_minutes", JInt 1440);
   (u "dedupe.threshold.title_similarity", JFloat title_similarity_default);
   (u "scheduler.default_poll_interval_seconds", JInt 300);
   (u "scheduler.max_pages_per_poll", JInt 5);
   (u "scheduler.max_messages_per_poll", JInt 500);
   (u "retention.raw_messages_days", JInt 30);
   (u "retention.items_days", JInt 365);
   (u "retention.ingest_errors_days", JInt 90);
   (u "retention.dedupe_decisions_days", JInt 180);
   (u "backup.retain_count", JInt 14);
   (u "bot.delivery_interval_seconds", JInt 60);
   (u "bot.delivery_batch_size", JInt 10)].

(** The count of inserted keys, or the first error that is not a duplicate key. *)
Fixpoint seed_keys (defaults : list (pystr * JSONValue)) (db : Db) : result exn Z * Db :=
  match defaults with
  | [] => (Ok 0, db)
  | (k, v) :: defaults =>
      match create k v db with
      | (Ok _, db) => let '(r, db) := seed_keys defaults db in (n ← r; mret (n + 1), db)
      | (Err e, db) =>
          if decide (e = SettingAlreadyExistsError) then seed_keys defaults db else (Err e, db)
      end
  end.

Definition seed_default_dynamic_settings : Db → result exn Z * Db :=
  seed_keys DYNAMIC_SETTINGS_DEFAULTS.

(** ** Lemmas *)

Lemma set_settings_wf t db : wf_db db → wf_db (set_settings t db).
Proof. wf_fields. Qed.
Lemma set_settings_id db : set_settings (settings db) db = db.
Proof. by destruct db. Qed.

Lemma get_written k v db :
  settings db !! k = Some v → json_encodable v = true →
  get_by_key k db = Ok (Some (MkSetting k v)).
Proof. intros Hk Hv. unfold get_by_key, _decode_row, _is_json_value. by rewrite Hk, Hv. Qed.
Lemma get_missing k db : settings db !! k = None → get_by_key k db = Ok None.
Proof. intros Hk. unfold get_by_key. by rewrite Hk. Qed.

Lemma create_spec k v db :
  json_encodable v = true →
  create k v db =
    match settings db !! k with
    | Some _ => (Err SettingAlreadyExistsError, db)
    | None => (Ok (MkSetting k v), set_settings (<[k := v]> (settings db)) db)
    end.
Proof.
  intros Hv. unfold create, _encode_value_json, insert_setting, _decode_row, _is_json_value.
  rewrite Hv. destruct (settings db !! k); [done|]. by rewrite Hv.
Qed.

(** The settings form a key/value store. [create] stores a new key and is the only
    write refused on an existing one; [upsert] stores always; [update] stores on an
    existing key only; [delete_if_value_matches] is a compare-and-delete; a value with a
    non-finite number is refused by each of the writes that carry one. What a successful
    write stores is what [get_by_key] returns, a refused one changes nothing, and no
    write touches another key or another table. *)
Theorem settings_store k v db :
  let fails := json_encodable v = false in
  (create k v db =
     if json_encodable v then
       match settings db !! k with
       | Some _ => (Err SettingAlreadyExistsError, db)
       | None => (Ok (MkSetting k v), set_settings (<[k := v]> (settings db)) db)
       end
     else (Err SettingValueEncodeError, db)) ∧
  (∀ r db', upsert k v db = (Ok r, db') →
     get_by_key k db' = Ok (Some r) ∧ r = MkSetting k v ∧
     settings db' = <[k := v]> (settings db)) ∧
  (∀ r db', update k v db = (Ok r, db') →
     (r = None ∧ settings db !! k = None ∧ db' = db) ∨
     (r = Some (MkSetting k v) ∧ get_by_key k db' = Ok r ∧
      is_Some (settings db !! k) ∧ settings db' = <[k := v]> (settings db))) ∧
  (∀ b db', delete_if_value_matches k v db = (Ok b, db') →
     (b = true ↔ settings db !! k = Some v) ∧
     settings db' = if b then base.delete k (settings db) else settings db) ∧
  (fails → upsert k v db = (Err SettingValueEncodeError, db) ∧
     update k v db = (Err SettingValueEncodeError, db) ∧
     delete_if_value_matches k v db = (Err SettingValueEncodeError, db)) ∧
  (∀ t, settings (delete k db) = base.delete k (settings db) ∧
     set_settings t (delete k db) = set_settings t db ∧
     set_settings t (create k v db).2 = set_settings t db ∧
     set_settings t (upsert k v db).2 = set_settings t db ∧
     set_settings t (update k v db).2 = set_settings t db ∧
     set_settings t (delete_if_value_matches k v db).2 = set_settings t db).
Proof.
  cbv zeta. split; [|split; [|split; [|split; [|split]]]].
  - destruct (json_encodable v) eqn:Hv; [by apply create_spec|].
    unfold create, _encode_value_json. by rewrite Hv.
  - intros r db'. unfold upsert, _encode_value_json, get_by_key, _decode_row, _is_json_value.
    destruct (json_encodable v) eqn:Hv; [|done]. rewrite Hv. intros [= <- <-]. simpl.
    by rewrite lookup_insert_eq, Hv.
  - intros r db'. unfold update, _encode_value_json, get_by_key, _decode_row, _is_json_value.
    destruct (json_encodable v) eqn:Hv; [|done]. rewrite Hv.
    destruct (settings db !! k) eqn:Ek; intros [= <- <-]; [right|by left]. simpl.
    rewrite lookup_insert_eq, Hv. split_and!; [done|done|by eexists|done].
  - intros b db'. unfold delete_if_value_matches, _encode_value_json.
    destruct (json_encodable v); [|done]. case_decide; by intros [= <- <-].
  - intros Hv. unfold upsert, update, delete_if_value_matches, _encode_value_json.
    by rewrite Hv.
  - intros t. unfold create, upsert, update, delete_if_value_matches, _encode_value_json,
      insert_setting. split_and!; try done;
      destruct (json_encodable v); try done; try case_decide; try done;
      by destruct (settings db !! k).
Qed.

(** ** Seeding keeps what is set *)

Lemma seed_keys_spec defaults db r db' :
  forallb (λ kv, json_encodable kv.2) defaults = true → NoDup defaults.*1 →
  seed_keys defaults db = (r, db') →
  is_ok r = true ∧
  (∀ k, settings db' !! k =
     match settings db !! k with
     | Some v => Some v
     | None => (list_to_map defaults : gmap pystr JSONValue) !! k
     end) ∧
  set_settings (settings db) db' = db.
Proof.
  revert db r db'. induction defaults as [|[k v] ds IH]; intros db r db' He Hn; simpl.
  - intros [= <- <-]. split_and!; [done| |by destruct db].
    intros k. rewrite lookup_empty. by destruct (settings db !! k).
  - simpl in He. apply andb_true_iff in He as [Hv He]. csimpl in Hn.
    apply NoDup_cons in Hn as [Hk Hn]. rewrite create_spec by done.
    destruct (settings db !! k) as [v0|] eqn:Ek.
    + rewrite decide_True by done. intros H. destruct (IH _ _ _ He Hn H) as (H1&H2&H3).
      split_and!; [done| |done]. intros j. rewrite H2, lookup_insert.
      destruct (settings db !! j) eqn:Ej; [done|]. case_decide; [congruence|done].
    + destruct (seed_keys ds _) as [r1 db1] eqn:E. intros [= <- <-].
      destruct (IH _ _ _ He Hn E) as (H1&H2&H3). simpl in H2. split_and!.
      * by destruct r1.
      * intros j. rewrite H2, !lookup_insert. case_decide as Hd; [subst; by rewrite Ek|done].
      * apply (f_equal (set_settings (settings db))) in H3.
        etransitivity; [exact H3|]. by destruct db.
Qed.

(** Seeding at startup never fails; it gives every default key that is absent its
    default and keeps whatever is stored, under the default keys and under any other; so
    a second run changes nothing. *)
Theorem seed_preserves db r db' :
  seed_default_dynamic_settings db = (r, db') →
  is_ok r = true ∧
  (∀ k v, settings db !! k = Some v → settings db' !! k = Some v) ∧
  (∀ k, settings db !! k = None →
     settings db' !! k = (list_to_map DYNAMIC_SETTINGS_DEFAULTS : gmap pystr JSONValue) !! k) ∧
  set_settings (settings db) db' = db ∧
  seed_default_dynamic_settings db' = (Ok 0, db').
Proof.
  intros H. assert (NoDup DYNAMIC_SETTINGS_DEFAULTS.*1) as Hn by by_eval.
  destruct (seed_keys_spec DYNAMIC_SETTINGS_DEFAULTS _ _ _ eq_refl Hn H) as (H1&H2&H3).
  assert (∀ kv, kv ∈ DYNAMIC_SETTINGS_DEFAULTS → is_Some (settings db' !! kv.1)) as Hall.
  { intros [k v] Hin. cbn [fst]. rewrite H2. destruct (settings db !! k); [by eexists|].
    exists v. by apply elem_of_list_to_map_1. }
  split_and!; [done| | |done|].
  - intros k v Hk. by rewrite H2, Hk.
  - intros k Hk. by rewrite H2, Hk.
  - unfold seed_default_dynamic_settings.
    assert (forallb (λ kv, json_encodable kv.2) DYNAMIC_SETTINGS_DEFAULTS = true) as He by done.
    revert Hall He. clear. induction DYNAMIC_SETTINGS_DEFAULTS as [|[k v] ds IH];
      intros Hall He; simpl; [done|].
    simpl in He. apply andb_true_iff in He as [Hv He]. rewrite create_spec by done.
    destruct (Hall (k, v) ltac:(by left)) as [v0 E]. simpl in E. rewrite E, decide_True by done.
    apply IH; [|done]. intros kv Hin. apply Hall. by right.
Qed.

(** ** Instances *)
Lemma settings_store_witness :
  get_by_key (u "a") (upsert (u "a") (JInt 3) sample_db).2 = Ok (Some (MkSetting (u "a") (JInt 3))).
Proof.
  destruct (settings_store (u "a") (JInt 3) sample_db) as (_&H&_).
  by apply (H (MkSetting (u "a") (JInt 3)) _ eq_refl).
Defined.

Lemma seed_preserves_witness :
  let db := (upsert (u "backup.retain_count") (JInt 3) sample_db).2 in
  settings (seed_default_dynamic_settings db).2 !! u "backup.retain_count" = Some (JInt 3).
Proof.
  intros db.
  destruct (seed_preserves db (seed_default_dynamic_settings db).1 _ (surjective_pairing _))
    as (_&H&_).
  apply H. by vm_compute.
Defined.

End Settings.
