(* ===== verification/Access.v ===== *)
(** Who may call: the bootstrap bearer token (src/tca/auth/bootstrap_token.py), the bearer
    check of the API (src/tca/api/bearer_auth.py), the signed session cookie of the browser
    pages (src/tca/api/cookie_auth.py), its key (src/tca/api/app.py) and the login form
    (src/tca/ui/login_routes.py). *)

From S2P Require Import Prelude PyValue PyText PyCodec PySha Schema Settings.
Local Open Scope Z_scope.

Module Access.

Definition BOOTSTRAP_BEARER_TOKEN_DIGEST_KEY : pystr := u "auth.bootstrap_bearer_token_sha256".
Definition COOKIE_SIGNING_KEY : pystr := u "auth.cookie_signing_key".
Definition SESSION_COOKIE_MAX_AGE_SECONDS : Z := 86400.
Definition OSError : exn := AppError "OSError".
Definition UIAuthRedirectError : exn := AppError "UIAuthRedirectError".

Definition compute_token_sha256_digest (token : pystr) : result exn pystr :=
  bytes ← utf8_encode token; mret (sha256_hexdigest bytes).

(** * The bootstrap token *)

(** What became of writing the token file: it holds the line, or an operation failed and
    the file holds what was written before (nothing, or the line without its mode). *)
Inductive file_write :=
  | Written
  | WriteFailed (left_behind : bool).

(** [plain_token] is the generated token and [meanwhile] what other tasks commit between
    storing the digest and withdrawing it. Beside the result: the content of the file, if
    it was written. *)
Definition ensure_bootstrap_bearer_token (plain_token : pystr) (write : file_write)
    (meanwhile : Db → Db) (db : Db) : result exn bool * option pystr * Db :=
  match Settings.get_by_key BOOTSTRAP_BEARER_TOKEN_DIGEST_KEY db with
  | Err e => (Err e, None, db)
  | Ok (Some _) => (Ok false, None, db)
  | Ok None =>
      match compute_token_sha256_digest plain_token with
      | Err e => (Err e, None, db)
      | Ok digest =>
          match Settings.create BOOTSTRAP_BEARER_TOKEN_DIGEST_KEY (JStr digest) db with
          | (Err e, db) =>
              if decide (e = Settings.SettingAlreadyExistsError) then (Ok false, None, db)
              else (Err e, None, db)
          | (Ok _, db) =>
              let line := plain_token ++ [10] in
              match write with
              | Written => (Ok true, Some line, db)
              | WriteFailed left_behind =>
                  let file := if left_behind then Some line else None in
                  match Settings.delete_if_value_matches BOOTSTRAP_BEARER_TOKEN_DIGEST_KEY
                          (JStr digest) (meanwhile db) with
                  | (Err e, db) => (Err e, file, db)
                  | (Ok _, db) => (Err OSError, file, db)
                  end
              end
          end
      end
  end.

(** * The bearer check *)

Definition _unauthorized_error : exn := HTTPException 401 (u "Unauthorized.").

(** [compare_digest] of two texts raises [TypeError] unless both are ASCII. *)
Definition compare_digest (a b : pystr) : result exn bool :=
  if isascii a && isascii b then Ok (bool_decide (a = b))
  else Err (TypeError "comparing strings with non-ASCII characters is not supported").

Definition require_bearer_auth (credentials : option pystr) (db : Db) : result exn unit :=
  match credentials with
  | None | Some [] => Err _unauthorized_error
  | Some token =>
      record ← Settings.get_by_key BOOTSTRAP_BEARER_TOKEN_DIGEST_KEY db;
      match record with
      | Some (Settings.MkSetting _ (JStr stored_digest)) =>
          presented_digest ← compute_token_sha256_digest token;
          same ← compare_digest stored_digest presented_digest;
          if (same : bool) then Ok tt else Err _unauthorized_error
      | _ => Err _unauthorized_error
      end
  end.

(** * The session cookie *)

Definition create_signed_cookie_value (signing_key : list Z) (issued_at : Z) : pystr :=
  let timestamp_str := str_of_int issued_at in
  timestamp_str ++ [46] ++ hmac_hexdigest signing_key timestamp_str.

Definition verify_signed_cookie_value `{DecimalDigits} (signing_key : list Z) (cookie_value : pystr)
    (max_age_seconds now : Z) : result exn bool :=
  match partition 46 cookie_value with
  | (_, None) => Ok false
  | (timestamp_str, Some presented_signature) =>
      match py_int timestamp_str with
      | None => Ok false
      | Some issued_at =>
          message ← utf8_encode timestamp_str;
          same ← compare_digest (hmac_hexdigest signing_key message) presented_signature;
          if (same : bool) then Ok (now - issued_at <=? max_age_seconds) else Ok false
      end
  end.

(** The bearer check is tried first; only an [HTTPException] of it is swallowed. *)
Definition require_ui_auth `{DecimalDigits} (credentials : option pystr)
    (signing_key : option (list Z)) (cookie : option pystr) (now : Z) (db : Db) : result exn unit :=
  match require_bearer_auth credentials db with
  | Ok _ => Ok tt
  | Err (HTTPException _ _) =>
      match signing_key with
      | None => Err (TypeError "Missing app cookie signing key: app.state.cookie_signing_key.")
      | Some key =>
          match cookie with
          | None => Err UIAuthRedirectError
          | Some value =>
              valid ← verify_signed_cookie_value key value SESSION_COOKIE_MAX_AGE_SECONDS now;
              if (valid : bool) then Ok tt else Err UIAuthRedirectError
          end
      end
  | Err e => Err e
  end.

(** ** The signing key *)

(** [TCA_COOKIE_SIGNING_KEY]: Base64 of at least 32 bytes, otherwise the text itself. *)
Definition env_signing_key (env_key : pystr) : result exn (list Z) :=
  match (if isascii env_key then b64decode false env_key else None) with
  | Some key => if (length key <? 32)%nat then utf8_encode env_key else Ok key
  | None => utf8_encode env_key
  end.

(** [str(value)] where it can be hexadecimal digits: of a text and of an integer. *)
Definition hex_text (v : JSONValue) : option pystr :=
  match v with JStr s => Some s | JInt n => Some (str_of_int n) | _ => None end.
Definition stored_signing_key (db : Db) : result exn (option (list Z)) :=
  record ← Settings.get_by_key COOKIE_SIGNING_KEY db;
  match record with
  | None => mret None
  | Some r =>
      match hex_text (Settings.value r) ≫= bytes_of_hex with
      | Some key => mret (Some key)
      | None => Err (ValueError "non-hexadecimal number found in fromhex() arg")
      end
  end.

(** [current] is the key generated when the application was built, [fresh] the one
    generated here. *)
Definition _resolve_persistent_cookie_signing_key (env_key : option pystr) (current fresh : list Z)
    (db : Db) : result exn (list Z) * Db :=
  match env_key with
  | Some ((_ :: _) as env_key) => (env_signing_key env_key, db)
  | _ =>
      match stored_signing_key db with
      | Ok (Some key) => (Ok key, db)
      | _ =>
          match Settings.create COOKIE_SIGNING_KEY (JStr (hex_of_bytes fresh)) db with
          | (Ok _, db) => (Ok fresh, db)
          | (Err e, db) =>
              if decide (e = Settings.SettingAlreadyExistsError) then
                match stored_signing_key db with
                | Ok (Some key) => (Ok key, db)
                | Ok None => (Ok current, db)
                | Err e => (Err e, db)
                end
              else (Ok current, db)
          end
      end
  end.

(** * The login form *)

Inductive LoginResponse :=
  | LoginPage (error_message : option pystr)
  | RedirectWithCookie (url cookie : pystr)
  | RedirectTo (url : pystr).

Definition login_page `{DecimalDigits} (signing_key : option (list Z)) (cookie : option pystr) (now : Z)
    : result exn LoginResponse :=
  match signing_key, cookie with
  | Some key, Some value =>
      valid ← verify_signed_cookie_value key value SESSION_COOKIE_MAX_AGE_SECONDS now;
      mret (if (valid : bool) then RedirectTo (u "/ui") else LoginPage None)
  | _, _ => mret (LoginPage None)
  end.

(** [token] is the form field when it is a text. *)
Definition login_submit (token : option pystr) (signing_key : option (list Z)) (now : Z) (db : Db)
    : result exn LoginResponse :=
  match token with
  | Some token =>
      if str_truthy (strip token) then
        record ← Settings.get_by_key BOOTSTRAP_BEARER_TOKEN_DIGEST_KEY db;
        match record with
        | Some (Settings.MkSetting _ (JStr stored_digest)) =>
            presented_digest ← compute_token_sha256_digest (strip token);
            if decide (presented_digest = stored_digest) then
              match signing_key with
              | Some key => mret (RedirectWithCookie (u "/ui") (create_signed_cookie_value key now))
              | None => Err (TypeError "Missing app cookie signing key: app.state.cookie_signing_key.")
              end
            else mret (LoginPage (Some (u "Invalid token.")))
        | _ => mret (LoginPage (Some (u "Invalid token.")))
        end
      else mret (LoginPage (Some (u "Token is required.")))
  | None => mret (LoginPage (Some (u "Token is required.")))
  end.
Definition logout : LoginResponse := RedirectTo (u "/ui/login").

(** * Lemmas *)

Lemma get_text k db d :
  settings db !! k = Some (JStr d) → Settings.get_by_key k db = Ok (Some (Settings.MkSetting k (JStr d))).
Proof. intros Hk. unfold Settings.get_by_key. by rewrite Hk. Qed.

Lemma create_text k d db :
  settings db !! k = None →
  Settings.create k (JStr d) db =
    (Ok (Settings.MkSetting k (JStr d)), set_settings (<[k := JStr d]> (settings db)) db).
Proof. intros Hk. unfold Settings.create, Settings.insert_setting. cbn. by rewrite Hk. Qed.

Lemma compare_digest_ascii a b :
  isascii a = true → compare_digest a b = Ok true ↔ a = b.
Proof.
  intros Ha. unfold compare_digest. rewrite Ha. cbn [andb]. split.
  - destruct (isascii b); [|done]. intros [= ?%bool_decide_eq_true]. done.
  - intros <-. rewrite Ha. by rewrite bool_decide_eq_true_2.
Qed.

(** ** The bearer check *)

Lemma bearer_iff token db d :
  settings db !! BOOTSTRAP_BEARER_TOKEN_DIGEST_KEY = Some (JStr d) → isascii d = true →
  require_bearer_auth (Some token) db = Ok tt ↔
  token ≠ [] ∧ compute_token_sha256_digest token = Ok d.
Proof.
  intros Hk Hd. unfold require_bearer_auth. rewrite (get_text _ _ _ Hk).
  destruct token as [|c token]; [split; [done|by intros [? _] ]|]. cbn [mbind result_bind].
  destruct (compute_token_sha256_digest (c :: token)) as [p|]; cbn [mbind result_bind];
    [|by split; [|intros [_ ?] ] ].
  pose proof (compare_digest_ascii d p Hd) as Hc.
  destruct (compare_digest d p) as [ [|]|]; cbn [mbind result_bind].
  - split; [|done]. intros _. split; [done|]. f_equal. symmetry. by apply Hc.
  - split; [done|]. intros [_ [= ->] ]. discriminate (proj2 Hc eq_refl).
  - split; [done|]. intros [_ [= ->] ]. discriminate (proj2 Hc eq_refl).
Qed.

(** ** The cookie *)

Lemma hex_byte_ascii b : 0 <= b < 256 → isascii (hex_byte b) = true.
Proof.
  intros Hb. by apply (bytes_upto_spec (λ b, isascii (hex_byte b))).
Qed.
Lemma big_endian_bytes w n : Forall (λ b, 0 <= b < 256) (big_endian w n).
Proof.
  unfold big_endian. apply Forall_fmap, Forall_forall. intros i _. cbn.
  change 255 with (Z.ones 8). rewrite Z.land_ones by lia. apply Z.mod_pos_bound. lia.
Qed.
Lemma hexdigest_ascii data : isascii (sha256_hexdigest data) = true.
Proof.
  unfold sha256_hexdigest, sha256. generalize (compress_all (length (words_of (pad_message data)) / 16)
    initial_hash (words_of (pad_message data))). intros ws.
  induction ws as [|w ws IH]; [done|]. rewrite bind_cons, bind_app, isascii_app, IH, andb_true_r.
  pose proof (big_endian_bytes 4 w) as Hb. induction Hb as [|b bs Hb _ IHb]; [done|].
  by rewrite bind_cons, isascii_app, IHb, hex_byte_ascii.
Qed.
Lemma hmac_ascii key message : isascii (hmac_hexdigest key message) = true.
Proof. unfold hmac_hexdigest, hmac_sha256. apply hexdigest_ascii. Qed.

Lemma utf8_encode_ascii s :
  Forall (λ c, 0 <= c < 128) s → utf8_encode s = Ok s.
Proof.
  intros Hs. unfold utf8_encode.
  assert (scalar s = true) as ->.
  { apply forallb_forall. intros c Hc%list_elem_of_In. rewrite Forall_forall in Hs.
    apply is_scalar_spec. specialize (Hs c Hc). lia. }
  f_equal. induction Hs as [|c s Hc _ IH]; [done|]. rewrite bind_cons, IH. unfold utf8_char.
  by rewrite (proj2 (Z.ltb_lt _ _)) by lia.
Qed.

Lemma digits_aux_length fuel n acc : (length (digits_aux fuel n acc) <= fuel + length acc)%nat.
Proof.
  revert n acc. induction fuel as [|fuel IH]; intros n acc; cbn [digits_aux]; [done|].
  destruct (n <? 10); [simpl; lia|]. etransitivity; [apply IH|]. simpl. lia.
Qed.
Lemma str_of_int_length n : 0 <= n < 2 ^ 64 → (length (str_of_int n) <= 64)%nat.
Proof.
  intros Hn. unfold str_of_int, digits. destruct (Z.ltb_spec n 0); [lia|].
  etransitivity; [apply digits_aux_length|]. cbn [length].
  assert (Z.log2 n < 64); [|lia]. destruct (Z.eq_dec n 0) as [->|]; [done|].
  apply Z.log2_lt_pow2; lia.
Qed.
Lemma str_of_int_chars n : 0 <= n → Forall (λ c, 48 <= c <= 57) (str_of_int n).
Proof.
  intros (_&Hd&_)%int_of_str_of_int. rewrite forallb_forall in Hd. apply Forall_forall.
  intros c Hc%list_elem_of_In%Hd. apply andb_true_iff in Hc as [?%Z.leb_le ?%Z.leb_le]. lia.
Qed.

Lemma verify_created `{DecimalDigits} key issued max_age now :
  0 <= issued < 2 ^ 64 →
  verify_signed_cookie_value key (create_signed_cookie_value key issued) max_age now =
  Ok (now - issued <=? max_age).
Proof.
  intros Hi. unfold verify_signed_cookie_value, create_signed_cookie_value.
  pose proof (str_of_int_chars issued ltac:(lia)) as Hch. rewrite Forall_forall in Hch.
  cbn [app]. rewrite partition_app.
  2: { intros Hin%Hch. lia. }
  rewrite py_int_str_of_int by (try lia; pose proof (str_of_int_length issued Hi); lia).
  rewrite utf8_encode_ascii.
  2: { apply Forall_forall. intros c Hc%Hch. lia. }
  cbn [mbind result_bind].
  by rewrite (proj2 (compare_digest_ascii _ _ (hmac_ascii _ _)) eq_refl).
Qed.

Lemma verify_true_inv `{DecimalDigits} key value max_age now :
  verify_signed_cookie_value key value max_age now = Ok true →
  ∃ timestamp message issued,
    utf8_encode timestamp = Ok message ∧ py_int timestamp = Some issued ∧
    value = timestamp ++ [46] ++ hmac_hexdigest key message ∧ now - issued <= max_age.
Proof.
  unfold verify_signed_cookie_value. pose proof (partition_spec 46 value) as Hp.
  destruct (partition 46 value) as [ts [sig|] ]; [|done]. destruct Hp as [-> _].
  destruct (py_int ts) as [issued|] eqn:Ei; [|done].
  intros (message&Hm&H1)%bind_Ok_inv. apply bind_Ok_inv in H1 as (same&Hs&H1).
  destruct same; [|done]. injection H1 as H1%Z.leb_le.
  apply compare_digest_ascii in Hs; [|apply hmac_ascii]. subst sig.
  by exists ts, message, issued.
Qed.

(** * Properties *)

Lemma ui_auth_iff `{DecimalDigits} credentials key cookie now db :
  require_ui_auth credentials (Some key) cookie now db = Ok tt ↔
  require_bearer_auth credentials db = Ok tt ∨
  (∃ status detail, require_bearer_auth credentials db = Err (HTTPException status detail)) ∧
  ∃ value, cookie = Some value ∧
    verify_signed_cookie_value key value SESSION_COOKIE_MAX_AGE_SECONDS now = Ok true.
Proof.
  unfold require_ui_auth. destruct (require_bearer_auth credentials db) as [ []|e].
  { split; [by left|done]. }
  destruct e as [| | | | |status detail];
    try (split; [done|intros [?|[(?&?&?) _] ]; done]).
  destruct cookie as [value|].
  - destruct (verify_signed_cookie_value _ _ _ _) as [ [|]|e] eqn:Ev; cbn [mbind result_bind].
    + split; [|done]. intros _. right. split; [by eauto|]. by exists value.
    + split; [done|]. intros [?|[_ (v&[= <-]&?)] ]; [done|congruence].
    + split; [done|]. intros [?|[_ (v&[= <-]&?)] ]; [done|congruence].
  - split; [done|]. intros [?|[_ (v&?&_)] ]; done.
Qed.

(** C26. Access to the browser pages. With a token digest stored, the login form answers
    with a cookie exactly for a token that has that digest; the cookie opens the pages
    without a bearer token for 86400 seconds and not a second longer, whatever happens to
    the settings meanwhile; and a request gets in only with a bearer token that has the
    digest, or with a cookie that carries the HMAC of its own time stamp under the server's
    key and is not older. *)
Theorem browser_access `{DecimalDigits} db d key :
  settings db !! BOOTSTRAP_BEARER_TOKEN_DIGEST_KEY = Some (JStr d) → isascii d = true →
  (∀ token now url cookie,
     login_submit token (Some key) now db = Ok (RedirectWithCookie url cookie) ↔
     url = u "/ui" ∧ cookie = create_signed_cookie_value key now ∧
     ∃ t, token = Some t ∧ strip t ≠ [] ∧ compute_token_sha256_digest (strip t) = Ok d) ∧
  (∀ issued now db', 0 <= issued < 2 ^ 64 →
     require_ui_auth None (Some key) (Some (create_signed_cookie_value key issued)) now db' =
     if now - issued <=? 86400 then Ok tt else Err UIAuthRedirectError) ∧
  (∀ credentials cookie now,
     require_ui_auth credentials (Some key) cookie now db = Ok tt →
     (∃ t, credentials = Some t ∧ t ≠ [] ∧ compute_token_sha256_digest t = Ok d) ∨
     (∃ timestamp message issued,
        cookie = Some (timestamp ++ [46] ++ hmac_hexdigest key message) ∧
        utf8_encode timestamp = Ok message ∧ py_int timestamp = Some issued ∧
        now - issued <= 86400)).
Proof.
  intros Hk Hd. split_and!.
  - intros token now url cookie. unfold login_submit. rewrite (get_text _ _ _ Hk).
    cbn [mbind result_bind]. destruct token as [t|]; [|split; [done|by intros (_&_&?&?&_)] ].
    destruct (strip t) as [|c s] eqn:Et; cbn [str_truthy].
    { split; [done|]. intros (_&_&t'&[= <-]&Hne&_). by rewrite Et in Hne. }
    destruct (compute_token_sha256_digest (c :: s)) as [p|e] eqn:Ep; cbn [mbind result_bind].
    + case_decide as E.
      * subst p. split; [intros [= <- <-]; split_and!; [done..|exists t; by rewrite Et]|].
        by intros (->&->&_).
      * split; [done|]. intros (_&_&t'&[= <-]&_&Hp). rewrite Et, Ep in Hp. by injection Hp.
    + split; [done|]. intros (_&_&t'&[= <-]&_&Hp). by rewrite Et, Ep in Hp.
  - intros issued now db' Hi. unfold require_ui_auth. cbn [require_bearer_auth].
    change (require_bearer_auth None db') with (Err (A:=unit) _unauthorized_error). cbv iota.
    unfold _unauthorized_error. rewrite verify_created by done. cbn [mbind result_bind].
    unfold SESSION_COOKIE_MAX_AGE_SECONDS. by destruct (now - issued <=? 86400).
  - intros credentials cookie now [Hb|[_ (value&->&Hv)] ]%ui_auth_iff.
    + left. destruct credentials as [t|]; [|done].
      exists t. split; [done|]. by apply (bearer_iff t db d).
    + right. apply verify_true_inv in Hv as (ts&message&issued&?&?&->&?).
      by exists ts, message, issued.
Qed.

(** The bootstrap token is issued once. On a store without a digest the run stores the
    digest of the token it writes to the file, and from then on exactly the tokens with
    that digest pass the bearer check and further runs change nothing; when the file cannot
    be written the error is raised and the digest withdrawn, unless another task has
    replaced it meanwhile, so that the next run starts afresh. *)
Theorem bootstrap_token_once db token meanwhile :
  settings db !! BOOTSTRAP_BEARER_TOKEN_DIGEST_KEY = None → scalar token = true →
  ∃ d, compute_token_sha256_digest token = Ok d ∧
  (∃ db', ensure_bootstrap_bearer_token token Written meanwhile db =
            (Ok true, Some (token ++ [10]), db') ∧
     settings db' = <[BOOTSTRAP_BEARER_TOKEN_DIGEST_KEY := JStr d]> (settings db) ∧
     (∀ t, require_bearer_auth (Some t) db' = Ok tt ↔
           t ≠ [] ∧ compute_token_sha256_digest t = Ok d) ∧
     (∀ t w m, ensure_bootstrap_bearer_token t w m db' = (Ok false, None, db'))) ∧
  (∀ left_behind,
     let stored := set_settings (<[BOOTSTRAP_BEARER_TOKEN_DIGEST_KEY := JStr d]> (settings db)) db in
     ∃ file db', ensure_bootstrap_bearer_token token (WriteFailed left_behind) meanwhile db =
                   (Err OSError, file, db') ∧
     (settings (meanwhile stored) !! BOOTSTRAP_BEARER_TOKEN_DIGEST_KEY = Some (JStr d) →
        settings db' = base.delete BOOTSTRAP_BEARER_TOKEN_DIGEST_KEY (settings (meanwhile stored))) ∧
     (settings (meanwhile stored) !! BOOTSTRAP_BEARER_TOKEN_DIGEST_KEY ≠ Some (JStr d) →
        db' = meanwhile stored)).
Proof.
  intros Hk Hs.
  assert (∃ d, compute_token_sha256_digest token = Ok d ∧ isascii d = true) as (d&Hd&Ha).
  { unfold compute_token_sha256_digest, utf8_encode. rewrite Hs.
    eexists. split; [done|]. apply hexdigest_ascii. }
  exists d. split; [done|].
  assert (∀ w, ensure_bootstrap_bearer_token token w meanwhile db =
    match w with
    | Written => (Ok true, Some (token ++ [10]),
        set_settings (<[BOOTSTRAP_BEARER_TOKEN_DIGEST_KEY := JStr d]> (settings db)) db)
    | WriteFailed left_behind =>
        let stored := set_settings (<[BOOTSTRAP_BEARER_TOKEN_DIGEST_KEY := JStr d]> (settings db)) db in
        let file := if left_behind then Some (token ++ [10]) else None in
        match Settings.delete_if_value_matches BOOTSTRAP_BEARER_TOKEN_DIGEST_KEY (JStr d)
                (meanwhile stored) with
        | (Err e, db) => (Err e, file, db)
        | (Ok _, db) => (Err OSError, file, db)
        end
    end) as Hrun.
  { intros w. unfold ensure_bootstrap_bearer_token.
    rewrite (Settings.get_missing _ _ Hk), Hd, (create_text _ d _ Hk). by destruct w. }
  split.
  - eexists. split; [by rewrite Hrun|]. split; [done|]. split.
    + intros t. apply bearer_iff; [|done]. apply lookup_insert_eq.
    + intros t w m. unfold ensure_bootstrap_bearer_token.
      by rewrite (get_text _ _ d) by apply lookup_insert_eq.
  - intros left_behind stored. rewrite Hrun. cbv zeta iota. fold stored.
    unfold Settings.delete_if_value_matches. cbn [Settings._encode_value_json json_encodable].
    case_decide as E; eexists _, _; (split; [done|]); split; intros; done.
Qed.

(** ** Instances *)

Definition sample_digest : pystr := sha256_hexdigest (u "token").
Definition sample_db : Db :=
  set_settings {[ BOOTSTRAP_BEARER_TOKEN_DIGEST_KEY := JStr sample_digest ]} empty_db.

Lemma browser_access_witness :
  login_submit (Some (u " token ")) (Some (u "key")) 1700000000 sample_db =
    Ok (RedirectWithCookie (u "/ui") (create_signed_cookie_value (u "key") 1700000000)) ∧
  require_ui_auth None (Some (u "key")) (Some (create_signed_cookie_value (u "key") 1700000000))
    1700086401 sample_db = Err UIAuthRedirectError.
Proof.
  destruct (browser_access sample_db sample_digest (u "key")) as (Hl&Hc&_);
    [vm_compute; reflexivity..|].
  split.
  - apply Hl. split; [reflexivity|]. split; [reflexivity|].
    exists (u " token "). split; [reflexivity|]. split; [discriminate|vm_compute; reflexivity].
  - rewrite Hc by lia. reflexivity.
Defined.

Lemma bootstrap_token_once_witness :
  ∃ db', ensure_bootstrap_bearer_token (u "token") Written id empty_db =
    (Ok true, Some (u "token" ++ [10]), db') ∧ require_bearer_auth (Some (u "token")) db' = Ok tt.
Proof.
  destruct (bootstrap_token_once empty_db (u "token") id) as (d&Hd&(db'&He&_&Hb&_)&_);
    [reflexivity|reflexivity|].
  exists db'. split; [exact He|]. apply Hb. split; [discriminate|exact Hd].
Defined.

(** A stored key that is not hexadecimal stops the start, although a failure to read it is
    meant to fall back to a fresh key: the fresh key cannot be stored over it. *)
Example corrupt_signing_key current fresh :
  let db := set_settings {[ COOKIE_SIGNING_KEY := JStr (u "xyz") ]} empty_db in
  is_ok (_resolve_persistent_cookie_signing_key None current fresh db).1 = false.
Proof. reflexivity. Qed.
End Access.
