(* ===== verification/Vault.v ===== *)
(** Secrets at rest: envelope encryption (src/tca/auth/encryption_utils.py), the key derived
    from a passphrase (src/tca/auth/kdf.py), the unlock state (src/tca/auth/unlock_modes.py)
    and the key in use (src/tca/auth/key_material.py). *)

From Stdlib Require Import SpecFloat.
From S2P Require Import Prelude PyValue PyText PyCodec PyJson Schema Settings Access.
Local Open Scope Z_scope.

(** * Cryptography

    What the [cryptography] and [argon2] packages compute, on bytes. [None] is the failure
    of an integrity check. *)
Class Crypto := {
  argon2id : list Z → list Z → list Z;
  aes_key_wrap : list Z → list Z → list Z;
  aes_key_unwrap : list Z → list Z → option (list Z);
  gcm_encrypt : list Z → list Z → list Z → list Z;
  gcm_decrypt : list Z → list Z → list Z → option (list Z);
}.

Definition all_bytes : list Z → Prop := Forall is_byte.
Definition _AES_KEY_SIZES_BYTES : list nat := [16; 24; 32]%nat.
Definition aes_key (key : list Z) : Prop := length key ∈ _AES_KEY_SIZES_BYTES.

(** RFC 3394, AES-GCM and Argon2id: unwrapping undoes wrapping, decryption undoes
    encryption under the same nonce, and a derived key has the length asked for. *)
Class CryptoLaws `{Crypto} : Prop := {
  argon2id_length secret salt : length (argon2id secret salt) = 32%nat;
  unwrap_wrap kek dek :
    aes_key kek → all_bytes dek → length dek = 32%nat → aes_key_unwrap kek (aes_key_wrap kek dek) = Some dek;
  wrap_bytes kek dek : all_bytes dek → all_bytes (aes_key_wrap kek dek);
  decrypt_encrypt dek nonce m :
    length dek = 32%nat → length nonce = 12%nat → all_bytes m →
    gcm_decrypt dek nonce (gcm_encrypt dek nonce m) = Some m;
  encrypt_bytes dek nonce m : all_bytes m → all_bytes (gcm_encrypt dek nonce m);
}.

(** A stand-in for evaluating examples: the text in the clear after a checksum of the key. *)
Definition checksum (key : list Z) : Z := foldr Z.add 0 key mod 256.
Definition open_sealed (key sealed : list Z) : option (list Z) :=
  match sealed with t :: m => if t =? checksum key then Some m else None | [] => None end.
#[export] Instance toy_crypto : Crypto := {|
  argon2id secret salt := take 32 (salt ++ secret ++ replicate 32 0);
  aes_key_wrap kek dek := checksum kek :: dek;
  aes_key_unwrap := open_sealed;
  gcm_encrypt dek _ m := checksum dek :: m;
  gcm_decrypt dek _ m := open_sealed dek m;
|}.
#[export] Instance toy_laws : @CryptoLaws toy_crypto.
Proof.
  assert (∀ key m, open_sealed key (checksum key :: m) = Some m) as Ho
    by (intros; cbn; by rewrite Z.eqb_refl).
  assert (∀ key, is_byte (checksum key)) as Hb by (intros; apply Z.mod_pos_bound; lia).
  split; intros; [|cbn..].
  - unfold argon2id, toy_crypto. rewrite length_take, !length_app, length_replicate. lia.
  - apply Ho.
  - by constructor.
  - apply Ho.
  - by constructor.
Qed.

(** * Envelopes *)
Module Envelope.

Definition ENVELOPE_VERSION : Z := 1.
Definition DATA_ENCRYPTION_KEY_BYTES : nat := 32.
Definition AES_GCM_NONCE_BYTES : nat := 12.
Definition EnvelopeDecryptionError : exn := AppError "EnvelopeDecryptionError".

Definition _validate_aes_key (name : string) (key : list Z) : result exn unit :=
  if bool_decide (aes_key key) then Ok tt
  else Err (ValueError (name +:+ " must be an AES key length (16, 24, 32 bytes).")).
Definition _validate_dek (dek : list Z) : result exn unit :=
  if (length dek =? DATA_ENCRYPTION_KEY_BYTES)%nat then Ok tt
  else Err (ValueError "data_encryption_key must be exactly 32 bytes.").

Definition wrap_data_encryption_key `{Crypto} (dek kek : list Z) : result exn (list Z) :=
  _ ← _validate_dek dek; _ ← _validate_aes_key "key_encryption_key" kek;
  mret (aes_key_wrap kek dek).

Definition unwrap_data_encryption_key `{Crypto} (wrapped kek : list Z) : result exn (list Z) :=
  _ ← _validate_aes_key "key_encryption_key" kek;
  match aes_key_unwrap kek wrapped with
  | None => Err EnvelopeDecryptionError
  | Some unwrapped =>
      if (length unwrapped =? DATA_ENCRYPTION_KEY_BYTES)%nat then Ok unwrapped
      else Err EnvelopeDecryptionError
  end.

Definition _encode_bytes (value : list Z) : JSONValue := JStr (b64encode value).
Definition _decode_bytes (encoded : option JSONValue) : result exn (list Z) :=
  match encoded with
  | Some (JStr s) =>
      if isascii s then
        match b64decode true s with Some bs => Ok bs | None => Err EnvelopeDecryptionError end
      else Err EnvelopeDecryptionError
  | _ => Err EnvelopeDecryptionError
  end.

(** [dek] and [nonce] are the random bytes of the call. *)
Definition encrypt_with_envelope `{Crypto, FloatText} (dek nonce : list Z) (plaintext kek : list Z)
    : result exn (list Z) :=
  _ ← _validate_aes_key "key_encryption_key" kek;
  wrapped_dek ← wrap_data_encryption_key dek kek;
  let ciphertext := gcm_encrypt dek nonce plaintext in
  let payload :=
    JDict [(u "version", JInt ENVELOPE_VERSION);
           (u "wrapped_data_encryption_key", _encode_bytes wrapped_dek);
           (u "nonce", _encode_bytes nonce);
           (u "ciphertext", _encode_bytes ciphertext)] in
  utf8_encode (dumps (sort_keys payload)).

(** An integer of more digits than [int] accepts raises a plain [ValueError], which the
    handler does not turn into [EnvelopeDecryptionError]. *)
Definition _decode_payload `{FloatText} (payload : list Z) : result exn (list (pystr * JSONValue)) :=
  match utf8_decode_strict payload with
  | Err _ => Err EnvelopeDecryptionError
  | Ok text =>
      match loads text with
      | Err e => Err (if decide (e = JSONDecodeError) then EnvelopeDecryptionError else e)
      | Ok (JDict d) => Ok d
      | Ok _ => Err EnvelopeDecryptionError
      end
  end.

Definition decrypt_with_envelope `{Crypto, FloatText} (ciphertext_payload kek : list Z)
    : result exn (list Z) :=
  _ ← _validate_aes_key "key_encryption_key" kek;
  payload ← _decode_payload ciphertext_payload;
  if decide (dict_get payload (u "version") = Some (JInt ENVELOPE_VERSION)) then
    wrapped_dek ← _decode_bytes (dict_get payload (u "wrapped_data_encryption_key"));
    nonce ← _decode_bytes (dict_get payload (u "nonce"));
    ciphertext ← _decode_bytes (dict_get payload (u "ciphertext"));
    if (length nonce =? AES_GCM_NONCE_BYTES)%nat then
      dek ← unwrap_data_encryption_key wrapped_dek kek;
      match gcm_decrypt dek nonce ciphertext with
      | Some plaintext => Ok plaintext
      | None => Err EnvelopeDecryptionError
      end
    else Err EnvelopeDecryptionError
  else Err EnvelopeDecryptionError.

End Envelope.

(** * The key derived from a passphrase *)
Module Kdf.

Definition ARGON2ID_SALT_BYTES : nat := 16.

Definition derive_key_encryption_key `{Crypto} (passphrase : pystr) (salt : list Z)
    : result exn (list Z) :=
  if (length salt =? ARGON2ID_SALT_BYTES)%nat
  then secret ← utf8_encode passphrase; mret (argon2id secret salt)
  else Err (ValueError "salt must be exactly 16 bytes.").

End Kdf.

(** * The unlock state *)
Module Unlock.

Definition SensitiveOperationLockedError : exn := AppError "SensitiveOperationLockedError".
Definition StartupUnlockModeError : exn := AppError "StartupUnlockModeError".

Record UnlockState := MkUnlock { mode : pystr; unlock_secret : option pystr }.

Definition initial : UnlockState := MkUnlock (u "secure-interactive") None.
Definition is_unlocked (st : UnlockState) : bool := bool_decide (is_Some (unlock_secret st)).
Definition lock (mode : pystr) (st : UnlockState) : UnlockState := MkUnlock mode None.

Definition unlock_with_passphrase (passphrase : pystr) (st : UnlockState)
    : result exn unit * UnlockState :=
  if str_truthy passphrase then (Ok tt, MkUnlock (mode st) (Some passphrase))
  else (Err (ValueError "Unlock passphrase cannot be empty."), st).

Definition require_unlocked (st : UnlockState) : result exn unit :=
  match unlock_secret st with Some _ => Ok tt | None => Err SensitiveOperationLockedError end.

Definition get_sensitive_operation_secret (st : UnlockState) : result exn pystr :=
  _ ← require_unlocked st;
  match unlock_secret st with Some s => Ok s | None => Err SensitiveOperationLockedError end.

(** The secret file as the process finds it. *)
Inductive file :=
  | Missing
  | Unreadable
  | Content (bytes : list Z).

(** Text mode reads every line end as a line feed. *)
Fixpoint universal_newlines (s : pystr) : pystr :=
  match s with
  | [] => []
  | c :: s' =>
      if c =? 13 then
        if startswith s' [10] then universal_newlines s' else 10 :: universal_newlines s'
      else c :: universal_newlines s'
  end.

Definition _read_auto_unlock_secret_file (secret_file : file) : result exn pystr :=
  match secret_file with
  | Missing | Unreadable => Err StartupUnlockModeError
  | Content bytes =>
      secret ← utf8_decode_strict bytes;
      let normalized := strip (universal_newlines secret) in
      if str_truthy normalized then Ok normalized else Err StartupUnlockModeError
  end.

Definition initialize_startup_unlock_mode (m : pystr) (secret_file : option file) (st : UnlockState)
    : result exn unit * UnlockState :=
  let st := lock m st in
  if decide (m = u "secure-interactive") then (Ok tt, st)
  else if decide (m = u "auto-unlock") then
    match secret_file with
    | None => (Err StartupUnlockModeError, st)
    | Some f =>
        match _read_auto_unlock_secret_file f with
        | Err e => (Err e, st)
        | Ok secret => unlock_with_passphrase secret st
        end
    end
  else (Err (ValueError "Unsupported unlock mode."), st).

Definition shutdown (st : UnlockState) : UnlockState := lock (mode st) st.

End Unlock.

(** * The key in use *)
Module KeyMaterial.

Definition AUTH_KEY_SALT_SETTING : pystr := u "auth.kek_salt".
Definition KeyMaterialError : exn := AppError "KeyMaterialError".

Definition _decode_salt (value : JSONValue) : result exn (list Z) :=
  match value with
  | JStr s =>
      match (if isascii s then b64decode true s else None) with
      | None => Err KeyMaterialError
      | Some decoded =>
          if (length decoded =? Kdf.ARGON2ID_SALT_BYTES)%nat then Ok decoded
          else Err KeyMaterialError
      end
  | _ => Err KeyMaterialError
  end.

Definition stored_salt (db : Db) : result exn (option (list Z)) :=
  existing ← Settings.get_by_key AUTH_KEY_SALT_SETTING db;
  match existing with
  | None => Ok None
  | Some r => salt ← _decode_salt (Settings.value r); mret (Some salt)
  end.

(** [new_salt] is the random salt of the call, [before] what other tasks commit between the
    first look and the queued insert and [after] what they commit between that and the
    second look. *)
Definition _get_or_create_kek_salt (new_salt : list Z) (before after : Db → Db) (db : Db)
    : result exn (list Z) * Db :=
  match stored_salt db with
  | Err e => (Err e, db)
  | Ok (Some salt) => (Ok salt, db)
  | Ok None =>
      match Settings.create AUTH_KEY_SALT_SETTING (JStr (b64encode new_salt)) (before db) with
      | (Ok _, db) => (Ok new_salt, db)
      | (Err e, db) =>
          if decide (e = Settings.SettingAlreadyExistsError) then
            let db := after db in
            match stored_salt db with
            | Err e => (Err e, db)
            | Ok (Some salt) => (Ok salt, db)
            | Ok None => (Err KeyMaterialError, db)
            end
          else (Err e, db)
      end
  end.

Definition resolve_key_encryption_key `{Crypto} (new_salt : list Z) (before after : Db → Db)
    (st : Unlock.UnlockState) (db : Db) : result exn (list Z) * Db :=
  match Unlock.get_sensitive_operation_secret st with
  | Err e => (Err e, db)
  | Ok passphrase =>
      match _get_or_create_kek_salt new_salt before after db with
      | (Err e, db) => (Err e, db)
      | (Ok salt, db) => (Kdf.derive_key_encryption_key passphrase salt, db)
      end
  end.

End KeyMaterial.

(** * Startup of authentication ([AuthStartupDependency]) *)
Module AuthStartup.

(** The unlock mode first, then the bootstrap token; when that fails the state is locked
    again. Beside the result: the token file, if it was written. *)
Definition startup (m : pystr) (secret_file : option Unlock.file) (plain_token : pystr)
    (write : Access.file_write) (meanwhile : Db → Db) (st : Unlock.UnlockState) (db : Db)
    : result exn unit * option pystr * Unlock.UnlockState * Db :=
  match Unlock.initialize_startup_unlock_mode m secret_file st with
  | (Err e, st) => (Err e, None, st, db)
  | (Ok _, st) =>
      match Access.ensure_bootstrap_bearer_token plain_token write meanwhile db with
      | (Ok _, file, db) => (Ok tt, file, st, db)
      | (Err e, file, db) => (Err e, file, Unlock.shutdown st, db)
      end
  end.

End AuthStartup.

(** * Envelopes round trip *)

Lemma scalar_ascii s : isascii s = true → Forall (λ c, 0 <= c) s → scalar s = true.
Proof.
  intros Ha Hs. induction Hs as [|c s Hc _ IH]; [done|].
  apply andb_true_iff in Ha as [Hc'%Z.ltb_lt Ha]. apply andb_true_iff. split; [|by apply IH].
  apply is_scalar_spec. lia.
Qed.
Lemma base64_char_nonneg v : 0 <= v → 0 <= base64_char v.
Proof. intros Hv. unfold base64_char. zbool. Qed.
Lemma b64encode_scalar bs : all_bytes bs → scalar (b64encode bs) = true.
Proof.
  intros Hb. apply scalar_ascii; [by apply b64encode_ascii|].
  assert (∀ n bs, (length bs <= n)%nat → all_bytes bs → Forall (λ c, 0 <= c) (b64encode bs)) as H;
    [|by eapply H].
  clear bs Hb. induction n as [|n IH]; intros bs Hn Hb; [destruct bs; [constructor|simpl in Hn; lia]|].
  unfold all_bytes, is_byte in Hb.
  destruct bs as [|a [|b [|c bs] ] ]; cbn [b64encode]; [constructor|..];
    repeat match goal with H : Forall _ (_ :: _) |- _ => apply Forall_cons in H as [? H] end;
    repeat (constructor; [try apply base64_char_nonneg; Z.to_euclidean_division_equations; lia|]);
    [constructor..|]. apply IH; [simpl in Hn; lia|done].
Qed.
Lemma decode_encode_bytes bs :
  all_bytes bs → Envelope._decode_bytes (Some (Envelope._encode_bytes bs)) = Ok bs.
Proof.
  intros Hb. unfold Envelope._decode_bytes, Envelope._encode_bytes.
  by rewrite b64encode_ascii, b64decode_encode.
Qed.

Section envelope.
Context `{CryptoLaws, FloatText}.

Let members (w n c : pystr) : list (pystr * JSONValue) :=
  [(u "ciphertext", JStr c); (u "nonce", JStr n); (u "version", JInt 1);
   (u "wrapped_data_encryption_key", JStr w)].

Lemma sort_payload w n c :
  sort_keys (JDict [(u "version", JInt 1); (u "wrapped_data_encryption_key", JStr w);
                    (u "nonce", JStr n); (u "ciphertext", JStr c)]) = JDict (members w n c).
Proof. vm_compute. reflexivity. Qed.
Lemma members_get w n c :
  dict_get (members w n c) (u "version") = Some (JInt 1) ∧
  dict_get (members w n c) (u "wrapped_data_encryption_key") = Some (JStr w) ∧
  dict_get (members w n c) (u "nonce") = Some (JStr n) ∧
  dict_get (members w n c) (u "ciphertext") = Some (JStr c).
Proof. split_and!; vm_compute; reflexivity. Qed.
Lemma members_writable w n c :
  scalar w = true → scalar n = true → scalar c = true → writable (JDict (members w n c)).
Proof.
  intros Hw Hn Hc. split.
  - unfold members. cbn [fmap list_fmap fst]. by_eval.
  - unfold members. cbn [foldr fst snd writable]. split_and!; try done; by_eval.
Qed.

Lemma envelope_spec dek nonce m kek :
  aes_key kek → all_bytes dek → length dek = 32%nat → all_bytes nonce → length nonce = 12%nat →
  all_bytes m →
  ∃ payload, Envelope.encrypt_with_envelope dek nonce m kek = Ok payload ∧ all_bytes payload ∧
    Envelope.decrypt_with_envelope payload kek = Ok m.
Proof.
  intros Hkek Hdek Hlen Hnonce Hnlen Hm.
  pose proof (decode_encode_bytes _ (wrap_bytes kek dek Hdek)) as Hw.
  pose proof (decode_encode_bytes _ Hnonce) as Hn.
  pose proof (decode_encode_bytes _ (encrypt_bytes dek nonce m Hm)) as Hc.
  pose proof (b64encode_scalar _ (wrap_bytes kek dek Hdek)) as Hws.
  pose proof (b64encode_scalar _ Hnonce) as Hns.
  pose proof (b64encode_scalar _ (encrypt_bytes dek nonce m Hm)) as Hcs.
  unfold Envelope.encrypt_with_envelope, Envelope.wrap_data_encryption_key,
    Envelope._validate_aes_key, Envelope._validate_dek, Envelope.DATA_ENCRYPTION_KEY_BYTES.
  rewrite bool_decide_eq_true_2, Hlen by done. cbn [mbind result_bind mret result_ret Nat.eqb].
  unfold Envelope._encode_bytes in *. unfold Envelope.ENVELOPE_VERSION.
  set (w := b64encode (aes_key_wrap kek dek)) in *. set (n := b64encode nonce) in *.
  set (c := b64encode (gcm_encrypt dek nonce m)) in *. clearbody w n c.
  rewrite sort_payload. pose proof (members_writable w n c Hws Hns Hcs) as Hwr.
  unfold utf8_encode at 1. rewrite dumps_scalar by done. eexists. split; [done|].
  assert (utf8_encode (dumps (JDict (members w n c))) =
    Ok (dumps (JDict (members w n c)) ≫= utf8_char)) as He.
  { unfold utf8_encode. by rewrite dumps_scalar. }
  split; [by apply utf8_encode_bytes in He|].
  apply utf8_decode_strict_spec in He.
  unfold Envelope.decrypt_with_envelope, Envelope._validate_aes_key, Envelope._decode_payload.
  rewrite bool_decide_eq_true_2, He, loads_dumps by done. cbn [mbind result_bind].
  destruct (members_get w n c) as (->&->&->&->). unfold Envelope.ENVELOPE_VERSION.
  rewrite decide_True, Hw, Hn, Hc by done. cbn [mbind result_bind].
  unfold Envelope.AES_GCM_NONCE_BYTES, Envelope.unwrap_data_encryption_key, Envelope._validate_aes_key.
  rewrite Hnlen, bool_decide_eq_true_2 by done. cbn [Nat.eqb mbind result_bind].
  rewrite unwrap_wrap by done. unfold Envelope.DATA_ENCRYPTION_KEY_BYTES. rewrite Hlen.
  cbn [Nat.eqb mbind result_bind]. by rewrite decrypt_encrypt.
Qed.

(** C27. What [encrypt_with_envelope] writes, [decrypt_with_envelope] reads back under the same
    key-encryption key, through the key wrap, the cipher, Base64 and the JSON text. *)
Theorem envelope_roundtrip dek nonce m kek :
  aes_key kek → all_bytes dek → length dek = 32%nat → all_bytes nonce → length nonce = 12%nat →
  all_bytes m →
  ∃ payload, Envelope.encrypt_with_envelope dek nonce m kek = Ok payload ∧ all_bytes payload ∧
    Envelope.decrypt_with_envelope payload kek = Ok m.
Proof. apply envelope_spec. Qed.

(** Under a key of a valid size, decryption of any bytes fails with
    [EnvelopeDecryptionError], except where an integer of the payload has more than 4300
    digits: the [ValueError] of [int] passes through. *)
Theorem decrypt_errors payload kek e :
  aes_key kek → Envelope.decrypt_with_envelope payload kek = Err e →
  e = Envelope.EnvelopeDecryptionError ∨
  e = too_many_digits ∧ ∃ text, utf8_decode_strict payload = Ok text ∧ loads text = Err e.
Proof.
  intros Hkek. unfold Envelope.decrypt_with_envelope, Envelope._validate_aes_key at 1.
  rewrite bool_decide_eq_true_2 by done. cbn [mbind result_bind].
  assert (∀ o x, Envelope._decode_bytes o = Err x → x = Envelope.EnvelopeDecryptionError) as Hdb.
  { intros o x. unfold Envelope._decode_bytes. repeat case_match; congruence. }
  destruct (Envelope._decode_payload payload) as [d|x] eqn:Ed; cbn [mbind result_bind].
  - intros He. left. revert He. case_decide; [|congruence].
    destruct (Envelope._decode_bytes (dict_get d (u "wrapped_data_encryption_key"))) as [w|x] eqn:E1;
      cbn [mbind result_bind]; [|intros [= <-]; eauto].
    destruct (Envelope._decode_bytes (dict_get d (u "nonce"))) as [n|x] eqn:E2;
      cbn [mbind result_bind]; [|intros [= <-]; eauto].
    destruct (Envelope._decode_bytes (dict_get d (u "ciphertext"))) as [c|x] eqn:E3;
      cbn [mbind result_bind]; [|intros [= <-]; eauto].
    case_match; [|congruence].
    unfold Envelope.unwrap_data_encryption_key, Envelope._validate_aes_key.
    rewrite bool_decide_eq_true_2 by done. cbn [mbind result_bind].
    destruct (aes_key_unwrap kek w); cbn [mbind result_bind]; [|congruence].
    case_match; cbn [mbind result_bind]; [|congruence]. case_match; congruence.
  - intros [= <-]. unfold Envelope._decode_payload in Ed.
    destruct (utf8_decode_strict payload) as [t|] eqn:Et; [|left; congruence].
    destruct (loads t) as [v|y] eqn:El; [left; destruct v; congruence|].
    destruct (loads_errors_ok _ _ El) as [->| ->]; injection Ed as <-; [by left|].
    right. split; [done|]. by exists t.
Qed.

End envelope.

(** * Startup *)

Definition secret_of (bytes : list Z) : result exn pystr :=
  text ← utf8_decode_strict bytes; mret (strip (Unlock.universal_newlines text)).

(** C28. Startup records the mode. It leaves sensitive operations unlocked exactly when it
    succeeds in auto-unlock mode, with the stripped, non-empty text of the secret file; in
    secure-interactive mode, in any other mode and after any failure, one of the bootstrap
    token included, they are locked. *)
Theorem startup_fails_closed m secret_file token write meanwhile st db :
  let '(r, _, st', _) := AuthStartup.startup m secret_file token write meanwhile st db in
  Unlock.mode st' = m ∧
  match Unlock.unlock_secret st' with
  | Some secret =>
      r = Ok tt ∧ m = u "auto-unlock" ∧ secret ≠ [] ∧
      ∃ bytes, secret_file = Some (Unlock.Content bytes) ∧ secret_of bytes = Ok secret
  | None => r = Ok tt → m = u "secure-interactive"
  end.
Proof.
  unfold AuthStartup.startup, Unlock.initialize_startup_unlock_mode, Unlock.lock.
  case_decide as Hm.
  { destruct (Access.ensure_bootstrap_bearer_token _ _ _ _) as [ [ [b|e] file] db']; cbn; done. }
  case_decide as Hm'; [|done].
  destruct secret_file as [f|]; [|done].
  destruct (Unlock._read_auto_unlock_secret_file f) as [secret|e] eqn:Ef; [|done].
  assert (∃ bytes, f = Unlock.Content bytes ∧ secret_of bytes = Ok secret ∧ secret ≠ [])
    as (bytes&->&Hs&Hne).
  { destruct f as [| |bytes]; try done. exists bytes. split; [done|]. unfold secret_of.
    cbn [Unlock._read_auto_unlock_secret_file] in Ef.
    destruct (utf8_decode_strict bytes) as [t|]; [|done]. cbn [mbind result_bind] in *.
    destruct (strip (Unlock.universal_newlines t)) as [|c s] eqn:E; cbn [str_truthy] in Ef; [done|].
    by injection Ef as <-. }
  unfold Unlock.unlock_with_passphrase. destruct secret as [|c s]; [done|]. cbn [str_truthy].
  destruct (Access.ensure_bootstrap_bearer_token _ _ _ _) as [ [ [b|e] file] db']; cbn; [|done].
  split_and!; [done..|by eauto].
Qed.

(** * The key in use *)

Lemma stored_salt_settings db db' :
  settings db !! KeyMaterial.AUTH_KEY_SALT_SETTING = settings db' !! KeyMaterial.AUTH_KEY_SALT_SETTING →
  KeyMaterial.stored_salt db = KeyMaterial.stored_salt db'.
Proof. intros E. unfold KeyMaterial.stored_salt, Settings.get_by_key. by rewrite E. Qed.

Lemma create_salt new_salt db r db' :
  all_bytes new_salt → length new_salt = 16%nat →
  Settings.create KeyMaterial.AUTH_KEY_SALT_SETTING (JStr (b64encode new_salt)) db = (Ok r, db') →
  KeyMaterial.stored_salt db' = Ok (Some new_salt).
Proof.
  intros Hb Hl. unfold Settings.create, Settings._encode_value_json, Settings.insert_setting.
  cbn [json_encodable]. destruct (settings db !! _); [done|]. intros [= <- <-].
  unfold KeyMaterial.stored_salt, Settings.get_by_key. cbn [settings set_settings].
  rewrite lookup_insert_eq. unfold Settings._decode_row, Settings._is_json_value.
  cbn [json_encodable mbind result_bind mret result_ret Settings.value KeyMaterial._decode_salt].
  rewrite b64encode_ascii, b64decode_encode by done. unfold Kdf.ARGON2ID_SALT_BYTES. by rewrite Hl.
Qed.

(** What [_get_or_create_kek_salt] returns is stored. *)
Lemma salt_stored new_salt before after db salt db' :
  all_bytes new_salt → length new_salt = 16%nat →
  KeyMaterial._get_or_create_kek_salt new_salt before after db = (Ok salt, db') →
  KeyMaterial.stored_salt db' = Ok (Some salt).
Proof.
  intros Hb Hl. unfold KeyMaterial._get_or_create_kek_salt.
  destruct (KeyMaterial.stored_salt db) as [ [s|]|] eqn:Es; [by intros [= <- <-]| |done].
  destruct (Settings.create _ _ _) as [ [r|e] db1] eqn:Ec.
  - intros [= <- <-]. by eapply create_salt.
  - case_decide; [|done]. destruct (KeyMaterial.stored_salt (after db1)) as [ [s|]|] eqn:Es'; try done.
    by intros [= <- <-].
Qed.

Lemma derive_length `{CryptoLaws} passphrase salt kek :
  Kdf.derive_key_encryption_key passphrase salt = Ok kek → aes_key kek.
Proof.
  unfold Kdf.derive_key_encryption_key. case_match; [|done].
  destruct (utf8_encode passphrase); cbn [mbind result_bind]; [|done]. intros [= <-].
  unfold aes_key. rewrite argon2id_length. by do 2 right; left.
Qed.

Lemma kek_spec `{CryptoLaws} new_salt before after st db kek db' :
  all_bytes new_salt → length new_salt = 16%nat →
  KeyMaterial.resolve_key_encryption_key new_salt before after st db = (Ok kek, db') →
  (∃ passphrase salt, Unlock.unlock_secret st = Some passphrase ∧
     KeyMaterial.stored_salt db' = Ok (Some salt) ∧
     Kdf.derive_key_encryption_key passphrase salt = Ok kek) ∧
  aes_key kek ∧
  ∀ new_salt' before' after' db2,
    settings db2 !! KeyMaterial.AUTH_KEY_SALT_SETTING = settings db' !! KeyMaterial.AUTH_KEY_SALT_SETTING →
    KeyMaterial.resolve_key_encryption_key new_salt' before' after' st db2 = (Ok kek, db2).
Proof.
  intros Hb Hl. unfold KeyMaterial.resolve_key_encryption_key, Unlock.get_sensitive_operation_secret,
    Unlock.require_unlocked.
  destruct (Unlock.unlock_secret st) as [passphrase|]; cbn [mbind result_bind]; [|done].
  destruct (KeyMaterial._get_or_create_kek_salt _ _ _ _) as [ [salt|e] db1] eqn:Es; [|done].
  intros [= Hd <-]. apply salt_stored in Es; [|done..].
  split_and!; [by eauto|by eapply derive_length|].
  intros new_salt' before' after' db2 E%stored_salt_settings.
  unfold KeyMaterial._get_or_create_kek_salt. by rewrite E, Es, Hd.
Qed.

(** C29. The key-encryption key is derived from the unlock secret and the salt that is stored
    when the call returns, even when another task stored its salt first, and it is an AES
    key. As long as the stored salt stays, every later call gives the same key and writes
    nothing. *)
Theorem kek_is_stable `{CryptoLaws} new_salt before after st db kek db' :
  all_bytes new_salt → length new_salt = 16%nat →
  KeyMaterial.resolve_key_encryption_key new_salt before after st db = (Ok kek, db') →
  (∃ passphrase salt, Unlock.unlock_secret st = Some passphrase ∧
     KeyMaterial.stored_salt db' = Ok (Some salt) ∧
     Kdf.derive_key_encryption_key passphrase salt = Ok kek) ∧
  aes_key kek ∧
  ∀ new_salt' before' after' db2,
    settings db2 !! KeyMaterial.AUTH_KEY_SALT_SETTING = settings db' !! KeyMaterial.AUTH_KEY_SALT_SETTING →
    KeyMaterial.resolve_key_encryption_key new_salt' before' after' st db2 = (Ok kek, db2).
Proof. apply kek_spec. Qed.

(** * Witnesses *)

Definition sample_kek : list Z := replicate 32 7.
Definition sample_salt : list Z := seqZ 0 16.
Definition sample_unlocked : Unlock.UnlockState := Unlock.MkUnlock (u "secure-interactive") (Some (u "pass")).

Lemma all_bytes_eval l : forallb (λ b, (0 <=? b) && (b <? 256)) l = true → all_bytes l.
Proof.
  intros H. apply Forall_forall. intros b Hb%list_elem_of_In. rewrite forallb_forall in H.
  apply H, andb_true_iff in Hb as [?%Z.leb_le ?%Z.ltb_lt]. by split.
Qed.
Lemma sample_kek_key : aes_key sample_kek.
Proof. by do 2 right; left. Qed.

Lemma envelope_roundtrip_witness :
  ∃ payload, Envelope.encrypt_with_envelope sample_kek (replicate 12 1) (u "secret") sample_kek = Ok payload ∧
    all_bytes payload ∧ Envelope.decrypt_with_envelope payload sample_kek = Ok (u "secret").
Proof.
  apply (envelope_roundtrip sample_kek (replicate 12 1) (u "secret") sample_kek);
    try apply sample_kek_key; try (apply all_bytes_eval; vm_compute); reflexivity.
Defined.

Lemma decrypt_errors_witness :
  Envelope.decrypt_with_envelope (u "{}") sample_kek = Err Envelope.EnvelopeDecryptionError ∧
  (Envelope.EnvelopeDecryptionError = Envelope.EnvelopeDecryptionError ∨
   Envelope.EnvelopeDecryptionError = too_many_digits ∧
   ∃ text, utf8_decode_strict (u "{}") = Ok text ∧ loads text = Err Envelope.EnvelopeDecryptionError).
Proof.
  assert (Envelope.decrypt_with_envelope (u "{}") sample_kek = Err Envelope.EnvelopeDecryptionError) as H
    by (vm_compute; reflexivity).
  split; [exact H|]. apply (decrypt_errors (u "{}") sample_kek _ sample_kek_key H).
Defined.

(** A payload that is a number of 4301 digits. *)
Example decrypt_overlong_integer :
  Envelope.decrypt_with_envelope (replicate 4301 49) sample_kek = Err too_many_digits.
Proof. vm_compute. reflexivity. Qed.

Lemma kek_is_stable_witness :
  ∃ kek db', KeyMaterial.resolve_key_encryption_key sample_salt id id sample_unlocked empty_db = (Ok kek, db') ∧
    aes_key kek ∧
    KeyMaterial.resolve_key_encryption_key sample_kek id id sample_unlocked db' = (Ok kek, db').
Proof.
  assert (∃ kek db', KeyMaterial.resolve_key_encryption_key sample_salt id id sample_unlocked empty_db =
    (Ok kek, db')) as (kek&db'&H) by (do 2 eexists; vm_compute; reflexivity).
  exists kek, db'. split; [exact H|].
  destruct (kek_is_stable sample_salt id id sample_unlocked empty_db kek db') as (_&Hk&Hs);
    [apply all_bytes_eval; vm_compute; reflexivity|reflexivity|exact H|].
  split; [exact Hk|]. by apply Hs.
Defined.
