(* ===== verification/Accounts.v ===== *)
(** Telegram accounts: the encrypted credentials (src/tca/auth/account_storage.py) and sessions
    (src/tca/auth/session_storage.py), and the clients built from them at startup
    (src/tca/telegram/account_loader.py and client_manager.py). *)

From S2P Require Import Prelude PyValue PyText PyCodec PyJson Schema Vault.
Local Open Scope Z_scope.

(** The random bytes one encryption draws: the data-encryption key and the nonce. *)
Record Entropy := MkEntropy { dek : list Z; nonce : list Z }.
Definition entropy_ok (e : Entropy) : Prop :=
  all_bytes (dek e) ∧ length (dek e) = 32%nat ∧ all_bytes (nonce e) ∧ length (nonce e) = 12%nat.

(** [encrypt_with_envelope(plaintext=text.encode("utf-8"))] *)
Definition encrypt_text `{Crypto, FloatText} (e : Entropy) (text : pystr) (kek : list Z)
    : result exn (list Z) :=
  plaintext ← utf8_encode text; Envelope.encrypt_with_envelope (dek e) (nonce e) plaintext kek.

(** [decrypt_with_envelope(...).decode("utf-8")] *)
Definition decrypt_text `{Crypto, FloatText} (undecodable : exn) (payload kek : list Z)
    : result exn pystr :=
  plaintext ← Envelope.decrypt_with_envelope payload kek;
  match utf8_decode_strict plaintext with Ok text => Ok text | Err _ => Err undecodable end.

(** * Credentials *)
Module AccountStorage.

Definition TelegramAccountStorageError : exn := AppError "TelegramAccountStorageError".
Definition MultipleResultsFound : exn := AppError "MultipleResultsFound".

Record TelegramAccountRecord := MkRecord {
  account_id : Z;
  api_id : Z;
  api_hash : pystr;
  phone_number : option pystr;
}.

(** [WHERE phone_number = :phone_number], in id order. *)
Definition with_phone (phone : pystr) (db : Db) : list Z :=
  sorted_ids (ids_where (λ a, bool_decide (ac_phone_number a = Some phone)) (accounts db)).

Definition set_credentials (api_id : Z) (sealed : list Z) (a : Account) : Account :=
  MkAccount api_id sealed (ac_phone_number a) (ac_session_encrypted a) (ac_key_version a)
    (ac_paused_at a) (ac_pause_reason a).

(** [INSERT INTO telegram_accounts]: the key version is the column's default. *)
Definition insert_account (api_id : Z) (sealed : list Z) (phone : option pystr) (db : Db) : Z * Db :=
  let i := next_id (accounts db) in
  (i, set_accounts (<[i := MkAccount api_id sealed phone None 1 None None]> (accounts db)) db).

Definition upsert_account `{Crypto, FloatText} (e : Entropy) (api_id : Z) (api_hash : pystr)
    (phone : option pystr) (kek : list Z) (db : Db) : result exn Z * Db :=
  match encrypt_text e api_hash kek with
  | Err x => (Err x, db)
  | Ok sealed =>
      if bindable api_id then
        match (match phone with Some p => with_phone p db | None => [] end) with
        | [] => let '(i, db) := insert_account api_id sealed phone db in (Ok i, db)
        | [i] => (Ok i, set_accounts (alter (set_credentials api_id sealed) i (accounts db)) db)
        | _ => (Err MultipleResultsFound, db)
        end
      else (Err OverflowError, db)
  end.

Definition _decode_account_row `{Crypto, FloatText} (kek : list Z) (i : Z) (a : Account)
    : result exn TelegramAccountRecord :=
  api_hash ← decrypt_text TelegramAccountStorageError (ac_api_hash_encrypted a) kek;
  mret (MkRecord i (ac_api_id a) api_hash (ac_phone_number a)).

Definition account_rows (db : Db) : list (Z * Account) :=
  omap (λ i, pair i <$> accounts db !! i) (sorted_ids (dom (accounts db))).

Definition list_accounts `{Crypto, FloatText} (kek : list Z) (db : Db)
    : result exn (list TelegramAccountRecord) :=
  traverse (λ row, _decode_account_row kek row.1 row.2) (account_rows db).

Definition get_account_id_by_phone_number (phone : pystr) (db : Db) : result exn (option Z) :=
  match with_phone phone db with
  | [] => Ok None
  | [i] => Ok (Some i)
  | _ => Err MultipleResultsFound
  end.

End AccountStorage.

(** * Sessions *)
Module SessionStorage.

Definition TelegramAccountNotFoundError : exn := AppError "TelegramAccountNotFoundError".
Definition TelegramSessionStorageError : exn := AppError "TelegramSessionStorageError".

Definition set_session (sealed : list Z) (a : Account) : Account :=
  MkAccount (ac_api_id a) (ac_api_hash_encrypted a) (ac_phone_number a) (Some sealed)
    (ac_key_version a) (ac_paused_at a) (ac_pause_reason a).

Definition persist_session `{Crypto, FloatText} (e : Entropy) (account_id : Z)
    (string_session : pystr) (kek : list Z) (db : Db) : result exn unit * Db :=
  match encrypt_text e string_session kek with
  | Err x => (Err x, db)
  | Ok sealed =>
      match accounts db !! account_id with
      | None => (Err TelegramAccountNotFoundError, db)
      | Some a => (Ok tt, set_accounts (<[account_id := set_session sealed a]> (accounts db)) db)
      end
  end.

Definition load_session `{Crypto, FloatText} (account_id : Z) (kek : list Z) (db : Db)
    : result exn (option pystr) :=
  match accounts db !! account_id with
  | None => Err TelegramAccountNotFoundError
  | Some a =>
      match ac_session_encrypted a with
      | None => Ok None
      | Some sealed => Some <$> decrypt_text TelegramSessionStorageError sealed kek
      end
  end.

End SessionStorage.

(** * Clients *)
Module Clients.

Definition MissingTelethonClientError : exn := AppError "MissingTelethonClientError".

Record TelegramAccount := MkTelegramAccount {
  account_id : Z;
  api_id : Z;
  api_hash : pystr;
  string_session : option pystr;
}.

(** [TelegramAccountLoader.__call__] *)
Definition load_accounts `{Crypto, FloatText} (kek : list Z) (db : Db)
    : result exn (list TelegramAccount) :=
  records ← AccountStorage.list_accounts kek db;
  traverse (λ r,
    session ← SessionStorage.load_session (AccountStorage.account_id r) kek db;
    mret (MkTelegramAccount (AccountStorage.account_id r) (AccountStorage.api_id r)
            (AccountStorage.api_hash r) session)) records.

(** [TelethonClientManager]. A client is what the factory makes of an account; [connect] may
    fail, and yields the client as it is then. *)
Section manager.
Context {C : Type} (client_factory : TelegramAccount → result exn C)
  (is_connected : C → bool) (connect : C → result exn C) (disconnect : C → result exn C).

Definition Manager := list (Z * C).

Fixpoint client_of (i : Z) (clients : Manager) : option C :=
  match clients with
  | [] => None
  | (j, c) :: clients => if j =? i then Some c else client_of i clients
  end.
Definition get_client (i : Z) (clients : Manager) : result exn C :=
  match client_of i clients with Some c => Ok c | None => Err MissingTelethonClientError end.

Definition _register_account (a : TelegramAccount) (clients : Manager) : result exn C * Manager :=
  match client_of (account_id a) clients with
  | Some c => (Ok c, clients)
  | None =>
      match client_factory a with
      | Ok c => (Ok c, clients ++ [(account_id a, c)])
      | Err e => (Err e, clients)
      end
  end.

Fixpoint register_all (l : list TelegramAccount) (clients : Manager) : result exn unit * Manager :=
  match l with
  | [] => (Ok tt, clients)
  | a :: l =>
      match _register_account a clients with
      | (Ok _, clients) => register_all l clients
      | (Err e, clients) => (Err e, clients)
      end
  end.

(** Clients are connected in order, up to the first failure. *)
Fixpoint connect_all (clients : Manager) : result exn unit * Manager :=
  match clients with
  | [] => (Ok tt, [])
  | (i, c) :: rest =>
      match (if is_connected c then Ok c else connect c) with
      | Err e => (Err e, (i, c) :: rest)
      | Ok c => let '(r, rest) := connect_all rest in (r, (i, c) :: rest)
      end
  end.

Definition startup (loaded : result exn (list TelegramAccount)) (clients : Manager)
    : result exn unit * Manager :=
  match loaded with
  | Err e => (Err e, clients)
  | Ok l =>
      match register_all l clients with
      | (Ok _, clients) => connect_all clients
      | (Err e, clients) => (Err e, clients)
      end
  end.

Fixpoint shutdown (clients : Manager) : result exn unit * Manager :=
  match clients with
  | [] => (Ok tt, [])
  | (i, c) :: rest =>
      match disconnect c with
      | Err e => (Err e, (i, c) :: rest)
      | Ok c => let '(r, rest) := shutdown rest in (r, (i, c) :: rest)
      end
  end.
End manager.

End Clients.

(** * Sealed text *)

Section sealed.
Context `{CryptoLaws, FloatText}.

Lemma decrypt_encrypt_text e text kek :
  entropy_ok e → aes_key kek → scalar text = true →
  ∃ sealed, encrypt_text e text kek = Ok sealed ∧ ∀ x, decrypt_text x sealed kek = Ok text.
Proof.
  intros (Hd&Hdl&Hn&Hnl) Hk Hs. unfold encrypt_text, decrypt_text.
  assert (utf8_encode text = Ok (text ≫= utf8_char)) as He by (unfold utf8_encode; by rewrite Hs).
  rewrite He. cbn [mbind result_bind].
  destruct (envelope_spec (dek e) (nonce e) (text ≫= utf8_char) kek) as (payload&Hp&_&Hr);
    [done..|by eapply utf8_encode_bytes|].
  exists payload. split; [done|]. intros x. rewrite Hr. cbn [mbind result_bind].
  by rewrite (proj2 (utf8_decode_strict_spec _ _) He).
Qed.

(** ** Credentials *)

Lemma with_phone_spec phone db i :
  i ∈ AccountStorage.with_phone phone db ↔
  ∃ a, accounts db !! i = Some a ∧ ac_phone_number a = Some phone.
Proof.
  unfold AccountStorage.with_phone. rewrite elem_of_sorted_ids, elem_of_ids_where.
  by setoid_rewrite bool_decide_eq_true.
Qed.

(** No two accounts share a phone number. *)
Definition phones_unique (db : Db) : Prop :=
  ∀ phone i j, i ∈ AccountStorage.with_phone phone db → j ∈ AccountStorage.with_phone phone db → i = j.

Lemma with_phone_unique phone db :
  phones_unique db → AccountStorage.with_phone phone db = [] ∨
  ∃ i, AccountStorage.with_phone phone db = [i].
Proof.
  intros Hu. pose proof (NoDup_sorted_ids (ids_where (λ a, bool_decide (ac_phone_number a = Some phone))
    (accounts db))) as Hn. change (sorted_ids _) with (AccountStorage.with_phone phone db) in Hn.
  specialize (Hu phone). destruct (AccountStorage.with_phone phone db) as [|i [|j l] ]; [by left|eauto|].
  apply NoDup_cons in Hn as [Hi _]. destruct Hi. rewrite (Hu i j) by (set_solver). by left.
Qed.

(** What [upsert_account] does: the one row of the phone number gets the credentials, or a
    new row does. *)
Lemma upsert_spec e api_id hash phone kek db :
  entropy_ok e → aes_key kek → scalar hash = true → bindable api_id = true →
  match AccountStorage.upsert_account e api_id hash phone kek db with
  | (Ok i, db') =>
      ∃ sealed, (∀ x, decrypt_text x sealed kek = Ok hash) ∧
      ((∃ p a, phone = Some p ∧ AccountStorage.with_phone p db = [i] ∧ accounts db !! i = Some a ∧
          db' = set_accounts (<[i := AccountStorage.set_credentials api_id sealed a]> (accounts db)) db) ∨
       accounts db !! i = None ∧ (∀ p, phone = Some p → AccountStorage.with_phone p db = []) ∧
          db' = set_accounts (<[i := MkAccount api_id sealed phone None 1 None None]> (accounts db)) db)
  | (Err x, db') =>
      x = AccountStorage.MultipleResultsFound ∧ db' = db ∧
      ∃ p, phone = Some p ∧ (2 <= length (AccountStorage.with_phone p db))%nat
  end.
Proof.
  intros He Hk Hs Hb. destruct (decrypt_encrypt_text e hash kek He Hk Hs) as (sealed&Hsealed&Hopen).
  unfold AccountStorage.upsert_account, AccountStorage.insert_account. rewrite Hsealed, Hb.
  assert (accounts db !! next_id (accounts db) = None) as Hfresh by apply next_id_fresh.
  destruct phone as [p|]; [|exists sealed; split; [done|]; right; split_and!; [done..|by intros]].
  destruct (AccountStorage.with_phone p db) as [|i [|j l] ] eqn:Ep.
  - exists sealed. split; [done|]. right. split_and!; [done|by intros ? [= <-]|done].
  - exists sealed. split; [done|]. left.
    assert (i ∈ AccountStorage.with_phone p db) as (a&Ha&_)%with_phone_spec by (rewrite Ep; by left).
    exists p, a. split_and!; [done..|]. f_equal. apply map_eq. intros j.
    destruct (decide (i = j)) as [<-|]; [by rewrite lookup_alter_eq, lookup_insert_eq, Ha|].
    by rewrite lookup_alter_ne, lookup_insert_ne.
  - split_and!; [done..|]. exists p. split; [done|]. rewrite Ep. cbn. lia.
Qed.

Lemma encrypt_text_Ok e text kek sealed :
  entropy_ok e → aes_key kek → encrypt_text e text kek = Ok sealed →
  ∀ x, decrypt_text x sealed kek = Ok text.
Proof.
  intros He Hk Hs. assert (scalar text = true) as Ht.
  { unfold encrypt_text, utf8_encode in Hs. by destruct (scalar text). }
  destruct (decrypt_encrypt_text e text kek He Hk Ht) as (sealed'&Hs'&Hopen).
  rewrite Hs in Hs'. by injection Hs' as ->.
Qed.

(** The row a successful [upsert_account] leaves. *)
Lemma upsert_Ok e api_id hash phone kek db :
  entropy_ok e → aes_key kek → ∀ i db',
  AccountStorage.upsert_account e api_id hash phone kek db = (Ok i, db') →
  ∃ a sealed, accounts db' !! i = Some a ∧ ac_phone_number a = phone ∧ ac_api_id a = api_id ∧
    ac_api_hash_encrypted a = sealed ∧ (∀ x, decrypt_text x sealed kek = Ok hash) ∧
    settings db' = settings db.
Proof.
  intros He Hk i db'. unfold AccountStorage.upsert_account.
  destruct (encrypt_text e hash kek) as [sealed|] eqn:Es; [|done].
  pose proof (encrypt_text_Ok e hash kek sealed He Hk Es) as Hopen.
  destruct (bindable api_id); [|done]. unfold AccountStorage.insert_account.
  destruct phone as [p|].
  - destruct (AccountStorage.with_phone p db) as [|j [|k l] ] eqn:Ep; [..|done]; intros [= <- <-].
    + do 2 eexists. cbn [accounts set_accounts settings]. rewrite lookup_insert_eq. by split_and!.
    + assert (j ∈ AccountStorage.with_phone p db) as (a&Ha&Hp)%with_phone_spec by (rewrite Ep; by left).
      exists (AccountStorage.set_credentials api_id sealed a), sealed.
      cbn [accounts set_accounts settings]. rewrite lookup_alter_eq, Ha. by split_and!.
  - intros [= <- <-]. do 2 eexists. cbn [accounts set_accounts settings].
    rewrite lookup_insert_eq. by split_and!.
Qed.

(** ** Rows and what they open to *)

Definition opens (kek : list Z) (a : Account) (hash : pystr) (session : option pystr) : Prop :=
  (∀ x, decrypt_text x (ac_api_hash_encrypted a) kek = Ok hash) ∧
  match ac_session_encrypted a, session with
  | None, None => True
  | Some sealed, Some text => ∀ x, decrypt_text x sealed kek = Ok text
  | _, _ => False
  end.

(** The client account of a row. *)
Definition client_account (kek : list Z) (row : Z * Account) (c : Clients.TelegramAccount) : Prop :=
  Clients.account_id c = row.1 ∧ Clients.api_id c = ac_api_id row.2 ∧
  opens kek row.2 (Clients.api_hash c) (Clients.string_session c).

Lemma decrypt_text_Ok payload kek text x y :
  decrypt_text x payload kek = Ok text → decrypt_text y payload kek = Ok text.
Proof.
  unfold decrypt_text. destruct (Envelope.decrypt_with_envelope payload kek); [|done].
  cbn [mbind result_bind]. by destruct (utf8_decode_strict _).
Qed.

Lemma elem_of_account_rows db i a :
  (i, a) ∈ AccountStorage.account_rows db ↔ accounts db !! i = Some a.
Proof.
  unfold AccountStorage.account_rows. rewrite list_elem_of_omap. split.
  - intros (j&_&Hj). destruct (accounts db !! j) as [b|] eqn:Eb; [|done]. by injection Hj as -> ->.
  - intros Ha. exists i. rewrite elem_of_sorted_ids, elem_of_dom, Ha. by split; [eexists|].
Qed.

Lemma decode_account_row kek i a r :
  AccountStorage._decode_account_row kek i a = Ok r ↔
  AccountStorage.account_id r = i ∧ AccountStorage.api_id r = ac_api_id a ∧
  AccountStorage.phone_number r = ac_phone_number a ∧
  ∀ x, decrypt_text x (ac_api_hash_encrypted a) kek = Ok (AccountStorage.api_hash r).
Proof.
  unfold AccountStorage._decode_account_row. split.
  - destruct (decrypt_text _ _ _) as [h|] eqn:Eh; cbn [mbind result_bind]; [|done].
    intros [= <-]. split_and!; [done..|]. intros x. by eapply decrypt_text_Ok.
  - destruct r as [i' n h p]. cbn. intros (->&->&->&Hh). by rewrite Hh.
Qed.

Lemma load_session_spec kek i a db o :
  accounts db !! i = Some a →
  SessionStorage.load_session i kek db = Ok o ↔
  match ac_session_encrypted a, o with
  | None, None => True
  | Some sealed, Some text => ∀ x, decrypt_text x sealed kek = Ok text
  | _, _ => False
  end.
Proof.
  intros Ha. unfold SessionStorage.load_session. rewrite Ha.
  destruct (ac_session_encrypted a) as [sealed|]; [|destruct o; naive_solver].
  split.
  - destruct (decrypt_text _ _ _) as [t|] eqn:Et; [|done]. intros [= <-] x. by eapply decrypt_text_Ok.
  - destruct o as [t|]; [|done]. intros Ht. by rewrite Ht.
Qed.

(** The account loader gives one account per row, in id order, with the API hash and the
    session its two columns open to; it fails when a column of any row does not open. *)
Theorem load_accounts_exact kek db l :
  Clients.load_accounts kek db = Ok l ↔
  Forall2 (client_account kek) (AccountStorage.account_rows db) l.
Proof.
  unfold Clients.load_accounts, AccountStorage.list_accounts.
  transitivity (Forall2 (λ row c, ∃ r,
    AccountStorage._decode_account_row kek row.1 row.2 = Ok r ∧
    (session ← SessionStorage.load_session (AccountStorage.account_id r) kek db;
     mret (Clients.MkTelegramAccount (AccountStorage.account_id r) (AccountStorage.api_id r)
             (AccountStorage.api_hash r) session)) = Ok c) (AccountStorage.account_rows db) l).
  { rewrite <-Forall2_compose. split.
    - intros (recs&Hr&Hl)%bind_Ok_inv. exists recs. by rewrite <-!traverse_Ok.
    - intros (recs&Hr%traverse_Ok&Hl%traverse_Ok). by rewrite Hr. }
  apply Forall2_iff_on. intros [i a] [ci capi chash csession] Ha%elem_of_account_rows.
  unfold client_account, opens. cbn [fst snd Clients.account_id Clients.api_id Clients.api_hash
    Clients.string_session]. split.
  - intros (r&(<-&Hapi&_&Hh)%decode_account_row&Hc). apply bind_Ok_inv in Hc as (o&Ho&[= <- <- <- <-]).
    by apply (load_session_spec _ _ _ _ _ Ha) in Ho.
  - intros (->&->&Hh&Ho%(load_session_spec _ _ _ _ _ Ha)).
    exists (AccountStorage.MkRecord i (ac_api_id a) chash (ac_phone_number a)).
    split; [by apply decode_account_row|]. cbn [AccountStorage.account_id]. by rewrite Ho.
Qed.

End sealed.

(** * The client manager *)
Section manager.
Context {C : Type} (client_factory : Clients.TelegramAccount → result exn C)
  (is_connected : C → bool) (connect : C → result exn C).

Lemma client_of_None i (clients : list (Z * C)) :
  Clients.client_of i clients = None ↔ i ∉ clients.*1.
Proof.
  induction clients as [|[j c] clients IH]; cbn; [by split; [intros _ ?%elem_of_nil|]|].
  rewrite not_elem_of_cons. destruct (Z.eqb_spec j i); [naive_solver|]. naive_solver.
Qed.

(** One client is registered per new account id, in the order of the accounts. *)
Lemma register_all_spec l clients :
  NoDup clients.*1 →
  let '(r, clients') := Clients.register_all client_factory l clients in
  NoDup clients'.*1 ∧ (∃ new, clients' = clients ++ new ∧
    Forall (λ ic, ∃ a, a ∈ l ∧ Clients.account_id a = ic.1 ∧ client_factory a = Ok ic.2) new) ∧
  (r = Ok tt → ∀ a, a ∈ l → Clients.account_id a ∈ clients'.*1).
Proof.
  revert clients. induction l as [|a l IH]; intros clients Hn; cbn [Clients.register_all].
  { split_and!; [done|exists []; by rewrite app_nil_r|by intros _ ? ?%elem_of_nil]. }
  unfold Clients._register_account.
  destruct (Clients.client_of (Clients.account_id a) clients) as [c|] eqn:Ec.
  - specialize (IH clients Hn). destruct (Clients.register_all _ l clients) as [r clients'].
    destruct IH as (Hn'&(new&->&Hnew)&Hr). split_and!; [done| |].
    + exists new. split; [done|]. eapply Forall_impl; [done|]. intros ic (b&Hb&?).
      exists b. split; [by right|done].
    + intros Hok b [->|Hb]%elem_of_cons; [|by apply Hr]. rewrite fmap_app, elem_of_app. left.
      destruct (decide (Clients.account_id a ∈ clients.*1)) as [|Hno]; [done|].
      apply client_of_None in Hno. congruence.
  - apply client_of_None in Ec. destruct (client_factory a) as [c|e] eqn:Ef.
    + assert (NoDup (clients ++ [(Clients.account_id a, c)]).*1) as Hn1.
      { rewrite fmap_app. apply NoDup_app. split_and!; [done| |by apply NoDup_singleton].
        by intros i Hi ->%list_elem_of_singleton. }
      specialize (IH _ Hn1). destruct (Clients.register_all _ l _) as [r clients'].
      destruct IH as (Hn'&(new&->&Hnew)&Hr). split_and!; [done| |].
      * exists ((Clients.account_id a, c) :: new). rewrite <-app_assoc. split; [done|].
        constructor; [exists a; split; [by left|done]|]. eapply Forall_impl; [done|].
        intros ic (b&Hb&?). exists b. split; [by right|done].
      * intros Hok b [->|Hb]%elem_of_cons; [|by apply Hr].
        rewrite !fmap_app, !elem_of_app. left. right. by left.
    + split_and!; [done|exists []; by rewrite app_nil_r|done].
Qed.

Lemma connect_all_spec clients :
  (∀ c c', connect c = Ok c' → is_connected c' = true) →
  let '(r, clients') := Clients.connect_all is_connected connect clients in
  clients'.*1 = clients.*1 ∧
  Forall2 (λ ic ic', ic.1 = ic'.1 ∧ (ic.2 = ic'.2 ∨ is_connected ic.2 = false ∧ connect ic.2 = Ok ic'.2))
    clients clients' ∧
  (r = Ok tt → Forall (λ ic, is_connected ic.2 = true) clients').
Proof.
  intros Hc. induction clients as [|[i c] clients IH]; cbn [Clients.connect_all].
  { split_and!; [done|constructor|by constructor]. }
  destruct (if is_connected c then Ok c else connect c) as [c'|e] eqn:Ec.
  - destruct (Clients.connect_all is_connected connect clients) as [r clients'].
    destruct IH as (Hk&Hf&Hr). split_and!; [by rewrite !fmap_cons, Hk| |].
    + constructor; [|done]. split; [done|]. cbn [snd].
      destruct (is_connected c); [injection Ec as ->; by left|by right].
    + intros Hok. constructor; [|by apply Hr]. cbn [snd].
      destruct (is_connected c) eqn:Eic; [by injection Ec as <-|by eapply Hc].
  - split_and!; [done| |done]. constructor; [by split; [|left]|].
    clear IH. induction clients; constructor; [by split; [|left]|done].
Qed.

(** Startup registers one client per loaded account, keeps the clients it has, and when
    it succeeds every account has a client and every client is connected. Whatever the
    outcome, no account has two clients and a client the manager had stays first in line. *)
Theorem manager_startup loaded clients :
  (∀ c c', connect c = Ok c' → is_connected c' = true) → NoDup clients.*1 →
  let '(r, clients') := Clients.startup client_factory is_connected connect loaded clients in
  NoDup clients'.*1 ∧ (∃ new, clients'.*1 = clients.*1 ++ new) ∧
  (r = Ok tt → ∃ l, loaded = Ok l ∧
     (∀ i, i ∈ clients'.*1 ↔ i ∈ clients.*1 ∨ i ∈ Clients.account_id <$> l) ∧
     Forall (λ ic, is_connected ic.2 = true) clients').
Proof.
  intros Hc Hn. unfold Clients.startup.
  destruct loaded as [l|e]; [|split_and!; [done|exists []; by rewrite app_nil_r|done] ].
  pose proof (register_all_spec l clients Hn) as Hreg.
  destruct (Clients.register_all client_factory l clients) as [ [ []|e] clients1];
    destruct Hreg as (Hn1&(new&->&Hnew)&Hin).
  - pose proof (connect_all_spec (clients ++ new) Hc) as Hcon.
    destruct (Clients.connect_all _ _ _) as [r clients2]. destruct Hcon as (Hk&_&Hr).
    rewrite Hk. split_and!; [done|exists new.*1; by rewrite fmap_app|].
    intros Hok. exists l. split_and!; [done| |by apply Hr]. intros i.
    rewrite fmap_app, elem_of_app. split.
    + intros [?|(ic&->&Hic)%list_elem_of_fmap]; [by left|]. right.
      rewrite Forall_forall in Hnew. destruct (Hnew ic Hic) as (a&Ha&<-&_).
      apply list_elem_of_fmap. by exists a.
    + intros [?|(a&->&Ha)%list_elem_of_fmap]; [by left|]. rewrite <-elem_of_app, <-fmap_app.
      by apply Hin.
  - split_and!; [done|exists new.*1; by rewrite fmap_app|done].
Qed.
End manager.

(** ** Instance: a client is its connection flag *)
Lemma manager_startup_witness :
  let account := Clients.MkTelegramAccount 2 5 (u "hash") None in
  let '(r, clients) := Clients.startup (λ _, Ok false) id (λ _, Ok true) (Ok [account]) [(1, true)] in
  r = Ok tt ∧ clients = [(1, true); (2, true)] ∧ NoDup clients.*1.
Proof.
  cbv zeta.
  pose proof (manager_startup (λ _, Ok false) id (λ _, Ok true)
    (Ok [Clients.MkTelegramAccount 2 5 (u "hash") None]) [(1, true)]) as H.
  assert (∀ c c' : bool, Ok (E:=exn) true = Ok c' → id c' = true) as Hc by (intros _ ? [= <-]; reflexivity).
  assert (NoDup [(1, true)].*1) as Hn by (apply NoDup_singleton).
  specialize (H Hc Hn). vm_compute in H |- *.
  destruct H as (H&_). split; [reflexivity|]. split; [reflexivity|]. exact H.
Defined.
