(* ===== verification/Clusters.v ===== *)
(** Dedupe clusters: membership assignment, cluster merges and the election of a
    cluster's representative item (src/tca/storage/dedupe_clusters_repo.py; the
    election statement also runs in prune_job.py and channels_repo.py). *)

From S2P Require Import Prelude PyValue PyTime Schema.
Local Open Scope Z_scope.

Module Clusters.

(** * Representative election *)

(** The item ids of a cluster, from [dedupe_members]. *)
Definition member_items (db : Db) (c : Z) : gset Z :=
  set_map snd (filter (λ m : Z * Z, m.1 = c) (members db)).

(** The rows the [ranked] expression joins for one cluster. *)
Definition member_rows (db : Db) (c : Z) : list (Z * Item) :=
  omap (λ i, (λ x, (i, x)) <$> items db !! i) (sorted_ids (member_items db c)).

(** [CASE WHEN COALESCE(canonical_url, '') != '' THEN 0 ELSE 1 END] *)
Definition url_rank (x : Item) : Z := if opt_str_truthy (it_canonical_url x) then 0 else 1.
(** [COALESCE(LENGTH(title), 0) + COALESCE(LENGTH(body), 0)] *)
Definition text_length (x : Item) : Z :=
  default 0 (sql_length <$> it_title x) + default 0 (sql_length <$> it_body x).
(** [CASE WHEN published_at IS NULL THEN 1 ELSE 0 END] *)
Definition null_rank (x : Item) : Z :=
  match it_published_at x with None => 1 | Some _ => 0 end.
(** SQLite orders NULL before every text value. *)
Definition published_key (x : Item) : pystr := default [] (it_published_at x).

(** The window's [ORDER BY]. *)
Definition rank_cmp : Z * Item → Z * Item → comparison :=
  cmp_lex (cmp_on (λ r, url_rank r.2) Z.compare)
  (cmp_lex (cmp_desc (cmp_on (λ r, text_length r.2) Z.compare))
  (cmp_lex (cmp_on (λ r, null_rank r.2) Z.compare)
  (cmp_lex (cmp_on (λ r, published_key r.2) text_cmp)
    (cmp_on fst Z.compare)))).

(** [SELECT item_id FROM ranked WHERE cluster_id = c AND row_rank = 1] *)
Definition elect (db : Db) (c : Z) : option Z := fst <$> min_by rank_cmp (member_rows db c).

(** [UPDATE dedupe_clusters SET representative_item_id = (...) WHERE id IN ids] *)
Definition recompute_representatives (ids : gset Z) (db : Db) : Db :=
  set_clusters
    (map_imap (λ c row, Some (if decide (c ∈ ids)
                              then MkCluster (cl_key row) (elect db c) else row))
       (clusters db)) db.

(** The clusters of [ids] that [DELETE FROM dedupe_clusters WHERE id IN ids AND NOT
    EXISTS (SELECT 1 FROM dedupe_members ...)] deletes. *)
Definition emptied_clusters (ids : gset Z) (db : Db) : gset Z :=
  filter (λ c, is_Some (clusters db !! c) ∧ member_items db c = ∅) ids.

(** Both statements, as the hard-delete flows run them. *)
Definition refresh (ids : gset Z) (db : Db) : Db :=
  delete_clusters (emptied_clusters ids (recompute_representatives ids db))
    (recompute_representatives ids db).

Strategy 800 [recompute_representatives emptied_clusters refresh].

(** * Assignment *)

Record ClusterAssignmentResult := MkAssignment {
  cluster_id : Z;
  created_cluster : bool;
  created_membership : bool;
}.

(** [uuid] is the value of [str(uuid4())]. *)
Definition assign_item_to_cluster (uuid : pystr) (item_id : Z)
    (matched_cluster_id : option Z) (db : Db) : result exn ClusterAssignmentResult * Db :=
  atomically db
    ('(cid, created, db) ←
       match matched_cluster_id with
       | None => '(cid, db) ← insert_cluster uuid (Some item_id) db; mret (cid, true, db)
       | Some cid => mret (cid, false, db)
       end;
     '(row, db) ← insert_member cid item_id db;
     mret (MkAssignment cid created (bool_decide (is_Some row)), db)).

(** What an assignment does to the member sets. *)
Definition assign_spec (c item : Z) (P : gmap Z (gset Z)) : gmap Z (gset Z) :=
  <[c := {[item]} ∪ default ∅ (P !! c)]> P.

(** * Merge *)

Record ClusterMergeResult := MkMerge {
  target_cluster_id : Z;
  source_cluster_ids : list Z;
  moved_member_count : Z;
  removed_cluster_count : Z;
  recorded_event : bool;
}.

Definition MIN_MERGE_CLUSTER_COUNT : nat := 2.

(** The [list[int]] argument holds integers, for which [_coerce_int] is the
    identity; a set of integers, sorted. *)
Definition _normalize_cluster_ids (matched : list Z) : list Z :=
  sorted_ids (list_to_set matched).

(** [INSERT INTO dedupe_members SELECT target, item_id ... WHERE cluster_id IN
    sources ON CONFLICT DO NOTHING] *)
Definition move_members (target : Z) (sources : gset Z) (db : Db) : result exn Db :=
  let moved := filter (λ m : Z * Z, m.1 ∈ sources) (members db) in
  let rows : gset (Z * Z) := set_map (λ m : Z * Z, (target, m.2)) moved in
  if decide (set_Forall (λ m : Z * Z,
       is_Some (clusters db !! m.1) ∧ is_Some (items db !! m.2)) rows)
  then Ok (set_members (rows ∪ members db) db)
  else Err (IntegrityError ForeignKeyFailed).

(** The parameter of [metadata_json], keys sorted. *)
Definition merge_metadata (target : Z) (sources : list Z) : JSONValue :=
  JDict [(u "source_cluster_ids", JList (JInt <$> sources));
         (u "target_cluster_id", JInt target)].

Definition merge_event (now : pystr) (item target : Z) (sources : list Z) : DecisionRow :=
  MkDecision item (Some target) None (u "cluster_merge") (u "DUPLICATE")
    (Some (u "cluster_merge")) None (Some (merge_metadata target sources)) now.

(** The item the merge event is recorded on: the representative, or else the
    member of the smallest id. *)
Definition event_item (target : Z) (db : Db) : option Z :=
  match clusters db !! target ≫= cl_representative with
  | Some i => Some i
  | None => head (sorted_ids (member_items db target))
  end.

Definition merge_body (now : pystr) (target : Z) (sources : list Z) (db : Db)
    : result exn (ClusterMergeResult * Db) :=
  let src : gset Z := list_to_set sources in
  match clusters db !! target with
  | None => Err (ValueError "target cluster does not exist")
  | Some _ =>
      let moved := Z.of_nat (size (filter (λ m : Z * Z, m.1 ∈ src) (members db))) in
      let removed := Z.of_nat (size (filter (λ c, is_Some (clusters db !! c)) src)) in
      if Z.eqb moved 0 && Z.eqb removed 0
      then Ok (MkMerge target sources 0 0 false, db)
      else
        db ← move_members target src db;
        let db := delete_clusters src db in
        let db := recompute_representatives {[target]} db in
        match event_item target db with
        | None => Err (ValueError "cannot record merge event without target cluster item")
        | Some item =>
            '(_, db) ← insert_decision (merge_event now item target sources) db;
            Ok (MkMerge target sources moved removed true, db)
        end
  end.

(** [now] is the [created_at] default of the event row. *)
Definition merge_clusters (now : pystr) (matched : list Z) (db : Db)
    : result exn ClusterMergeResult * Db :=
  match _normalize_cluster_ids matched with
  | target :: source :: rest => atomically db (merge_body now target (source :: rest) db)
  | _ => (Err (ValueError "need at least two clusters to merge"), db)
  end.

(** * What the component promises

    The abstract state is the family of member sets of the existing clusters. *)

Definition partition (db : Db) : gmap Z (gset Z) :=
  map_imap (λ c _, Some (member_items db c)) (clusters db).

Definition union_of (ids : list Z) (P : gmap Z (gset Z)) : gset Z :=
  ⋃ ((λ c, default ∅ (P !! c)) <$> ids).

Definition merge_spec (target : Z) (sources : list Z) (P : gmap Z (gset Z))
    : gmap Z (gset Z) :=
  <[target := union_of (target :: sources) P]> (drop_ids (list_to_set sources) P).

(** The outcome of a merge, from the abstract state and the distinct ids in order. *)
Definition merge_outcome (ids : list Z) (P : gmap Z (gset Z))
    : result exn ClusterMergeResult :=
  match ids with
  | target :: source :: rest =>
      let sources := source :: rest in
      let existing := filter (λ c, is_Some (P !! c)) sources in
      match P !! target with
      | None => Err (ValueError "target cluster does not exist")
      | Some _ =>
          if decide (existing = []) then Ok (MkMerge target sources 0 0 false)
          else if decide (union_of ids P = ∅)
          then Err (ValueError "cannot record merge event without target cluster item")
          else Ok (MkMerge target sources
                     (foldr Z.add 0 ((λ c, Z.of_nat (size (default ∅ (P !! c)))) <$> sources))
                     (Z.of_nat (length existing)) true)
      end
  | _ => Err (ValueError "need at least two clusters to merge")
  end.

(** The election order, read off the design: a row with a URL beats one without;
    then the longer text; then a known publication time, the earlier one; then the
    smaller id. *)
Inductive outranks : Z * Item → Z * Item → Prop :=
  | by_url r s : url_rank r.2 < url_rank s.2 → outranks r s
  | by_length r s :
      url_rank r.2 = url_rank s.2 → text_length s.2 < text_length r.2 → outranks r s
  | by_known r s :
      url_rank r.2 = url_rank s.2 → text_length s.2 = text_length r.2 →
      null_rank r.2 < null_rank s.2 → outranks r s
  | by_time r s :
      url_rank r.2 = url_rank s.2 → text_length s.2 = text_length r.2 →
      null_rank r.2 = null_rank s.2 →
      text_ltb (published_key r.2) (published_key s.2) = true → outranks r s
  | by_id r s :
      url_rank r.2 = url_rank s.2 → text_length s.2 = text_length r.2 →
      null_rank r.2 = null_rank s.2 → published_key r.2 = published_key s.2 →
      r.1 < s.1 → outranks r s.

(** * Lemmas *)

#[export] Instance rank_cmp_good : GoodCmp rank_cmp.
Proof. unfold rank_cmp. apply _. Qed.

Lemma rank_cmp_outranks r s : rank_cmp r s = Lt ↔ outranks r s.
Proof.
  unfold rank_cmp, cmp_lex, cmp_on, cmp_desc. split.
  - destruct (Z.compare_spec (url_rank r.2) (url_rank s.2)) as [E1|E1|E1];
      [|by intros; apply by_url|done].
    destruct (Z.compare_spec (text_length s.2) (text_length r.2)) as [E2|E2|E2];
      [|by intros; apply by_length|done].
    destruct (Z.compare_spec (null_rank r.2) (null_rank s.2)) as [E3|E3|E3];
      [|by intros; apply by_known|done].
    destruct (text_cmp (published_key r.2) (published_key s.2)) eqn:E4; [| |done].
    + intros E5%Z.compare_lt_iff. apply by_id; try done. by apply text_cmp_eq.
    + intros _. apply by_time; try done. unfold text_ltb. by rewrite E4.
  - destruct 1 as [r s E|r s -> E|r s -> -> E|r s -> -> -> E|r s -> -> -> -> E];
      rewrite ?Z.compare_refl, ?(cmp_refl text_cmp); try by rewrite (proj2 (Z.compare_lt_iff _ _) E).
    unfold text_ltb in E. by destruct (text_cmp _ _).
Qed.

Lemma elem_of_member_items db c i : i ∈ member_items db c ↔ (c, i) ∈ members db.
Proof.
  unfold member_items. rewrite elem_of_map. split.
  - intros ([c' i']&->&[Hc H]%elem_of_filter). simpl in *. by subst.
  - intros H. exists (c, i). split; [done|]. by apply elem_of_filter.
Qed.

Lemma elem_of_member_rows db c i x :
  (i, x) ∈ member_rows db c ↔ (c, i) ∈ members db ∧ items db !! i = Some x.
Proof.
  unfold member_rows. rewrite list_elem_of_omap.
  setoid_rewrite elem_of_sorted_ids. setoid_rewrite elem_of_member_items. split.
  - intros (j&Hj&E). destruct (items db !! j) eqn:Ej; simpl in E; by inv_ok.
  - intros [Hi E]. exists i. by rewrite E.
Qed.

Lemma rank_cmp_eq db c r s :
  r ∈ member_rows db c → s ∈ member_rows db c → rank_cmp r s = Eq → r = s.
Proof.
  destruct r as [i x], s as [j y]. rewrite !elem_of_member_rows. intros [_ Hi] [_ Hj] E.
  assert (i = j) as ->; [|congruence].
  unfold rank_cmp, cmp_lex, cmp_on, cmp_desc in E. simpl in E.
  repeat case_match; try done. by apply Z.compare_eq.
Qed.

Lemma elect_Some db c i :
  elect db c = Some i ↔
  ∃ x, (i, x) ∈ member_rows db c ∧
       ∀ s, s ∈ member_rows db c → s ≠ (i, x) → outranks (i, x) s.
Proof.
  unfold elect. rewrite fmap_Some. split.
  - intros ([j x]&E&->). exists x. split; [by apply min_by_elem in E|].
    intros s Hs Hne. apply rank_cmp_outranks.
    pose proof (min_by_least _ _ _ _ E Hs) as Hl.
    destruct (rank_cmp (j, x) s) eqn:Ec; [|done|by apply cmp_gt_lt in Ec; [|apply _]].
    apply min_by_elem in E. destruct Hne. symmetry. by eapply rank_cmp_eq.
  - intros (x&Hi&Hb). exists (i, x). split; [|done]. apply min_by_unique; [apply _| |done|].
    + intros r s. apply rank_cmp_eq.
    + intros [j y] Hs E. destruct (decide (j = i)) as [->|Hne].
      * apply elem_of_member_rows in Hs as [_ Hy], Hi as [_ Hx].
        rewrite Hx in Hy. injection Hy as <-. by rewrite (cmp_refl rank_cmp) in E.
      * assert (rank_cmp (i, x) (j, y) = Lt) as E'
          by (apply rank_cmp_outranks, Hb; [done|congruence]).
        pose proof (cmp_lt_trans rank_cmp _ _ _ E E') as H. by rewrite (cmp_refl rank_cmp) in H.
Qed.

Lemma lookup_recompute ids db c :
  clusters (recompute_representatives ids db) !! c =
  (λ row, if decide (c ∈ ids) then MkCluster (cl_key row) (elect db c) else row)
    <$> clusters db !! c.
Proof. simpl. rewrite map_lookup_imap. by destruct (clusters db !! c). Qed.

Lemma is_Some_recompute ids db c :
  is_Some (clusters (recompute_representatives ids db) !! c) ↔ is_Some (clusters db !! c).
Proof. rewrite lookup_recompute. apply fmap_is_Some. Qed.

(** The election reads the cluster's memberships and the items, nothing else. *)
Lemma elect_ext db db' c :
  (∀ i, (c, i) ∈ members db ↔ (c, i) ∈ members db') → items db = items db' →
  elect db c = elect db' c.
Proof.
  intros Hm Hi. unfold elect, member_rows. rewrite Hi.
  assert (member_items db c = member_items db' c) as ->; [|done].
  apply set_eq. intros i. by rewrite !elem_of_member_items.
Qed.

Lemma elect_is_item db c i : elect db c = Some i → is_Some (items db !! i).
Proof. intros (x&Hx&_)%elect_Some. apply elem_of_member_rows in Hx as [_ ?]. by eexists. Qed.

Lemma recompute_wf ids db : wf_db db → wf_db (recompute_representatives ids db).
Proof.
  intros W. apply (set_clusters_wf (clusters (recompute_representatives ids db)) db W).
  - intros c. apply is_Some_recompute.
  - intros c row. rewrite lookup_recompute, fmap_Some. intros (row0&H&->).
    exists row0. case_decide; [|eauto using fk_clusters_representative].
    split_and!; [done..|]. intros i Hi. by eapply elect_is_item.
Qed.

Lemma lookup_partition db c :
  partition db !! c =
  if decide (is_Some (clusters db !! c)) then Some (member_items db c) else None.
Proof.
  unfold partition. rewrite map_lookup_imap.
  case_decide as H; [by destruct H as [row ->]|].
  by apply eq_None_not_Some in H as ->.
Qed.

Lemma partition_ext db db' :
  (∀ c, is_Some (clusters db !! c) ↔ is_Some (clusters db' !! c)) →
  (∀ c, is_Some (clusters db !! c) → member_items db c = member_items db' c) →
  partition db = partition db'.
Proof.
  intros Hc Hm. apply map_eq. intros c. rewrite !lookup_partition.
  do 2 case_decide; try naive_solver. by rewrite Hm.
Qed.

Lemma partition_add_member c i db db' :
  (∀ d, is_Some (clusters db' !! d) ↔ d = c ∨ is_Some (clusters db !! d)) →
  members db' = {[(c, i)]} ∪ members db →
  is_Some (clusters db !! c) ∨ (∀ j, (c, j) ∉ members db) →
  partition db' = assign_spec c i (partition db).
Proof.
  intros Hc Hm Hor. apply map_eq. intros d. unfold assign_spec.
  destruct (decide (d = c)) as [->|Hne].
  - rewrite lookup_insert_eq, !lookup_partition, decide_True by (apply Hc; by left).
    f_equal. apply set_eq. intros j. rewrite elem_of_union, elem_of_singleton.
    rewrite elem_of_member_items, Hm, elem_of_union, elem_of_singleton. case_decide as Hd; simpl.
    + rewrite elem_of_member_items. naive_solver.
    + assert (∀ j, (c, j) ∉ members db) by (by destruct Hor). set_solver.
  - rewrite lookup_insert_ne by done. rewrite !lookup_partition.
    assert (member_items db' d = member_items db d) as ->
      by (apply set_eq; intros j; rewrite !elem_of_member_items, Hm; set_solver).
    specialize (Hc d). do 2 case_decide; naive_solver.
Qed.

(** The election in a cluster with one member. *)
Lemma elect_only db c i x :
  (∀ j, (c, j) ∈ members db ↔ j = i) → items db !! i = Some x → elect db c = Some i.
Proof.
  intros Hm Hx. apply elect_Some. exists x. split.
  - apply elem_of_member_rows. by rewrite Hm.
  - intros [j y] [Hj Hy]%elem_of_member_rows Hne. apply Hm in Hj as ->. congruence.
Qed.

Lemma elem_of_union_of i ids db :
  wf_db db →
  i ∈ union_of ids (partition db) ↔ ∃ c, c ∈ ids ∧ (c, i) ∈ members db.
Proof.
  intros W. unfold union_of. rewrite elem_of_union_list. split.
  - intros (X&HX&Hi). apply list_elem_of_fmap in HX as (c&->&Hc).
    rewrite lookup_partition in Hi. exists c. split; [done|].
    case_decide; simpl in Hi; [|set_solver]. by apply elem_of_member_items.
  - intros (c&Hc&Hi). exists (member_items db c). split; [|by apply elem_of_member_items].
    apply list_elem_of_fmap. exists c. split; [|done]. rewrite lookup_partition.
    destruct (fk_members _ W _ _ Hi) as [? _]. by rewrite decide_True.
Qed.

Lemma move_members_Ok target sources db db' :
  move_members target sources db = Ok db' →
  db' = set_members (members db') db ∧
  (∀ c i, (c, i) ∈ members db' ↔
     (c, i) ∈ members db ∨ c = target ∧ ∃ s, s ∈ sources ∧ (s, i) ∈ members db) ∧
  (wf_db db → wf_db db').
Proof.
  unfold move_members. case_decide as HF; [|done]. intros [= <-]. simpl.
  assert (∀ c i, (c, i) ∈ set_map (D := gset (Z * Z)) (λ m : Z * Z, (target, m.2))
      (filter (λ m : Z * Z, m.1 ∈ sources) (members db)) ↔
     c = target ∧ ∃ s, s ∈ sources ∧ (s, i) ∈ members db) as Hr.
  { intros c i. rewrite elem_of_map. split.
    - intros ([s i']&[= -> ->]&[Hs Hm]%elem_of_filter). eauto.
    - intros (->&s&Hs&Hm). exists (s, i). split; [done|]. by apply elem_of_filter. }
  split_and!; [done|intros c i; rewrite elem_of_union, Hr; tauto|].
  intros W. apply set_members_wf; [done|]. intros c i Hci.
  apply elem_of_union in Hci as [H|H]; [by apply HF in H|by eapply fk_members].
Qed.

Lemma move_members_total target sources db :
  wf_db db → is_Some (clusters db !! target) → is_ok (move_members target sources db) = true.
Proof.
  intros W Ht. unfold move_members. rewrite decide_True; [done|].
  intros [c i] H. apply elem_of_map in H as ([s j]&[= -> ->]&[_ Hm]%elem_of_filter).
  split; [done|]. by eapply fk_members.
Qed.

(** The statements between the counts and the event row. *)
Lemma merge_statements_partition target sources db db1 :
  wf_db db → is_Some (clusters db !! target) → target ∉ sources →
  move_members target (list_to_set sources) db = Ok db1 →
  partition (recompute_representatives {[target]} (delete_clusters (list_to_set sources) db1))
  = merge_spec target sources (partition db).
Proof.
  intros W Ht Hns Hm. apply move_members_Ok in Hm as (E&Hm&_).
  set (ids := list_to_set sources : gset Z) in *.
  assert (∀ c i, (c, i) ∈ filter (λ m : Z * Z, m.1 ∉ ids) (members db1) ↔
            c ∉ sources ∧ ((c, i) ∈ members db ∨
              c = target ∧ ∃ s, s ∈ sources ∧ (s, i) ∈ members db)) as Hf.
  { intros c i. rewrite elem_of_filter, Hm. unfold ids. simpl.
    by setoid_rewrite elem_of_list_to_set. }
  apply map_eq. intros c. rewrite lookup_partition. unfold merge_spec.
  assert (is_Some (clusters (recompute_representatives {[target]}
     (delete_clusters ids db1)) !! c) ↔ is_Some (clusters db !! c) ∧ c ∉ ids) as Hd.
  { rewrite is_Some_recompute. simpl. rewrite lookup_drop_ids, E. simpl.
    case_decide; rewrite <-?not_eq_None_Some; naive_solver. }
  assert (∀ i, i ∈ member_items (recompute_representatives {[target]}
     (delete_clusters ids db1)) c ↔ c ∉ sources ∧ ((c, i) ∈ members db ∨
              c = target ∧ ∃ s, s ∈ sources ∧ (s, i) ∈ members db)) as Hi.
  { intros i. rewrite elem_of_member_items. simpl. apply Hf. }
  rewrite lookup_insert. destruct (decide (target = c)) as [<-|Ec].
  - rewrite decide_True.
    2:{ apply Hd. split; [done|]. unfold ids. by rewrite elem_of_list_to_set. }
    f_equal. apply set_eq. intros i. rewrite Hi, elem_of_union_of by done.
    setoid_rewrite elem_of_cons. naive_solver.
  - rewrite lookup_drop_ids, lookup_partition. unfold ids in *.
    rewrite elem_of_list_to_set in Hd.
    destruct (decide (c ∈ sources)) as [Hin|Hin].
    + rewrite decide_False by tauto. rewrite decide_True; [done|].
      by rewrite elem_of_list_to_set.
    + rewrite (decide_False (P := c ∈ list_to_set sources)) by (by rewrite elem_of_list_to_set).
      destruct (decide (is_Some (clusters db !! c))) as [Hs|Hs];
        [rewrite decide_True by tauto|by rewrite decide_False by tauto].
      f_equal. apply set_eq. intros i. rewrite Hi, elem_of_member_items. naive_solver.
Qed.

Lemma size_member_items db c :
  size (filter (λ m : Z * Z, m.1 = c) (members db)) = size (member_items db c).
Proof.
  unfold member_items. rewrite size_set_map_inj; [done|].
  intros [a i] [b j] [? _]%elem_of_filter [? _]%elem_of_filter. simpl in *. by intros ->; subst.
Qed.

Lemma size_partition db c :
  wf_db db → size (default ∅ (partition db !! c)) = size (member_items db c).
Proof.
  intros W. rewrite lookup_partition. case_decide as E; [done|]. simpl.
  assert (member_items db c = ∅) as ->; [|done].
  apply set_eq. intros i. rewrite elem_of_member_items. split; [|set_solver].
  intros H. by destruct (fk_members _ W _ _ H).
Qed.

Lemma member_count ids db :
  wf_db db → NoDup ids →
  Z.of_nat (size (filter (λ m : Z * Z, m.1 ∈ (list_to_set ids : gset Z)) (members db))) =
  foldr Z.add 0 ((λ c, Z.of_nat (size (default ∅ (partition db !! c)))) <$> ids).
Proof.
  intros W. induction 1 as [|c ids Hc Hnd IH].
  - simpl. match goal with |- Z.of_nat (size ?X) = _ => assert (X = ∅) as ->; [|done] end.
    apply set_eq. intros m. rewrite elem_of_filter. set_solver.
  - rewrite fmap_cons. cbn [foldr]. rewrite <-IH, size_partition, <-size_member_items, <-Nat2Z.inj_add by done. f_equal.
    rewrite <-size_union.
    + f_equal. apply set_eq. intros m.
      rewrite elem_of_union, !elem_of_filter, list_to_set_cons. set_solver.
    + intros m [? _]%elem_of_filter [Hm _]%elem_of_filter. subst.
      by apply elem_of_list_to_set in Hm.
Qed.

Lemma cluster_count ids db :
  NoDup ids →
  Z.of_nat (size (filter (λ c, is_Some (clusters db !! c)) (list_to_set ids : gset Z))) =
  Z.of_nat (length (filter (λ c, is_Some (partition db !! c)) ids)).
Proof.
  intros Hnd. f_equal.
  assert (filter (λ c, is_Some (clusters db !! c)) (list_to_set ids : gset Z) =
    list_to_set (filter (λ c, is_Some (partition db !! c)) ids)) as ->.
  { apply set_eq. intros c.
    rewrite elem_of_filter, !elem_of_list_to_set, list_elem_of_filter, lookup_partition.
    case_decide; naive_solver. }
  apply size_list_to_set. by apply NoDup_filter.
Qed.

Lemma normalize_head ids target sources :
  _normalize_cluster_ids ids = target :: sources → NoDup sources ∧ target ∉ sources.
Proof.
  intros E. pose proof (NoDup_sorted_ids (list_to_set ids)) as H.
  unfold _normalize_cluster_ids in E. rewrite E in H. by apply NoDup_cons in H as [??].
Qed.

(** ** Deleting emptied clusters *)

Lemma delete_clusters_empty db : delete_clusters ∅ db = db.
Proof.
  apply db_eq; simpl; try done.
  - apply drop_ids_empty.
  - apply set_eq. intros m. rewrite elem_of_filter. set_solver.
  - apply fmap_same. intros []. unfold null_cluster. simpl. by rewrite null_if_empty.
  - apply map_filter_id. set_solver.
Qed.

(** Deleting the emptied clusters takes no membership with it. *)
Lemma members_delete_emptied ids db c i :
  (c, i) ∈ members (delete_clusters (emptied_clusters ids db) db) ↔ (c, i) ∈ members db.
Proof.
  simpl. rewrite elem_of_filter. simpl. split; [tauto|]. intros Hm. split; [|done].
  unfold emptied_clusters. rewrite elem_of_filter. intros [[_ E] _].
  assert (i ∈ (∅ : gset Z)) as H; [|set_solver]. rewrite <-E.
  by apply elem_of_member_items.
Qed.

Lemma is_Some_delete_emptied ids db c :
  is_Some (clusters (delete_clusters (emptied_clusters ids db) db) !! c) ↔
  is_Some (clusters db !! c) ∧ (c ∈ ids → ∃ i, (c, i) ∈ members db).
Proof.
  simpl. rewrite lookup_drop_ids. unfold emptied_clusters.
  case_decide as Hc; rewrite elem_of_filter in Hc.
  - destruct Hc as [[_ E] Hc]. rewrite is_Some_alt. split; [done|]. intros [_ H].
    destruct (H Hc) as [i Hi]. apply elem_of_member_items in Hi. set_solver.
  - split; [|tauto]. intros Hs. split; [done|]. intros Hin.
    destruct (decide (member_items db c = ∅)) as [E|E]; [by destruct Hc|].
    apply set_choose_L in E as [i Hi]. exists i. by apply elem_of_member_items.
Qed.

(** The election is empty exactly for a cluster without members. *)
Lemma elect_None db c : wf_db db → elect db c = None ↔ member_items db c = ∅.
Proof.
  intros W. unfold elect. rewrite fmap_None, min_by_None. split.
  - intros E. apply set_eq. intros i. split; [|set_solver].
    rewrite elem_of_member_items. intros Hi.
    destruct (fk_members _ W _ _ Hi) as [_ [x Hx]].
    assert ((i, x) ∈ member_rows db c) as H by (by apply elem_of_member_rows).
    rewrite E in H. by apply elem_of_nil in H.
  - intros E. unfold member_rows. by rewrite E.
Qed.
(** The database after the statements of a recorded merge. *)
Definition merged_db (target : Z) (sources : list Z) (db1 : Db) : Db :=
  recompute_representatives {[target]} (delete_clusters (list_to_set sources) db1).

Lemma merged_db_wf target sources db db1 :
  wf_db db → move_members target (list_to_set sources) db = Ok db1 →
  wf_db (merged_db target sources db1).
Proof.
  intros W E. apply recompute_wf, delete_clusters_wf. by apply (move_members_Ok _ _ _ _ E).
Qed.

Lemma merged_target target sources db db1 row :
  clusters db !! target = Some row → target ∉ sources →
  move_members target (list_to_set sources) db = Ok db1 →
  clusters (merged_db target sources db1) !! target =
  Some (MkCluster (cl_key row) (elect (merged_db target sources db1) target)).
Proof.
  intros Hrow Hns E. apply move_members_Ok in E as (E&_&_). unfold merged_db.
  rewrite lookup_recompute. simpl. rewrite lookup_drop_ids, E. simpl.
  rewrite decide_False by (by rewrite elem_of_list_to_set).
  rewrite Hrow. simpl. rewrite decide_True by set_solver. done.
Qed.

(** On a consistent database the event is recorded on the new representative. *)
Lemma event_item_elect target db row :
  wf_db db → clusters db !! target = Some row → cl_representative row = elect db target →
  event_item target db = elect db target.
Proof.
  intros W Hrow E. unfold event_item. rewrite Hrow. simpl. rewrite E.
  destruct (elect db target) as [i|] eqn:Ee; [done|].
  apply elect_None in Ee; [|done]. by rewrite Ee.
Qed.

(** The branches of [merge_body] on a consistent database. *)
Inductive merge_case (now : pystr) (target : Z) (sources : list Z) (db : Db)
    : result exn (ClusterMergeResult * Db) → Prop :=
  | merge_no_target :
      clusters db !! target = None →
      merge_case now target sources db (Err (ValueError "target cluster does not exist"))
  | merge_nothing row :
      clusters db !! target = Some row →
      (∀ c, c ∈ sources → clusters db !! c = None) →
      merge_case now target sources db (Ok (MkMerge target sources 0 0 false, db))
  | merge_empty row db1 :
      clusters db !! target = Some row →
      (∃ c, c ∈ sources ∧ is_Some (clusters db !! c)) →
      move_members target (list_to_set sources) db = Ok db1 →
      elect (merged_db target sources db1) target = None →
      merge_case now target sources db
        (Err (ValueError "cannot record merge event without target cluster item"))
  | merge_recorded row db1 item :
      clusters db !! target = Some row →
      (∃ c, c ∈ sources ∧ is_Some (clusters db !! c)) →
      move_members target (list_to_set sources) db = Ok db1 →
      elect (merged_db target sources db1) target = Some item →
      merge_case now target sources db
        (Ok (MkMerge target sources
               (Z.of_nat (size (filter (λ m : Z * Z, m.1 ∈ (list_to_set sources : gset Z))
                                  (members db))))
               (Z.of_nat (size (filter (λ c, is_Some (clusters db !! c))
                                  (list_to_set sources : gset Z)))) true,
             set_decisions
               (<[next_id (decisions db) := merge_event now item target sources]>
                  (null_cluster (list_to_set sources) <$> decisions db))
               (merged_db target sources db1))).

Lemma merge_counts_zero sources db :
  wf_db db →
  Z.eqb (Z.of_nat (size (filter (λ m : Z * Z, m.1 ∈ (list_to_set sources : gset Z))
                           (members db)))) 0 &&
  Z.eqb (Z.of_nat (size (filter (λ c, is_Some (clusters db !! c))
                           (list_to_set sources : gset Z)))) 0 = true ↔
  ∀ c, c ∈ sources → clusters db !! c = None.
Proof.
  intros W. rewrite andb_true_iff, !Z.eqb_eq. split.
  - intros [_ H] c Hc. apply eq_None_not_Some. intros Hs.
    assert (size (filter (λ c, is_Some (clusters db !! c)) (list_to_set sources : gset Z)) = 0)%nat
      as E by lia.
    apply size_empty_inv in E. assert (c ∈ (∅ : gset Z)) as Hin; [|set_solver].
    rewrite <-E. apply elem_of_filter. by rewrite elem_of_list_to_set.
  - intros H.
    assert (filter (λ m : Z * Z, m.1 ∈ (list_to_set sources : gset Z)) (members db) = ∅) as ->.
    { apply set_eq. intros [c i]. split; [|set_solver].
      intros [Hc Hm]%elem_of_filter. apply elem_of_list_to_set, H in Hc.
      destruct (fk_members _ W _ _ Hm) as [[? Hs] _]. simpl in Hc. congruence. }
    assert (filter (λ c, is_Some (clusters db !! c)) (list_to_set sources : gset Z) = ∅) as ->; [|done].
    apply set_eq. intros c. split; [|set_solver].
    intros [[? Hs] Hc]%elem_of_filter. apply elem_of_list_to_set, H in Hc. congruence.
Qed.

Lemma merge_body_case now target sources db :
  wf_db db → target ∉ sources →
  merge_case now target sources db (merge_body now target sources db).
Proof.
  intros W Hns. unfold merge_body. destruct (clusters db !! target) as [row|] eqn:Hrow;
    [|by constructor].
  destruct (_ && _) eqn:Ez.
  - pose proof (proj1 (merge_counts_zero sources db W) Ez). by econstructor.
  - assert (∃ c, c ∈ sources ∧ is_Some (clusters db !! c)) as Hex.
    { destruct (decide (Exists (λ c, is_Some (clusters db !! c)) sources)) as [E|E];
        [by apply Exists_exists in E|].
      apply not_true_iff_false in Ez. destruct Ez. apply (merge_counts_zero sources db W).
      intros c Hc. apply eq_None_not_Some. intros Hs. apply E, Exists_exists. eauto. }
    assert (is_ok (move_members target (list_to_set sources) db) = true) as Hok
      by (apply move_members_total; [done|by eexists]).
    destruct (move_members target (list_to_set sources) db) as [db1|] eqn:Em; [|done].
    clear Hok. simpl. fold (merged_db target sources db1).
    pose proof (merged_db_wf _ _ _ _ W Em) as W'.
    pose proof (merged_target _ _ _ _ _ Hrow Hns Em) as Ht.
    rewrite (event_item_elect _ _ _ W' Ht eq_refl).
    destruct (elect (merged_db target sources db1) target) as [item|] eqn:Ee;
      [|by eapply merge_empty].
    unfold insert_decision. rewrite decide_True.
    2:{ simpl. by eapply (elect_is_item (merged_db target sources db1)). }
    assert (refb (clusters (merged_db target sources db1)) (Some target) = true) as Er.
    { apply refb_true. intros ? [= <-]. rewrite Ht. by eexists. }
    change (de_cluster_id (merge_event now item target sources)) with (Some target).
    rewrite Er. simpl.
    pose proof (move_members_Ok _ _ _ _ Em) as (E1&_).
    assert (decisions db1 = decisions db) as Ed by (by rewrite E1).
    rewrite Ed, next_id_fmap. by eapply merge_recorded.
Qed.
Lemma merge_clusters_cases now matched db :
  wf_db db →
  (∃ target sources,
     _normalize_cluster_ids matched = target :: sources ∧ sources ≠ [] ∧
     target ∉ sources ∧ NoDup sources ∧
     merge_clusters now matched db = atomically db (merge_body now target sources db)) ∨
  (length (_normalize_cluster_ids matched) < 2)%nat ∧
  merge_clusters now matched db =
    (Err (ValueError "need at least two clusters to merge"), db).
Proof.
  intros W. unfold merge_clusters.
  destruct (_normalize_cluster_ids matched) as [|t [|s rest]] eqn:E;
    [right; simpl; split; [lia|done]..|].
  left. exists t, (s :: rest). by destruct (normalize_head _ _ _ E).
Qed.

Lemma merged_partition now target sources db db1 item :
  wf_db db → is_Some (clusters db !! target) → target ∉ sources →
  move_members target (list_to_set sources) db = Ok db1 →
  partition (set_decisions (<[next_id (decisions db) := merge_event now item target sources]>
      (null_cluster (list_to_set sources) <$> decisions db)) (merged_db target sources db1))
  = merge_spec target sources (partition db).
Proof.
  intros W Ht Hns Hm.
  rewrite <-(merge_statements_partition target sources db db1 W Ht Hns Hm). by apply partition_ext.
Qed.

Lemma merge_spec_nothing target sources db row :
  clusters db !! target = Some row → wf_db db →
  (∀ c, c ∈ sources → clusters db !! c = None) →
  merge_spec target sources (partition db) = partition db.
Proof.
  intros Hrow W H. assert (∀ c, c ∈ sources → partition db !! c = None) as Hp.
  { intros c Hc. rewrite lookup_partition, decide_False; [done|].
    rewrite H by done. apply is_Some_None. }
  assert (partition db !! target = Some (member_items db target)) as Ht.
  { rewrite lookup_partition, Hrow, decide_True; [done|by eexists]. }
  unfold merge_spec. apply map_eq. intros c. rewrite lookup_insert, lookup_drop_ids.
  case_decide as E; [subst|by case_decide as Hc; [apply elem_of_list_to_set in Hc; rewrite Hp|]].
  rewrite Ht. f_equal. apply set_eq. intros i.
  rewrite elem_of_union_of, elem_of_member_items by done. setoid_rewrite elem_of_cons.
  split; [|by eauto]. intros (s&[->|Hs]&Hi); [done|].
  destruct (fk_members _ W _ _ Hi) as [[? Hc] _]. by rewrite H in Hc.
Qed.

(** C1. A merge that returns implements the abstract merge of the member sets: the
    smallest distinct id absorbs the members of all the others, which stop existing,
    and every other cluster keeps its members. When it recorded an event, the target
    keeps its key and gets the newly elected representative, and the only new
    decision row is the merge event on that representative; otherwise the database
    is untouched. *)
Theorem merge_clusters_refines now matched db r db' :
  wf_db db → merge_clusters now matched db = (Ok r, db') →
  _normalize_cluster_ids matched = target_cluster_id r :: source_cluster_ids r ∧
  partition db' = merge_spec (target_cluster_id r) (source_cluster_ids r) (partition db) ∧
  if recorded_event r then
    ∃ row item,
      clusters db !! target_cluster_id r = Some row ∧
      elect db' (target_cluster_id r) = Some item ∧
      clusters db' !! target_cluster_id r = Some (MkCluster (cl_key row) (Some item)) ∧
      decisions db' =
        <[next_id (decisions db) :=
            merge_event now item (target_cluster_id r) (source_cluster_ids r)]>
          (null_cluster (list_to_set (source_cluster_ids r)) <$> decisions db) ∧
      items db' = items db
  else db' = db.
Proof.
  intros W E. destruct (merge_clusters_cases now matched db W)
    as [(target&sources&En&_&Hns&Hnd&Em)|[_ Em]]; rewrite Em in E; [|done].
  clear Em. pose proof (merge_body_case now target sources db W Hns) as C.
  destruct C as [|row Hrow Hno| |row db1 item Hrow Hex Hm Hel]; simpl in E;
    try discriminate E; injection E as <- <-; simpl; split_and!; try done.
  - symmetry. by eapply merge_spec_nothing.
  - eapply merged_partition; [done|by eexists|done..].
  - exists row, item. split_and!; try done.
    + by rewrite <-Hel, <-(merged_target _ _ _ _ _ Hrow Hns Hm).
    + by apply move_members_Ok in Hm as (->&_).
Qed.
Lemma set_decisions_merge_wf now target sources db db1 item row :
  wf_db db → clusters db !! target = Some row → target ∉ sources →
  move_members target (list_to_set sources) db = Ok db1 →
  elect (merged_db target sources db1) target = Some item →
  wf_db (set_decisions (<[next_id (decisions db) := merge_event now item target sources]>
      (null_cluster (list_to_set sources) <$> decisions db)) (merged_db target sources db1)).
Proof.
  intros W Hrow Hns Hm Hel.
  apply (insert_decision_wf (merge_event now item target sources) (merged_db target sources db1)
           (next_id (decisions db))); [|by eapply merged_db_wf].
  unfold insert_decision. rewrite decide_True.
  2:{ simpl. by eapply (elect_is_item (merged_db target sources db1)). }
  change (de_cluster_id _) with (Some target). change (de_candidate_item_id _) with (@None Z).
  rewrite (proj2 (refb_true _ (Some target))).
  2:{ intros ? [= <-]. rewrite (merged_target _ _ _ _ _ Hrow Hns Hm). by eexists. }
  pose proof (move_members_Ok _ _ _ _ Hm) as (E1&_).
  assert (decisions (merged_db target sources db1) =
    null_cluster (list_to_set sources) <$> decisions db) as Hd by (simpl; by rewrite E1).
  cbn [refb andb]. by rewrite Hd, next_id_fmap.
Qed.

Lemma merge_clusters_wf now matched db :
  wf_db db → wf_db (merge_clusters now matched db).2.
Proof.
  intros W. destruct (merge_clusters_cases now matched db W)
    as [(target&sources&_&_&Hns&_&->)|[_ ->]]; [|done].
  destruct (merge_body_case now target sources db W Hns); simpl; try done.
  by eapply set_decisions_merge_wf.
Qed.

Lemma assign_wf uuid item matched db :
  wf_db db → wf_db (assign_item_to_cluster uuid item matched db).2.
Proof.
  intros W. unfold assign_item_to_cluster. destruct matched as [c|]; simpl.
  - destruct (insert_member c item db) as [[o db']|] eqn:E; simpl; [|done].
    by eapply insert_member_wf.
  - destruct (insert_cluster uuid (Some item) db) as [[c db1]|] eqn:E1; simpl; [|done].
    destruct (insert_member c item db1) as [[o db']|] eqn:E; simpl; [|done].
    eapply insert_member_wf; [done|]. by eapply insert_cluster_wf.
Qed.

Lemma merged_elect_union target sources db db1 :
  wf_db db → is_Some (clusters db !! target) → target ∉ sources →
  move_members target (list_to_set sources) db = Ok db1 →
  elect (merged_db target sources db1) target = None ↔
  union_of (target :: sources) (partition db) = ∅.
Proof.
  intros W Ht Hns Hm. rewrite elect_None by (by eapply merged_db_wf).
  pose proof (merge_statements_partition target sources db db1 W Ht Hns Hm) as Hp.
  fold (merged_db target sources db1) in Hp.
  apply (f_equal (λ P, P !! target)) in Hp. unfold merge_spec in Hp.
  rewrite lookup_insert_eq, lookup_partition in Hp. case_decide; [|done].
  injection Hp as ->. done.
Qed.

(** C8. What [merge_clusters] returns or raises is a function of the distinct ids and
    of the member sets alone: fewer than two ids and a missing smallest id are errors,
    ids without any existing source are a no-op result, clusters without any member
    between them cannot record their event, and otherwise the counts are the number
    of membership rows of the sources and the number of sources that existed. *)
Theorem merge_clusters_outcome now matched db :
  wf_db db →
  (merge_clusters now matched db).1 =
  merge_outcome (_normalize_cluster_ids matched) (partition db).
Proof.
  intros W. unfold merge_clusters, merge_outcome.
  destruct (_normalize_cluster_ids matched) as [|target [|source rest]] eqn:En; try done.
  destruct (normalize_head _ _ _ En) as [Hnd Hns]. set (sources := source :: rest) in *.
  assert (∀ c, c ∈ sources → is_Some (clusters db !! c) ↔
    c ∈ filter (λ c, is_Some (partition db !! c)) sources) as Hf.
  { intros c Hc. rewrite list_elem_of_filter, lookup_partition.
    case_decide; rewrite <-?not_eq_None_Some in *; naive_solver. }
  destruct (merge_body_case now target sources db W Hns)
    as [Hno|row Hrow Hno|row db1 Hrow (c&Hc&Hs) Hm Hel|row db1 item Hrow (c&Hc&Hs) Hm Hel];
    cbn [fst atomically]; rewrite lookup_partition.
  - by rewrite decide_False by (rewrite Hno; apply is_Some_None).
  - rewrite decide_True by (rewrite Hrow; by eexists). rewrite decide_True; [done|].
    apply elem_of_nil_inv. intros c Hc. pose proof Hc as [_ Hin]%list_elem_of_filter.
    apply Hf in Hc; [|done]. rewrite (Hno c Hin) in Hc. by apply is_Some_None in Hc.
  - rewrite decide_True by (rewrite Hrow; by eexists). rewrite decide_False.
    2:{ intros E. apply (proj1 (Hf c Hc)) in Hs. rewrite E in Hs. by apply elem_of_nil in Hs. }
    rewrite decide_True; [done|]. eapply merged_elect_union; [done|by eexists|done..].
  - rewrite decide_True by (rewrite Hrow; by eexists). rewrite decide_False.
    2:{ intros E. apply (proj1 (Hf c Hc)) in Hs. rewrite E in Hs. by apply elem_of_nil in Hs. }
    rewrite decide_False.
    2:{ intros E. eapply merged_elect_union in E; [|done|by eexists|done..]. congruence. }
    by rewrite member_count, cluster_count.
Qed.

(** C9. The representative a recompute elects is the member that outranks every other
    member: a URL first, then the longer text, then the earlier known publication
    time, then the smaller id; with no member it is NULL. Exactly the named clusters
    are touched, and only in that column. *)
Theorem recompute_elects ids db c row :
  wf_db db → clusters db !! c = Some row →
  ∃ row', clusters (recompute_representatives ids db) !! c = Some row' ∧
  cl_key row' = cl_key row ∧
  (c ∉ ids → row' = row) ∧
  (c ∈ ids →
    match cl_representative row' with
    | None => ∀ i, (c, i) ∉ members db
    | Some i => ∃ x, (c, i) ∈ members db ∧ items db !! i = Some x ∧
        ∀ j y, (c, j) ∈ members db → items db !! j = Some y → j ≠ i →
          outranks (i, x) (j, y)
    end).
Proof.
  intros W Hrow. rewrite lookup_recompute, Hrow. simpl. eexists. split; [done|].
  case_decide as Hc; [|split_and!; done]. split_and!; [done..|]. intros _. simpl.
  destruct (elect db c) as [i|] eqn:E.
  - apply elect_Some in E as (x&Hi&Hb). apply elem_of_member_rows in Hi as [Hi Hx].
    exists x. split_and!; [done..|]. intros j y Hj Hy Hne.
    apply Hb; [by apply elem_of_member_rows|congruence].
  - intros i Hi. apply elect_None in E; [|done].
    apply elem_of_member_items in Hi. set_solver.
Qed.


(** ** Instances on the sample database *)

Definition sample_merge := merge_clusters (sample_time 9) [2; 1; 2] sample_db.

Lemma merge_clusters_refines_witness :
  sample_merge.1 = Ok (MkMerge 1 [2] 2 1 true) ∧
  partition sample_merge.2 = merge_spec 1 [2] (partition sample_db) ∧
  elect sample_merge.2 1 = Some 2.
Proof.
  assert (sample_merge = (Ok (MkMerge 1 [2] 2 1 true), sample_merge.2)) as E
    by (vm_compute; reflexivity).
  destruct (merge_clusters_refines (sample_time 9) [2; 1; 2] sample_db _ _ sample_db_wf E)
    as (_&Hp&_).
  split_and!; [by rewrite E|exact Hp|vm_compute; reflexivity].
Defined.

Lemma merge_clusters_outcome_witness :
  wf_db sample_db ∧
  (merge_clusters (sample_time 9) [3; 1] sample_db).1 = Ok (MkMerge 1 [3] 0 1 true) ∧
  (merge_clusters (sample_time 9) [3; 1] sample_db).1 =
    merge_outcome (_normalize_cluster_ids [3; 1]) (partition sample_db).
Proof.
  split_and!; [exact sample_db_wf|vm_compute; reflexivity|].
  exact (merge_clusters_outcome (sample_time 9) [3; 1] sample_db sample_db_wf).
Defined.

Lemma recompute_elects_witness :
  ∃ row, clusters (recompute_representatives {[2]} sample_db) !! 2 = Some row ∧
         cl_representative row = Some 2.
Proof.
  destruct (recompute_elects {[2]} sample_db 2 _ sample_db_wf eq_refl) as (row&Hr&_).
  exists row. split; [done|]. vm_compute in Hr. by injection Hr as <-.
Defined.


(** The design document recalculates the representative whenever a cluster changes; a
    member that joins a matched cluster and outranks the stored representative does not
    replace it. *)
Example joining_keeps_representative :
  (λ r : result exn ClusterAssignmentResult * Db,
     (cl_representative <$> clusters r.2 !! 1, elect r.2 1))
    (assign_item_to_cluster (u "k9") 2 (Some 1) sample_db) = (Some (Some 1), Some 2).
Proof. vm_compute. reflexivity. Qed.

(** ** Refreshing the clusters that lost members

    Both hard-delete flows recompute the representatives of the clusters they touched
    and then delete those left empty. *)

Lemma refresh_wf ids db : wf_db db → wf_db (refresh ids db).
Proof. intros W. by apply delete_clusters_wf, recompute_wf. Qed.

Lemma refresh_members ids db c i : (c, i) ∈ members (refresh ids db) ↔ (c, i) ∈ members db.
Proof. unfold refresh. by rewrite members_delete_emptied. Qed.

Lemma refresh_clusters ids db c :
  is_Some (clusters (refresh ids db) !! c) ↔
  is_Some (clusters db !! c) ∧ (c ∈ ids → ∃ i, (c, i) ∈ members db).
Proof. unfold refresh. by rewrite is_Some_delete_emptied, is_Some_recompute. Qed.

Lemma refresh_representative ids db c row :
  clusters (refresh ids db) !! c = Some row → c ∈ ids →
  cl_representative row = elect (refresh ids db) c.
Proof.
  intros Hc Hin. apply lookup_drop_ids_Some in Hc as [Hc _].
  rewrite lookup_recompute, fmap_Some in Hc. destruct Hc as (row0&_&->).
  rewrite decide_True by done. simpl. apply elect_ext; [|done].
  intros i. symmetry. apply refresh_members.
Qed.

Lemma refresh_other ids db c row :
  clusters db !! c = Some row → c ∉ ids → clusters (refresh ids db) !! c = Some row.
Proof.
  intros Hc Hin. apply lookup_drop_ids_Some. rewrite lookup_recompute, Hc. simpl.
  rewrite decide_False by done. split; [done|].
  unfold emptied_clusters. rewrite elem_of_filter. tauto.
Qed.

(** The clusters a refresh deletes. *)
Lemma refresh_gone ids db :
  emptied_clusters ids (recompute_representatives ids db) =
  dom (clusters db) ∖ dom (clusters (refresh ids db)).
Proof.
  apply set_eq. intros c. rewrite elem_of_difference, !elem_of_dom, refresh_clusters.
  unfold emptied_clusters. rewrite elem_of_filter, is_Some_recompute.
  change (member_items (recompute_representatives ids db) c) with (member_items db c).
  split.
  - intros [[Hc Hm] Hin]. split; [done|]. intros [_ H]. destruct (H Hin) as [i Hi].
    apply elem_of_member_items in Hi. set_solver.
  - intros [Hc Hn]. destruct (decide (c ∈ ids)) as [Hin|]; [|tauto].
    split_and!; try done. destruct (decide (member_items db c = ∅)) as [|E]; [done|].
    destruct Hn. split; [done|]. intros _. apply set_choose_L in E as [i Hi].
    exists i. by apply elem_of_member_items.
Qed.

Lemma refresh_decisions ids db :
  decisions (refresh ids db) =
  null_cluster (dom (clusters db) ∖ dom (clusters (refresh ids db))) <$> decisions db.
Proof. by rewrite <-refresh_gone. Qed.

Lemma refresh_deliveries ids db k d :
  wf_db db →
  deliveries (refresh ids db) !! k = Some d ↔
  deliveries db !! k = Some d ∧ is_Some (clusters (refresh ids db) !! dl_cluster_id d).
Proof.
  intros W.
  change (deliveries (refresh ids db)) with
    (filter (λ kv : Z * Delivery, dl_cluster_id kv.2 ∉
       emptied_clusters ids (recompute_representatives ids db)) (deliveries db)).
  rewrite map_lookup_filter_Some, refresh_gone, elem_of_difference, !elem_of_dom. simpl.
  split; intros [Hd Hc]; (split; [done|]); [|tauto].
  pose proof (fk_deliveries _ W _ _ Hd). destruct (decide (is_Some (clusters (refresh ids db) !! dl_cluster_id d))); tauto.
Qed.

Lemma refresh_key ids db c row :
  clusters (refresh ids db) !! c = Some row →
  ∃ row0, clusters db !! c = Some row0 ∧ cl_key row = cl_key row0.
Proof.
  intros Hc. apply lookup_drop_ids_Some in Hc as [Hc _].
  rewrite lookup_recompute, fmap_Some in Hc. destruct Hc as (row0&?&->).
  exists row0. split; [done|]. by case_decide.
Qed.

Lemma refresh_nothing db : refresh ∅ db = db.
Proof.
  assert (emptied_clusters ∅ (recompute_representatives ∅ db) = ∅) as E.
  { apply set_eq. intros c. unfold emptied_clusters. rewrite elem_of_filter. set_solver. }
  unfold refresh. rewrite E, delete_clusters_empty. apply db_eq; try done.
  simpl. apply map_eq. intros c. rewrite map_lookup_imap.
  destruct (clusters db !! c); simpl; [|done]. by case_decide; [set_solver|].
Qed.

(** The tables a refresh does not touch. *)
Lemma refresh_frame ids db :
  accounts (refresh ids db) = accounts db ∧ channels (refresh ids db) = channels db ∧
  groups (refresh ids db) = groups db ∧ group_members (refresh ids db) = group_members db ∧
  channel_states (refresh ids db) = channel_states db ∧
  raw_messages (refresh ids db) = raw_messages db ∧ items (refresh ids db) = items db ∧
  ingest_errors (refresh ids db) = ingest_errors db ∧
  notifications (refresh ids db) = notifications db ∧
  settings (refresh ids db) = settings db ∧ poll_jobs (refresh ids db) = poll_jobs db ∧
  rotation (refresh ids db) = rotation db ∧
  auth_sessions (refresh ids db) = auth_sessions db.
Proof. done. Qed.
End Clusters.
