(* ===== verification/Prune.v ===== *)
(** The daily retention prune job (src/tca/ops/prune_job.py): retention settings, the
    batched deletes, and the six ordered steps of [run_once]. *)

From S2P Require Import Prelude PyValue PyTime Schema Clusters.
Local Open Scope Z_scope.

Module Prune.

(** * Constants *)

Definition DELETE_BATCH_SIZE : nat := 500.

Definition RAW_MESSAGES_RETENTION_DAYS_KEY : pystr := u "retention.raw_messages_days".
Definition ITEMS_RETENTION_DAYS_KEY : pystr := u "retention.items_days".
Definition INGEST_ERRORS_RETENTION_DAYS_KEY : pystr := u "retention.ingest_errors_days".

Definition DEFAULT_RAW_MESSAGES_RETENTION_DAYS : Z := 30.
Definition DEFAULT_ITEMS_RETENTION_DAYS : Z := 365.
Definition DEFAULT_INGEST_ERRORS_RETENTION_DAYS : Z := 90.

Definition STEPS : list string :=
  ["delete_expired_raw_messages"; "delete_expired_items";
   "recompute_cluster_representatives"; "delete_empty_clusters";
   "delete_orphaned_rows"; "delete_expired_ingest_errors"]%string.

(** * Settings *)

Record RetentionPruneSettings := MkRetention {
  raw_messages_days : Z;
  items_days : Z;
  ingest_errors_days : Z;
}.

Definition _resolve_days_numeric (allow_zero : bool) (default_value value : Z) : Z :=
  if Z.ltb 0 value then value
  else if allow_zero && Z.eqb value 0 then 0
  else default_value.

Definition _resolve_positive_days_setting (db : Db) (key : pystr) (default_value : Z)
    (allow_zero : bool) : Z :=
  match settings db !! key with
  | Some (JInt value) => _resolve_days_numeric allow_zero default_value value
  | Some (JFloat f) =>
      if is_integer f
      then match trunc_float f with
           | Some value => _resolve_days_numeric allow_zero default_value value
           | None => default_value
           end
      else default_value
  | _ => default_value
  end.

Definition _resolve_settings (db : Db) : RetentionPruneSettings :=
  MkRetention
    (_resolve_positive_days_setting db RAW_MESSAGES_RETENTION_DAYS_KEY
       DEFAULT_RAW_MESSAGES_RETENTION_DAYS false)
    (_resolve_positive_days_setting db ITEMS_RETENTION_DAYS_KEY
       DEFAULT_ITEMS_RETENTION_DAYS true)
    (_resolve_positive_days_setting db INGEST_ERRORS_RETENTION_DAYS_KEY
       DEFAULT_INGEST_ERRORS_RETENTION_DAYS false).

(** * Batched deletes *)

(** The [while True] of the two batched deletes: [select] reads the ids of at most
    one batch, [delete] deletes them and returns how many rows it deleted. [None] is
    running out of fuel. *)
Fixpoint delete_in_batches {S} (select : S → list Z) (delete : list Z → S → Z * S)
    (fuel : nat) (total : Z) (sizes : list Z) (s : S) : option (Z * list Z * S) :=
  match fuel with
  | O => None
  | Datatypes.S fuel =>
      match select s with
      | [] => Some (total, sizes, s)
      | ids =>
          let '(n, s) := delete ids s in
          delete_in_batches select delete fuel (total + n) (sizes ++ [n]) s
      end
  end.

Definition expired_raw_messages (cutoff : pystr) (db : Db) : gset Z :=
  ids_where (λ r, text_ltb (rm_created_at r) cutoff) (raw_messages db).
Definition expired_items (cutoff : pystr) (db : Db) : gset Z :=
  ids_where (λ x, text_ltb (it_created_at x) cutoff) (items db).
Definition expired_ingest_errors (cutoff : pystr) (db : Db) : gset Z :=
  ids_where (λ e, text_ltb (ie_created_at e) cutoff) (ingest_errors db).

(** Rows a [DELETE ... WHERE id IN ids RETURNING id] returns. *)
Definition deleted_count {A} (ids : list Z) (t : gmap Z A) : Z :=
  Z.of_nat (length (filter (λ i, is_Some (t !! i)) ids)).

Definition delete_raw_batch (ids : list Z) (db : Db) : Z * Db :=
  (deleted_count ids (raw_messages db), delete_raw_messages (list_to_set ids) db).

Definition _delete_expired_raw_messages_in_batches (cutoff : pystr) (db : Db)
    : option (Z * list Z * Db) :=
  delete_in_batches
    (λ db, take DELETE_BATCH_SIZE (sorted_ids (expired_raw_messages cutoff db)))
    delete_raw_batch (S (size (raw_messages db))) 0 [] db.

(** [SELECT DISTINCT cluster_id FROM dedupe_members WHERE item_id IN ids] *)
Definition clusters_of (ids : gset Z) (db : Db) : gset Z :=
  set_map fst (filter (λ m : Z * Z, m.2 ∈ ids) (members db)).

Definition delete_item_batch (ids : list Z) (s : gset Z * Db) : Z * (gset Z * Db) :=
  let '(affected, db) := s in
  (deleted_count ids (items db),
   (affected ∪ clusters_of (list_to_set ids) db, delete_items (list_to_set ids) db)).

Definition _delete_expired_items_in_batches (cutoff : pystr) (db : Db)
    : option (Z * list Z * (gset Z * Db)) :=
  delete_in_batches
    (λ s : gset Z * Db, take DELETE_BATCH_SIZE (sorted_ids (expired_items cutoff s.2)))
    delete_item_batch (S (size (items db))) 0 [] (∅, db).

(** * The other steps *)

Definition _recompute_cluster_representatives (ids : gset Z) (db : Db) : Z * Db :=
  if decide (ids = ∅) then (0, db)
  else (Z.of_nat (size ids), Clusters.recompute_representatives ids db).

Definition _delete_empty_clusters (ids : gset Z) (db : Db) : Z * Db :=
  if decide (ids = ∅) then (0, db)
  else
    let empty := Clusters.emptied_clusters ids db in
    (Z.of_nat (size empty), delete_clusters empty db).

Definition orphan_member (db : Db) (m : Z * Z) : bool :=
  negb (bool_decide (is_Some (clusters db !! m.1))) ||
  negb (bool_decide (is_Some (items db !! m.2))).
Definition orphan_decision (db : Db) (d : DecisionRow) : bool :=
  negb (bool_decide (is_Some (items db !! de_item_id d))) ||
  negb (refb (clusters db) (de_cluster_id d)) ||
  negb (refb (items db) (de_candidate_item_id d)).

Definition _delete_orphaned_rows (db : Db) : Z * Z * Db :=
  let gone := filter (λ m, orphan_member db m = true) (members db) in
  let db := set_members (members db ∖ gone) db in
  let ids := ids_where (orphan_decision db) (decisions db) in
  (Z.of_nat (size gone), Z.of_nat (size ids),
   set_decisions (drop_ids ids (decisions db)) db).

Definition _delete_expired_ingest_errors (cutoff : pystr) (db : Db) : Z * Db :=
  let ids := expired_ingest_errors cutoff db in
  (Z.of_nat (size ids), set_ingest_errors (drop_ids ids (ingest_errors db)) db).

(** * The job *)

Record PruneJobRunSummary := MkSummary {
  executed_steps : list string;
  raw_messages_deleted : Z;
  items_deleted : Z;
  raw_message_batch_sizes : list Z;
  item_batch_sizes : list Z;
  recomputed_cluster_count : Z;
  deleted_empty_cluster_count : Z;
  orphaned_members_deleted : Z;
  orphaned_decisions_deleted : Z;
  ingest_errors_deleted : Z;
  affected_cluster_ids : list Z;
}.

(** [now - timedelta(days=days)], as the driver binds it. *)
Definition cutoff (now : datetime) (days : Z) : result exn pystr :=
  span ← timedelta_days days;
  d ← dt_add now (- span);
  mret (sql_datetime d).

(** [None] is a batch loop out of fuel. *)
Definition prune_steps (c_raw c_items c_errors : pystr) (db : Db)
    : option (PruneJobRunSummary * Db) :=
  '(n_raw, raw_sizes, db) ← _delete_expired_raw_messages_in_batches c_raw db;
  '(n_items, item_sizes, (affected, db)) ← _delete_expired_items_in_batches c_items db;
  let '(recomputed, db) := _recompute_cluster_representatives affected db in
  let '(emptied, db) := _delete_empty_clusters affected db in
  let '(n_members, n_decisions, db) := _delete_orphaned_rows db in
  let '(n_errors, db) := _delete_expired_ingest_errors c_errors db in
  Some (MkSummary STEPS n_raw n_items raw_sizes item_sizes recomputed emptied
          n_members n_decisions n_errors (sorted_ids affected), db).

(** [now] is the value of the clock. *)
Definition run_once (now : datetime) (db : Db)
    : result exn (option PruneJobRunSummary) * Db :=
  let retention := _resolve_settings db in
  let now := _normalize_datetime now in
  atomically db
    (c_raw ← cutoff now (raw_messages_days retention);
     c_items ← cutoff now (items_days retention);
     c_errors ← cutoff now (ingest_errors_days retention);
     mret match prune_steps c_raw c_items c_errors db with
          | Some (summary, db) => (Some summary, db)
          | None => (None, db)
          end).

(** * The batch loop

    For a select that reads the first [B] of the ids still to go, in order, and a
    delete that removes exactly those, the loop amounts to one delete of them all. *)

(** Sizes of the batches of [n] rows: full ones, then the rest. *)
Definition batch_sizes (B n : nat) : list Z :=
  replicate (n / B) (Z.of_nat B) ++ (if decide (n mod B = 0)%nat then [] else [Z.of_nat (n mod B)]).

Lemma batch_sizes_step B n :
  (0 < B)%nat → (0 < n)%nat →
  batch_sizes B n = Z.of_nat (B `min` n) :: batch_sizes B (n - B).
Proof.
  intros HB Hn. unfold batch_sizes. destruct (decide (B ≤ n)%nat) as [Hle|Hgt].
  - assert (∃ m, n = m + 1 * B)%nat as [m ->] by (exists (n - B)%nat; lia).
    rewrite Nat.div_add, Nat.Div0.mod_add by lia.
    rewrite Nat.add_1_r, Nat.min_l by lia. by replace (m + 1 * B - B)%nat with m by lia.
  - rewrite Nat.div_small, Nat.mod_small, Nat.min_r by lia.
    replace (n - B)%nat with 0%nat by lia. rewrite Nat.Div0.div_0_l, Nat.Div0.mod_0_l. simpl.
    rewrite decide_False by lia. done.
Qed.

Section loop.
Context {S : Type} (B : nat) (HB : (0 < B)%nat).
Context (E : S → gset Z) (delete : list Z → S → Z * S) (one : gset Z → S → S).
Context (Hcount : ∀ ids s, NoDup ids → (∀ i, i ∈ ids → i ∈ E s) →
           (delete ids s).1 = Z.of_nat (length ids)).
Context (Hone : ∀ ids s, (delete ids s).2 = one (list_to_set ids) s).
Context (Hleft : ∀ ids s, E (one ids s) = E s ∖ ids).
Context (Hunion : ∀ a b s, one b (one a s) = one (a ∪ b) s).
Context (Hempty : ∀ s, one ∅ s = s).

Lemma delete_in_batches_spec fuel total sizes s :
  (size (E s) < fuel)%nat →
  delete_in_batches (λ s, take B (sorted_ids (E s))) delete fuel total sizes s =
  Some (total + Z.of_nat (size (E s)), sizes ++ batch_sizes B (size (E s)), one (E s) s).
Proof.
  revert total sizes s. induction fuel as [|fuel IH]; intros total sizes s Hf; [lia|]. simpl.
  destruct (take B (sorted_ids (E s))) as [|i0 rest] eqn:Et.
  - assert (E s = ∅) as H0.
    { apply elem_of_equiv_empty_L. intros i Hi. apply elem_of_sorted_ids in Hi.
      destruct (sorted_ids (E s)); [by apply elem_of_nil in Hi|]. destruct B; [lia|done]. }
    rewrite H0, size_empty, Hempty. unfold batch_sizes.
    rewrite Nat.Div0.div_0_l, Nat.Div0.mod_0_l. simpl. by rewrite Z.add_0_r, app_nil_r.
  - set (ids := i0 :: rest) in *.
    assert (∀ i, i ∈ ids → i ∈ E s) as Hin.
    { intros i Hi. apply elem_of_sorted_ids. rewrite <-(take_drop B), Et.
      apply elem_of_app. by left. }
    assert (NoDup ids) as Hnd.
    { pose proof (NoDup_sorted_ids (E s)) as H. rewrite <-(take_drop B), Et in H.
      by apply NoDup_app in H as (?&_). }
    assert (length ids = B `min` size (E s))%nat as Hlen.
    { rewrite <-Et, length_take, sorted_ids_length. done. }
    assert (0 < length ids)%nat as Hpos by (simpl; lia). clearbody ids.
    pose proof (Hcount ids s Hnd Hin) as Hc. pose proof (Hone ids s) as H1.
    destruct (delete ids s) as [n s']. simpl in Hc, H1. subst n s'.
    assert (size (E (one (list_to_set ids) s)) = size (E s) - length ids)%nat as Hs.
    { rewrite Hleft, size_difference, size_list_to_set by (done || set_solver). done. }
    rewrite IH by lia. rewrite Hs, Hleft, Hunion, Hlen.
    rewrite (batch_sizes_step B (size (E s))) by lia.
    replace (size (E s) - B `min` size (E s))%nat with (size (E s) - B)%nat by lia.
    rewrite <-app_assoc. do 2 f_equal; [f_equal; lia|].
    f_equal. rewrite <-union_difference_L; [done|set_solver].
Qed.
End loop.

Lemma sum_batch_sizes B n :
  (0 < B)%nat → foldr Z.add 0 (batch_sizes B n) = Z.of_nat n.
Proof.
  intros HB. unfold batch_sizes. rewrite foldr_app.
  assert (∀ k a, foldr Z.add a (replicate k (Z.of_nat B)) = Z.of_nat k * Z.of_nat B + a) as H.
  { induction k as [|k IH]; intros a; cbn [replicate foldr]; [lia|]. rewrite IH. lia. }
  rewrite H. pose proof (Nat.div_mod_eq n B). case_decide; cbn [foldr]; nia.
Qed.

Lemma deleted_count_all {A} ids (t : gmap Z A) :
  (∀ i, i ∈ ids → is_Some (t !! i)) → deleted_count ids t = Z.of_nat (length ids).
Proof.
  intros H. unfold deleted_count. do 2 f_equal. induction ids as [|i ids IH]; [done|].
  rewrite filter_cons_True by (apply H; by left). f_equal. apply IH.
  intros j Hj. apply H. by right.
Qed.

Lemma size_ids_where {A} (p : A → bool) (t : gmap Z A) : (size (ids_where p t) ≤ size t)%nat.
Proof.
  unfold ids_where. rewrite size_dom. apply map_size_filter.
Qed.

Lemma raw_batches_eq cutoff db :
  _delete_expired_raw_messages_in_batches cutoff db =
  Some (Z.of_nat (size (expired_raw_messages cutoff db)),
        batch_sizes DELETE_BATCH_SIZE (size (expired_raw_messages cutoff db)),
        delete_raw_messages (expired_raw_messages cutoff db) db).
Proof.
  unfold _delete_expired_raw_messages_in_batches.
  rewrite (delete_in_batches_spec DELETE_BATCH_SIZE ltac:(unfold DELETE_BATCH_SIZE; lia)
             (expired_raw_messages cutoff) delete_raw_batch delete_raw_messages).
  - done.
  - intros ids db' _ Hin. apply deleted_count_all. intros i Hi.
    apply Hin, elem_of_ids_where in Hi as (r&Hr&_). by eexists.
  - done.
  - intros ids db'. apply set_eq. intros i. unfold expired_raw_messages.
    rewrite elem_of_difference, !elem_of_ids_where. simpl.
    setoid_rewrite lookup_drop_ids_Some. naive_solver.
  - intros. apply delete_raw_messages_union.
  - apply delete_raw_messages_empty.
  - apply Nat.lt_succ_r, size_ids_where.
Qed.

(** Deleting a batch while recording the clusters it touches. *)
Definition delete_items_affecting (ids : gset Z) (s : gset Z * Db) : gset Z * Db :=
  (s.1 ∪ clusters_of ids s.2, delete_items ids s.2).

Lemma elem_of_clusters_of ids db c :
  c ∈ clusters_of ids db ↔ ∃ i, i ∈ ids ∧ (c, i) ∈ members db.
Proof.
  unfold clusters_of. rewrite elem_of_map. split.
  - intros ([c' i]&->&[Hi Hm]%elem_of_filter). eauto.
  - intros (i&Hi&Hm). exists (c, i). split; [done|]. by apply elem_of_filter.
Qed.

Lemma item_batches_eq cutoff db :
  _delete_expired_items_in_batches cutoff db =
  Some (Z.of_nat (size (expired_items cutoff db)),
        batch_sizes DELETE_BATCH_SIZE (size (expired_items cutoff db)),
        (clusters_of (expired_items cutoff db) db,
         delete_items (expired_items cutoff db) db)).
Proof.
  unfold _delete_expired_items_in_batches.
  rewrite (delete_in_batches_spec DELETE_BATCH_SIZE ltac:(unfold DELETE_BATCH_SIZE; lia)
             (λ s : gset Z * Db, expired_items cutoff s.2) delete_item_batch
             delete_items_affecting).
  - unfold delete_items_affecting. simpl. by rewrite union_empty_l_L.
  - intros ids [a db'] _ Hin. apply deleted_count_all. intros i Hi.
    apply Hin, elem_of_ids_where in Hi as (r&Hr&_). by eexists.
  - by intros ids [a db'].
  - intros ids [a db']. apply set_eq. intros i. unfold expired_items.
    rewrite elem_of_difference, !elem_of_ids_where. simpl.
    setoid_rewrite lookup_drop_ids_Some. naive_solver.
  - intros a b [c db']. unfold delete_items_affecting. simpl.
    rewrite delete_items_union. f_equal. apply set_eq. intros k.
    rewrite !elem_of_union, !elem_of_clusters_of. simpl. setoid_rewrite elem_of_union.
    setoid_rewrite elem_of_filter. simpl. split; [naive_solver|].
    intros [?|(i&[Hi|Hi]&Hm)]; [tauto|eauto|].
    destruct (decide (i ∈ a)); [by eauto|]. right. eauto.
  - intros [c db']. unfold delete_items_affecting. simpl. rewrite delete_items_empty.
    f_equal. apply set_eq. intros k. rewrite elem_of_union, elem_of_clusters_of. set_solver.
  - apply Nat.lt_succ_r, size_ids_where.
Qed.

Lemma orphans_none db : wf_db db → _delete_orphaned_rows db = (0, 0, db).
Proof.
  intros W. unfold _delete_orphaned_rows.
  assert (filter (λ m, orphan_member db m = true) (members db) = ∅) as ->.
  { apply set_eq. intros [c i]. split; [|set_solver].
    intros [Ho Hm]%elem_of_filter. destruct (fk_members _ W _ _ Hm) as [Hc Hi].
    unfold orphan_member in Ho. simpl in Ho.
    by rewrite !bool_decide_eq_true_2 in Ho by done. }
  rewrite difference_empty_L.
  assert (set_members (members db) db = db) as -> by (by destruct db).
  assert (ids_where (orphan_decision db) (decisions db) = ∅) as ->.
  { apply set_eq. intros i. split; [|set_solver].
    intros (d&Hd&Ho)%elem_of_ids_where. destruct (fk_decisions _ W _ _ Hd) as (H1&H2&H3).
    unfold orphan_decision in Ho. apply refb_true in H2, H3.
    by rewrite bool_decide_eq_true_2, H2, H3 in Ho by done. }
  rewrite drop_ids_empty. by destruct db.
Qed.

(** The database the six steps amount to. *)
Definition pruned (c_raw c_items c_errors : pystr) (db : Db) : Db :=
  let affected := clusters_of (expired_items c_items db) db in
  let db1 := Clusters.recompute_representatives affected
               (delete_items (expired_items c_items db)
                 (delete_raw_messages (expired_raw_messages c_raw db) db)) in
  let db2 := delete_clusters (Clusters.emptied_clusters affected db1) db1 in
  (_delete_expired_ingest_errors c_errors db2).2.

Lemma recompute_nothing db : Clusters.recompute_representatives ∅ db = db.
Proof.
  apply db_eq; try done. simpl. apply map_eq. intros c. rewrite map_lookup_imap.
  destruct (clusters db !! c); simpl; [|done]. by case_decide; [set_solver|].
Qed.

Lemma expired_items_raw ids cutoff db :
  expired_items cutoff (delete_raw_messages ids db) = expired_items cutoff db.
Proof.
  apply set_eq. intros i. unfold expired_items. rewrite !elem_of_ids_where. simpl.
  setoid_rewrite lookup_fmap_Some. naive_solver.
Qed.

Lemma delete_expired_ingest_errors_wf c db :
  wf_db db → wf_db (_delete_expired_ingest_errors c db).2.
Proof. simpl. wf_fields. Qed.

Lemma pruned_wf c_raw c_items c_errors db : wf_db db → wf_db (pruned c_raw c_items c_errors db).
Proof.
  intros W. apply delete_expired_ingest_errors_wf.
  apply delete_clusters_wf, Clusters.recompute_wf, delete_items_wf.
  by apply delete_raw_messages_wf.
Qed.

Lemma recompute_step ids db :
  _recompute_cluster_representatives ids db =
  (Z.of_nat (size ids), Clusters.recompute_representatives ids db).
Proof.
  unfold _recompute_cluster_representatives. case_decide as E; [|done].
  subst. by rewrite recompute_nothing, size_empty.
Qed.

Lemma empty_clusters_step ids db :
  _delete_empty_clusters ids db =
  (Z.of_nat (size (Clusters.emptied_clusters ids db)), delete_clusters (Clusters.emptied_clusters ids db) db).
Proof.
  unfold _delete_empty_clusters. case_decide as E; [|done]. subst.
  assert (Clusters.emptied_clusters ∅ db = ∅) as ->.
  { apply set_eq. intros c. unfold Clusters.emptied_clusters. rewrite elem_of_filter. set_solver. }
  by rewrite Clusters.delete_clusters_empty, size_empty.
Qed.

Lemma prune_steps_eq c_raw c_items c_errors db :
  wf_db db →
  let raw := size (expired_raw_messages c_raw db) in
  let old := size (expired_items c_items db) in
  let affected := clusters_of (expired_items c_items db) db in
  let db1 := Clusters.recompute_representatives affected
               (delete_items (expired_items c_items db)
                 (delete_raw_messages (expired_raw_messages c_raw db) db)) in
  let db2 := delete_clusters (Clusters.emptied_clusters affected db1) db1 in
  prune_steps c_raw c_items c_errors db =
  Some (MkSummary STEPS (Z.of_nat raw) (Z.of_nat old)
          (batch_sizes DELETE_BATCH_SIZE raw) (batch_sizes DELETE_BATCH_SIZE old)
          (Z.of_nat (size affected))
          (Z.of_nat (size (Clusters.emptied_clusters affected db1))) 0 0
          (_delete_expired_ingest_errors c_errors db2).1 (sorted_ids affected),
        pruned c_raw c_items c_errors db).
Proof.
  intros W raw old affected db1 db2. unfold prune_steps. rewrite raw_batches_eq.
  cbn [mbind option_bind].
  rewrite item_batches_eq, expired_items_raw. cbn [mbind option_bind].
  change (clusters_of (expired_items c_items db) (delete_raw_messages _ db)) with affected.
  rewrite recompute_step. cbv beta iota. fold db1.
  rewrite empty_clusters_step. cbv beta iota. fold db2.
  rewrite orphans_none; [done|].
  apply delete_clusters_wf, Clusters.recompute_wf, delete_items_wf.
  by apply delete_raw_messages_wf.
Qed.

(** The cutoffs a run uses. *)
Definition cutoffs (now : datetime) (db : Db) : result exn (pystr * pystr * pystr) :=
  let retention := _resolve_settings db in
  let now := _normalize_datetime now in
  c_raw ← cutoff now (raw_messages_days retention);
  c_items ← cutoff now (items_days retention);
  c_errors ← cutoff now (ingest_errors_days retention);
  mret (c_raw, c_items, c_errors).

Lemma run_once_eq now db :
  wf_db db →
  run_once now db =
  match cutoffs now db with
  | Ok (c_raw, c_items, c_errors) =>
      (Ok (fst <$> prune_steps c_raw c_items c_errors db), pruned c_raw c_items c_errors db)
  | Err e => (Err e, db)
  end.
Proof.
  intros W. unfold run_once, cutoffs.
  destruct (cutoff _ (raw_messages_days _)) as [c_raw|]; [|done].
  destruct (cutoff _ (items_days _)) as [c_items|]; [|done].
  destruct (cutoff _ (ingest_errors_days _)) as [c_errors|]; [|done].
  cbn [mbind result_bind mret result_ret atomically]. by rewrite prune_steps_eq.
Qed.

(** One step at a time, on any database. *)
Lemma lookup_errors_step c db i e :
  ingest_errors (_delete_expired_ingest_errors c db).2 !! i = Some e ↔
  ingest_errors db !! i = Some e ∧ text_ltb (ie_created_at e) c = false.
Proof.
  simpl. rewrite lookup_drop_ids_Some. unfold expired_ingest_errors.
  rewrite elem_of_ids_where. split; intros [Hi Hr]; (split; [done|]).
  - destruct (text_ltb _ _) eqn:E; [|done]. destruct Hr; eauto.
  - intros (x&Hx&E). congruence.
Qed.

(** The tables each step passes through. *)
Lemma errors_step_frame c db :
  raw_messages (_delete_expired_ingest_errors c db).2 = raw_messages db ∧
  items (_delete_expired_ingest_errors c db).2 = items db ∧
  members (_delete_expired_ingest_errors c db).2 = members db ∧
  clusters (_delete_expired_ingest_errors c db).2 = clusters db.
Proof. done. Qed.
Lemma delete_clusters_frame ids db :
  raw_messages (delete_clusters ids db) = raw_messages db ∧
  items (delete_clusters ids db) = items db ∧
  ingest_errors (delete_clusters ids db) = ingest_errors db.
Proof. done. Qed.
Lemma recompute_frame ids db :
  raw_messages (Clusters.recompute_representatives ids db) = raw_messages db ∧
  items (Clusters.recompute_representatives ids db) = items db ∧
  members (Clusters.recompute_representatives ids db) = members db ∧
  ingest_errors (Clusters.recompute_representatives ids db) = ingest_errors db.
Proof. done. Qed.

(** The deletes of the first two steps. *)
Lemma delete_expired_tables r e db :
  let db0 := delete_items e (delete_raw_messages r db) in
  raw_messages db0 = drop_ids r (raw_messages db) ∧
  items db0 = drop_ids e (null_raw_message r <$> items db) ∧
  members db0 = filter (λ m : Z * Z, m.2 ∉ e) (members db) ∧
  clusters db0 = null_representative e <$> clusters db ∧
  ingest_errors db0 = ingest_errors db.
Proof. done. Qed.

(** What is left, table by table. *)
Section left.
Context (c_raw c_items c_errors : pystr) (db : Db).

(** The state after the third step. *)
Definition recomputed : Db :=
  Clusters.recompute_representatives (clusters_of (expired_items c_items db) db)
    (delete_items (expired_items c_items db)
       (delete_raw_messages (expired_raw_messages c_raw db) db)).

Lemma pruned_recomputed :
  pruned c_raw c_items c_errors db =
  (_delete_expired_ingest_errors c_errors
     (delete_clusters (Clusters.emptied_clusters (clusters_of (expired_items c_items db) db) recomputed)
        recomputed)).2.
Proof. done. Qed.

Lemma recomputed_tables :
  raw_messages recomputed = drop_ids (expired_raw_messages c_raw db) (raw_messages db) ∧
  items recomputed = drop_ids (expired_items c_items db)
    (null_raw_message (expired_raw_messages c_raw db) <$> items db) ∧
  members recomputed = filter (λ m : Z * Z, m.2 ∉ expired_items c_items db) (members db) ∧
  ingest_errors recomputed = ingest_errors db ∧
  ∀ c, is_Some (clusters recomputed !! c) ↔ is_Some (clusters db !! c).
Proof.
  unfold recomputed.
  destruct (delete_expired_tables (expired_raw_messages c_raw db) (expired_items c_items db) db)
    as (Hr&Hi&Hm&Hc&He).
  destruct (recompute_frame (clusters_of (expired_items c_items db) db)
    (delete_items (expired_items c_items db)
       (delete_raw_messages (expired_raw_messages c_raw db) db))) as (->&->&->&->).
  split_and!; try done. intros c. rewrite Clusters.is_Some_recompute, Hc. apply is_Some_fmap.
Qed.

Lemma elem_of_members_recomputed c i :
  (c, i) ∈ members recomputed ↔ (c, i) ∈ members db ∧ i ∉ expired_items c_items db.
Proof. destruct recomputed_tables as (_&_&->&_). rewrite elem_of_filter. simpl. tauto. Qed.

Lemma lookup_raw_pruned i r :
  raw_messages (pruned c_raw c_items c_errors db) !! i = Some r ↔
  raw_messages db !! i = Some r ∧ text_ltb (rm_created_at r) c_raw = false.
Proof.
  rewrite pruned_recomputed. destruct recomputed_tables as (E&_).
  destruct (errors_step_frame c_errors (delete_clusters (Clusters.emptied_clusters
    (clusters_of (expired_items c_items db) db) recomputed) recomputed)) as (->&_).
  destruct (delete_clusters_frame (Clusters.emptied_clusters
    (clusters_of (expired_items c_items db) db) recomputed) recomputed) as (->&_).
  rewrite E, lookup_drop_ids_Some. unfold expired_raw_messages.
  rewrite elem_of_ids_where. split; intros [Hi Hr]; (split; [done|]).
  - destruct (text_ltb _ _) eqn:El; [|done]. destruct Hr; eauto.
  - intros (x&Hx&El). congruence.
Qed.

Lemma items_pruned :
  items (pruned c_raw c_items c_errors db) =
  drop_ids (expired_items c_items db)
    (null_raw_message (expired_raw_messages c_raw db) <$> items db).
Proof.
  rewrite pruned_recomputed. destruct recomputed_tables as (_&E&_).
  destruct (errors_step_frame c_errors (delete_clusters (Clusters.emptied_clusters
    (clusters_of (expired_items c_items db) db) recomputed) recomputed)) as (_&->&_).
  destruct (delete_clusters_frame (Clusters.emptied_clusters
    (clusters_of (expired_items c_items db) db) recomputed) recomputed) as (_&->&_).
  done.
Qed.

Lemma is_Some_items_pruned i :
  is_Some (items (pruned c_raw c_items c_errors db) !! i) ↔
  ∃ x, items db !! i = Some x ∧ text_ltb (it_created_at x) c_items = false.
Proof.
  rewrite items_pruned, lookup_drop_ids. unfold expired_items.
  case_decide as Hi; rewrite elem_of_ids_where in Hi.
  - rewrite is_Some_alt. split; [done|]. intros (x&Hx&E). destruct Hi as (y&Hy&E'). congruence.
  - rewrite lookup_fmap, fmap_is_Some. split; [|intros (x&Hx&_); by eexists].
    intros [x Hx]. exists x. split; [done|]. destruct (text_ltb _ _) eqn:E; [|done].
    destruct Hi; eauto.
Qed.

Lemma lookup_items_pruned i x' :
  items (pruned c_raw c_items c_errors db) !! i = Some x' ↔
  ∃ x, items db !! i = Some x ∧ text_ltb (it_created_at x) c_items = false ∧
       x' = null_raw_message (expired_raw_messages c_raw db) x.
Proof.
  rewrite items_pruned, lookup_drop_ids_Some, lookup_fmap, fmap_Some.
  unfold expired_items. rewrite elem_of_ids_where. split.
  - intros [(x&Hx&->) Hn]. exists x. split_and!; [done| |done].
    destruct (text_ltb _ _) eqn:E; [|done]. destruct Hn; eauto.
  - intros (x&Hx&E&->). split; [by eauto|]. intros (y&Hy&E'). congruence.
Qed.

Lemma lookup_errors_pruned i e :
  ingest_errors (pruned c_raw c_items c_errors db) !! i = Some e ↔
  ingest_errors db !! i = Some e ∧ text_ltb (ie_created_at e) c_errors = false.
Proof.
  rewrite pruned_recomputed, lookup_errors_step.
  destruct (delete_clusters_frame (Clusters.emptied_clusters
    (clusters_of (expired_items c_items db) db) recomputed) recomputed) as (_&_&->).
  by destruct recomputed_tables as (_&_&_&->&_).
Qed.

Lemma elem_of_members_pruned c i :
  (c, i) ∈ members (pruned c_raw c_items c_errors db) ↔
  (c, i) ∈ members db ∧ i ∉ expired_items c_items db.
Proof.
  rewrite pruned_recomputed.
  destruct (errors_step_frame c_errors (delete_clusters (Clusters.emptied_clusters
    (clusters_of (expired_items c_items db) db) recomputed) recomputed)) as (_&_&->&_).
  by rewrite Clusters.members_delete_emptied, elem_of_members_recomputed.
Qed.

Lemma is_Some_clusters_pruned c :
  is_Some (clusters (pruned c_raw c_items c_errors db) !! c) ↔
  is_Some (clusters db !! c) ∧
  ((∃ i, (c, i) ∈ members db ∧ i ∉ expired_items c_items db) ∨ ∀ i, (c, i) ∉ members db).
Proof.
  rewrite pruned_recomputed.
  destruct (errors_step_frame c_errors (delete_clusters (Clusters.emptied_clusters
    (clusters_of (expired_items c_items db) db) recomputed) recomputed)) as (_&_&_&->).
  rewrite Clusters.is_Some_delete_emptied. destruct recomputed_tables as (_&_&_&_&->).
  apply and_iff_compat_l. setoid_rewrite elem_of_members_recomputed.
  rewrite elem_of_clusters_of. split.
  - intros H. destruct (decide (Clusters.member_items db c = ∅)) as [E|E].
    + right. intros i Hi. apply Clusters.elem_of_member_items in Hi. set_solver.
    + left. apply set_choose_L in E as [i Hi]. apply Clusters.elem_of_member_items in Hi.
      destruct (decide (i ∈ expired_items c_items db)); eauto.
  - intros [?|H]; [done|]. intros (i&_&Hi). by apply H in Hi.
Qed.

Lemma untouched_cluster_pruned c :
  c ∉ clusters_of (expired_items c_items db) db →
  clusters (pruned c_raw c_items c_errors db) !! c =
  null_representative (expired_items c_items db) <$> clusters db !! c.
Proof.
  intros Hc. rewrite pruned_recomputed.
  destruct (errors_step_frame c_errors (delete_clusters (Clusters.emptied_clusters
    (clusters_of (expired_items c_items db) db) recomputed) recomputed)) as (_&_&_&->).
  unfold delete_clusters. cbn [clusters set_clusters].
  rewrite lookup_drop_ids, decide_False.
  - unfold recomputed. rewrite Clusters.lookup_recompute.
    destruct (delete_expired_tables (expired_raw_messages c_raw db) (expired_items c_items db) db)
      as (_&_&_&->&_).
    rewrite lookup_fmap, <-option_fmap_compose. apply option_fmap_ext. intros row. simpl.
    by rewrite decide_False.
  - unfold Clusters.emptied_clusters. rewrite elem_of_filter. tauto.
Qed.

Lemma representative_pruned c row :
  clusters (pruned c_raw c_items c_errors db) !! c = Some row →
  c ∈ clusters_of (expired_items c_items db) db →
  cl_representative row = Clusters.elect (pruned c_raw c_items c_errors db) c.
Proof.
  intros Hc Ha. transitivity (Clusters.elect recomputed c).
  - rewrite pruned_recomputed in Hc.
    destruct (errors_step_frame c_errors (delete_clusters (Clusters.emptied_clusters
      (clusters_of (expired_items c_items db) db) recomputed) recomputed)) as (_&_&_&E).
    rewrite E in Hc. apply lookup_drop_ids_Some in Hc as [Hc _].
    unfold recomputed in Hc at 1. rewrite Clusters.lookup_recompute, fmap_Some in Hc.
    destruct Hc as (row0&_&->). by rewrite decide_True.
  - apply Clusters.elect_ext.
    + intros i. by rewrite elem_of_members_recomputed, elem_of_members_pruned.
    + rewrite items_pruned. by destruct recomputed_tables as (_&->&_).
Qed.
End left.

(** C7. When the items are not to be kept forever (the retention in days the settings
    resolve to is not 0, the value the documentation reserves for that), a run that
    returns removed exactly what had expired: the raw messages, items and ingest errors
    that are left are those whose [created_at] text is not below the cutoff of their
    table, an item that is left differs at most in its reference to a raw message that
    expired, memberships go with their item and only so, and of the clusters exactly
    those that lost their last member are gone. Clusters that lost some member are
    represented by the best of the members they have left; clusters that lost none keep
    their row, a representative that expired apart. *)
Theorem run_once_exact now db s db' :
  wf_db db → items_days (_resolve_settings db) ≠ 0 →
  run_once now db = (Ok s, db') →
  ∃ c_raw c_items c_errors,
    cutoffs now db = Ok (c_raw, c_items, c_errors) ∧
    (∀ i r, raw_messages db' !! i = Some r ↔
       raw_messages db !! i = Some r ∧ text_ltb (rm_created_at r) c_raw = false) ∧
    (∀ i x', items db' !! i = Some x' ↔
       ∃ x, items db !! i = Some x ∧ text_ltb (it_created_at x) c_items = false ∧
            x' = null_raw_message (expired_raw_messages c_raw db) x) ∧
    (∀ i e, ingest_errors db' !! i = Some e ↔
       ingest_errors db !! i = Some e ∧ text_ltb (ie_created_at e) c_errors = false) ∧
    (∀ c i, (c, i) ∈ members db' ↔ (c, i) ∈ members db ∧ is_Some (items db' !! i)) ∧
    (∀ c, is_Some (clusters db' !! c) ↔
       is_Some (clusters db !! c) ∧
       ((∃ i, (c, i) ∈ members db') ∨ ∀ i, (c, i) ∉ members db)) ∧
    (∀ c row, clusters db' !! c = Some row →
       (∃ i, (c, i) ∈ members db ∧ (c, i) ∉ members db') →
       cl_representative row = Clusters.elect db' c) ∧
    (∀ c, (∀ i, (c, i) ∈ members db → (c, i) ∈ members db') →
       clusters db' !! c = null_representative (expired_items c_items db) <$> clusters db !! c).
Proof.
  intros W _. rewrite run_once_eq by done.
  destruct (cutoffs now db) as [[[c_raw c_items] c_errors]|] eqn:Ec; [|done].
  intros [= _ <-]. exists c_raw, c_items, c_errors. split; [done|].
  split_and!.
  - intros i r. apply lookup_raw_pruned.
  - intros i x'. apply lookup_items_pruned.
  - intros i e. apply lookup_errors_pruned.
  - intros c i. rewrite elem_of_members_pruned, is_Some_items_pruned.
    split; intros [Hm Hi]; (split; [done|]).
    + destruct (fk_members _ W _ _ Hm) as [_ [x Hx]]. exists x. split; [done|].
      destruct (text_ltb _ _) eqn:El; [|done].
      destruct Hi. apply elem_of_ids_where. eauto.
    + intros (x&Hx&El)%elem_of_ids_where. destruct Hi as (y&Hy&El'). congruence.
  - intros c. rewrite is_Some_clusters_pruned. by setoid_rewrite elem_of_members_pruned.
  - intros c row Hc (i&Hi&Hni). eapply representative_pruned; [done|].
    apply elem_of_clusters_of. exists i. split; [|done].
    rewrite elem_of_members_pruned in Hni. destruct (decide (i ∈ expired_items c_items db)); tauto.
  - intros c Hkeep. apply untouched_cluster_pruned. intros (i&Hi&Hm)%elem_of_clusters_of.
    by apply Hkeep, elem_of_members_pruned in Hm as [_ ?].
Qed.

Lemma batch_sizes_bounds B n :
  (0 < B)%nat → Forall (λ k, 0 < k ≤ Z.of_nat B) (batch_sizes B n).
Proof.
  intros HB. unfold batch_sizes. apply Forall_app. split.
  - apply Forall_replicate. lia.
  - pose proof (Nat.mod_upper_bound n B). case_decide; repeat constructor; lia.
Qed.


(** With [retention.items_days] stored as 0 the items cutoff is the clock itself,
    so a run deletes every item whose [created_at] is before now. (The design document
    gives 0 the meaning "keep items forever".) *)
Theorem items_days_zero_deletes_all now db s db' i x :
  wf_db db → settings db !! ITEMS_RETENTION_DAYS_KEY = Some (JInt 0) →
  run_once now db = (Ok s, db') →
  items db !! i = Some x →
  text_ltb (it_created_at x) (sql_datetime (_normalize_datetime now)) = true →
  items db' !! i = None.
Proof.
  intros W H0. rewrite run_once_eq by done.
  destruct (cutoffs now db) as [[[c_raw c_items] c_errors]|] eqn:Ec; [|done].
  intros [= _ <-] Hx Hlt.
  assert (c_items = sql_datetime (_normalize_datetime now)) as ->.
  { unfold cutoffs in Ec.
    apply bind_Ok_inv in Ec as (?&_&Ec). apply bind_Ok_inv in Ec as (c&E1&Ec).
    apply bind_Ok_inv in Ec as (?&_&[= -> -> ->]).
    unfold _resolve_settings in E1. cbn [items_days] in E1.
    unfold _resolve_positive_days_setting in E1. rewrite H0 in E1. unfold cutoff in E1.
    simpl in E1. unfold dt_add in E1. destruct (in_range _); [|done]. injection E1 as <-.
    rewrite Z.add_0_r. by destruct (_normalize_datetime now). }
  apply eq_None_not_Some. rewrite is_Some_items_pruned. intros (y&Hy&Hge). congruence.
Qed.

(** ** Instances: the sample database on 2024-03-03, one day of retention for items *)

Definition sample_prune_db : Db :=
  set_settings {[ITEMS_RETENTION_DAYS_KEY := JInt 1]} sample_db.
Definition sample_now : datetime := utc_day 738947 43200.

Lemma sample_prune_db_wf : wf_db sample_prune_db.
Proof. apply wf_check_sound. vm_compute. reflexivity. Qed.

Definition sample_run := run_once sample_now sample_prune_db.

Lemma run_once_exact_witness :
  clusters sample_run.2 !! 1 = None ∧
  (∃ i, (2, i) ∈ members sample_run.2) ∧
  cl_representative <$> clusters sample_run.2 !! 2 = Some (Clusters.elect sample_run.2 2).
Proof.
  destruct sample_run as [[s|e] db'] eqn:E; [|by vm_compute in E].
  assert (clusters db' !! 1 = None ∧ (2, 3) ∈ members db' ∧ (2, 2) ∉ members db' ∧
          clusters db' !! 2 = Some (MkCluster (u "k2") (Some 3))) as (H1&H3&H2&Hc).
  { replace db' with sample_run.2 by (by rewrite E).
    split_and!; by_eval. }
  destruct (run_once_exact sample_now sample_prune_db s db' sample_prune_db_wf ltac:(by_eval) E)
    as (c1&c2&c3&_&_&_&_&_&_&Hrep&_).
  simpl. split_and!; [done|by exists 3|]. rewrite Hc. simpl. f_equal.
  apply (Hrep 2 _ Hc). exists 2. split; [by_eval|done].
Defined.


Definition zero_days_db : Db :=
  set_settings {[ITEMS_RETENTION_DAYS_KEY := JInt 0]} sample_db.

Lemma items_days_zero_witness :
  ∃ s db', run_once sample_now zero_days_db = (Ok s, db') ∧ items db' !! 3 = None.
Proof.
  assert (wf_db zero_days_db) as W by (apply wf_check_sound; vm_compute; reflexivity).
  destruct (run_once sample_now zero_days_db) as [[s|e] db'] eqn:E; [|by vm_compute in E].
  exists s, db'. split; [done|].
  apply (items_days_zero_deletes_all sample_now zero_days_db s db' 3 _ W eq_refl E eq_refl).
  vm_compute. reflexivity.
Defined.
End Prune.
