(* ===== verification/Channels.v ===== *)
(** Channels and their polling state: the channels repository with the hard delete
    ([Channels], src/tca/storage/channels_repo.py), polling state ([ChannelStates],
    channel_state_repo.py) and account pause flags ([AccountPause],
    account_pause_repo.py). *)

From S2P Require Import Prelude PyValue PyTime PyIso Schema Clusters.
Local Open Scope Z_scope.

Module Channels.

Record ChannelRecord := MkChannelRecord {
  id : Z;
  account_id : Z;
  telegram_channel_id : Z;
  name : pystr;
  username : option pystr;
  is_enabled : bool;
}.

(** A row of [telegram_channels] has the types the decoder asks for. *)
Definition _decode_channel_row (i : Z) (row : Channel) : ChannelRecord :=
  MkChannelRecord i (ch_account_id row) (ch_telegram_channel_id row) (ch_name row)
    (ch_username row) (ch_is_enabled row).

Definition create_channel (account telegram_id : Z) (nm : pystr) (user : option pystr)
    (db : Db) : result exn ChannelRecord * Db :=
  atomically db
    (if any_row (λ c, Z.eqb (ch_telegram_channel_id c) telegram_id) (channels db)
     then Err (IntegrityError (UniqueFailed "telegram_channels.telegram_channel_id"))
     else if decide (is_Some (accounts db !! account))
     then let i := next_id (channels db) in
          let row := MkChannel account telegram_id nm user true in
          Ok (_decode_channel_row i row, set_channels (<[i := row]> (channels db)) db)
     else Err (IntegrityError ForeignKeyFailed)).

Definition get_channel_by_id (i : Z) (db : Db) : option ChannelRecord :=
  _decode_channel_row i <$> channels db !! i.

(** [UPDATE telegram_channels SET ... WHERE id = i RETURNING ...] *)
Definition update_row (f : Channel → Channel) (i : Z) (db : Db) : option ChannelRecord * Db :=
  match channels db !! i with
  | None => (None, db)
  | Some row => (Some (_decode_channel_row i (f row)),
                 set_channels (<[i := f row]> (channels db)) db)
  end.

Definition update_channel (i : Z) (nm : pystr) (user : option pystr) (enabled : bool)
  : Db → option ChannelRecord * Db :=
  update_row (λ row, MkChannel (ch_account_id row) (ch_telegram_channel_id row)
                       nm user enabled) i.

Definition _set_enabled_state (i : Z) (enabled : bool) : Db → option ChannelRecord * Db :=
  update_row (λ row, MkChannel (ch_account_id row) (ch_telegram_channel_id row)
                       (ch_name row) (ch_username row) enabled) i.
Definition disable_channel (i : Z) : Db → option ChannelRecord * Db :=
  _set_enabled_state i false.
Definition enable_channel (i : Z) : Db → option ChannelRecord * Db :=
  _set_enabled_state i true.

(** [SELECT ... WHERE p ORDER BY id ASC] *)
Definition select_channels (p : Channel → bool) (db : Db) : list ChannelRecord :=
  omap (λ i, get_channel_by_id i db) (sorted_ids (ids_where p (channels db))).

Definition list_active_channels (account : option Z) (db : Db) : list ChannelRecord :=
  select_channels (λ c, ch_is_enabled c &&
    match account with None => true | Some a => Z.eqb (ch_account_id c) a end) db.

(** The account of a channel, by the inner join, exists and is not paused. *)
Definition account_unpaused (db : Db) (c : Channel) : bool :=
  match accounts db !! ch_account_id c with
  | Some a => bool_decide (ac_paused_at a = None)
  | None => false
  end.
Definition list_schedulable_channels (db : Db) : list ChannelRecord :=
  select_channels (λ c, ch_is_enabled c && account_unpaused db c) db.

(** ** Hard delete *)

Definition items_of_channel (i : Z) (db : Db) : gset Z :=
  ids_where (λ x, Z.eqb (it_channel_id x) i) (items db).
Definition raw_of_channel (i : Z) (db : Db) : gset Z :=
  ids_where (λ r, Z.eqb (rm_channel_id r) i) (raw_messages db).
(** [SELECT DISTINCT members.cluster_id ... INNER JOIN items ... WHERE channel_id = i] *)
Definition clusters_of_channel (i : Z) (db : Db) : gset Z :=
  set_map fst (filter (λ m : Z * Z, m.2 ∈ items_of_channel i db) (members db)).

(** The payload, keys sorted; the ids of the unordered DISTINCT select come here in
    increasing order. *)
Definition purge_payload (i : Z) (nm : pystr) (n_items n_raw : Z) (ids : list Z) : JSONValue :=
  JDict [(u "affected_cluster_ids", JList (JInt <$> ids)); (u "channel_id", JInt i);
         (u "channel_name", JStr nm); (u "deleted_items", JInt n_items);
         (u "deleted_raw_messages", JInt n_raw)].

Definition purge_audit (now : pystr) (i : Z) (nm : pystr) (n_items n_raw : Z) (ids : list Z)
  : Notification :=
  MkNotification (u "channel_purged") (u "low")
    (u "Channel " ++ str_of_int i ++ u " purged.")
    (Some (purge_payload i nm n_items n_raw ids)) false None now.

(** The DELETE and, when clusters are affected, the recompute and the delete of the
    empty ones. *)
Definition purge_rows (i : Z) (db : Db) : Db :=
  let cluster_ids := clusters_of_channel i db in
  let db1 := delete_channels {[i]} db in
  if decide (cluster_ids = ∅) then db1 else Clusters.refresh cluster_ids db1.

(** [now] is the [created_at] default of the audit row. *)
Definition purge_channel (now : pystr) (i : Z) (db : Db) : option ChannelRecord * Db :=
  match channels db !! i with
  | None => (None, db)
  | Some row =>
      let channel := _decode_channel_row i row in
      let cluster_ids := clusters_of_channel i db in
      let item_count := Z.of_nat (size (items_of_channel i db)) in
      let raw_count := Z.of_nat (size (raw_of_channel i db)) in
      (Some channel,
       (insert_notification (purge_audit now i (name channel) item_count raw_count
                               (sorted_ids cluster_ids))
          (purge_rows i db)).2)
  end.

(** ** Lemmas *)

Lemma select_channels_ids p db :
  id <$> select_channels p db = sorted_ids (ids_where p (channels db)).
Proof.
  unfold select_channels.
  assert (∀ i, i ∈ sorted_ids (ids_where p (channels db)) → is_Some (channels db !! i)) as H.
  { intros i Hi. apply elem_of_sorted_ids, elem_of_ids_where in Hi as (x&Hx&_). by eexists. }
  induction (sorted_ids _) as [|i l IH]; [done|].
  destruct (H i ltac:(by left)) as [row Hrow]. simpl. unfold get_channel_by_id.
  rewrite Hrow. simpl. f_equal. apply IH. intros j Hj. apply H. by right.
Qed.

Lemma elem_of_schedulable i db :
  i ∈ id <$> list_schedulable_channels db ↔
  ∃ c a, channels db !! i = Some c ∧ ch_is_enabled c = true ∧
    accounts db !! ch_account_id c = Some a ∧ ac_paused_at a = None.
Proof.
  unfold list_schedulable_channels.
  rewrite select_channels_ids, elem_of_sorted_ids, elem_of_ids_where.
  unfold account_unpaused. split.
  - intros (c&Hc&[He Ha]%andb_true_iff). destruct (accounts db !! _) as [a|] eqn:Ea; [|done].
    apply bool_decide_eq_true in Ha. eauto 6.
  - intros (c&a&Hc&He&Ea&Ha). exists c. split; [done|]. rewrite He, Ea. simpl.
    by apply bool_decide_eq_true.
Qed.

Lemma elem_of_items_of_channel i db k :
  k ∈ items_of_channel i db ↔ ∃ x, items db !! k = Some x ∧ it_channel_id x = i.
Proof. unfold items_of_channel. rewrite elem_of_ids_where. by setoid_rewrite Z.eqb_eq. Qed.

Lemma elem_of_clusters_of_channel i db c :
  c ∈ clusters_of_channel i db ↔ ∃ k, k ∈ items_of_channel i db ∧ (c, k) ∈ members db.
Proof.
  unfold clusters_of_channel. rewrite elem_of_map. split.
  - intros ([c' k]&->&[Hk Hm]%elem_of_filter). eauto.
  - intros (k&Hk&Hm). exists (c, k). split; [done|]. by apply elem_of_filter.
Qed.

Lemma purge_rows_eq i db :
  purge_rows i db =
  Clusters.refresh (clusters_of_channel i db) (delete_channels {[i]} db).
Proof.
  unfold purge_rows. destruct (decide (clusters_of_channel i db = ∅)) as [E|E]; [|reflexivity].
  rewrite E, Clusters.refresh_nothing. reflexivity.
Qed.

Lemma purge_channel_eq now i db row :
  channels db !! i = Some row →
  purge_channel now i db =
  (Some (_decode_channel_row i row),
   (insert_notification
      (purge_audit now i (ch_name row) (Z.of_nat (size (items_of_channel i db)))
         (Z.of_nat (size (raw_of_channel i db))) (sorted_ids (clusters_of_channel i db)))
      (purge_rows i db)).2).
Proof. intros Hrow. unfold purge_channel. rewrite Hrow. reflexivity. Qed.

Lemma items_in_eq i db :
  ids_where (λ x, bool_decide (it_channel_id x ∈ ({[i]} : gset Z))) (items db) =
  items_of_channel i db.
Proof.
  apply set_eq. intros k. rewrite elem_of_items_of_channel, elem_of_ids_where.
  setoid_rewrite bool_decide_eq_true. by setoid_rewrite elem_of_singleton.
Qed.
Lemma raws_in_eq i db :
  ids_where (λ x, bool_decide (rm_channel_id x ∈ ({[i]} : gset Z))) (raw_messages db) =
  raw_of_channel i db.
Proof.
  apply set_eq. intros k. unfold raw_of_channel. rewrite !elem_of_ids_where.
  setoid_rewrite bool_decide_eq_true. setoid_rewrite elem_of_singleton.
  by setoid_rewrite Z.eqb_eq.
Qed.

(** What the cascade of a channel delete leaves. *)
Lemma delete_channel_tables i db :
  let db1 := delete_channels {[i]} db in
  channels db1 = drop_ids {[i]} (channels db) ∧
  channel_states db1 = drop_ids {[i]} (channel_states db) ∧
  notifications db1 = notifications db ∧
  (∀ k x', items db1 !! k = Some x' ↔
     ∃ x, items db !! k = Some x ∧ it_channel_id x ≠ i ∧
          x' = null_raw_message (raw_of_channel i db) x) ∧
  (∀ k r, raw_messages db1 !! k = Some r ↔
     raw_messages db !! k = Some r ∧ rm_channel_id r ≠ i) ∧
  (∀ g c, (g, c) ∈ group_members db1 ↔ (g, c) ∈ group_members db ∧ c ≠ i) ∧
  (∀ k j, poll_jobs db1 !! k = Some j ↔ poll_jobs db !! k = Some j ∧ pj_channel_id j ≠ i) ∧
  (∀ c k, (c, k) ∈ members db1 ↔ (c, k) ∈ members db ∧ k ∉ items_of_channel i db) ∧
  clusters db1 = null_representative (items_of_channel i db) <$> clusters db.
Proof.
  cbv zeta. split_and!; try done.
  - intros k x'.
    assert (items (delete_channels {[i]} db) = null_raw_message (raw_of_channel i db) <$>
      drop_ids (items_of_channel i db) (items db)) as ->
      by (unfold delete_channels; by rewrite items_in_eq, raws_in_eq).
    rewrite lookup_fmap, fmap_Some. setoid_rewrite lookup_drop_ids_Some.
    setoid_rewrite elem_of_items_of_channel. split.
    + intros (x&[Hx Hn]&->). exists x. split_and!; [done| |done]. intros E. apply Hn. eauto.
    + intros (x&Hx&Hn&->). exists x. split_and!; [done| |done]. intros (y&Hy&?). congruence.
  - intros k r. simpl. rewrite lookup_drop_ids_Some, elem_of_ids_where.
    split; intros [Hr Hk]; (split; [done|]).
    + intros E. apply Hk. exists r. split; [done|]. apply bool_decide_eq_true. set_solver.
    + intros (y&Hy&E%bool_decide_eq_true). apply elem_of_singleton in E. congruence.
  - intros g c. simpl. rewrite elem_of_filter. simpl. rewrite elem_of_singleton. tauto.
  - intros k j. simpl. rewrite map_lookup_filter_Some. simpl. rewrite elem_of_singleton. tauto.
  - intros c k. simpl. rewrite elem_of_filter. simpl. rewrite elem_of_items_of_channel, elem_of_ids_where.
    setoid_rewrite bool_decide_eq_true. setoid_rewrite elem_of_singleton. tauto.
  - unfold delete_channels. by rewrite items_in_eq.
Qed.

Lemma delete_channel_side_tables i db :
  let db1 := delete_channels {[i]} db in
  (∀ k d', decisions db1 !! k = Some d' ↔
     ∃ d, decisions db !! k = Some d ∧ de_item_id d ∉ items_of_channel i db ∧
          d' = null_candidate (items_of_channel i db) d) ∧
  ingest_errors db1 = null_error_channel {[i]} <$> ingest_errors db ∧
  deliveries db1 = deliveries db ∧
  accounts db1 = accounts db ∧ groups db1 = groups db ∧ settings db1 = settings db ∧
  rotation db1 = rotation db ∧ auth_sessions db1 = auth_sessions db.
Proof.
  cbv zeta. split_and!; try done. intros k d'.
  assert (decisions (delete_channels {[i]} db) = null_candidate (items_of_channel i db) <$>
    filter (λ kv : Z * DecisionRow, de_item_id kv.2 ∉ items_of_channel i db) (decisions db))
    as -> by (unfold delete_channels; by rewrite items_in_eq).
  rewrite lookup_fmap, fmap_Some. setoid_rewrite map_lookup_filter_Some. simpl. naive_solver.
Qed.

Lemma purge_wf now i db : wf_db db → wf_db (purge_channel now i db).2.
Proof.
  intros W. destruct (channels db !! i) as [row|] eqn:E.
  - rewrite (purge_channel_eq _ _ _ _ E).
    apply insert_notification_wf. rewrite purge_rows_eq.
    by apply Clusters.refresh_wf, delete_channels_wf.
  - unfold purge_channel. by rewrite E.
Qed.

Lemma create_channel_wf account tid nm user db :
  wf_db db → wf_db (create_channel account tid nm user db).2.
Proof.
  intros W. unfold create_channel. destruct (any_row _ _) eqn:Eu; [done|].
  case_decide as Ha; [|done]. simpl.
  pose proof (proj1 (any_row_false _ _) Eu) as Hu.
  assert (∀ i c, channels db !! i = Some c → ch_telegram_channel_id c ≠ tid) as Hu'.
  { intros i c Hc. apply Hu in Hc. by apply Z.eqb_neq in Hc. }
  apply set_channels_wf; [done|intros; by apply is_Some_insert| |].
  - intros i c Hc. insert_cases; [done|]. by eapply fk_channels_account.
  - intros i j c d Hc Hd. insert_cases; simpl; try done; intros E.
    + symmetry in E. by destruct (Hu' _ _ ltac:(eassumption)).
    + by destruct (Hu' _ _ ltac:(eassumption)).
    + by eapply uq_channels.
Qed.

Lemma update_row_wf f i db :
  (∀ c, ch_account_id (f c) = ch_account_id c ∧
        ch_telegram_channel_id (f c) = ch_telegram_channel_id c) →
  wf_db db → wf_db (update_row f i db).2.
Proof.
  intros Hf W. unfold update_row. destruct (channels db !! i) as [row|] eqn:Er; [|done]. simpl.
  destruct (Hf row) as [Ha Ht].
  apply set_channels_wf; [done|intros; by apply is_Some_insert| |].
  - intros j c Hc. insert_cases; [|by eapply fk_channels_account].
    rewrite Ha. by eapply fk_channels_account.
  - intros j k c d Hc Hd. insert_cases; simpl; try done; rewrite ?Ht; intros;
      by eapply uq_channels.
Qed.

(** C12. Purging an existing channel, table by table. The channel and its polling state
    are gone, and of the rows that belong to it exactly its items, raw messages, queued
    jobs, group memberships, the cluster memberships of its items and the decisions
    about its items. All other items, raw messages, jobs and memberships are left; an
    item of another channel differs at most in a reference to a purged raw message, a
    decision about such an item in references to purged items and to clusters that are
    gone, an ingest error in its reference to the channel. Gone are exactly the clusters
    that lost members and have none left, with their deliveries; clusters that lost some
    and kept some are represented by their best remaining member; every other cluster
    keeps its row (only a representative that was itself purged is cleared) and its
    delivery. Accounts, groups, settings and sessions are as they were, and exactly one
    notification is added, the audit record with the counts. *)
Theorem purge_channel_spec now i db row r db' :
  wf_db db → channels db !! i = Some row → purge_channel now i db = (r, db') →
  let purged_items := items_of_channel i db in
  let touched := clusters_of_channel i db in
  let gone := dom (clusters db) ∖ dom (clusters db') in
  r = Some (_decode_channel_row i row) ∧
  channels db' = drop_ids {[i]} (channels db) ∧
  channel_states db' = drop_ids {[i]} (channel_states db) ∧
  (∀ k x', items db' !! k = Some x' ↔
     ∃ x, items db !! k = Some x ∧ it_channel_id x ≠ i ∧
          x' = null_raw_message (raw_of_channel i db) x) ∧
  (∀ k m, raw_messages db' !! k = Some m ↔
     raw_messages db !! k = Some m ∧ rm_channel_id m ≠ i) ∧
  (∀ g c, (g, c) ∈ group_members db' ↔ (g, c) ∈ group_members db ∧ c ≠ i) ∧
  (∀ k j, poll_jobs db' !! k = Some j ↔ poll_jobs db !! k = Some j ∧ pj_channel_id j ≠ i) ∧
  (∀ c k, (c, k) ∈ members db' ↔ (c, k) ∈ members db ∧ k ∉ purged_items) ∧
  (∀ c, is_Some (clusters db' !! c) ↔ is_Some (clusters db !! c) ∧
     (c ∈ touched → ∃ k, (c, k) ∈ members db')) ∧
  (∀ c new, clusters db' !! c = Some new → c ∈ touched →
     cl_key <$> clusters db !! c = Some (cl_key new) ∧
     cl_representative new = Clusters.elect db' c) ∧
  (∀ c, c ∉ touched →
     clusters db' !! c = null_representative purged_items <$> clusters db !! c) ∧
  (∀ k d', decisions db' !! k = Some d' ↔
     ∃ d, decisions db !! k = Some d ∧ de_item_id d ∉ purged_items ∧
          d' = null_cluster gone (null_candidate purged_items d)) ∧
  (∀ k d, deliveries db' !! k = Some d ↔
     deliveries db !! k = Some d ∧ is_Some (clusters db' !! dl_cluster_id d)) ∧
  ingest_errors db' = null_error_channel {[i]} <$> ingest_errors db ∧
  accounts db' = accounts db ∧ groups db' = groups db ∧ settings db' = settings db ∧
  rotation db' = rotation db ∧ auth_sessions db' = auth_sessions db ∧
  notifications db' = <[next_id (notifications db) :=
    purge_audit now i (ch_name row) (Z.of_nat (size (items_of_channel i db)))
      (Z.of_nat (size (raw_of_channel i db))) (sorted_ids (clusters_of_channel i db))]>
    (notifications db).
Proof.
  intros W Hrow. rewrite (purge_channel_eq _ _ _ _ Hrow). intros [= <- <-].
  pose proof (purge_rows_eq i db) as Ep. set (ids := clusters_of_channel i db) in *.
  pose proof (delete_channels_wf {[i]} db W) as W1.
  destruct (delete_channel_tables i db) as (Hc&Hs&Hn&Hi&Hr&Hg&Hj&Hm&Hk). cbv zeta in *.
  destruct (delete_channel_side_tables i db) as (Hd&He&Hv&Ha&Hgr&Hse&Hro&Hau). cbv zeta in *.
  set (db1 := delete_channels {[i]} db) in *. clearbody db1.
  destruct (Clusters.refresh_frame ids db1) as (Fa&Fc&Fgr&Fg&Fs&Fr&Fi&Fer&Fn&Fse&Fj&Fro&Fau).
  pose proof (Clusters.refresh_members ids db1) as Fm.
  pose proof (Clusters.refresh_clusters ids db1) as Fk.
  pose proof (Clusters.refresh_representative ids db1) as Fe.
  pose proof (Clusters.refresh_key ids db1) as Fkey.
  pose proof (Clusters.refresh_other ids db1) as Fo.
  pose proof (Clusters.refresh_decisions ids db1) as Fd.
  pose proof (λ k d, Clusters.refresh_deliveries ids db1 k d W1) as Fv.
  rewrite <-Ep in *. set (db2 := purge_rows i db) in *. clearbody db2. clear Ep. simpl.
  rewrite Fc, Fg, Fs, Fr, Fi, Fn, Fj, Fer, Fa, Fgr, Fse, Fro, Fau, Hn.
  assert (dom (clusters db1) = dom (clusters db)) as Hdom by (rewrite Hk; apply dom_fmap_L).
  split_and!; try done.
  - intros c k. by rewrite Fm, Hm.
  - intros c. rewrite Fk, Hk, is_Some_fmap. by setoid_rewrite Fm.
  - intros c new Hnew Hin. split; [|by apply Fe].
    destruct (Fkey _ _ Hnew) as (row0&H0&->). rewrite Hk, lookup_fmap, fmap_Some in H0.
    destruct H0 as (row1&->&->). done.
  - intros c Hin. destruct (clusters db !! c) as [old|] eqn:Eo; simpl.
    + apply Fo; [|done]. by rewrite Hk, lookup_fmap, Eo.
    + apply eq_None_not_Some. rewrite Fk, Hk, is_Some_fmap, Eo. intros [[? ?] _]. done.
  - intros k d'. rewrite Fd, Hdom, lookup_fmap, fmap_Some. setoid_rewrite Hd. naive_solver.
  - intros k d. by rewrite Fv, Hv.
Qed.
(** Purging channel 2 of the sample database: item 3 leaves cluster 2. *)
Definition sample_purge := purge_channel (sample_time 9) 2 sample_db.

Lemma purge_channel_spec_witness :
  sample_purge.1 = get_channel_by_id 2 sample_db ∧
  (2, 2) ∈ members sample_purge.2 ∧ items sample_purge.2 !! 3 = None.
Proof.
  destruct sample_purge as [r db'] eqn:E.
  destruct (purge_channel_spec (sample_time 9) 2 sample_db _ r db' sample_db_wf eq_refl E)
    as (->&_&_&Hi&_&_&_&Hm&_). cbv zeta in Hm.
  simpl. split_and!; [done| |].
  - apply Hm. split; [by_eval|]. intros (x&Hx&Ek)%elem_of_items_of_channel.
    vm_compute in Hx. injection Hx as <-. done.
  - apply eq_None_not_Some. intros [x' (x&Hx&Hne&_)%Hi]. vm_compute in Hx.
    injection Hx as <-. by apply Hne.
Defined.
End Channels.

Module ChannelStates.

Record ChannelStateRecord := MkStateRecord {
  channel_id : Z;
  cursor : option ChannelCursor;
  paused_until : option datetime;
  last_success_at : option datetime;
}.

(** Timestamps read back naive are taken as UTC. *)
Definition _decode_state_row (i : Z) (s : ChannelState) : ChannelStateRecord :=
  MkStateRecord i (cs_cursor s) (_normalize_datetime <$> cs_paused_until s)
    (_normalize_datetime <$> cs_last_success_at s).

Definition get_state (i : Z) (db : Db) : option ChannelStateRecord :=
  _decode_state_row i <$> channel_states db !! i.

Definition list_states_by_channel_ids (ids : list Z) (db : Db) : gmap Z ChannelStateRecord :=
  match ids with
  | [] => ∅
  | _ => map_imap (λ i s, if decide (i ∈ ids) then Some (_decode_state_row i s) else None)
           (channel_states db)
  end.

(** [INSERT INTO channel_state ... ON CONFLICT(channel_id) DO UPDATE SET ...]: [new]
    is the row inserted, [update] the update of an existing one. *)
Definition upsert (i : Z) (new : ChannelState) (update : ChannelState → ChannelState)
    (db : Db) : result exn ChannelStateRecord * Db :=
  atomically db
    (let row := match channel_states db !! i with
                | Some s => update s
                | None => new
                end in
     if decide (is_Some (channel_states db !! i) ∨ is_Some (channels db !! i))
     then Ok (_decode_state_row i row, set_channel_states (<[i := row]> (channel_states db)) db)
     else Err (IntegrityError ForeignKeyFailed)).

Definition upsert_state (i : Z) (pause success : option datetime)
  : Db → result exn ChannelStateRecord * Db :=
  upsert i (MkChannelState None pause success)
    (λ s, MkChannelState (cs_cursor s) pause success).

Definition update_pause (i : Z) (pause : option datetime)
  : Db → result exn ChannelStateRecord * Db :=
  upsert i (MkChannelState None pause None)
    (λ s, MkChannelState (cs_cursor s) pause (cs_last_success_at s)).

(** [_format_cursor_timestamp] stores the instant in UTC. *)
Definition to_utc (d : datetime) : result exn datetime :=
  dt_add (DT (dt_wall d) (Some 0)) (- default 0 (dt_offset d)).
Definition stored_cursor (c : option ChannelCursor) : result exn (option ChannelCursor) :=
  match c with
  | None => Ok None
  | Some c =>
      d ← to_utc (last_polled_at c);
      mret (Some (MkCursor (last_message_id c) (next_offset_id c) d))
  end.

Definition update_cursor (i : Z) (c : option ChannelCursor) (db : Db)
    : result exn ChannelStateRecord * Db :=
  match stored_cursor c with
  | Err e => (Err e, db)
  | Ok c => upsert i (MkChannelState c None None)
              (λ s, MkChannelState c (cs_paused_until s) (cs_last_success_at s)) db
  end.

(** ** The text of the cursor column

    The column holds the JSON object built here; [cs_cursor] stands for the cursor it
    decodes to. *)

Definition ChannelStateDecodeError : exn := AppError "ChannelStateDecodeError".

Definition _format_cursor_timestamp (value : datetime) : result exn pystr :=
  d ← to_utc value; mret (str_replace (u "+00:00") (u "Z") (isoformat (u "T") d)).

Definition _parse_cursor_timestamp (value : pystr) : option datetime :=
  let value := if endswith value (u "Z")
               then take (length value - 1) value ++ u "+00:00" else value in
  _normalize_datetime <$> PyIso.fromisoformat value.

Definition _encode_cursor_json (cursor : option ChannelCursor) : result exn (option JSONValue) :=
  match cursor with
  | None => Ok None
  | Some c =>
      t ← _format_cursor_timestamp (last_polled_at c);
      let int o := match o with Some n => JInt n | None => JNull end in
      mret (Some (JDict [(u "last_message_id", int (last_message_id c));
        (u "next_offset_id", int (next_offset_id c)); (u "last_polled_at", JStr t)]))
  end.

(** A [bool] is an [int]; a text of (ASCII) digits is read as a number. *)
Definition _coerce_optional_int (value : JSONValue) : result exn (option Z) :=
  match value with
  | JNull => Ok None
  | JInt n => Ok (Some n)
  | JBool b => Ok (Some (if b then 1 else 0))
  | JStr s =>
      if str_truthy s && forallb PyIso.is_digit s
      then Ok (fst <$> PyIso.parse_digits (length s) 0 s)
      else Err ChannelStateDecodeError
  | _ => Err ChannelStateDecodeError
  end.

Definition _coerce_cursor_datetime (value : JSONValue) : result exn datetime :=
  match value with
  | JStr s => match _parse_cursor_timestamp s with
              | Some d => Ok d | None => Err ChannelStateDecodeError end
  | _ => Err ChannelStateDecodeError
  end.

Definition _decode_cursor_json (value : option JSONValue) : result exn (option ChannelCursor) :=
  match value with
  | None => Ok None
  | Some (JDict d) =>
      match dict_get d (u "last_message_id"), dict_get d (u "next_offset_id"),
            dict_get d (u "last_polled_at") with
      | Some m, Some o, Some p =>
          m ← _coerce_optional_int m;
          o ← _coerce_optional_int o;
          p ← _coerce_cursor_datetime p;
          mret (Some (MkCursor m o p))
      | _, _, _ => Err ChannelStateDecodeError
      end
  | Some _ => Err ChannelStateDecodeError
  end.

(** A text without a plus sign, then the offset of UTC. *)
Lemma replace_utc s :
  forallb (λ c, negb (Z.eqb c PyIso.PLUS)) s = true →
  str_replace (u "+00:00") (u "Z") (s ++ u "+00:00") = s ++ u "Z".
Proof.
  unfold str_replace. induction s as [|c s IH]; [done|]. cbn [forallb].
  rewrite andb_true_iff, negb_true_iff. intros [Hc Hs]. cbn [app replace_from].
  assert (startswith (c :: s ++ u "+00:00") (u "+00:00") = false) as ->; [|by rewrite (IH Hs)].
  change (Z.eqb PyIso.PLUS c && startswith (s ++ u "+00:00") (u "00:00") = false).
  by rewrite Z.eqb_sym, Hc.
Qed.

Lemma endswith_snoc s c : endswith (s ++ [c]) [c] = true.
Proof. unfold endswith. rewrite reverse_snoc. change (reverse [c]) with [c]. cbn. by rewrite Z.eqb_refl; destruct (reverse s). Qed.

Lemma parse_format_timestamp d d' :
  to_utc d = Ok d' →
  ∃ t, _format_cursor_timestamp d = Ok t ∧ _parse_cursor_timestamp t = Some d'.
Proof.
  intros E. unfold _format_cursor_timestamp. rewrite E. cbn [mbind result_bind].
  unfold to_utc, dt_add in E. case_match eqn:Hr; [|done]. injection E as <-.
  set (w := _ + _) in *. simpl in w. clearbody w. simpl dt_offset.
  destruct (PyIso.isoformat_utc (hd 0 (u "T")) w Hr) as (body&Eb&Hp); [done|].
  eexists. split; [reflexivity|]. change (u "T") with [hd 0 (u "T")]. rewrite Eb.
  rewrite replace_utc by done. unfold _parse_cursor_timestamp.
  change (u "Z") with [PyIso.LETTER_Z]. rewrite endswith_snoc, length_app. simpl length.
  rewrite Nat.add_sub, take_app_length, <-Eb, PyIso.fromisoformat_isoformat; [done|].
  split; [done|]. by intros o [= <-].
Qed.

Lemma coerce_int_error v e : _coerce_optional_int v = Err e → e = ChannelStateDecodeError.
Proof. destruct v; simpl; try case_match; congruence. Qed.
Lemma coerce_datetime_error v e :
  _coerce_cursor_datetime v = Err e → e = ChannelStateDecodeError.
Proof. destruct v; simpl; try case_match; congruence. Qed.

(** The cursor column round-trips: whenever a cursor's poll time has a UTC value,
    encoding succeeds and decoding the object gives the cursor back with that time in
    UTC, the value [stored_cursor] keeps; encoding fails only when the poll time has
    none; and decoding fails only with the repository's decode error. *)
Theorem cursor_roundtrip c value :
  (∀ c', stored_cursor (Some c) = Ok c' →
     ∃ j, _encode_cursor_json (Some c) = Ok j ∧ _decode_cursor_json j = Ok c') ∧
  (∀ e, _encode_cursor_json (Some c) = Err e ↔ stored_cursor (Some c) = Err e) ∧
  (∀ e, _decode_cursor_json value = Err e → e = ChannelStateDecodeError).
Proof.
  split_and!.
  - intros c' E. simpl in E. destruct (to_utc (last_polled_at c)) as [d|] eqn:Ed; [|done].
    injection E as <-. destruct (parse_format_timestamp _ _ Ed) as (t&Ef&Ep).
    unfold _encode_cursor_json. rewrite Ef. eexists. split; [reflexivity|].
    unfold _decode_cursor_json. cbn [dict_get].
    repeat (first [rewrite bool_decide_eq_true_2 by done | rewrite bool_decide_eq_false_2 by done]).
    unfold _coerce_cursor_datetime. rewrite Ep.
    by destruct (last_message_id c), (next_offset_id c).
  - intros e. simpl. unfold _format_cursor_timestamp.
    destruct (to_utc (last_polled_at c)); simpl; [split; discriminate|].
    split; congruence.
  - intros e. unfold _decode_cursor_json. destruct value as [[| | | | | |d]|]; try congruence.
    destruct (dict_get d (u "last_message_id")) as [m|]; [|congruence].
    destruct (dict_get d (u "next_offset_id")) as [o|]; [|congruence].
    destruct (dict_get d (u "last_polled_at")) as [p|]; [|congruence].
    destruct (_coerce_optional_int m) eqn:Em; [|intros [= <-]; by eapply coerce_int_error].
    destruct (_coerce_optional_int o) eqn:Eo; [|intros [= <-]; by eapply coerce_int_error].
    destruct (_coerce_cursor_datetime p) eqn:Ep; [done|].
    intros [= <-]. by eapply coerce_datetime_error.
Qed.

Lemma cursor_roundtrip_witness :
  let c := MkCursor (Some 7) None (DT 5 None) in
  ∃ j, _encode_cursor_json (Some c) = Ok j ∧
    _decode_cursor_json j = Ok (Some (MkCursor (Some 7) None (DT 5 (Some 0)))).
Proof.
  intros c. destruct (cursor_roundtrip c None) as [H _]. apply H. by vm_compute.
Defined.

Lemma upsert_wf i new f db : wf_db db → wf_db (upsert i new f db).2.
Proof.
  intros W. unfold upsert. case_decide as H; [|done]. simpl.
  assert (is_Some (channels db !! i)) as Hi.
  { destruct H as [[s Hs]|H]; [by eapply fk_channel_states|done]. }
  clear H. generalize (match channel_states db !! i with Some s => f s | None => new end).
  intros row. revert W. wf_fields. insert_cases; eauto.
Qed.

Lemma pause_reads i pause db r db' :
  update_pause i pause db = (Ok r, db') →
  get_state i db' = Some r ∧ paused_until r = _normalize_datetime <$> pause ∧
  cursor r = (get_state i db ≫= cursor) ∧
  last_success_at r = (get_state i db ≫= last_success_at) ∧
  ∀ j, j ≠ i → get_state j db' = get_state j db.
Proof.
  unfold update_pause, upsert, get_state. case_decide; [|done]. intros [= <- <-]. simpl.
  rewrite lookup_insert_eq. split_and!; try (by destruct (channel_states db !! i)); try done.
  intros j Hj. by rewrite lookup_insert_ne.
Qed.

(** A write of the polling state reads back as the record it returned; it leaves
    every other channel's state alone, and each of the three writes changes only its own
    columns of an existing row. On a channel without state the other columns start
    empty; a channel that does not exist is a foreign-key error. *)
Theorem channel_state_writes i pause success c db r db' :
  (update_pause i pause db = (Ok r, db') →
     get_state i db' = Some r ∧ paused_until r = _normalize_datetime <$> pause ∧
     cursor r = (get_state i db ≫= cursor) ∧
     last_success_at r = (get_state i db ≫= last_success_at) ∧
     ∀ j, j ≠ i → get_state j db' = get_state j db) ∧
  (upsert_state i pause success db = (Ok r, db') →
     get_state i db' = Some r ∧ paused_until r = _normalize_datetime <$> pause ∧
     last_success_at r = _normalize_datetime <$> success ∧
     cursor r = (get_state i db ≫= cursor) ∧
     ∀ j, j ≠ i → get_state j db' = get_state j db) ∧
  (update_cursor i c db = (Ok r, db') →
     get_state i db' = Some r ∧ stored_cursor c = Ok (cursor r) ∧
     paused_until r = (get_state i db ≫= paused_until) ∧
     last_success_at r = (get_state i db ≫= last_success_at) ∧
     ∀ j, j ≠ i → get_state j db' = get_state j db) ∧
  (wf_db db → channels db !! i = None →
     update_pause i pause db = (Err (IntegrityError ForeignKeyFailed), db)).
Proof.
  unfold update_pause, upsert_state, update_cursor, upsert, get_state.
  split_and!.
  - case_decide; [|done]. intros [= <- <-]. simpl. rewrite lookup_insert_eq.
    split_and!; try (by destruct (channel_states db !! i)); try done.
    intros j Hj. by rewrite lookup_insert_ne.
  - case_decide; [|done]. intros [= <- <-]. simpl. rewrite lookup_insert_eq.
    split_and!; try (by destruct (channel_states db !! i)); try done.
    intros j Hj. by rewrite lookup_insert_ne.
  - destruct (stored_cursor c) as [c'|]; [|done]. case_decide; [|done].
    intros [= <- <-]. simpl. rewrite lookup_insert_eq.
    split_and!; try (by destruct (channel_states db !! i)); try done.
    intros j Hj. by rewrite lookup_insert_ne.
  - intros W Hn. rewrite decide_False; [done|]. rewrite Hn.
    intros [[s Hs]|[? ?]]; [|done]. destruct (fk_channel_states _ W _ _ Hs). congruence.
Qed.

Lemma channel_state_writes_witness :
  ∃ r db', update_pause 1 (Some (DT 5 None)) sample_db = (Ok r, db') ∧
    get_state 1 db' = Some r ∧ paused_until r = Some (DT 5 (Some 0)).
Proof.
  destruct (update_pause 1 (Some (DT 5 None)) sample_db) as [[r|e] db'] eqn:E; [|by vm_compute in E].
  destruct (channel_state_writes 1 (Some (DT 5 None)) None None sample_db r db') as [H _].
  destruct (H E) as (Hg&Hp&_). by exists r, db'.
Defined.
End ChannelStates.

Module AccountPause.

Record AccountPauseRecord := MkPauseRecord {
  account_id : Z;
  paused_at : option datetime;
  pause_reason : option pystr;
}.

Definition _decode_pause_row (i : Z) (a : Account) : AccountPauseRecord :=
  MkPauseRecord i (_normalize_datetime <$> ac_paused_at a) (ac_pause_reason a).

Definition get_pause_state (i : Z) (db : Db) : option AccountPauseRecord :=
  _decode_pause_row i <$> accounts db !! i.

Definition set_pause (pause : option datetime) (reason : option pystr) (a : Account) : Account :=
  MkAccount (ac_api_id a) (ac_api_hash_encrypted a) (ac_phone_number a)
    (ac_session_encrypted a) (ac_key_version a) pause reason.

Definition update_row (f : Account → Account) (i : Z) (db : Db)
    : option AccountPauseRecord * Db :=
  match accounts db !! i with
  | None => (None, db)
  | Some a => (Some (_decode_pause_row i (f a)),
               set_accounts (<[i := f a]> (accounts db)) db)
  end.

(** [now] is the clock, used when no time is given. *)
Definition pause_account (now : datetime) (i : Z) (reason : pystr) (pause : option datetime)
  : Db → option AccountPauseRecord * Db :=
  update_row (set_pause (Some (default now pause)) (Some reason)) i.

Definition resume_account (i : Z) : Db → option AccountPauseRecord * Db :=
  update_row (set_pause None None) i.

Lemma pause_row_wf f i db : wf_db db → wf_db (update_row f i db).2.
Proof.
  intros W. unfold update_row. destruct (accounts db !! i) as [a|]; [|done]. simpl.
  generalize (f a). intros a'. revert W. wf_fields.
Qed.
End AccountPause.
