(* ===== verification/Groups.v ===== *)
(** Channel groups: the repository (src/tca/storage/channel_groups_repo.py), the API
    handlers over it (src/tca/api/routes/channel_groups.py) and the resolution of the
    dedupe horizon (src/tca/config/resolution.py). A handler is the operation it submits
    to the writer queue, on the payload FastAPI has validated; it runs as one step, so
    the handler's race branches are those its own statements leave. *)

From S2P Require Import Prelude PyValue Schema Settings Channels.
Local Open Scope Z_scope.

Module Groups.

(** ** Repository *)

Record ChannelGroupRecord := MkGroupRecord {
  id : Z;
  name : pystr;
  description : option pystr;
  dedupe_horizon_minutes_override : option Z;
}.

Record ChannelGroupMembershipRecord := MkMembership { group_id : Z; channel_id : Z }.

Definition ChannelAlreadyAssignedToGroupError : exn :=
  AppError "ChannelAlreadyAssignedToGroupError".
Definition MultipleResultsFound : exn := AppError "MultipleResultsFound".

Definition _decode_group_row (i : Z) (g : Group) : ChannelGroupRecord :=
  MkGroupRecord i (gr_name g) (gr_description g) (gr_horizon_override g).

Definition create_group (nm : pystr) (desc : option pystr) (horizon : option Z) (db : Db)
    : ChannelGroupRecord * Db :=
  let i := next_id (groups db) in
  let g := MkGroup nm desc horizon in
  (_decode_group_row i g, set_groups (<[i := g]> (groups db)) db).

Definition get_group_by_id (i : Z) (db : Db) : option ChannelGroupRecord :=
  _decode_group_row i <$> groups db !! i.

Definition list_groups (db : Db) : list ChannelGroupRecord :=
  omap (λ i, get_group_by_id i db) (sorted_ids (dom (groups db))).

Definition update_group (i : Z) (nm : pystr) (desc : option pystr) (horizon : option Z) (db : Db)
    : option ChannelGroupRecord * Db :=
  match groups db !! i with
  | None => (None, db)
  | Some _ =>
      let g := MkGroup nm desc horizon in
      (Some (_decode_group_row i g), set_groups (<[i := g]> (groups db)) db)
  end.

Definition delete_group (i : Z) (db : Db) : bool * Db :=
  match groups db !! i with
  | None => (false, db)
  | Some _ => (true, delete_groups {[i]} db)
  end.

(** The groups a channel is a member of. *)
Definition groups_of (c : Z) (db : Db) : list Z :=
  elements (set_map fst (filter (λ m : Z * Z, m.2 = c) (group_members db)) : gset Z).

(** [INSERT INTO channel_group_members]: the unique constraint on the channel is checked
    as the row is written, the references at the end of the statement. *)
Definition insert_group_member (g c : Z) (db : Db) : result exn Db :=
  match groups_of c db with
  | _ :: _ => Err (IntegrityError (UniqueFailed "channel_group_members.channel_id"))
  | [] =>
      if decide (is_Some (groups db !! g) ∧ is_Some (channels db !! c))
      then Ok (set_group_members ({[(g, c)]} ∪ group_members db) db)
      else Err (IntegrityError ForeignKeyFailed)
  end.

Definition _is_duplicate_channel_assignment_integrity_error (e : exn) : bool :=
  bool_decide (e = IntegrityError (UniqueFailed "channel_group_members.channel_id")).

Definition add_channel_membership (g c : Z) (db : Db)
    : result exn ChannelGroupMembershipRecord * Db :=
  match insert_group_member g c db with
  | Ok db => (Ok (MkMembership g c), db)
  | Err e => (Err (if _is_duplicate_channel_assignment_integrity_error e
                   then ChannelAlreadyAssignedToGroupError else e), db)
  end.

Definition remove_channel_membership (g c : Z) (db : Db) : bool * Db :=
  if decide ((g, c) ∈ group_members db)
  then (true, set_group_members (group_members db ∖ {[(g, c)]}) db)
  else (false, db).

(** [one_or_none] *)
Definition get_membership_by_channel_id (c : Z) (db : Db)
    : result exn (option ChannelGroupMembershipRecord) :=
  match groups_of c db with
  | [] => Ok None
  | [g] => Ok (Some (MkMembership g c))
  | _ => Err MultipleResultsFound
  end.

(** ** Handlers *)

Definition _group_not_found (g : Z) : exn :=
  HTTPException 404 (u "Channel group '" ++ str_of_int g ++ u "' was not found.").
Definition _channel_not_found (c : Z) : exn :=
  HTTPException 404 (u "Channel '" ++ str_of_int c ++ u "' was not found.").
Definition _channel_assignment_conflict (c g : Z) : exn :=
  HTTPException 409 (u "Channel '" ++ str_of_int c ++ u "' is already assigned to group '" ++
                     str_of_int g ++ u "'.").

(** [ChannelGroupPatchRequest]: a field is absent, or set to a value or null. *)
Record ChannelGroupPatchRequest := MkPatch {
  p_name : option (option pystr);
  p_description : option (option pystr);
  p_horizon : option (option Z);
}.

Definition patch_channel_group (g : Z) (payload : ChannelGroupPatchRequest) (db : Db)
    : result exn ChannelGroupRecord * Db :=
  match get_group_by_id g db with
  | None => (Err (_group_not_found g), db)
  | Some current =>
      match p_name payload with
      | Some None => (Err (HTTPException 400 (u "Field `name` cannot be null.")), db)
      | nm =>
          let updated_name := match nm with Some (Some n) => n | _ => name current end in
          let updated_description := default (description current) (p_description payload) in
          let updated_horizon :=
            default (dedupe_horizon_minutes_override current) (p_horizon payload) in
          match update_group g updated_name updated_description updated_horizon db with
          | (None, db) => (Err (_group_not_found g), db)
          | (Some updated, db) => (Ok updated, db)
          end
      end
  end.

Definition delete_channel_group (g : Z) (db : Db) : result exn Z * Db :=
  match delete_group g db with
  | (false, db) => (Err (_group_not_found g), db)
  | (true, db) => (Ok g, db)
  end.

Record ChannelGroupMembershipResponse := MkMembershipResponse {
  r_group_id : Z;
  r_channel_id : Z;
  r_is_member : bool;
}.

Definition put_channel_group_membership (g c : Z) (db : Db)
    : result exn ChannelGroupMembershipResponse * Db :=
  match get_group_by_id g db with
  | None => (Err (_group_not_found g), db)
  | Some _ =>
      match Channels.get_channel_by_id c db with
      | None => (Err (_channel_not_found c), db)
      | Some _ =>
          match get_membership_by_channel_id c db with
          | Err e => (Err e, db)
          | Ok (Some m) =>
              if Z.eqb (group_id m) g then (Ok (MkMembershipResponse g c true), db)
              else (Err (_channel_assignment_conflict c (group_id m)), db)
          | Ok None =>
              match add_channel_membership g c db with
              | (Ok _, db) => (Ok (MkMembershipResponse g c true), db)
              | (Err e, db) =>
                  if decide (e = ChannelAlreadyAssignedToGroupError) then
                    match get_membership_by_channel_id c db with
                    | Err e => (Err e, db)
                    | Ok m => (Err (_channel_assignment_conflict c
                                      (match m with Some m => group_id m | None => g end)), db)
                    end
                  else (Err e, db)
              end
          end
      end
  end.

Definition delete_channel_group_membership (g c : Z) (db : Db)
    : result exn ChannelGroupMembershipResponse * Db :=
  match get_group_by_id g db with
  | None => (Err (_group_not_found g), db)
  | Some _ =>
      match get_membership_by_channel_id c db with
      | Err e => (Err e, db)
      | Ok None => (Ok (MkMembershipResponse g c false), db)
      | Ok (Some m) =>
          if negb (Z.eqb (group_id m) g) then (Ok (MkMembershipResponse g c false), db)
          else let '(_, db) := remove_channel_membership g c db in
               (Ok (MkMembershipResponse g c false), db)
      end
  end.

(** ** Resolution of the dedupe horizon *)

Definition ConfigValueTypeError : exn := AppError "ConfigValueTypeError".
Definition DEDUPE_DEFAULT_HORIZON_MINUTES_KEY : pystr := u "dedupe.default_horizon_minutes".

Definition _resolve_seeded_default_horizon_minutes : result exn Z :=
  match dict_get Settings.DYNAMIC_SETTINGS_DEFAULTS DEDUPE_DEFAULT_HORIZON_MINUTES_KEY with
  | Some (JInt n) => Ok n
  | _ => Err (AppError "MissingSeedDefaultError")
  end.

Definition resolve_global_dedupe_horizon_minutes (db : Db) : result exn Z :=
  record ← Settings.get_by_key DEDUPE_DEFAULT_HORIZON_MINUTES_KEY db;
  match record with
  | None => _resolve_seeded_default_horizon_minutes
  | Some r => match Settings.value r with
              | JInt n => Ok n
              | _ => Err ConfigValueTypeError
              end
  end.

Definition resolve_effective_dedupe_horizon_minutes (group : option Z) (db : Db)
    : result exn Z :=
  match group ≫= λ g, get_group_by_id g db with
  | Some (MkGroupRecord _ _ _ (Some n)) => Ok n
  | _ => resolve_global_dedupe_horizon_minutes db
  end.

(** ** Lemmas *)

Lemma elem_of_groups_of g c db : g ∈ groups_of c db ↔ (g, c) ∈ group_members db.
Proof.
  unfold groups_of. rewrite elem_of_elements, elem_of_map.
  setoid_rewrite elem_of_filter. split.
  - by intros ([g' c']&->&[<- ?]).
  - intros H. by exists (g, c).
Qed.

(** With the unique constraint a channel has at most one group. *)
Lemma membership_spec c db :
  wf_db db →
  (get_membership_by_channel_id c db = Ok None ∧ ∀ g, (g, c) ∉ group_members db) ∨
  ∃ g, get_membership_by_channel_id c db = Ok (Some (MkMembership g c)) ∧
    (g, c) ∈ group_members db ∧ ∀ g', (g', c) ∈ group_members db → g' = g.
Proof.
  intros W. unfold get_membership_by_channel_id.
  assert (NoDup (groups_of c db)) as Hn by apply NoDup_elements.
  destruct (groups_of c db) as [|g [|g' l]] eqn:E.
  - left. split; [done|]. intros g. rewrite <-elem_of_groups_of, E. apply not_elem_of_nil.
  - right. exists g. split; [done|].
    assert (∀ x, (x, c) ∈ group_members db ↔ x = g) as H.
    { intros x. by rewrite <-elem_of_groups_of, E, list_elem_of_singleton. }
    split; [by apply H|]. intros x. by apply H.
  - exfalso. assert ((g, c) ∈ group_members db ∧ (g', c) ∈ group_members db) as [H1 H2].
    { rewrite <-!elem_of_groups_of, E. split; [by left|right; by left]. }
    pose proof (uq_group_members _ W _ _ _ H1 H2). subst g'.
    apply NoDup_cons in Hn as [Hn _]. apply Hn. by left.
Qed.

Lemma groups_of_nil c db : (∀ g, (g, c) ∉ group_members db) → groups_of c db = [].
Proof.
  intros H. destruct (groups_of c db) as [|g l] eqn:E; [done|].
  destruct (H g). rewrite <-elem_of_groups_of, E. by left.
Qed.

Lemma set_groups_wf t db :
  wf_db db → (∀ i, is_Some (groups db !! i) → is_Some (t !! i)) → wf_db (set_groups t db).
Proof. intros W Ht. destruct W; split; simpl; eauto. intros g c H. naive_solver. Qed.

Lemma set_group_members_wf ms db :
  wf_db db →
  (∀ g c, (g, c) ∈ ms → is_Some (groups db !! g) ∧ is_Some (channels db !! c)) →
  (∀ g g' c, (g, c) ∈ ms → (g', c) ∈ ms → g = g') → wf_db (set_group_members ms db).
Proof. intros W H1 H2. destruct W; split; simpl; eauto. Qed.

Lemma insert_group_member_wf g c db db' :
  insert_group_member g c db = Ok db' → wf_db db → wf_db db'.
Proof.
  unfold insert_group_member. destruct (groups_of c db) eqn:E; [|done].
  case_decide as H; [|done]. intros [= <-] W.
  assert (∀ x, (x, c) ∉ group_members db) as Hnew.
  { intros x. rewrite <-elem_of_groups_of, E. apply not_elem_of_nil. }
  apply set_group_members_wf; [done| |].
  - intros x y. rewrite elem_of_union, elem_of_singleton. intros [[= -> ->]|Hin]; [done|].
    by apply (fk_group_members _ W).
  - intros x x' y. rewrite !elem_of_union, !elem_of_singleton.
    intros [[= -> ->]|H1] [E2|H2]; try congruence.
    by apply (uq_group_members _ W x x' y).
Qed.

Lemma get_group_None_or i db {A} (x y : A) :
  match get_group_by_id i db with None => x | Some _ => y end =
  match groups db !! i with None => x | Some _ => y end.
Proof. unfold get_group_by_id. by destruct (groups db !! i). Qed.
Lemma get_channel_None_or i db {A} (x y : A) :
  match Channels.get_channel_by_id i db with None => x | Some _ => y end =
  match channels db !! i with None => x | Some _ => y end.
Proof. unfold Channels.get_channel_by_id. by destruct (channels db !! i). Qed.

Lemma remove_member_spec g c db :
  wf_db db → is_Some (groups db !! g) → (g, c) ∈ group_members db →
  delete_channel_group_membership g c db =
    (Ok (MkMembershipResponse g c false), set_group_members (group_members db ∖ {[(g, c)]}) db).
Proof.
  intros W [gr Hg] Hm. unfold delete_channel_group_membership. rewrite get_group_None_or, Hg.
  destruct (membership_spec c db W) as [[_ Hno]|(x&->&_&Hux)]; [by destruct (Hno g Hm)|].
  rewrite <-(Hux g Hm). simpl. rewrite Z.eqb_refl. simpl.
  unfold remove_channel_membership. by rewrite decide_True.
Qed.

(** Assigning a channel to a group is decided completely: 404 for a missing group,
    then for a missing channel; success without a change when the channel is in that
    group already; 409 naming the other group when it is in another; otherwise the
    membership is added. Only success can change the database, by adding that one pair,
    and the result is well formed, so a channel is never in two groups. Removing the
    membership afterwards leaves the memberships there were without it. *)
Theorem put_membership_spec g c db r db' :
  wf_db db → put_channel_group_membership g c db = (r, db') →
  (groups db !! g = None → r = Err (_group_not_found g)) ∧
  (is_Some (groups db !! g) → channels db !! c = None → r = Err (_channel_not_found c)) ∧
  (is_Some (groups db !! g) → is_Some (channels db !! c) →
     (∃ other, (other, c) ∈ group_members db ∧ other ≠ g ∧
        r = Err (_channel_assignment_conflict c other)) ∨
     ((∀ other, (other, c) ∈ group_members db → other = g) ∧
      r = Ok (MkMembershipResponse g c true))) ∧
  db' = (if is_ok r then set_group_members ({[(g, c)]} ∪ group_members db) db else db) ∧
  wf_db db' ∧
  (is_ok r = true →
     ∃ db'', delete_channel_group_membership g c db' = (Ok (MkMembershipResponse g c false), db'') ∧
       group_members db'' = group_members db ∖ {[(g, c)]}).
Proof.
  intros W. unfold put_channel_group_membership. rewrite get_group_None_or, get_channel_None_or.
  destruct (groups db !! g) as [gr|] eqn:Eg;
    [|intros [= <- <-]; by split_and!; try done; intros [? ?]].
  destruct (channels db !! c) as [ch|] eqn:Ec;
    [|intros [= <- <-]; split_and!; try done; intros _ [? ?]; done].
  assert (is_Some (groups db !! g)) as Hg by (rewrite Eg; by eexists).
  destruct (membership_spec c db W) as [[-> Hno]|(x&->&Hx&Hux)].
  - unfold add_channel_membership. destruct (insert_group_member g c db) as [db1|] eqn:Ei.
    2:{ unfold insert_group_member in Ei. rewrite groups_of_nil in Ei by done.
        rewrite decide_True in Ei; [done|]. rewrite Eg, Ec; split; by eexists. }
    pose proof (insert_group_member_wf _ _ _ _ Ei W) as W1. unfold insert_group_member in Ei.
    rewrite groups_of_nil in Ei by done. case_decide; [|done]. injection Ei as <-.
    intros [= <- <-]. split_and!; try done.
    + right; split; [|done]. intros o Ho; by destruct (Hno o Ho).
    + intros _. eexists. split; [apply remove_member_spec; [done|done|set_solver]|]. simpl.
      set_solver.
  - destruct (Z.eqb_spec x g) as [->|Hne]; simpl; rewrite ?Z.eqb_refl.
    + intros [= <- <-]. assert ({[(g, c)]} ∪ group_members db = group_members db) as -> by set_solver.
      split_and!; try done; [by right|by destruct db|].
      intros _. eexists. split; [by apply remove_member_spec|done].
    + rewrite (proj2 (Z.eqb_neq _ _) Hne). intros [= <- <-]. split_and!; try done.
      intros _ _. left. eauto.
Qed.

(** A patch changes exactly the fields it sets (null clears a description or a
    horizon override and is refused for the name), of that group only; a missing group is
    a 404; whatever fails changes nothing. Deleting a group removes it with its
    memberships and nothing else. *)
Theorem patch_group_spec g payload db r db' :
  patch_channel_group g payload db = (r, db') →
  (groups db !! g = None → r = Err (_group_not_found g)) ∧
  (∀ e, r = Err e → db' = db) ∧
  (∀ row, groups db !! g = Some row →
     p_name payload = Some None → ∃ detail, r = Err (HTTPException 400 detail)) ∧
  (∀ row, groups db !! g = Some row → p_name payload ≠ Some None →
     ∃ row', r = Ok (_decode_group_row g row') ∧
       db' = set_groups (<[g := row']> (groups db)) db ∧
       gr_name row' = default (gr_name row) (p_name payload ≫= Datatypes.id) ∧
       gr_description row' = default (gr_description row) (p_description payload) ∧
       gr_horizon_override row' = default (gr_horizon_override row) (p_horizon payload)) ∧
  (∀ row, groups db !! g = Some row →
     delete_channel_group g db = (Ok g, delete_groups {[g]} db) ∧
     (∀ c, (g, c) ∉ group_members (delete_groups {[g]} db)) ∧
     (∀ h c, h ≠ g → (h, c) ∈ group_members (delete_groups {[g]} db) ↔ (h, c) ∈ group_members db)).
Proof.
  unfold patch_channel_group, get_group_by_id, update_group, delete_channel_group, delete_group.
  intros H. destruct (groups db !! g) as [row|] eqn:Eg; simpl in H.
  2:{ injection H as <- <-. by split_and!. }
  split_and!; try done.
  - intros e ->. destruct (p_name payload) as [[?|]|]; simpl in H; congruence.
  - intros ? _ E. rewrite E in H. injection H as <- <-. by eexists.
  - intros ? [= <-] Hn. destruct (p_name payload) as [[nm|]|]; [|done|];
      injection H as <- <-; by eexists.
  - intros ? _. split_and!; [done| |].
    + intros c. simpl. rewrite elem_of_filter. set_solver.
    + intros h c Hh. simpl. rewrite elem_of_filter. simpl. set_solver.
Qed.

(** The effective dedupe horizon of a group is its override when it has one, any
    value including 0; otherwise, and for a missing or absent group, the stored global
    horizon, which must be an integer (a boolean is refused); and the seeded default of
    1440 minutes when none is stored. *)
Theorem horizon_precedence group db :
  resolve_effective_dedupe_horizon_minutes group db =
  match group ≫= λ g, groups db !! g ≫= gr_horizon_override with
  | Some n => Ok n
  | None =>
      match settings db !! DEDUPE_DEFAULT_HORIZON_MINUTES_KEY with
      | None => Ok 1440
      | Some (JInt n) => Ok n
      | Some v => Err (if json_encodable v then ConfigValueTypeError
                       else Settings.SettingValueDecodeError)
      end
  end.
Proof.
  assert (resolve_global_dedupe_horizon_minutes db =
    match settings db !! DEDUPE_DEFAULT_HORIZON_MINUTES_KEY with
    | None => Ok 1440
    | Some (JInt n) => Ok n
    | Some v => Err (if json_encodable v then ConfigValueTypeError
                     else Settings.SettingValueDecodeError)
    end) as Hg.
  { unfold resolve_global_dedupe_horizon_minutes, Settings.get_by_key, Settings._decode_row,
      Settings._is_json_value.
    destruct (settings db !! _) as [v|]; [|by vm_compute].
    destruct (json_encodable v) eqn:Ev; destruct v; try done; simpl in Ev |- *; by rewrite ?Ev. }
  unfold resolve_effective_dedupe_horizon_minutes, get_group_by_id.
  destruct group as [g|]; [|done]. simpl. destruct (groups db !! g) as [row|]; [|done]. simpl.
  unfold _decode_group_row. by destruct (gr_horizon_override row).
Qed.

(** ** Instances *)
Definition sample_grouped : ChannelGroupRecord * Db :=
  create_group (u "news") (Some (u "d")) (Some 5) sample_db.

Lemma put_membership_spec_witness :
  let g := id sample_grouped.1 in
  ∃ r db', put_channel_group_membership g 3 sample_grouped.2 = (r, db') ∧ wf_db db' ∧
    r = Ok (MkMembershipResponse g 3 true).
Proof.
  intros g. destruct (put_channel_group_membership g 3 sample_grouped.2) as [r db'] eqn:E.
  exists r, db'.
  assert (wf_db sample_grouped.2) as Hwf by (apply wf_check_sound; by vm_compute).
  destruct (put_membership_spec g 3 sample_grouped.2 r db' Hwf E) as (_&_&_&_&W&_).
  split_and!; [done|done|]. apply (f_equal fst) in E. vm_compute in E. by rewrite <-E.
Defined.

Lemma patch_group_spec_witness :
  let db := sample_grouped.2 in let g := id sample_grouped.1 in
  ∃ r db', patch_channel_group g (MkPatch None None (Some None)) db = (r, db') ∧
    r = Ok (MkGroupRecord g (u "news") (Some (u "d")) None).
Proof.
  intros db g. destruct (patch_channel_group g (MkPatch None None (Some None)) db) as [r db'] eqn:E.
  exists r, db'. split; [done|].
  destruct (patch_group_spec _ _ _ _ _ E) as (_&_&_&H&_).
  destruct (H (MkGroup (u "news") (Some (u "d")) (Some 5)) ltac:(by vm_compute) ltac:(done))
    as (row'&->&_&H1&H2&H3).
  destruct row'. simpl in *. by subst.
Defined.

End Groups.
