(* ===== verification/Ingest.v ===== *)
(** Ingestion: bounded pagination (src/tca/ingest/service.py), flood waits
    (src/tca/ingest/flood_wait.py), account-risk escalation
    (src/tca/ingest/account_risk.py) and error capture (src/tca/ingest/error_capture.py).
    The Telegram client is a parameter: what it answers to a page request. *)

From S2P Require Import Prelude PyValue PyTime PyIso Schema Settings Notifications Channels.
Local Open Scope Z_scope.

Module Fetch.

(** ** Bounded pagination *)

Section fetch.
(** [ident m]: the integer [id] attribute of a message; [get_messages n limit offset]:
    what the [n]-th call of the poll returns or raises. *)
Context {M : Type} (ident : M → option Z).
Context (get_messages : nat → Z → option Z → result exn (list M)).

Definition _extract_message_id (m : M) : result exn Z :=
  match ident m with
  | Some i => Ok i
  | None => Err (ValueError "message missing integer id")
  end.

Definition extract_ids (batch : list M) : result exn (list Z) :=
  traverse _extract_message_id batch.

Record BoundedPaginationResult := MkResult {
  messages : list M;
  cursor : ChannelCursor;
}.

(** The locals of the loop. *)
Record progress := MkProgress {
  pages_fetched : nat;
  collected : list M;
  most_recent_id : option Z;
  offset_id : option Z;
  exhausted : bool;
}.

(** [max] and [min] of a non-empty list. *)
Definition list_max (i : Z) (ids : list Z) : Z := foldr Z.max i ids.
Definition list_min (i : Z) (ids : list Z) : Z := foldr Z.min i ids.

Definition bump (recent : option Z) (batch_max : Z) : option Z :=
  match recent with
  | None => Some batch_max
  | Some r => Some (if Z.ltb r batch_max then batch_max else r)
  end.

(** [fuel] is the number of pages still allowed. *)
Fixpoint fetch_loop (fuel : nat) (max_messages page_size : Z) (p : progress)
    : result exn progress :=
  match fuel with
  | O => Ok p
  | S fuel =>
      if Z.ltb (Z.of_nat (length (collected p))) max_messages then
        let remaining := max_messages - Z.of_nat (length (collected p)) in
        let page_limit := Z.min page_size remaining in
        batch ← get_messages (pages_fetched p) page_limit (offset_id p);
        let pages := S (pages_fetched p) in
        match batch with
        | [] => Ok (MkProgress pages (collected p) (most_recent_id p) None true)
        | _ :: _ =>
            ids ← extract_ids batch;
            match ids with
            | [] => Err (ValueError "max() arg is an empty sequence")
            | i :: ids =>
                let p' := MkProgress pages (collected p ++ batch)
                            (bump (most_recent_id p) (list_max i ids)) in
                if Z.ltb (Z.of_nat (length batch)) page_limit then Ok (p' None true)
                else fetch_loop fuel max_messages page_size (p' (Some (list_min i ids)) false)
            end
        end
      else Ok p
  end.

(** [polled_at] is the clock read on entry. *)
Definition fetch_bounded_messages (cursor : option ChannelCursor)
    (max_pages_per_poll max_messages_per_poll page_size : Z) (polled_at : datetime)
    : result exn BoundedPaginationResult :=
  let last := cursor ≫= last_message_id in
  let next := cursor ≫= next_offset_id in
  if Z.leb max_pages_per_poll 0 || Z.leb max_messages_per_poll 0 then
    Ok (MkResult [] (MkCursor last next polled_at))
  else
    p ← fetch_loop (Z.to_nat max_pages_per_poll) max_messages_per_poll page_size
          (MkProgress 0 [] last next false);
    mret (MkResult (collected p)
      (MkCursor (most_recent_id p) (if exhausted p then None else offset_id p) polled_at)).

(** ** Any client *)

Definition ge_opt (a b : option Z) : Prop :=
  match b with None => True | Some y => ∃ x, a = Some x ∧ y ≤ x end.

Lemma list_max_ge i ids j : j ∈ i :: ids → j ≤ list_max i ids.
Proof.
  unfold list_max. induction ids as [|k ids IH]; simpl.
  - intros ->%list_elem_of_singleton. lia.
  - rewrite !elem_of_cons in *. intros [->|[->|H]]; [specialize (IH (or_introl eq_refl))| |
      specialize (IH (or_intror H))]; lia.
Qed.
Lemma list_max_in i ids : list_max i ids ∈ i :: ids.
Proof.
  unfold list_max. induction ids as [|k ids IH]; simpl; [by left|].
  apply elem_of_cons in IH. destruct (Z.max_spec k (foldr Z.max i ids)) as [[_ ->]|[_ ->]].
  - destruct IH as [->|IH]; [by left|right; by right].
  - right. by left.
Qed.

Lemma extract_ids_Forall2 batch ids :
  extract_ids batch = Ok ids → Forall2 (λ m i, ident m = Some i) batch ids.
Proof.
  intros H%traverse_Ok. eapply Forall2_impl; [exact H|]. intros m i.
  unfold _extract_message_id. destruct (ident m); [by intros [= <-]|done].
Qed.

(** The ids of the messages collected so far never exceed the recorded maximum, which
    never decreases. *)
Definition covers (recent : option Z) (ms : list M) : Prop :=
  ∀ m i, m ∈ ms → ident m = Some i → ge_opt recent (Some i).

Lemma bump_ge recent x : ge_opt (bump recent x) recent ∧ ge_opt (bump recent x) (Some x).
Proof.
  destruct recent as [r|]; simpl; [|split; [done|eexists; split; [done|lia]]].
  destruct (Z.ltb_spec r x); split; eexists; (split; [reflexivity|lia]).
Qed.

Lemma ge_opt_trans a b c : ge_opt a b → ge_opt b c → ge_opt a c.
Proof.
  destruct c as [z|]; [|done]. intros Hab (y&->&Hy). destruct Hab as (x&->&Hx).
  eexists. split; [done|lia].
Qed.
Lemma ge_opt_refl a : ge_opt a a.
Proof. destruct a; simpl; [|done]. eexists. split; [done|lia]. Qed.

(** The recorded maximum is the one the poll started from or that of a message. *)
Definition attained (start recent : option Z) (ms : list M) : Prop :=
  recent = start ∨ ∃ m, m ∈ ms ∧ ident m = recent.

Lemma fetch_loop_any fuel max_messages page_size p p' :
  fetch_loop fuel max_messages page_size p = Ok p' →
  (pages_fetched p' ≤ pages_fetched p + fuel)%nat ∧
  ge_opt (most_recent_id p') (most_recent_id p) ∧
  (covers (most_recent_id p) (collected p) → covers (most_recent_id p') (collected p')) ∧
  (∀ l, attained l (most_recent_id p) (collected p) →
     attained l (most_recent_id p') (collected p')) ∧
  ((∀ n l o b, get_messages n l o = Ok b → Z.of_nat (length b) ≤ Z.max l 0) →
   Z.of_nat (length (collected p)) ≤ max_messages →
   Z.of_nat (length (collected p')) ≤ max_messages).
Proof.
  revert p. induction fuel as [|fuel IH]; intros p; simpl.
  { intros [= <-]. split_and!; [lia|apply ge_opt_refl|done..]. }
  destruct (Z.ltb_spec (Z.of_nat (length (collected p))) max_messages) as [Hlt|_].
  2:{ intros [= <-]. split_and!; [lia|apply ge_opt_refl|done..]. }
  destruct (get_messages _ _ _) as [batch|] eqn:Eb; [|done]. simpl.
  destruct batch as [|m batch]; [|remember (m :: batch) as b eqn:Hb].
  { intros [= <-]. simpl. split_and!; [lia|apply ge_opt_refl|done..]. }
  destruct (extract_ids b) as [[|i ids]|] eqn:Ei; simpl; try done.
  apply extract_ids_Forall2 in Ei.
  assert (covers (most_recent_id p) (collected p) →
    covers (bump (most_recent_id p) (list_max i ids)) (collected p ++ b)) as Hcov.
  { intros Hc x j [Hx|Hx]%elem_of_app Hj.
    - eapply ge_opt_trans; [apply (proj1 (bump_ge _ _))|by apply (Hc x j)].
    - eapply ge_opt_trans; [apply (proj2 (bump_ge _ _))|]. simpl. eexists. split; [done|].
      apply list_max_ge. apply list_elem_of_lookup in Hx as [k Hk].
      destruct (Forall2_lookup_l _ _ _ _ _ Ei Hk) as (j'&Hj'&E). 
      apply list_elem_of_lookup. exists k. congruence. }
  assert ((∀ n l o b, get_messages n l o = Ok b → Z.of_nat (length b) ≤ Z.max l 0) →
    Z.of_nat (length (collected p ++ b)) ≤ max_messages) as Hlen.
  { intros Hcl. apply Hcl in Eb. rewrite length_app. lia. }
  assert (∀ l, attained l (most_recent_id p) (collected p) →
    attained l (bump (most_recent_id p) (list_max i ids)) (collected p ++ b)) as Hatt.
  { intros l Ha.
    assert (∃ x, x ∈ b ∧ ident x = Some (list_max i ids)) as (x&Hx&Hix).
    { pose proof (list_max_in i ids) as Hin. apply list_elem_of_lookup in Hin as [k Hk].
      destruct (Forall2_lookup_r _ _ _ _ _ Ei Hk) as (x&Hx&E). exists x. split; [|done].
      apply list_elem_of_lookup. by exists k. }
    assert (bump (most_recent_id p) (list_max i ids) = most_recent_id p ∨
            bump (most_recent_id p) (list_max i ids) = Some (list_max i ids)) as [E|E].
    { unfold bump. destruct (most_recent_id p); [|by right]. case_match; auto. }
    - rewrite E. destruct Ha as [Ha|(m0&Hm&Hi)]; [by left|right]. exists m0.
      split; [|done]. apply elem_of_app. by left.
    - right. exists x. rewrite E. split; [|done]. apply elem_of_app. by right. }
  destruct (Z.ltb _ _).
  - intros [= <-]. simpl. split_and!; [lia|apply (proj1 (bump_ge _ _))|done|done|auto].
  - intros H. apply IH in H as (H1&H2&H3&H5&H4). simpl in *. split_and!; [lia| |auto|auto|auto].
    eapply ge_opt_trans; [exact H2|apply (proj1 (bump_ge _ _))].
Qed.

(** The loop makes its calls at [pages_fetched p], and at most [fuel] of them. *)
End fetch.

Lemma fetch_loop_ext {M} (ident : M → option Z) (g g' : nat → Z → option Z → result exn (list M))
    fuel mm ps p :
  (∀ n l o, (pages_fetched p ≤ n < pages_fetched p + fuel)%nat → g n l o = g' n l o) →
  fetch_loop ident g fuel mm ps p = fetch_loop ident g' fuel mm ps p.
Proof.
  revert p. induction fuel as [|fuel IH]; intros p Hg; simpl; [done|].
  destruct (Z.ltb _ _); [|done]. rewrite Hg by lia.
  destruct (g' _ _ _) as [[|m batch]|]; [done| |done]. cbn [mbind result_bind].
  destruct (extract_ids ident (m :: batch)) as [[|i ids]|]; [done| |done].
  cbn [mbind result_bind]. destruct (Z.ltb _ _); [done|]. apply IH.
  intros n l o Hn. apply Hg. simpl in Hn. lia.
Qed.

(** Whatever a client that honours page limits answers: a poll that returns makes
    at most [max_pages_per_poll] page requests, returns at most [max_messages_per_poll]
    messages, and its [last_message_id] is the largest of the previous one and the ids
    returned, so the cursor never moves back. With a limit of zero or less it makes no
    request and keeps the cursor. *)
Theorem fetch_bounds {M} (ident : M → option Z) get_messages cur max_pages max_messages
    page_size now res :
  (∀ n l o b, get_messages n l o = Ok b → Z.of_nat (length b) ≤ Z.max l 0) →
  fetch_bounded_messages ident get_messages cur max_pages max_messages page_size now = Ok res →
  (∀ other, (∀ n l o, Z.of_nat n < max_pages → other n l o = get_messages n l o) →
     fetch_bounded_messages ident other cur max_pages max_messages page_size now = Ok res) ∧
  Z.of_nat (length (messages res)) ≤ Z.max max_messages 0 ∧
  ge_opt (last_message_id (cursor res)) (cur ≫= last_message_id) ∧
  covers ident (last_message_id (cursor res)) (messages res) ∧
  attained ident (cur ≫= last_message_id) (last_message_id (cursor res)) (messages res) ∧
  last_polled_at (cursor res) = now ∧
  (max_pages ≤ 0 ∨ max_messages ≤ 0 →
     messages res = [] ∧ last_message_id (cursor res) = (cur ≫= last_message_id) ∧
     next_offset_id (cursor res) = (cur ≫= next_offset_id)).
Proof.
  intros Hcl. unfold fetch_bounded_messages.
  destruct (Z.leb_spec max_pages 0); [|destruct (Z.leb_spec max_messages 0)].
  1-2: intros [= <-]; simpl; split_and!; try done; [lia|apply ge_opt_refl| |by left];
    intros m i Hm; by apply elem_of_nil in Hm.
  simpl. destruct (fetch_loop _ _ _ _ _ _) as [p|] eqn:E; [|done]. intros [= <-]. simpl.
  destruct (fetch_loop_any _ _ _ _ _ _ _ E) as (_&H1&H2&H3&H4). simpl in *.
  split_and!; try done.
  - intros other Ho. rewrite (fetch_loop_ext ident other get_messages); [by rewrite E|].
    intros n l o Hn. simpl in Hn. apply Ho. lia.
  - etransitivity; [apply H4; [done|simpl; lia]|lia].
  - apply H2. intros m i Hm. by apply elem_of_nil in Hm.
  - apply H3. by left.
  - lia.
Qed.

(** ** A client that serves a fixed history *)

Section history.
Context {M : Type} (key : M → Z) (history : list M).
Hypothesis newest_first : StronglySorted (λ a b, key b < key a) history.

(** The messages before an offset, newest first. *)
Definition older (o : option Z) (l : list M) : list M :=
  match o with None => l | Some o => filter (λ m, key m < o) l end.

Definition serve (n : nat) (limit : Z) (offset : option Z) : result exn (list M) :=
  Ok (take (Z.to_nat limit) (older offset history)).

Lemma sorted_filter (P : M → Prop) `{∀ x, Decision (P x)} l :
  StronglySorted (λ a b, key b < key a) l → StronglySorted (λ a b, key b < key a) (filter P l).
Proof.
  induction 1 as [|x l Hs IH Hx]; [constructor|]. rewrite filter_cons. case_decide; [|done].
  constructor; [done|]. rewrite Forall_forall in *. intros y [_ Hy]%list_elem_of_filter. auto.
Qed.

Lemma older_sorted o : StronglySorted (λ a b, key b < key a) (older o history).
Proof. destruct o; [by apply sorted_filter|done]. Qed.

(** Filtering below the last of a prefix leaves the suffix. *)
Lemma older_last (l1 l2 : list M) x :
  StronglySorted (λ a b, key b < key a) (l1 ++ x :: l2) →
  filter (λ m, key m < key x) (l1 ++ x :: l2) = l2.
Proof.
  induction l1 as [|y l1 IH]; simpl; intros H; apply StronglySorted_inv in H as [Hs Hf].
  - rewrite filter_cons_False by lia. clear Hs. induction l2 as [|z l2 IH]; [done|].
    apply Forall_cons in Hf as [Hz Hf]. rewrite filter_cons_True by done. by rewrite IH.
  - rewrite filter_cons_False; [by apply IH|]. rewrite Forall_forall in Hf.
    specialize (Hf x ltac:(apply elem_of_app; right; by left)). lia.
Qed.

Lemma older_older o x l1 l2 :
  older o history = l1 ++ x :: l2 → older (Some (key x)) history = l2.
Proof.
  intros E. pose proof (older_sorted o) as Hs. rewrite E in Hs.
  rewrite <-(older_last l1 l2 x Hs), <-E. unfold older at 2. destruct o as [o|]; [|done].
  simpl. rewrite list_filter_filter. apply list_filter_iff. intros m.
  assert (x ∈ older (Some o) history) as Hx by (rewrite E; apply elem_of_app; right; by left).
  apply list_elem_of_filter in Hx as [Hx _]. split; [intros; split; lia|tauto].
Qed.

Lemma sorted_min (l : list M) x :
  StronglySorted (λ a b, key b < key a) (l ++ [x]) →
  match key <$> (l ++ [x]) with i :: ids => list_min i ids = key x | [] => False end.
Proof.
  assert (∀ (l : list M) i, key x ≤ i → Forall (λ y, key x < key y) l →
    foldr Z.min i (key <$> (l ++ [x])) = key x) as Hmin.
  { intros l0 i Hi. induction 1 as [|y l0 Hy _ IH]; csimpl; [lia|]. rewrite IH. lia. }
  destruct l as [|y l]; csimpl; [done|]. intros [Hs Hf]%StronglySorted_inv.
  apply Hmin.
  - rewrite Forall_app in Hf. destruct Hf as [_ [Hx _]%Forall_cons]. lia.
  - clear Hf. induction l as [|z l IH]; constructor.
    + apply StronglySorted_inv in Hs as [_ Hz]. by apply Forall_app in Hz as [_ [Hz _]%Forall_cons].
    + apply IH. by apply StronglySorted_inv in Hs as [Hs _].
Qed.

Lemma extract_all l : extract_ids (λ m, Some (key m)) l = Ok (key <$> l).
Proof. apply traverse_Ok. induction l; constructor; done. Qed.

(** What the loop still may collect. *)
Definition budget (fuel : nat) (mm ps : Z) (p : progress) : Z :=
  Z.min (Z.of_nat fuel * ps) (mm - Z.of_nat (length (@collected M p))).

Lemma serve_eq n limit o :
  serve n limit o = Ok (take (Z.to_nat limit) (older o history)).
Proof. done. Qed.

Lemma loop_history fuel mm ps p :
  1 ≤ ps → 0 ≤ mm - Z.of_nat (length (collected p)) → exhausted p = false →
  let k := Z.to_nat (budget fuel mm ps p) in
  let l := older (offset_id p) history in
  ∃ p', fetch_loop (λ m, Some (key m)) serve fuel mm ps p = Ok p' ∧
    collected p' = collected p ++ take k l ∧
    if Nat.ltb (length l) k then exhausted p' = true
    else exhausted p' = false ∧ older (offset_id p') history = drop k l ∧
         ((0 < k)%nat ∨ is_Some (offset_id p) → is_Some (offset_id p')).
Proof.
  intros Hps. revert p. induction fuel as [|fuel IH]; intros p Hmm Hex; cbv zeta.
  { exists p. unfold budget. replace (Z.to_nat _) with O by lia. simpl.
    rewrite take_0, app_nil_r, drop_0. by split_and!; try done; intros [?|?]; [lia|]. }
  cbn [fetch_loop]. destruct (Z.ltb_spec (Z.of_nat (length (collected p))) mm) as [Hlt|Hge].
  2:{ exists p. unfold budget. replace (Z.to_nat _) with O by lia. 
      rewrite take_0, app_nil_r, drop_0. simpl. by split_and!; try done; intros [?|?]; [lia|]. }
  set (remaining := mm - Z.of_nat (length (collected p))) in *.
  set (limit := Z.min ps remaining). rewrite serve_eq. cbn [mbind result_bind].
  set (l := older (offset_id p) history).
  assert (0 < limit) as Hlim by lia.
  assert (budget (S fuel) mm ps p = limit + Z.min (Z.of_nat fuel * ps) (remaining - limit)) as Hb.
  { unfold budget. fold remaining. unfold limit. nia. }
  rewrite Hb. set (rest := Z.min (Z.of_nat fuel * ps) (remaining - limit)).
  assert (0 ≤ rest) as Hrest by (unfold rest, limit; nia).
  rewrite Z2Nat.inj_add by lia. set (n := Z.to_nat limit). set (r := Z.to_nat rest).
  destruct (take n l) as [|m batch] eqn:Eb.
  { assert (l = []) as El.
    { destruct l as [|m l']; [done|]. replace n with (S (n - 1)) in Eb by lia. done. }
    eexists. split; [reflexivity|]. simpl. rewrite El, take_nil, app_nil_r.
    split; [done|]. assert (Nat.ltb (length (@nil M)) (n + r) = true) as ->; [|done].
    apply Nat.ltb_lt. simpl. lia. }
  rewrite extract_all. cbn [mbind result_bind]. rewrite fmap_cons. cbv iota beta.
  assert (Z.of_nat (length (m :: batch)) = Z.min limit (Z.of_nat (length l))) as Hlen.
  { rewrite <-Eb, length_take. lia. }
  destruct (Z.ltb_spec (Z.of_nat (length (m :: batch))) limit) as [Hshort|Hfull].
  - eexists. split; [reflexivity|]. cbn [collected exhausted]. rewrite <-Eb.
    assert (length l < n)%nat by lia. rewrite !take_ge by lia. split; [done|].
    by rewrite (proj2 (Nat.ltb_lt _ _)) by lia.
  - assert (n ≤ length l)%nat as Hn by lia.
    assert (∃ l1 x, take n l = l1 ++ [x]) as (l1&x&Ex).
    { rewrite Eb. destruct (exists_last (l := m :: batch)) as (l1&x&E); [done|]. eauto. }
    assert (list_min (key m) (key <$> batch) = key x) as Hmin.
    { pose proof (older_sorted (offset_id p)) as Hs. fold l in Hs.
      rewrite <-(take_drop n l) in Hs. apply StronglySorted_app_1_l in Hs.
      rewrite Ex in Hs. pose proof (sorted_min l1 x Hs) as H. by rewrite <-Ex, Eb in H. }
    rewrite Hmin.
    assert (older (Some (key x)) history = drop n l) as Hold.
    { apply (older_older (offset_id p) x l1). fold l. rewrite <-(take_drop n l) at 1.
      by rewrite Ex, <-app_assoc. }
    edestruct (IH (MkProgress (S (pages_fetched p)) (collected p ++ m :: batch)
      (bump (most_recent_id p) (list_max (key m) (key <$> batch))) (Some (key x)) false))
      as (p'&Hp'&Hc&Hr); [|done|].
    { cbn [collected]. rewrite length_app. lia. }
    exists p'. split; [exact Hp'|]. cbn [offset_id collected] in Hc, Hr.
    rewrite Hold in Hc, Hr. unfold budget in Hc, Hr. cbn [collected] in Hc, Hr.
    rewrite length_app in Hc, Hr.
    replace (Z.to_nat _) with r in Hc, Hr by (unfold r, rest; f_equal; lia).
    rewrite Hc, <-Eb. split; [by rewrite <-app_assoc, take_take_drop|].
    rewrite length_drop in Hr. rewrite <-drop_drop.
    destruct (Nat.ltb_spec (length l - n) r), (Nat.ltb_spec (length l) (n + r)); try lia; [done|].
    destruct Hr as (H1&H2&H3). split_and!; [done|done|]. intros _.
    apply H3. right. by eexists.
Qed.

(** The messages one poll may take. *)
Definition quota (max_pages max_messages page_size : Z) : nat :=
  Z.to_nat (Z.min (max_pages * page_size) max_messages).

Lemma fetch_once cur max_pages max_messages page_size now :
  1 ≤ max_pages → 1 ≤ max_messages → 1 ≤ page_size →
  let k := quota max_pages max_messages page_size in
  let l := older (cur ≫= next_offset_id) history in
  ∃ res,
    fetch_bounded_messages (λ m, Some (key m)) serve cur max_pages max_messages page_size now
      = Ok res ∧
    messages res = take k l ∧
    (length l < k → next_offset_id (cursor res) = None)%nat ∧
    (k ≤ length l → ∃ o, next_offset_id (cursor res) = Some o ∧
       older (Some o) history = drop k l)%nat.
Proof.
  intros Hp Hm Hs. cbv zeta. unfold fetch_bounded_messages.
  destruct (Z.leb_spec max_pages 0), (Z.leb_spec max_messages 0); try lia. cbn [orb].
  destruct (loop_history (Z.to_nat max_pages) max_messages page_size
    (MkProgress 0 [] (cur ≫= last_message_id) (cur ≫= next_offset_id) false))
    as (p'&->&Hc&Hr); [done|simpl; lia|done|].
  unfold budget in Hc, Hr. cbn [collected offset_id length] in Hc, Hr.
  rewrite Z2Nat.id, Z.sub_0_r in Hc, Hr by lia. fold (quota max_pages max_messages page_size) in Hc, Hr.
  assert (0 < quota max_pages max_messages page_size)%nat by (unfold quota; nia).
  eexists. split; [reflexivity|]. cbn [messages cursor next_offset_id]. split; [done|].
  destruct (Nat.ltb_spec (length (older (cur ≫= next_offset_id) history))
    (quota max_pages max_messages page_size)).
  - rewrite Hr. split; [done|lia].
  - destruct Hr as (->&Hd&Hsome). split; [lia|]. intros _.
    destruct (Hsome ltac:(by left)) as [o Ho]. exists o. by rewrite <-Ho.
Qed.

(** C16. Against a channel whose history does not change between the requests, a poll
    returns exactly the next [min (max_pages * page_size) max_messages] messages below
    the cursor's offset, newest first, without a gap or a repetition; when fewer are left
    it returns them all and clears the offset, so that the following poll starts from the
    newest again; otherwise the following poll resumes right after the last one. *)
Theorem fetch_resumes cur max_pages max_messages page_size now later :
  1 ≤ max_pages → 1 ≤ max_messages → 1 ≤ page_size →
  let k := quota max_pages max_messages page_size in
  let l := older (cur ≫= next_offset_id) history in
  let poll c t :=
    fetch_bounded_messages (λ m, Some (key m)) serve c max_pages max_messages page_size t in
  ∃ res res', poll cur now = Ok res ∧ poll (Some (cursor res)) later = Ok res' ∧
    messages res = take k l ∧
    (k ≤ length l → messages res' = take k (drop k l))%nat ∧
    (length l < k → next_offset_id (cursor res) = None ∧ messages res' = take k history)%nat.
Proof.
  intros Hp Hm Hs. cbv zeta.
  destruct (fetch_once cur max_pages max_messages page_size now Hp Hm Hs) as (res&E&H1&H2&H3).
  destruct (fetch_once (Some (cursor res)) max_pages max_messages page_size later Hp Hm Hs)
    as (res'&E'&H1'&_&_).
  exists res, res'. split_and!; try done.
  - intros Hk. destruct (H3 Hk) as (o&Ho&Hd). rewrite H1'. cbn [mbind option_bind]. by rewrite Ho, Hd.
  - intros Hk. specialize (H2 Hk). split; [done|]. rewrite H1'. cbn [mbind option_bind]. by rewrite H2.
Qed.

End history.

(** ** Instances: a history of five messages, pages of two *)
Definition sample_history : list Z := [9; 7; 5; 4; 2].

Lemma sample_history_sorted : StronglySorted (λ a b : Z, id b < id a) sample_history.
Proof. repeat constructor. Qed.

Lemma fetch_bounds_witness :
  ∃ res, fetch_bounded_messages (λ m : Z, Some m) (serve id sample_history) None 2 3 2
      (DT 0 None) = Ok res ∧ Z.of_nat (length (messages res)) ≤ 3.
Proof.
  destruct (fetch_bounded_messages (λ m : Z, Some m) (serve id sample_history) None 2 3 2
    (DT 0 None)) as [res|] eqn:E; [|by vm_compute in E].
  exists res. split; [done|].
  refine (proj1 (proj2 (fetch_bounds (λ m : Z, Some m) (serve id sample_history) None 2 3 2
    (DT 0 None) res _ E))).
  intros n l o b [= <-]. rewrite length_take. lia.
Defined.

Lemma fetch_resumes_witness :
  ∃ res res', messages (M:=Z) res = [9; 7; 5] ∧ messages (M:=Z) res' = [4; 2] ∧
    fetch_bounded_messages (λ m : Z, Some m) (serve id sample_history) None 2 3 2
      (DT 0 None) = Ok res.
Proof.
  destruct (fetch_resumes id sample_history sample_history_sorted None 2 3 2 (DT 0 None) (DT 1 None))
    as (res&res'&E&_&H1&H2&_); [lia..|].
  exists res, res'. split_and!; [exact H1|apply H2; vm_compute; lia|exact E].
Defined.

End Fetch.

Module AccountRisk.

(** ** Account-risk escalation *)

Definition ACCOUNT_RISK_STATE_KEY_PREFIX : pystr := u "ingest.account_risk_state.".
Definition ACCOUNT_RISK_NOTIFICATION_TYPE : pystr := u "ingest.account_risk".
Definition ACCOUNT_RISK_NOTIFICATION_SEVERITY : pystr := u "high".
Definition ACCOUNT_RISK_PAUSE_REASON : pystr := u "account-risk".
Definition ACCOUNT_RISK_WINDOW_SECONDS : Z := 3600.
Definition ACCOUNT_RISK_THRESHOLD : Z := 3.

Definition _state_key (account_id : Z) : pystr :=
  ACCOUNT_RISK_STATE_KEY_PREFIX ++ str_of_int account_id.

Definition _encode_state (breaches : list datetime) : JSONValue :=
  JDict [(u "breaches", JList ((λ d, JStr (isoformat (u "T") d)) <$> breaches))].

(** What is not a list of readable timestamps is dropped. *)
Definition decode_breach (item : JSONValue) : option datetime :=
  match item with
  | JStr s => _normalize_datetime <$> PyIso.fromisoformat s
  | _ => None
  end.
Definition _decode_state (value : option JSONValue) : list datetime :=
  match value with
  | Some (JDict d) =>
      match dict_get d (u "breaches") with
      | Some (JList items) => omap decode_breach items
      | _ => []
      end
  | _ => []
  end.

Definition _filter_recent (breaches : list datetime) (now : datetime)
    : result exn (list datetime) :=
  cutoff ← dt_add now (- (ACCOUNT_RISK_WINDOW_SECONDS * us_per_second));
  mret (filter (λ b, dt_le cutoff b = true) breaches).

Definition risk_message (account_id : Z) : pystr :=
  u "Account " ++ str_of_int account_id ++ u " paused after repeated risk events. " ++
  u "Explicit resume required to continue polling.".
Definition risk_payload (account_id count : Z) (reason : pystr) (now : datetime) : JSONValue :=
  JDict [(u "account_id", JInt account_id); (u "breach_count", JInt count);
    (u "breach_reason", JStr reason); (u "window_seconds", JInt ACCOUNT_RISK_WINDOW_SECONDS);
    (u "paused_at", JStr (isoformat (u "T") now))].

(** Each repository call commits on its own: what was written before an error stays.
    [ts] is the database clock. *)
Definition record_account_risk_breach (ts : pystr) (clock : datetime) (account_id : Z)
    (breach_reason : pystr) (db : Db) : result exn (option AccountPause.AccountPauseRecord) * Db :=
  let now := _normalize_datetime clock in
  match AccountPause.get_pause_state account_id db with
  | None => (Ok None, db)
  | Some pause_state =>
      match AccountPause.paused_at pause_state with
      | Some _ => (Ok (Some pause_state), db)
      | None =>
          let setting_key := _state_key account_id in
          match Settings.get_by_key setting_key db with
          | Err e => (Err e, db)
          | Ok setting =>
              match _filter_recent (_decode_state (Settings.value <$> setting)) now with
              | Err e => (Err e, db)
              | Ok recent =>
                  let breaches := recent ++ [now] in
                  if Z.ltb (Z.of_nat (length breaches)) ACCOUNT_RISK_THRESHOLD then
                    match Settings.upsert setting_key (_encode_state breaches) db with
                    | (Err e, db) => (Err e, db)
                    | (Ok _, db) => (Ok None, db)
                    end
                  else
                    let '(paused, db) := AccountPause.pause_account now account_id
                                           ACCOUNT_RISK_PAUSE_REASON (Some now) db in
                    match Settings.upsert setting_key (_encode_state []) db with
                    | (Err e, db) => (Err e, db)
                    | (Ok _, db) =>
                        match paused with
                        | None => (Ok None, db)
                        | Some p =>
                            let '(_, db) := Notifications.create ts
                              ACCOUNT_RISK_NOTIFICATION_TYPE ACCOUNT_RISK_NOTIFICATION_SEVERITY
                              (risk_message account_id)
                              (risk_payload account_id (Z.of_nat (length breaches))
                                 breach_reason now) db in
                            (Ok (Some p), db)
                        end
                    end
              end
          end
      end
  end.

(** ** Lemmas *)

(** The breaches on record for an account. *)
Definition breaches_of (account_id : Z) (db : Db) : list datetime :=
  _decode_state (settings db !! _state_key account_id).

Lemma state_encodable l : json_encodable (_encode_state l) = true.
Proof.
  simpl. rewrite andb_true_r. induction l as [|d l IH]; simpl; [done|].
  exact IH.
Qed.

Lemma decode_encode_state l :
  Forall PyIso.valid l → _decode_state (Some (_encode_state l)) = _normalize_datetime <$> l.
Proof.
  intros H. unfold _encode_state, _decode_state. cbn [dict_get].
  rewrite bool_decide_eq_true_2 by done.
  induction H as [|d l Hd _ IH]; [done|]. csimpl.
  change (u "T") with [84]. rewrite PyIso.fromisoformat_isoformat by done. csimpl.
  f_equal. exact IH.
Qed.

(** Times this module writes: aware, and such as Python can construct. *)
Definition written (d : datetime) : Prop := PyIso.valid d ∧ is_Some (dt_offset d).

Lemma written_normalized d : written d → _normalize_datetime d = d.
Proof. intros [_ [o Ho]]. unfold _normalize_datetime. by rewrite Ho. Qed.

Lemma decode_written l : Forall written l → _decode_state (Some (_encode_state l)) = l.
Proof.
  intros H. rewrite decode_encode_state by (eapply Forall_impl; [exact H|by intros d [? _]]).
  induction H as [|d l Hd _ IH]; [done|]. csimpl. by rewrite written_normalized, IH.
Qed.

(** Breaches within the window that ends at [now]. *)
Definition recent_of (now : datetime) (l : list datetime) : list datetime :=
  filter (λ b, instant now - ACCOUNT_RISK_WINDOW_SECONDS * us_per_second ≤ instant b) l.

Lemma filter_recent_spec now l r :
  _filter_recent l now = Ok r → r = recent_of now l.
Proof.
  unfold _filter_recent. destruct (dt_add now _) as [cutoff|] eqn:E; [|done].
  apply dt_add_Ok in E as [Ei _]. intros [= <-]. apply list_filter_iff. intros b.
  unfold dt_le. rewrite Z.leb_le, Ei. done.
Qed.

Lemma get_setting_of k db :
  (∀ v, settings db !! k = Some v → json_encodable v = true) →
  ∃ r, Settings.get_by_key k db = Ok r ∧ Settings.value <$> r = settings db !! k.
Proof.
  intros H. unfold Settings.get_by_key, Settings._decode_row, Settings._is_json_value.
  destruct (settings db !! k) as [v|]; [|by eexists]. rewrite (H v eq_refl).
  by eexists.
Qed.

Lemma upsert_state k l db :
  Settings.upsert k (_encode_state l) db =
    (Ok (Settings.MkSetting k (_encode_state l)),
     set_settings (<[k := _encode_state l]> (settings db)) db).
Proof.
  unfold Settings.upsert, Settings._encode_value_json, Settings._decode_row, Settings._is_json_value.
  by rewrite state_encodable, state_encodable.
Qed.

(** A risk breach of an unpaused account is added to the breaches of the past hour
    on record for it, older ones being forgotten. With two or more on record already, it
    instead pauses the account at that time for the reason "account-risk", clears the
    record and raises one high-severity notification; with fewer the account stays
    unpaused and nothing is notified. A paused account is returned as it is, an unknown
    one ignored, and nothing else in the database changes. *)
Theorem breach_step ts clock i reason db r db' :
  let now := _normalize_datetime clock in
  record_account_risk_breach ts clock i reason db = (r, db') →
  PyIso.valid clock →
  (∀ v, settings db !! _state_key i = Some v → json_encodable v = true) →
  Forall written (breaches_of i db) →
  let recent := recent_of now (breaches_of i db) in
  (accounts db !! i = None → r = Ok None ∧ db' = db) ∧
  (∀ a, accounts db !! i = Some a → is_Some (ac_paused_at a) →
     r = Ok (Some (AccountPause._decode_pause_row i a)) ∧ db' = db) ∧
  (∀ a, accounts db !! i = Some a → ac_paused_at a = None →
     (dt_wall clock < ACCOUNT_RISK_WINDOW_SECONDS * us_per_second ∧
      r = Err OverflowError ∧ db' = db) ∨
     ((length recent < 2)%nat ∧ r = Ok None ∧ breaches_of i db' = recent ++ [now] ∧
      set_settings (settings db) db' = db) ∨
     ((2 ≤ length recent)%nat ∧ breaches_of i db' = [] ∧
      r = Ok (AccountPause.get_pause_state i db') ∧
      AccountPause.get_pause_state i db' =
        Some (AccountPause.MkPauseRecord i (Some now) (Some ACCOUNT_RISK_PAUSE_REASON)) ∧
      (∀ j, j ≠ i → accounts db' !! j = accounts db !! j) ∧
      notifications db' = <[next_id (notifications db) :=
        Notifications.new_row ts ACCOUNT_RISK_NOTIFICATION_TYPE ACCOUNT_RISK_NOTIFICATION_SEVERITY
          (risk_message i) (risk_payload i (Z.of_nat (length recent) + 1) reason now)]>
        (notifications db) ∧
      (∀ k, k ≠ _state_key i → settings db' !! k = settings db !! k))).
Proof.
  intros now H Hv Henc Hw recent. unfold record_account_risk_breach in H. fold now in H.
  unfold AccountPause.get_pause_state in H.
  destruct (accounts db !! i) as [a|] eqn:Ea; cbn [fmap option_fmap option_map] in H.
  2:{ injection H as <- <-. by split_and!. }
  assert (AccountPause.paused_at (AccountPause._decode_pause_row i a) =
    _normalize_datetime <$> ac_paused_at a) as Ep by done.
  rewrite Ep in H. split; [done|]. split.
  { intros ? [= <-] [p Hp]. rewrite Hp in H. simpl in H. by injection H as <- <-. }
  intros ? [= <-] Hp. rewrite Hp in H. cbn [fmap option_fmap option_map] in H.
  destruct (get_setting_of _ _ Henc) as (s&Es&Hs). rewrite Es, Hs in H. fold (breaches_of i db) in H.
  destruct (_filter_recent (breaches_of i db) now) as [rc|e] eqn:Er.
  2:{ left. injection H as <- <-. unfold _filter_recent, dt_add in Er.
      destruct (in_range _) eqn:Hr; [done|]. simpl in Er. split_and!; [|congruence|done].
      destruct Hv as [Hv _]. apply PyIso.in_range_iff in Hv.
      assert (dt_wall now = dt_wall clock) as Ew by (unfold now; by destruct clock as [w [o|]]).
      rewrite Ew in Hr. unfold in_range in Hr. unfold ACCOUNT_RISK_WINDOW_SECONDS, us_per_second in *.
      apply andb_false_iff in Hr as [?%Z.leb_gt|?%Z.ltb_ge]; lia. }
  right. apply filter_recent_spec in Er. fold recent in Er. subst rc.
  assert (written now) as Hnow.
  { unfold now, _normalize_datetime. destruct clock as [w [o|]]; simpl.
    - split; [done|by eexists].
    - destruct Hv as [Hr _]. split; [|by eexists]. split; [done|]. by intros o [= <-]. }
  assert (Forall written (recent ++ [now])) as Hall.
  { apply Forall_app. split; [|by constructor]. unfold recent, recent_of.
    rewrite Forall_forall in *. intros d [_ Hd]%list_elem_of_filter. auto. }
  rewrite length_app in H. cbn [length] in H.
  rewrite !upsert_state in H. unfold ACCOUNT_RISK_THRESHOLD in H.
  destruct (Z.ltb_spec (Z.of_nat (length recent + 1)) 3).
  - left. injection H as <- <-. split_and!; [lia|done| |by destruct db].
    unfold breaches_of. simpl. by rewrite lookup_insert_eq, decode_written.
  - right. unfold AccountPause.pause_account, AccountPause.update_row in H. rewrite Ea in H.
    cbn [settings set_accounts] in H. rewrite upsert_state in H.
    unfold Notifications.create in H. injection H as <- <-.
    split_and!; [lia| | | | | |].
    + unfold breaches_of. simpl. by rewrite lookup_insert_eq.
    + unfold AccountPause.get_pause_state. simpl. by rewrite lookup_insert_eq.
    + unfold AccountPause.get_pause_state. simpl. rewrite lookup_insert_eq.
      unfold AccountPause._decode_pause_row. simpl. by rewrite written_normalized.
    + intros j Hj. simpl. by rewrite lookup_insert_ne.
    + simpl. repeat f_equal. lia.
    + intros k Hk. simpl. by rewrite lookup_insert_ne.
Qed.

(** ** Instance: three breaches of account 1 within an hour *)
Definition sample_clock (minutes : Z) : datetime :=
  DT ((738944 * seconds_per_day + minutes * 60) * us_per_second) None.
Definition sample_breach (minutes : Z) (db : Db) :=
  record_account_risk_breach (sample_time 9) (sample_clock minutes) 1 (u "flood-wait") db.
Definition sample_breached : Db := (sample_breach 50 (sample_breach 30 sample_db).2).2.

Lemma breach_step_witness :
  AccountPause.get_pause_state 1 sample_breached =
    Some (AccountPause.MkPauseRecord 1 None None) ∧
  AccountPause.get_pause_state 1 (sample_breach 90 sample_breached).2 =
    Some (AccountPause.MkPauseRecord 1 (Some (_normalize_datetime (sample_clock 90)))
            (Some ACCOUNT_RISK_PAUSE_REASON)).
Proof.
  split; [by vm_compute|].
  destruct (sample_breach 90 sample_breached) as [r db'] eqn:E.
  destruct (breach_step _ _ _ _ _ _ _ E) as (_&_&H).
  - split; [by vm_compute|done].
  - intros v Hv. vm_compute in Hv. injection Hv as <-. by vm_compute.
  - assert (breaches_of 1 sample_breached =
      [_normalize_datetime (sample_clock 30); _normalize_datetime (sample_clock 50)]) as ->
      by (by vm_compute).
    assert (∀ m, in_range (dt_wall (sample_clock m)) = true →
      written (_normalize_datetime (sample_clock m))) as Hw.
    { intros m Hm. split; [split; [exact Hm|by intros o [= <-]]|by eexists]. }
    apply Forall_cons; split; [apply Hw; by vm_compute|].
    apply Forall_cons; split; [apply Hw; by vm_compute|]. by constructor.
  - assert (accounts sample_breached !! 1 =
      Some (MkAccount 11 [7] (Some (u "+155")) (Some [9]) 1 None None)) as Ea by (by vm_compute).
    destruct (H _ Ea eq_refl) as [(Hc&_)|[(Hl&_)|(_&_&_&Hp&_)]].
    + exfalso. clear - Hc. by vm_compute in Hc.
    + exfalso. clear - Hl. vm_compute in Hl. lia.
    + exact Hp.
Defined.

End AccountRisk.

Module FloodWait.

(** ** Flood waits *)

Definition SIGNIFICANT_FLOOD_WAIT_SECONDS : Z := 300.
Definition FLOOD_WAIT_NOTIFICATION_TYPE : pystr := u "ingest.flood_wait".
Definition FLOOD_WAIT_NOTIFICATION_SEVERITY : pystr := u "medium".

(** [seconds]: the error's integer [seconds] attribute, if it has one. *)
Definition _extract_wait_seconds (seconds : option Z) : option Z :=
  match seconds with
  | Some s => if Z.ltb 0 s then Some s else None
  | None => None
  end.

Definition flood_message (channel_id : Z) (resume_at : datetime) : pystr :=
  u "Flood wait enforced for channel " ++ str_of_int channel_id ++ u "; paused until " ++
  isoformat (u "T") resume_at ++ u ".".
Definition flood_payload (channel_id wait_seconds : Z) (resume_at : datetime) : JSONValue :=
  JDict [(u "channel_id", JInt channel_id); (u "wait_seconds", JInt wait_seconds);
    (u "resume_at", JStr (isoformat (u "T") resume_at))].

(** The notification of a significant wait. *)
Definition notify (ts : pystr) (channel_id wait_seconds : Z) (resume_at : datetime) (db : Db) : Db :=
  if Z.leb SIGNIFICANT_FLOOD_WAIT_SECONDS wait_seconds then
    (Notifications.create ts FLOOD_WAIT_NOTIFICATION_TYPE FLOOD_WAIT_NOTIFICATION_SEVERITY
       (flood_message channel_id resume_at) (flood_payload channel_id wait_seconds resume_at) db).2
  else db.

(** The operation submitted to the writer queue. *)
Definition _persist (ts : pystr) (channel_id wait_seconds : Z) (resume_at : datetime) (db : Db)
    : result exn ChannelStates.ChannelStateRecord * Db :=
  match ChannelStates.update_pause channel_id (Some resume_at) db with
  | (Err e, db) => (Err e, db)
  | (Ok record, db) => (Ok record, notify ts channel_id wait_seconds resume_at db)
  end.

(** [account_id] is given when the risk repositories are; [later] is the clock the risk
    step reads. A failure of the risk step is logged and dropped. *)
Definition handle_flood_wait (ts : pystr) (clock later : datetime) (channel_id : Z)
    (seconds : option Z) (account_id : option Z) (db : Db)
    : result exn ChannelStates.ChannelStateRecord * Db :=
  match _extract_wait_seconds seconds with
  | None => (Err (ValueError "Flood wait error missing wait seconds."), db)
  | Some wait_seconds =>
      let now := _normalize_datetime clock in
      match dt_add now (wait_seconds * us_per_second) with
      | Err e => (Err e, db)
      | Ok resume_at =>
          match _persist ts channel_id wait_seconds resume_at db with
          | (Err e, db) => (Err e, db)
          | (Ok record, db) =>
              match account_id with
              | None => (Ok record, db)
              | Some account_id =>
                  let '(_, db) := AccountRisk.record_account_risk_breach ts later account_id
                                    (u "flood-wait") db in
                  (Ok record, db)
              end
          end
      end
  end.

Lemma breach_channel_states ts clock i reason db :
  channel_states (AccountRisk.record_account_risk_breach ts clock i reason db).2
    = channel_states db.
Proof.
  unfold AccountRisk.record_account_risk_breach.
  destruct (AccountPause.get_pause_state i db) as [p|] eqn:Ep; [|done].
  destruct (AccountPause.paused_at p); [done|].
  destruct (Settings.get_by_key _ db); [|done].
  destruct (AccountRisk._filter_recent _ _) as [rc|]; [|done]. cbv zeta.
  rewrite AccountRisk.upsert_state.
  destruct (Z.ltb _ _); [done|].
  destruct (AccountPause.pause_account _ _ _ _ db) as [paused db1] eqn:E1.
  assert (channel_states db1 = channel_states db) as E.
  { unfold AccountPause.pause_account, AccountPause.update_row in E1.
    destruct (accounts db !! i); by injection E1 as <- <-. }
  rewrite AccountRisk.upsert_state. by destruct paused.
Qed.

(** What follows the pause keeps the polling state and the answer. *)
Lemma handle_after_pause ts later c s account (rec : ChannelStates.ChannelStateRecord) resume
    db1 (r : result exn ChannelStates.ChannelStateRecord) db' :
  match account with
  | None => (Ok rec, notify ts c s resume db1)
  | Some a =>
      let '(_, db) := AccountRisk.record_account_risk_breach ts later a (u "flood-wait")
                        (notify ts c s resume db1) in
      (Ok rec, db)
  end = (r, db') →
  r = Ok rec ∧ channel_states db' = channel_states db1 ∧
  (account = None → db' = notify ts c s resume db1).
Proof.
  assert (channel_states (notify ts c s resume db1) = channel_states db1) as E2.
  { unfold notify. destruct (Z.leb _ _); [by rewrite Notifications.create_db|done]. }
  destruct account as [a|]; [|by intros [= <- <-]].
  pose proof (breach_channel_states ts later a (u "flood-wait") (notify ts c s resume db1)) as Eb.
  destruct (AccountRisk.record_account_risk_breach _ _ _ _ _) as [r3 db3].
  intros [= <- <-]. simpl in Eb. split_and!; [done|by rewrite Eb|done].
Qed.

(** A flood wait of [s] positive seconds on an existing channel pauses the channel
    until [s] seconds after the clock, keeping its cursor and last success, notifies
    exactly when [s] is 300 or more, and succeeds whatever becomes of the account-risk
    step. Without a positive wait it fails with [ValueError], on a channel that does not
    exist with a foreign-key error, and past the year 9999 with [OverflowError], changing
    nothing. *)
Theorem flood_wait_pauses ts clock later c seconds account db r db' :
  wf_db db →
  handle_flood_wait ts clock later c seconds account db = (r, db') →
  ((∀ s, seconds = Some s → s ≤ 0) →
     r = Err (ValueError "Flood wait error missing wait seconds.") ∧ db' = db) ∧
  (∀ s, seconds = Some s → 0 < s →
     match dt_add (_normalize_datetime clock) (s * us_per_second) with
     | Err e => r = Err e ∧ e = OverflowError ∧ db' = db
     | Ok resume =>
         instant resume = instant (_normalize_datetime clock) + s * us_per_second ∧
         (channels db !! c = None → r = Err (IntegrityError ForeignKeyFailed) ∧ db' = db) ∧
         (is_Some (channels db !! c) →
            ∃ rec, r = Ok rec ∧ ChannelStates.get_state c db' = Some rec ∧
              ChannelStates.paused_until rec = Some resume ∧
              ChannelStates.cursor rec = (ChannelStates.get_state c db ≫= ChannelStates.cursor) ∧
              ChannelStates.last_success_at rec =
                (ChannelStates.get_state c db ≫= ChannelStates.last_success_at) ∧
              (∀ j, j ≠ c → ChannelStates.get_state j db' = ChannelStates.get_state j db) ∧
              (account = None →
                 notifications db' =
                   if Z.leb 300 s then
                     <[next_id (notifications db) :=
                         Notifications.new_row ts FLOOD_WAIT_NOTIFICATION_TYPE
                           FLOOD_WAIT_NOTIFICATION_SEVERITY (flood_message c resume)
                           (flood_payload c s resume)]> (notifications db)
                   else notifications db))
     end).
Proof.
  intros W H. unfold handle_flood_wait, _extract_wait_seconds in H. split.
  { intros Hs. destruct seconds as [s|]; [|by injection H as <- <-].
    destruct (Z.ltb_spec 0 s); [specialize (Hs s eq_refl); lia|by injection H as <- <-]. }
  intros s -> Hs. rewrite (proj2 (Z.ltb_lt 0 s) Hs) in H.
  destruct (dt_add _ _) as [resume|e] eqn:Ed.
  2:{ injection H as <- <-. unfold dt_add in Ed. case_match; [done|]. injection Ed as <-. done. }
  apply dt_add_Ok in Ed as [Ei Eo]. split; [done|].
  assert (_normalize_datetime resume = resume) as Enr.
  { destruct (normalize_aware clock) as [o Ho]. unfold _normalize_datetime at 1.
    by rewrite Eo, Ho. }
  unfold _persist in H.
  destruct (ChannelStates.update_pause c (Some resume) db) as [[rec|e] db1] eqn:Eu.
  - assert (is_Some (channels db !! c)) as Hc.
    { unfold ChannelStates.update_pause, ChannelStates.upsert in Eu. case_decide as Hc; [|done].
      destruct Hc as [[st Hst]|Hc]; [by eapply fk_channel_states|done]. }
    split; [intros Hn; rewrite Hn in Hc; by destruct Hc|]. intros _.
    destruct (ChannelStates.pause_reads _ _ _ _ _ Eu) as (Hg&Hp&Hcu&Hl&Hj).
    assert (notifications db1 = notifications db) as En.
    { unfold ChannelStates.update_pause, ChannelStates.upsert in Eu. case_decide; [|done].
      by injection Eu as _ <-. }
    destruct (handle_after_pause ts later c s account rec resume db1 r db' H) as (->&E3&Ea).
    exists rec. unfold ChannelStates.get_state in *. rewrite E3.
    split_and!; try done; [by rewrite Hp; simpl; rewrite Enr|].
    intros Hn. rewrite (Ea Hn). unfold notify. change 300 with SIGNIFICANT_FLOOD_WAIT_SECONDS.
    destruct (Z.leb _ _); [|done]. rewrite Notifications.create_db. simpl. by rewrite En.
  - assert (channels db !! c = None ∧ e = IntegrityError ForeignKeyFailed ∧ db1 = db) as (Hc&->&->).
    { unfold ChannelStates.update_pause, ChannelStates.upsert in Eu. case_decide as Hc; [done|].
      injection Eu as <- <-. split_and!; [|done|done].
      destruct (channels db !! c); [|done]. destruct Hc. right. by eexists. }
    injection H as <- <-. split; [done|]. rewrite Hc. intros [? ?]. done.
Qed.

(** ** Instance: ten minutes on channel 1 *)
Lemma flood_wait_pauses_witness :
  ∃ rec, (handle_flood_wait (sample_time 9) (AccountRisk.sample_clock 0) (AccountRisk.sample_clock 0)
            1 (Some 600) (Some 1) sample_db).1 = Ok rec ∧
    ChannelStates.paused_until rec =
      Some (DT (dt_wall (AccountRisk.sample_clock 10)) (Some 0)).
Proof.
  destruct (handle_flood_wait (sample_time 9) (AccountRisk.sample_clock 0)
    (AccountRisk.sample_clock 0) 1 (Some 600) (Some 1) sample_db) as [r db'] eqn:E.
  destruct (flood_wait_pauses _ _ _ _ _ _ _ _ _ sample_db_wf E) as [_ H].
  specialize (H 600 eq_refl eq_refl).
  assert (dt_add (_normalize_datetime (AccountRisk.sample_clock 0)) (600 * us_per_second) =
    Ok (DT (dt_wall (AccountRisk.sample_clock 10)) (Some 0))) as Ea by (by vm_compute).
  rewrite Ea in H. destruct H as (_&_&H).
  assert (is_Some (channels sample_db !! 1)) as Hc by (vm_compute; by eexists).
  destruct (H Hc) as (rec&->&_&Hp&_). by exists rec.
Defined.

End FloodWait.

Module ErrorCapture.

(** ** Error capture *)

Inductive IngestErrorStage := FETCH | NORMALIZE | DEDUPE | AUTH.

Definition stage_value (s : IngestErrorStage) : pystr :=
  match s with
  | FETCH => u "fetch" | NORMALIZE => u "normalize" | DEDUPE => u "dedupe" | AUTH => u "auth"
  end.
Definition ALLOWED_INGEST_ERROR_STAGES : list pystr :=
  stage_value <$> [FETCH; NORMALIZE; DEDUPE; AUTH].

(** A stage argument: a member of the enumeration, a text, or another object. *)
Inductive stage_arg := SEnum (s : IngestErrorStage) | SText (s : pystr) | SOther.

(** The allowed names are ASCII, and no other letter has a lower case that is one of
    theirs, so lowering the ASCII letters decides membership as [str.lower] does. *)
Definition normalize_ingest_error_stage (stage : stage_arg) : result exn pystr :=
  match stage with
  | SOther => Err (TypeError "Ingest error stage must be a string or IngestErrorStage.")
  | SEnum s => if bool_decide (stage_value s ∈ ALLOWED_INGEST_ERROR_STAGES)
               then Ok (stage_value s) else Err (ValueError "Invalid ingest error stage")
  | SText s =>
      let value := ascii_lower <$> strip s in
      if bool_decide (value ∈ ALLOWED_INGEST_ERROR_STAGES) then Ok value
      else Err (ValueError "Invalid ingest error stage")
  end.

Definition capture_ingest_error (ts : pystr) (channel : option Z) (stage : stage_arg)
    (code message : pystr) (payload_ref : option pystr) (db : Db)
    : result exn IngestErrors.IngestErrorRecord * Db :=
  match normalize_ingest_error_stage stage with
  | Err e => (Err e, db)
  | Ok s => IngestErrors.create ts channel s code message payload_ref db
  end.

Section execute.
(** [recoverable e]: an instance of one of [recoverable_errors], and no cancellation;
    [str e]: [str(exc)]. *)
Context {A : Type} (recoverable : exn → bool) (str : exn → pystr).

(** [operation] runs on the database and may leave effects behind when it raises. *)
Definition execute_with_ingest_error_capture (operation : Db → result exn A * Db)
    (ts : pystr) (channel : option Z) (stage : stage_arg) (code : pystr)
    (payload_ref : option pystr) (db : Db) : result exn (option A) * Db :=
  match operation db with
  | (Ok a, db) => (Ok (Some a), db)
  | (Err e, db) =>
      if recoverable e then
        match capture_ingest_error ts channel stage code (str e) payload_ref db with
        | (Err e, db) => (Err e, db)
        | (Ok _, db) => (Ok None, db)
        end
      else (Err e, db)
  end.

Lemma normalize_allowed stage s :
  normalize_ingest_error_stage stage = Ok s → s ∈ IngestErrors.stages.
Proof.
  unfold normalize_ingest_error_stage. destruct stage as [e|t|]; [| |done];
    (case_bool_decide as H; [|done]); intros [= <-]; exact H.
Qed.

(** Error capture passes results through and re-raises what is not recoverable,
    recording nothing. A recoverable failure under a valid stage is swallowed, and adds
    exactly one ingest error: with the stage normalised (so the stage check of the table
    can never fail), the given code and the text of the exception; the channel must
    exist. An invalid stage, or a missing channel, raises instead, recording nothing. *)
Theorem capture_records (operation : Db → result exn A * Db) now channel stage code pref db r db' :
  in_range now = true →
  execute_with_ingest_error_capture operation (current_timestamp now) channel stage code pref db
    = (r, db') →
  let '(result, after) := operation db in
  match result with
  | Ok a => r = Ok (Some a) ∧ db' = after
  | Err e =>
      if recoverable e then
        match normalize_ingest_error_stage stage with
        | Err x => r = Err x ∧ db' = after
        | Ok s =>
            if refb (channels after) channel then
              r = Ok None ∧
              db' = set_ingest_errors (<[next_id (ingest_errors after) :=
                MkIngestError channel s code (str e) pref (current_timestamp now)]>
                (ingest_errors after)) after
            else r = Err (IntegrityError ForeignKeyFailed) ∧ db' = after
        end
      else r = Err e ∧ db' = after
  end.
Proof.
  intros Hnow. unfold execute_with_ingest_error_capture. destruct (operation db) as [[a|e] after].
  { by intros [= <- <-]. }
  destruct (recoverable e); [|by intros [= <- <-]].
  unfold capture_ingest_error.
  destruct (normalize_ingest_error_stage stage) as [s|x] eqn:Es; [|by intros [= <- <-]].
  apply normalize_allowed in Es. unfold IngestErrors.create, IngestErrors.insert_error.
  cbn [ie_stage ie_channel_id]. rewrite bool_decide_eq_true_2 by done.
  destruct (refb (channels after) channel); [|by intros [= <- <-]].
  unfold IngestErrors._decode_ingest_error_row. cbn [ie_created_at].
  rewrite coerce_current_timestamp by done. by intros [= <- <-].
Qed.
End execute.

(** ** Instance: a fetch that fails on channel 1 *)
Lemma capture_records_witness :
  let r := execute_with_ingest_error_capture (A:=unit) (λ _, true) (λ _, u "boom")
    (λ db, (Err OverflowError, db)) (current_timestamp Notifications.sample_now) (Some 1)
    (SText (u " Fetch ")) (u "E1") None sample_db in
  r.1 = Ok None ∧
  ie_stage <$> ingest_errors r.2 !! next_id (ingest_errors sample_db) = Some (u "fetch").
Proof.
  intros r. destruct r as [res db'] eqn:E.
  pose proof (capture_records (A:=unit) (λ _, true) (λ _, u "boom") (λ db, (Err OverflowError, db))
    Notifications.sample_now (Some 1) (SText (u " Fetch ")) (u "E1") None sample_db res db'
    eq_refl E) as H.
  cbv beta iota in H. change (normalize_ingest_error_stage _) with (Ok (E:=exn) (u "fetch")) in H.
  cbv beta iota in H. change (refb _ _) with true in H. destruct H as [-> ->].
  split; [done|]. simpl. by rewrite lookup_insert_eq.
Defined.

End ErrorCapture.
