(* ===== verification/Contents.v ===== *)
(** Stored content: the raw messages (src/tca/storage/raw_messages_repo.py) and the
    normalised items (src/tca/storage/items_repo.py), both written by upserts keyed by
    channel and message. *)

From S2P Require Import Prelude PyValue PyTime PyIso Schema Notifications.
Local Open Scope Z_scope.

Module RawMessages.

Definition RawMessagePayloadEncodeError : exn := AppError "RawMessagePayloadEncodeError".
Definition RawMessagePayloadDecodeError : exn := AppError "RawMessagePayloadDecodeError".

Record RawMessageRecord := MkRawRecord {
  raw_message_id : Z;
  channel_id : Z;
  message_id : Z;
  payload : JSONValue;
  created_at : datetime;
  updated_at : datetime;
}.

Definition _encode_payload_json (p : JSONValue) : result exn JSONValue :=
  if json_encodable p then Ok p else Err RawMessagePayloadEncodeError.

Definition _decode_raw_message_row (i : Z) (r : RawMessage) : result exn RawMessageRecord :=
  created ← coerce_datetime RawMessagePayloadDecodeError (rm_created_at r);
  updated ← coerce_datetime RawMessagePayloadDecodeError (rm_updated_at r);
  mret (MkRawRecord i (rm_channel_id r) (rm_message_id r) (rm_payload r) created updated).

Definition is_message (c m : Z) (r : RawMessage) : bool :=
  Z.eqb (rm_channel_id r) c && Z.eqb (rm_message_id r) m.

(** [INSERT INTO raw_messages ... ON CONFLICT(channel_id, message_id) DO UPDATE SET ...
    RETURNING ...]: the row written and the table after it. *)
Definition upsert_row (now : pystr) (c m : Z) (p : JSONValue) (db : Db)
    : result exn ((Z * RawMessage) * Db) :=
  match first_row (is_message c m) (raw_messages db) with
  | Some (i, r) =>
      let r := MkRaw (rm_channel_id r) (rm_message_id r) p (rm_created_at r) now in
      Ok ((i, r), set_raw_messages (<[i := r]> (raw_messages db)) db)
  | None =>
      if decide (is_Some (channels db !! c)) then
        let i := next_id (raw_messages db) in
        let r := MkRaw c m p now now in
        Ok ((i, r), set_raw_messages (<[i := r]> (raw_messages db)) db)
      else Err (IntegrityError ForeignKeyFailed)
  end.

(** The row is committed before it is decoded. *)
Definition upsert_raw_message (now : pystr) (c m : Z) (p : JSONValue) (db : Db)
    : result exn RawMessageRecord * Db :=
  match _encode_payload_json p with
  | Err e => (Err e, db)
  | Ok p =>
      match upsert_row now c m p db with
      | Err e => (Err e, db)
      | Ok ((i, r), db) => (_decode_raw_message_row i r, db)
      end
  end.

Lemma raw_is_message_true c m r : is_message c m r = true ↔ rm_channel_id r = c ∧ rm_message_id r = m.
Proof. unfold is_message. by rewrite andb_true_iff, !Z.eqb_eq. Qed.

Lemma raw_upsert_row_spec now c m p db i r db' :
  wf_db db → upsert_row now c m p db = Ok ((i, r), db') →
  wf_db db' ∧ db' = set_raw_messages (<[i := r]> (raw_messages db)) db ∧
  is_message c m r = true ∧ rm_payload r = p ∧ rm_updated_at r = now ∧
  ((∃ old, raw_messages db !! i = Some old ∧ is_message c m old = true ∧
      rm_created_at r = rm_created_at old) ∨
   (raw_messages db !! i = None ∧ rm_created_at r = now ∧
      ∀ j old, raw_messages db !! j = Some old → is_message c m old = false)).
Proof.
  intros W. unfold upsert_row.
  destruct (first_row (is_message c m) (raw_messages db)) as [[j old]|] eqn:E.
  - apply first_row_Some in E as [Hj Hm]. intros [= <- <- <-].
    pose proof (proj1 (raw_is_message_true _ _ _) Hm) as [Ec Em]. split_and!; try done.
    2:{ left. eauto. }
    apply set_raw_messages_wf; [done| | |].
    + intros k. by apply is_Some_insert.
    + intros k r [[<- <-]|[_ Hr]]%lookup_insert_Some; simpl; by eapply fk_raw_messages.
    + intros k k' r r' [[<- <-]|[? Hr]]%lookup_insert_Some [[<- <-]|[? Hr']]%lookup_insert_Some;
        simpl; intros; [done| | |]; by eapply (uq_raw_messages _ W).
  - pose proof (first_row_None _ _ E) as Hno.
    case_decide as Hc; [|done]. intros [= <- <- <-]. split_and!; try done.
    2:{ by apply raw_is_message_true. } 2:{ right. split_and!; [apply next_id_fresh|done|done]. }
    assert (∀ k r, raw_messages db !! k = Some r → rm_channel_id r = c → rm_message_id r = m → False)
      as Hnew.
    { intros k r Hr Ec Em. apply Hno in Hr. by rewrite (proj2 (raw_is_message_true _ _ _)) in Hr. }
    apply set_raw_messages_wf; [done| | |].
    + intros k. by apply is_Some_insert.
    + intros k r [[<- <-]|[_ Hr]]%lookup_insert_Some; simpl; [done|by eapply fk_raw_messages].
    + intros k k' r r' [[<- <-]|[? Hr]]%lookup_insert_Some [[<- <-]|[? Hr']]%lookup_insert_Some;
        simpl; intros; [done| | |by eapply (uq_raw_messages _ W)]; exfalso; by eapply Hnew.
Qed.

Lemma upsert_raw_message_wf now c m p db : wf_db db → wf_db (upsert_raw_message now c m p db).2.
Proof.
  intros W. unfold upsert_raw_message, _encode_payload_json. destruct (json_encodable p); [|done].
  destruct (upsert_row now c m p db) as [[[i r] db']|] eqn:E; [|done]. simpl.
  by eapply raw_upsert_row_spec.
Qed.

(** A message that is stored is found again. *)
Lemma raw_upsert_row_again now c m p db i r :
  wf_db db → raw_messages db !! i = Some r → is_message c m r = true →
  let r' := MkRaw c m p (rm_created_at r) now in
  upsert_row now c m p db = Ok ((i, r'), set_raw_messages (<[i := r']> (raw_messages db)) db).
Proof.
  intros W Hi Hm. pose proof (proj1 (raw_is_message_true _ _ _) Hm) as [Ec Em].
  unfold upsert_row. rewrite (first_row_unique _ _ i r); [by rewrite Ec, Em| |done|done].
  intros j y Hy [H1 H2]%raw_is_message_true.
  eapply (uq_raw_messages _ W); [exact Hy|exact Hi|congruence|congruence].
Qed.

End RawMessages.

Module Items.

Definition ItemsRepositoryError : exn := AppError "ItemsRepositoryError".

Record ItemRecord := MkItemRecord {
  item_id : Z;
  channel_id : Z;
  message_id : Z;
  raw_message_id : option Z;
  published_at : option datetime;
  title : option pystr;
  body : option pystr;
  canonical_url : option pystr;
  canonical_url_hash : option pystr;
  content_hash : option pystr;
  dedupe_state : pystr;
  created_at : datetime;
  updated_at : datetime;
}.

Definition _decode_item_row (i : Z) (x : Item) : result exn ItemRecord :=
  published ← coerce_optional_datetime ItemsRepositoryError (it_published_at x);
  created ← coerce_datetime ItemsRepositoryError (it_created_at x);
  updated ← coerce_datetime ItemsRepositoryError (it_updated_at x);
  mret (MkItemRecord i (it_channel_id x) (it_message_id x) (it_raw_message_id x) published
    (it_title x) (it_body x) (it_canonical_url x) (it_canonical_url_hash x) (it_content_hash x)
    (it_dedupe_state x) created updated).

(** The columns an upsert sets. *)
Record content := MkContent {
  c_published_at : option datetime;
  c_title : option pystr;
  c_body : option pystr;
  c_canonical_url : option pystr;
  c_canonical_url_hash : option pystr;
  c_content_hash : option pystr;
}.

Definition set_content (x : content) (raw : option Z) (now : pystr) (i : Item) : Item :=
  MkItem (it_channel_id i) (it_message_id i) raw (sql_datetime <$> c_published_at x) (c_title x)
    (c_body x) (c_canonical_url x) (c_canonical_url_hash x) (c_content_hash x)
    (it_dedupe_state i) (it_created_at i) now.

Definition new_item (c m : Z) (raw : option Z) (x : content) (now : pystr) : Item :=
  MkItem c m raw (sql_datetime <$> c_published_at x) (c_title x) (c_body x) (c_canonical_url x)
    (c_canonical_url_hash x) (c_content_hash x) (u "pending") now now.

Definition is_message (c m : Z) (i : Item) : bool :=
  Z.eqb (it_channel_id i) c && Z.eqb (it_message_id i) m.

(** A raw message is the source of one item at most. *)
Definition raw_taken (i : Z) (raw : option Z) (db : Db) : bool :=
  match raw with
  | None => false
  | Some r =>
      match first_row (λ x, bool_decide (it_raw_message_id x = Some r)) (base.delete i (items db)) with
      | Some _ => true
      | None => false
      end
  end.

(** [INSERT INTO items ... ON CONFLICT(channel_id, message_id) DO UPDATE SET ...
    RETURNING ...]: the conflict target is looked at first. *)
Definition upsert_row (now : pystr) (c m : Z) (raw : option Z) (x : content) (db : Db)
    : result exn ((Z * Item) * Db) :=
  let write i row :=
    if raw_taken i (it_raw_message_id row) db
    then Err (IntegrityError (UniqueFailed "items.raw_message_id"))
    else if decide (is_Some (channels db !! c)) then
      if refb (raw_messages db) (it_raw_message_id row)
      then Ok ((i, row), set_items (<[i := row]> (items db)) db)
      else Err (IntegrityError ForeignKeyFailed)
    else Err (IntegrityError ForeignKeyFailed) in
  match first_row (is_message c m) (items db) with
  | Some (i, old) =>
      let raw := match it_raw_message_id old with Some r => Some r | None => raw end in
      write i (set_content x raw now old)
  | None => write (next_id (items db)) (new_item c m raw x now)
  end.

Definition upsert_item (now : pystr) (c m : Z) (raw : option Z) (x : content) (db : Db)
    : result exn ItemRecord * Db :=
  match upsert_row now c m raw x db with
  | Err e => (Err e, db)
  | Ok ((i, row), db) => (_decode_item_row i row, db)
  end.

(** ** Lemmas *)

Lemma is_message_true c m i : is_message c m i = true ↔ it_channel_id i = c ∧ it_message_id i = m.
Proof. unfold is_message. by rewrite andb_true_iff, !Z.eqb_eq. Qed.

Lemma raw_taken_false i raw db :
  raw_taken i raw db = false →
  ∀ r j y, raw = Some r → items db !! j = Some y → it_raw_message_id y = Some r → j = i.
Proof.
  unfold raw_taken. intros H r j y -> Hj Hy. destruct (decide (i = j)) as [|Hne]; [done|].
  destruct (first_row _ _) eqn:E; [done|].
  eapply first_row_None in E; [|by rewrite lookup_delete_ne].
  by apply bool_decide_eq_false in E.
Qed.

(** One lemma for both the update and the insert. *)
Lemma write_wf i row db :
  wf_db db →
  raw_taken i (it_raw_message_id row) db = false →
  is_Some (channels db !! it_channel_id row) → ref (raw_messages db) (it_raw_message_id row) →
  (∀ j y, items db !! j = Some y → it_channel_id y = it_channel_id row →
     it_message_id y = it_message_id row → j = i) →
  wf_db (set_items (<[i := row]> (items db)) db).
Proof.
  intros W Ht Hc Hr Hk. pose proof (raw_taken_false _ _ _ Ht) as Ht'.
  apply set_items_wf; [done| | | |].
  - intros k. by apply is_Some_insert.
  - intros k y [[<- <-]|[_ Hy]]%lookup_insert_Some; [done|].
    split; [by eapply fk_items_channel|by eapply fk_items_raw].
  - intros k k' y y' [[<- <-]|[? Hy]]%lookup_insert_Some [[<- <-]|[? Hy']]%lookup_insert_Some;
      intros; [done| | |by eapply (uq_items _ W)].
    + symmetry. by eapply Hk.
    + by eapply Hk.
  - intros k k' y y' r [[<- <-]|[? Hy]]%lookup_insert_Some [[<- <-]|[? Hy']]%lookup_insert_Some;
      intros; [done| | |by eapply (uq_items_raw _ W)].
    + symmetry. by eapply Ht'.
    + by eapply Ht'.
Qed.

Lemma upsert_row_spec now c m raw x db i row db' :
  wf_db db → upsert_row now c m raw x db = Ok ((i, row), db') →
  wf_db db' ∧ db' = set_items (<[i := row]> (items db)) db ∧ is_message c m row = true ∧
  ((∃ old, items db !! i = Some old ∧ is_message c m old = true ∧
      row = set_content x (match it_raw_message_id old with Some r => Some r | None => raw end)
              now old) ∨
   (items db !! i = None ∧ row = new_item c m raw x now ∧
      ∀ j old, items db !! j = Some old → is_message c m old = false)).
Proof.
  intros W. unfold upsert_row.
  destruct (first_row (is_message c m) (items db)) as [[j old]|] eqn:E.
  - apply first_row_Some in E as [Hj Hm].
    pose proof (proj1 (is_message_true _ _ _) Hm) as [Ec Em].
    destruct (raw_taken _ _ _) eqn:Et; [done|]. case_decide as Hc; [|done].
    destruct (refb _ _) eqn:Er; [|done]. apply refb_true in Er. intros [= <- <- <-].
    split_and!; [|done|done|by left; eauto].
    apply write_wf; [done|done|simpl; by rewrite Ec|done|].
    intros k y Hk H1 H2. simpl in *. by eapply (uq_items _ W).
  - pose proof (first_row_None _ _ E) as Hno.
    destruct (raw_taken _ _ _) eqn:Et; [done|]. case_decide as Hc; [|done].
    destruct (refb _ _) eqn:Er; [|done]. apply refb_true in Er. intros [= <- <- <-].
    split_and!; [|done|by apply is_message_true|right; split_and!; [apply next_id_fresh|done|done]].
    apply write_wf; [done|done|done|done|].
    intros k y Hk H1 H2. simpl in *. apply Hno in Hk.
    by rewrite (proj2 (is_message_true _ _ _)) in Hk.
Qed.

Lemma upsert_item_wf now c m raw x db : wf_db db → wf_db (upsert_item now c m raw x db).2.
Proof.
  intros W. unfold upsert_item.
  destruct (upsert_row now c m raw x db) as [[[i r] db']|] eqn:E; [|done]. simpl.
  by eapply upsert_row_spec.
Qed.

(** ** One message stored

    The raw message, then the item made from it. *)
Definition store (now : pystr) (c m : Z) (p : JSONValue) (x : content) (db : Db)
    : result exn (Z * Z) * Db :=
  match RawMessages._encode_payload_json p with
  | Err e => (Err e, db)
  | Ok p =>
      match RawMessages.upsert_row now c m p db with
      | Err e => (Err e, db)
      | Ok ((r, _), db) =>
          match upsert_row now c m (Some r) x db with
          | Err e => (Err e, db)
          | Ok ((i, _), db) => (Ok (r, i), db)
          end
      end
  end.

(** The columns of [x] are those of the item. *)
Record holds (x : content) (i : Item) : Prop := {
  holds_published_at : it_published_at i = sql_datetime <$> c_published_at x;
  holds_title : it_title i = c_title x;
  holds_body : it_body i = c_body x;
  holds_canonical_url : it_canonical_url i = c_canonical_url x;
  holds_canonical_url_hash : it_canonical_url_hash i = c_canonical_url_hash x;
  holds_content_hash : it_content_hash i = c_content_hash x;
}.

Lemma raw_taken_linked i r db item :
  wf_db db → items db !! i = Some item → it_raw_message_id item = Some r →
  raw_taken i (Some r) db = false.
Proof.
  intros W Hi Hr. unfold raw_taken. destruct (first_row _ _) as [[j y]|] eqn:E; [|done].
  apply first_row_Some in E as [[Hne Hj]%lookup_delete_Some Hy%bool_decide_eq_true].
  destruct Hne. by eapply (uq_items_raw _ W).
Qed.

Lemma upsert_row_again now c m r y db i item :
  wf_db db → items db !! i = Some item → is_message c m item = true →
  it_raw_message_id item = Some r →
  let item' := set_content y (Some r) now item in
  upsert_row now c m (Some r) y db = Ok ((i, item'), set_items (<[i := item']> (items db)) db).
Proof.
  intros W Hi Hm Hl. pose proof (proj1 (is_message_true _ _ _) Hm) as [Ec Em].
  unfold upsert_row. rewrite (first_row_unique _ _ i item); [|  |done|done].
  2:{ intros j z Hz [H1 H2]%is_message_true.
      eapply (uq_items _ W); [exact Hz|exact Hi|congruence|congruence]. }
  rewrite Hl. cbn [it_raw_message_id set_content].
  rewrite (raw_taken_linked i r db item) by done.
  rewrite decide_True by (rewrite <-Ec; by eapply fk_items_channel).
  rewrite (proj2 (refb_true _ _)); [done|]. rewrite <-Hl. by eapply fk_items_raw.
Qed.

(** C17. Storing a message writes one raw message with its payload and one item with its
    content, both found by channel and message id, keeps integrity and changes nothing
    else. When the two are linked, as they are whenever the item is new, storing the
    message again succeeds under the same ids: it replaces the payload and the content
    and keeps the link, the creation times and the dedupe state. *)
Theorem store_identity now later c m p x q y db r i db1 :
  wf_db db → json_encodable q = true →
  store now c m p x db = (Ok (r, i), db1) →
  ∃ raw item,
    raw_messages db1 = <[r := raw]> (raw_messages db) ∧
    items db1 = <[i := item]> (items db) ∧
    set_items (items db) (set_raw_messages (raw_messages db) db1) = db ∧
    RawMessages.is_message c m raw = true ∧ rm_payload raw = p ∧
    is_message c m item = true ∧ holds x item ∧ wf_db db1 ∧
    (items db !! i = None → it_raw_message_id item = Some r ∧ it_dedupe_state item = u "pending") ∧
    (it_raw_message_id item = Some r →
     ∃ db2 item2, store later c m q y db1 = (Ok (r, i), db2) ∧ wf_db db2 ∧
       raw_messages db2 =
         <[r := MkRaw c m q (rm_created_at raw) later]> (raw_messages db) ∧
       items db2 = <[i := item2]> (items db) ∧ is_message c m item2 = true ∧ holds y item2 ∧
       it_raw_message_id item2 = Some r ∧ it_dedupe_state item2 = it_dedupe_state item ∧
       it_created_at item2 = it_created_at item ∧ it_updated_at item2 = later).
Proof.
  intros W Hq. unfold store. destruct (RawMessages._encode_payload_json p) as [p'|] eqn:Ep; [|done].
  assert (p' = p) as -> by (unfold RawMessages._encode_payload_json in Ep; case_match; congruence).
  destruct (RawMessages.upsert_row now c m p db) as [[[r0 raw] dba]|] eqn:Er; [|done].
  destruct (RawMessages.raw_upsert_row_spec _ _ _ _ _ _ _ _ W Er) as (Wa&Ea&Hrm&Hp&Hu&_).
  destruct (upsert_row now c m (Some r0) x dba) as [[[i0 item] dbb]|] eqn:Ei; [|done].
  destruct (upsert_row_spec _ _ _ _ _ _ _ _ _ Wa Ei) as (Wb&Eb&Him&Hit).
  intros [= <- <- <-]. exists raw, item.
  assert (raw_messages dbb !! r0 = Some raw) as Hr0 by (rewrite Eb, Ea; simpl; apply lookup_insert_eq).
  assert (items dbb !! i0 = Some item) as Hi0 by (rewrite Eb; simpl; apply lookup_insert_eq).
  split_and!; try done.
  - by rewrite Eb, Ea.
  - by rewrite Eb, Ea.
  - rewrite Eb, Ea. by destruct db.
  - by destruct Hit as [(old&_&_&->)|(_&->&_)].
  - intros Hn. rewrite Ea in Hit. destruct Hit as [(old&Hold&_&_)|(_&->&_)]; [|done].
    simpl in Hold. congruence.
  - intros Hl. unfold RawMessages._encode_payload_json. rewrite Hq.
    pose proof (RawMessages.raw_upsert_row_again later c m q dbb r0 raw Wb Hr0 Hrm) as Hraw.
    cbv zeta in Hraw. rewrite Hraw.
    destruct (RawMessages.raw_upsert_row_spec _ _ _ _ _ _ _ _ Wb Hraw) as (Wc&_&_).
    set (dbc := set_raw_messages _ dbb) in *.
    pose proof (upsert_row_again later c m r0 y dbc i0 item Wc Hi0 Him Hl) as Hitem.
    cbv zeta in Hitem. rewrite Hitem. eexists _, _. split; [reflexivity|].
    split; [by eapply upsert_row_spec|]. unfold dbc. simpl. rewrite Eb, Ea. simpl.
    rewrite !insert_insert_eq. split_and!; done.
Qed.

(** ** Instance: message 77 of channel 3 *)
Definition sample_content (t : pystr) : content := MkContent None (Some t) None None None None.

Lemma store_identity_witness :
  ∃ r i db1 db2,
    store (sample_time 5) 3 77 (JInt 1) (sample_content (u "a")) sample_db = (Ok (r, i), db1) ∧
    store (sample_time 6) 3 77 (JInt 2) (sample_content (u "b")) db1 = (Ok (r, i), db2) ∧
    wf_db db2 ∧ size (items db2) = S (size (items sample_db)).
Proof.
  destruct (store (sample_time 5) 3 77 (JInt 1) (sample_content (u "a")) sample_db)
    as [[[r i]|] db1] eqn:E; [|by vm_compute in E].
  assert (r = 2 ∧ i = 6) as [-> ->] by (vm_compute in E; by injection E as <- <- _).
  destruct (store_identity _ (sample_time 6) _ _ _ _ (JInt 2) (sample_content (u "b")) _ _ _ _
    sample_db_wf eq_refl E) as (raw&item&_&_&_&_&_&_&_&_&Hnew&H).
  destruct (Hnew ltac:(by vm_compute)) as [Hl _].
  destruct (H Hl) as (db2&item2&E2&W2&_&Hi2&_). exists 2, 6, db1, db2. split_and!; try done.
  rewrite Hi2, map_size_insert_None; [done|by vm_compute].
Defined.

End Items.
