(* ===== verification/Auth.v ===== *)
(** Authentication state: key rotation (src/tca/auth/key_rotation.py) and the temporary
    sessions of the login wizard (src/tca/auth/auth_session_state.py). *)

From S2P Require Import Prelude PyValue Schema.
Local Open Scope Z_scope.

(** * Key rotation

    Every repository method reads the state in one transaction and writes in a second
    one. [other] is what the rest of the process commits in between; it is [id] when
    the method runs alone. *)
Module KeyRotation.

Definition KeyRotationError : exn := AppError "KeyRotationError".
Definition KeyRotationStateMissingError : exn := AppError "KeyRotationStateMissingError".
Definition KeyRotationAccountNotFoundError : exn := AppError "KeyRotationAccountNotFoundError".

Record KeyRotationState := MkKeyRotationState {
  target_key_version : Z;
  last_rotated_account_id : Z;
  completed_at : option pystr;
}.

Definition get_state (db : Db) : option KeyRotationState :=
  r ← rotation db;
  Some (MkKeyRotationState (ro_target_key_version r) (ro_last_rotated_account_id r)
    (ro_completed_at r)).

(** [state is None: raise KeyRotationStateMissingError] *)
Definition require_state (db : Db) : result exn KeyRotationState :=
  match get_state db with Some s => Ok s | None => Err KeyRotationStateMissingError end.

Definition _validate_target_version (target : Z) : result exn unit :=
  if target <? 1 then Err KeyRotationError else Ok tt.

(** [UPDATE auth_key_rotation SET ... WHERE id = 1] *)
Definition update_rotation (f : Rotation → Rotation) (db : Db) : Db :=
  set_rotation (f <$> rotation db) db.

Definition begin_rotation (other : Db → Db) (target : Z) (db : Db)
    : result exn KeyRotationState * Db :=
  match _validate_target_version target with
  | Err e => (Err e, db)
  | Ok _ =>
      match get_state db with
      | Some existing =>
          if target_key_version existing =? target then (Ok existing, db)
          else if bool_decide (completed_at existing = None) then (Err KeyRotationError, db)
          else if target <=? target_key_version existing then (Err KeyRotationError, db)
          else
            let db := update_rotation (λ _, MkRotation target 0 None) (other db) in
            (require_state db, db)
      | None =>
          let db := other db in
          match rotation db with
          | Some _ => (require_state db, db)
          | None =>
              let db := set_rotation (Some (MkRotation target 0 None)) db in
              (require_state db, db)
          end
      end
  end.

Definition pending_after (target last : Z) (db : Db) : gset Z :=
  dom (filter (λ kv : Z * Account, ac_key_version kv.2 < target ∧ last < kv.1) (accounts db)).

Definition next_pending_account_id (db : Db) : option Z :=
  state ← get_state db;
  head (sorted_ids (pending_after (target_key_version state) (last_rotated_account_id state) db)).

Definition set_key_version (v : Z) (a : Account) : Account :=
  MkAccount (ac_api_id a) (ac_api_hash_encrypted a) (ac_phone_number a) (ac_session_encrypted a)
    v (ac_paused_at a) (ac_pause_reason a).

Definition mark_account_rotated (other : Db → Db) (account_id : Z) (db : Db)
    : result exn unit * Db :=
  match get_state db with
  | None => (Err KeyRotationStateMissingError, db)
  | Some state =>
      let db := other db in
      match accounts db !! account_id with
      | None => (Err KeyRotationAccountNotFoundError, db)
      | Some row =>
          let target := target_key_version state in
          let db :=
            if ac_key_version row <? target
            then set_accounts (<[account_id := set_key_version target row]> (accounts db)) db
            else db in
          let new_last := Z.max (last_rotated_account_id state) account_id in
          let db :=
            if new_last =? last_rotated_account_id state then db
            else update_rotation
                   (λ r, MkRotation (ro_target_key_version r) new_last (ro_completed_at r)) db in
          (Ok tt, db)
      end
  end.

Definition complete_if_finished (now : pystr) (other : Db → Db) (db : Db)
    : result exn bool * Db :=
  match get_state db with
  | None => (Err KeyRotationStateMissingError, db)
  | Some state =>
      match completed_at state with
      | Some _ => (Ok true, db)
      | None =>
          let db := other db in
          if any_row (λ a, ac_key_version a <? target_key_version state) (accounts db)
          then (Ok false, db)
          else
            (Ok true,
             update_rotation (λ r,
               match ro_completed_at r with
               | None => MkRotation (ro_target_key_version r) (ro_last_rotated_account_id r)
                           (Some now)
               | Some _ => r
               end) db)
      end
  end.

(** ** Driving a rotation

    Up to [n] accounts, each taken from [next_pending_account_id] and marked; the ids
    are returned with the state. A crash is a stop after any [n]. *)
Fixpoint rotate (n : nat) (db : Db) : list Z * Db :=
  match n with
  | O => ([], db)
  | S n =>
      match next_pending_account_id db with
      | None => ([], db)
      | Some i =>
          match mark_account_rotated id i db with
          | (Ok _, db) => let '(ids, db) := rotate n db in (i :: ids, db)
          | (Err _, db) => ([], db)
          end
      end
  end.

(** The accounts below the target version. *)
Definition pending (target : Z) (db : Db) : gset Z :=
  ids_where (λ a, ac_key_version a <? target) (accounts db).

(** The rotation runs towards [target], and the accounts it has passed are done. *)
Definition rotating (target last : Z) (db : Db) : Prop :=
  rotation db = Some (MkRotation target last None) ∧ ∀ i, i ∈ pending target db → last < i.

(** ** Lemmas *)

Lemma elem_of_pending target db i :
  i ∈ pending target db ↔ ∃ a, accounts db !! i = Some a ∧ ac_key_version a < target.
Proof.
  unfold pending. rewrite elem_of_ids_where. by setoid_rewrite Z.ltb_lt.
Qed.

Lemma pending_after_rotating target last db :
  rotating target last db → pending_after target last db = pending target db.
Proof.
  intros [_ Hp]. apply set_eq. intros i. unfold pending_after.
  rewrite elem_of_dom, elem_of_pending. unfold is_Some.
  setoid_rewrite map_lookup_filter_Some. simpl. split; [naive_solver|].
  intros (a&Ha&Hv). exists a. split_and!; [done..|]. apply Hp, elem_of_pending. eauto.
Qed.

Lemma next_pending_rotating target last db :
  rotating target last db → next_pending_account_id db = head (sorted_ids (pending target db)).
Proof.
  intros H. unfold next_pending_account_id, get_state. destruct H as [Hr Hp] eqn:EH.
  rewrite Hr. cbn [mbind option_bind target_key_version last_rotated_account_id
    ro_target_key_version ro_last_rotated_account_id].
  by rewrite pending_after_rotating.
Qed.

Lemma sorted_ids_cons_min s i l : sorted_ids s = i :: l → ∀ j, j ∈ l → i < j.
Proof.
  intros E j Hj. pose proof (sorted_ids_sorted s) as Hs. pose proof (NoDup_sorted_ids s) as Hn.
  rewrite E in Hs, Hn. apply StronglySorted_inv in Hs as [_ Hs]. apply NoDup_cons in Hn as [Hi _].
  rewrite Forall_forall in Hs. specialize (Hs j Hj). assert (i ≠ j) by congruence. lia.
Qed.

(** One account is taken and marked. *)
Lemma rotate_step target last db i l :
  rotating target last db → sorted_ids (pending target db) = i :: l →
  ∃ row, accounts db !! i = Some row ∧
    let db' := set_rotation (Some (MkRotation target i None))
                 (set_accounts (<[i := set_key_version target row]> (accounts db)) db) in
    mark_account_rotated id i db = (Ok tt, db') ∧
    rotating target i db' ∧ sorted_ids (pending target db') = l.
Proof.
  intros [Hr Hp] E.
  assert (i ∈ pending target db) as Hi by (apply elem_of_sorted_ids; rewrite E; by left).
  pose proof (Hp i Hi) as Hlast. pose proof Hi as (row&Hrow&Hv)%elem_of_pending.
  exists row. split; [done|]. cbv zeta.
  assert (∀ j, j ∈ pending target (set_accounts (<[i := set_key_version target row]>
      (accounts db)) db) ↔ j ∈ l) as Hpend.
  { intros j. rewrite elem_of_pending. cbn [accounts set_accounts].
    assert (j ∈ i :: l ↔ ∃ a, accounts db !! j = Some a ∧ ac_key_version a < target) as Hj
      by (by rewrite <-E, elem_of_sorted_ids, elem_of_pending).
    destruct (decide (i = j)) as [<-|Hne].
    - rewrite lookup_insert_eq. split.
      + intros (a&[= <-]&Ha). simpl in Ha. lia.
      + intros Hl%(sorted_ids_cons_min _ _ _ E). lia.
    - rewrite lookup_insert_ne by done. rewrite <-Hj, elem_of_cons. naive_solver. }
  split_and!.
  - unfold mark_account_rotated, get_state. rewrite Hr.
    cbn [mbind option_bind target_key_version last_rotated_account_id
      ro_target_key_version ro_last_rotated_account_id]. unfold id at 1 2. rewrite Hrow.
    rewrite (proj2 (Z.ltb_lt _ _) Hv).
    replace (Z.max last i) with i by lia. rewrite (proj2 (Z.eqb_neq _ _)) by lia.
    unfold update_rotation. unfold id. cbn [rotation set_accounts]. by rewrite Hr.
  - split; [done|]. intros j Hj. apply (sorted_ids_cons_min _ _ _ E). by apply Hpend.
  - pose proof (sorted_ids_sorted (pending target db)) as Hs.
    pose proof (NoDup_sorted_ids (pending target db)) as Hn.
    rewrite E in Hs, Hn. apply StronglySorted_inv in Hs as [Hs _]. apply NoDup_cons in Hn as [_ Hn].
    apply sorted_ids_unique; [done..|]. intros j. by rewrite <-Hpend.
Qed.

(** The account map after the accounts of [ids] were marked. *)
Definition marked (target : Z) (ids : list Z) (i : Z) (a : Account) : Account :=
  if decide (i ∈ ids) then set_key_version target a else a.

Lemma rotate_spec target n : ∀ last db,
  rotating target last db →
  let ids := sorted_ids (pending target db) in
  let '(done, dbn) := rotate n db in
  done = take n ids ∧
  (∀ i, accounts dbn !! i = marked target done i <$> accounts db !! i) ∧
  dbn = set_rotation (rotation dbn) (set_accounts (accounts dbn) db) ∧
  sorted_ids (pending target dbn) = drop n ids ∧
  ∃ last', rotating target last' dbn.
Proof.
  assert (∀ db i, accounts db !! i = marked target [] i <$> accounts db !! i) as Hnil.
  { intros db i. destruct (accounts db !! i); [|done]. simpl. unfold marked.
    rewrite decide_False; [done|apply not_elem_of_nil]. }
  induction n as [|n IH]; intros last db H; cbv zeta; simpl.
  { rewrite take_0, drop_0. split_and!; [done..|by destruct db|done|by eexists]. }
  rewrite (next_pending_rotating _ _ _ H).
  destruct (sorted_ids (pending target db)) as [|i l] eqn:E; simpl.
  { rewrite E. split_and!; [done..|by destruct db|done|by eexists]. }
  destruct (rotate_step _ _ _ _ _ H E) as (row&Hrow&Hm&H'&El). rewrite Hm.
  set (db' := set_rotation _ _) in *. specialize (IH i db' H'). cbv zeta in IH.
  rewrite El in IH. destruct (rotate n db') as [done dbn].
  destruct IH as (->&Ha&Hf&Hd&last'&Hl). split_and!; [done| | |done|by eexists].
  - intros j. rewrite Ha. unfold db'. cbn [accounts set_accounts set_rotation].
    assert (i ∉ take n l) as Hi.
    { intros Hj%(subseteq_take n l). pose proof (sorted_ids_cons_min _ _ _ E i Hj). lia. }
    destruct (decide (i = j)) as [<-|Hne].
    + rewrite lookup_insert_eq, Hrow. simpl. unfold marked.
      rewrite decide_False by done. by rewrite decide_True by left.
    + rewrite lookup_insert_ne by done. destruct (accounts db !! j); [|done]. simpl. f_equal.
      unfold marked. destruct (decide (j ∈ take n l)).
      * by rewrite decide_True by (by right).
      * rewrite decide_False; [done|]. rewrite elem_of_cons. naive_solver.
  - rewrite Hf at 1. by destruct db.
Qed.

(** No account that an unfinished rotation has passed is below its target. *)
Definition swept (db : Db) : Prop :=
  ∀ target last, rotation db = Some (MkRotation target last None) → rotating target last db.

Lemma begin_rotating target db s db1 :
  swept db → (∀ i a, accounts db !! i = Some a → 0 < i) →
  begin_rotation id target db = (Ok s, db1) → completed_at s = None →
  (∃ last, rotating target last db1) ∧ db1 = set_rotation (rotation db1) db.
Proof.
  intros Hsw Hpos. unfold begin_rotation, _validate_target_version, require_state, get_state, id.
  assert (∀ dbx, accounts dbx = accounts db → rotation dbx = Some (MkRotation target 0 None) →
    rotating target 0 dbx) as Hnew.
  { intros dbx Ea Er. split; [done|]. intros i (a&Hi&_)%elem_of_pending. rewrite Ea in Hi. eauto. }
  destruct (target <? 1); [done|].
  destruct (rotation db) as [r|] eqn:Er; simpl.
  - case_match eqn:Et.
    + intros [= <- <-]. simpl. intros Hc. apply Z.eqb_eq in Et. split; [|destruct db; simpl in *; by subst].
      destruct r as [t l c]. simpl in *. subst. eexists. by apply Hsw.
    + case_match; [done|]. case_match; [done|].
      unfold update_rotation. rewrite Er. simpl. intros [= <- <-] _. simpl.
      split; [|done]. eexists. by apply Hnew.
  - intros [= <- <-] _. simpl. split; [|done]. eexists. by apply Hnew.
Qed.

Lemma complete_rotating target last now db :
  rotating target last db →
  complete_if_finished now id db =
    if decide (sorted_ids (pending target db) = [])
    then (Ok true, set_rotation (Some (MkRotation target last (Some now))) db)
    else (Ok false, db).
Proof.
  intros [Hr _]. unfold complete_if_finished, get_state, update_rotation. rewrite Hr.
  cbn [mbind option_bind completed_at ro_completed_at target_key_version ro_target_key_version].
  unfold id. destruct (any_row _ _) eqn:Ea; case_decide as Hd.
  - apply any_row_true in Ea as (i&a&Hi&Hv).
    assert (i ∈ sorted_ids (pending target db)) as Hin.
    { apply elem_of_sorted_ids, elem_of_pending. exists a. by rewrite <-Z.ltb_lt. }
    rewrite Hd in Hin. by apply elem_of_nil in Hin.
  - done.
  - by rewrite Hr.
  - destruct Hd. destruct (sorted_ids (pending target db)) as [|i l] eqn:E; [done|].
    assert (i ∈ pending target db) as (a&Hi&Hv)%elem_of_pending
      by (apply elem_of_sorted_ids; rewrite E; by left).
    rewrite any_row_false in Ea. apply Ea in Hi. apply Z.ltb_ge in Hi. lia.
Qed.

(** C18. A rotation that is begun and then driven through [next_pending_account_id] and
    [mark_account_rotated] marks the pending accounts once each in id order. After any
    number of them (a crash) exactly those rows are at the target version and nothing
    else changed, [begin_rotation] resumes without a write, and the hypothesis the
    resumed rotation needs holds again. [complete_if_finished] completes the rotation
    exactly when no account is left. *)
Theorem rotation_completes target db s db1 now n :
  swept db → (∀ i a, accounts db !! i = Some a → 0 < i) →
  begin_rotation id target db = (Ok s, db1) → completed_at s = None →
  let ids := sorted_ids (pending target db) in
  let '(done, dbn) := rotate n db1 in
  done = take n ids ∧
  (∀ i, accounts dbn !! i = marked target done i <$> accounts db !! i) ∧
  dbn = set_rotation (rotation dbn) (set_accounts (accounts dbn) db) ∧
  swept dbn ∧
  (∃ s', begin_rotation id target dbn = (Ok s', dbn) ∧ target_key_version s' = target ∧
     completed_at s' = None) ∧
  (if decide (length ids ≤ n)%nat
   then ∃ last, complete_if_finished now id dbn =
          (Ok true, set_rotation (Some (MkRotation target last (Some now))) dbn)
   else complete_if_finished now id dbn = (Ok false, dbn)).
Proof.
  intros Hsw Hpos Hb Hc.
  destruct (begin_rotating _ _ _ _ Hsw Hpos Hb Hc) as [[last H] E1].
  assert (accounts db1 = accounts db) as Ea by (by rewrite E1).
  assert (pending target db1 = pending target db) as Ep by (unfold pending; by rewrite Ea).
  pose proof (rotate_spec target n last db1 H) as Hn. cbv zeta in Hn |- *.
  destruct (rotate n db1) as [done dbn]. destruct Hn as (->&Ha&Hf&Hd&last'&Hl).
  rewrite Ep, Ea in *. pose proof Hl as [Hr _]. split_and!; [done..| | | |].
  - rewrite Hf at 1. rewrite E1. by destruct db.
  - intros t l Hr'. rewrite Hr in Hr'. by injection Hr' as <- <-.
  - unfold begin_rotation, _validate_target_version, get_state. rewrite Hr.
    assert ((target <? 1) = false) as ->.
    { revert Hb. unfold begin_rotation, _validate_target_version. by destruct (target <? 1). }
    simpl. rewrite Z.eqb_refl. by eexists.
  - pose proof (complete_rotating target last' now dbn Hl) as Hcomp. rewrite Hd in Hcomp.
    destruct (decide (length _ ≤ n)%nat) as [Hlen|Hlen]; rewrite Hcomp.
    + eexists. by rewrite decide_True by (by apply drop_ge).
    + rewrite decide_False; [done|]. intros Hnil%(f_equal length).
      rewrite length_drop in Hnil. simpl in Hnil. lia.
Qed.

(** The rotation has passed the account [i], which is below the target. *)
Definition skipped (i target last : Z) (db : Db) : Prop :=
  rotation db = Some (MkRotation target last None) ∧ i ∈ pending target db ∧ i ≤ last.

Lemma mark_skips i target last k db :
  rotation db = Some (MkRotation target last None) → i ∈ pending target db → i < k →
  last < k → is_Some (accounts db !! k) →
  ∃ db', mark_account_rotated id k db = (Ok tt, db') ∧ skipped i target k db'.
Proof.
  intros Hr Hi Hik Hk [row Hrow]. unfold mark_account_rotated, get_state. rewrite Hr.
  cbn [mbind option_bind target_key_version last_rotated_account_id
    ro_target_key_version ro_last_rotated_account_id]. unfold id at 1 2. rewrite Hrow.
  replace (Z.max last k) with k by lia. rewrite (proj2 (Z.eqb_neq _ _)) by lia.
  eexists. split; [reflexivity|]. apply elem_of_pending in Hi as (a&Ha&Hv).
  unfold id. destruct (ac_key_version row <? target); (split_and!; [|apply elem_of_pending; exists a|lia]);
    unfold update_rotation; cbn [rotation set_accounts set_rotation accounts]; try by rewrite Hr.
  - by rewrite lookup_insert_ne by lia.
  - done.
Qed.

Lemma skipped_incomplete i target last db now :
  skipped i target last db → complete_if_finished now id db = (Ok false, db).
Proof.
  intros (Hr&(a&Ha&Hv)%elem_of_pending&_). unfold complete_if_finished, get_state.
  rewrite Hr. simpl. unfold id. rewrite (proj2 (any_row_true _ _)); [done|].
  exists i, a. by rewrite Z.ltb_lt.
Qed.

(** An account marked ahead of a smaller pending one makes the rotation pass the smaller
    one for good: it is never handed out again and the rotation never completes. *)
Lemma out_of_order_never_completes i j target last db :
  rotation db = Some (MkRotation target last None) → i ∈ pending target db → i < j →
  last < j → is_Some (accounts db !! j) →
  ∃ db1, mark_account_rotated id j db = (Ok tt, db1) ∧
  (∀ n now, let '(done, dbn) := rotate n db1 in
    (i ∉ done) ∧ complete_if_finished now id dbn = (Ok false, dbn)).
Proof.
  intros Hr Hi Hij Hj Hex. destruct (mark_skips i target last j db) as (db1&Hm&Hs); [done..|].
  exists db1. split; [done|]. intros n now. clear -Hs. revert j db1 Hs.
  induction n as [|n IH]; intros last db Hs; simpl.
  - split; [apply not_elem_of_nil|by eapply skipped_incomplete].
  - pose proof Hs as (Hr&Hi&Hl). destruct (next_pending_account_id db) as [k|] eqn:Ek.
    2:{ split; [apply not_elem_of_nil|by eapply skipped_incomplete]. }
    assert (k ∈ pending_after target last db) as Hk.
    { revert Ek. unfold next_pending_account_id, get_state. rewrite Hr. simpl.
      intros Hk%head_Some_elem_of. by apply elem_of_sorted_ids. }
    unfold pending_after in Hk. apply elem_of_dom in Hk as [a [Ha [_ Hk]]%map_lookup_filter_Some].
    simpl in Hk. destruct (mark_skips i target last k db) as (db'&Hm&Hs'); [done|done|lia|done|done|].
    rewrite Hm. specialize (IH k db' Hs'). destruct (rotate n db') as [done dbn].
    destruct IH as [Hn Hc]. split; [|done]. apply not_elem_of_cons. split; [|done].
    lia.
Qed.

(** ** Instance: three accounts, the second already at version 2 *)
Definition sample_accounts : gmap Z Account :=
  {[1 := MkAccount 11 [7] None None 1 None None; 2 := MkAccount 12 [7] None None 2 None None;
    3 := MkAccount 13 [7] None None 1 None None]}.

Lemma rotation_completes_witness :
  let db := set_accounts sample_accounts empty_db in
  let db1 := (begin_rotation id 2 db).2 in
  (rotate 1 db1).1 = [1] ∧ (rotate 5 db1).1 = [1; 3] ∧
  (complete_if_finished (u "t") id (rotate 5 db1).2).1 = Ok true.
Proof.
  intros db db1.
  assert (swept db) as Hs by (intros t l; done).
  assert (∀ i a, accounts db !! i = Some a → 0 < i) as Hpos.
  { intros i a Hi. assert (i ∈ dom sample_accounts) as Hd by (apply elem_of_dom; by exists a).
    assert (dom sample_accounts = {[1; 2; 3]}) as Ed by by_eval. rewrite Ed in Hd. set_solver. }
  pose proof (rotation_completes 2 db (MkKeyRotationState 2 0 None) db1 (u "t") 1 Hs Hpos
    eq_refl eq_refl) as H1.
  pose proof (rotation_completes 2 db (MkKeyRotationState 2 0 None) db1 (u "t") 5 Hs Hpos
    eq_refl eq_refl) as H5.
  cbv zeta in H1, H5. destruct (rotate 1 db1) as [d1 r1]. destruct (rotate 5 db1) as [d5 r5].
  assert (sorted_ids (pending 2 db) = [1; 3]) as Ep by by_eval. rewrite Ep in H1, H5.
  destruct H1 as [-> _]. destruct H5 as (->&_&_&_&_&Hc).
  rewrite decide_True in Hc by (simpl; lia). destruct Hc as [l Hc].
  split_and!; [done..|]. cbn [fst snd]. by rewrite Hc.
Defined.

End KeyRotation.

(** * Login wizard sessions

    [now] is [_now_epoch()] at the call. *)
Module AuthSessions.

Definition AuthSessionStateNotFoundError : exn := AppError "AuthSessionStateNotFoundError".
Definition AuthSessionExpiredError : exn := AppError "AuthSessionExpiredError".
Definition AuthSessionStateConfigError : exn := AppError "AuthSessionStateConfigError".

Definition AUTH_SESSION_TTL_SECONDS : Z := 900.

Record AuthSessionState := MkAuthSessionState {
  session_id : pystr;
  phone_number : pystr;
  status : pystr;
  expires_at : Z;
  telegram_session : option pystr;
}.

Definition _decode_row (sid : pystr) (r : AuthSession) : AuthSessionState :=
  MkAuthSessionState sid (as_phone_number r) (as_status r) (as_expires_at r)
    (as_telegram_session r).

Definition _is_expired (now expires : Z) : bool := expires <=? now.

Definition delete_session (sid : pystr) (db : Db) : bool * Db :=
  (bool_decide (is_Some (auth_sessions db !! sid)),
   set_auth_sessions (base.delete sid (auth_sessions db)) db).

Definition create_session (now : Z) (sid phone st : pystr) (tsession : option pystr)
    (expires ttl : option Z) (db : Db) : result exn AuthSessionState * Db :=
  let insert expires :=
    match auth_sessions db !! sid with
    | Some _ => (Err (IntegrityError (UniqueFailed "auth_session_state.session_id")), db)
    | None =>
        let row := MkAuthSession phone st expires tsession in
        (Ok (_decode_row sid row), set_auth_sessions (<[sid := row]> (auth_sessions db)) db)
    end in
  match expires, ttl with
  | None, None => insert (now + AUTH_SESSION_TTL_SECONDS)
  | None, Some ttl => insert (now + ttl)
  | Some _, Some _ => (Err AuthSessionStateConfigError, db)
  | Some e, None => insert e
  end.

Definition get_session (now : Z) (sid : pystr) (db : Db) : result exn AuthSessionState * Db :=
  match auth_sessions db !! sid with
  | None => (Err AuthSessionStateNotFoundError, db)
  | Some r =>
      let state := _decode_row sid r in
      if _is_expired now (expires_at state)
      then (Err AuthSessionExpiredError, (delete_session sid db).2)
      else (Ok state, db)
  end.

(** The update is committed before the expiry is looked at. *)
Definition update_status (now : Z) (sid st : pystr) (tsession : option pystr)
    (update_session : bool) (db : Db) : result exn AuthSessionState * Db :=
  match auth_sessions db !! sid with
  | None => (Err AuthSessionStateNotFoundError, db)
  | Some r =>
      let r := MkAuthSession (as_phone_number r) st (as_expires_at r)
                 (if update_session then tsession else as_telegram_session r) in
      let db := set_auth_sessions (<[sid := r]> (auth_sessions db)) db in
      let state := _decode_row sid r in
      if _is_expired now (expires_at state)
      then (Err AuthSessionExpiredError, (delete_session sid db).2)
      else (Ok state, db)
  end.

(** ** Requests on one session *)
Inductive request :=
  | Get
  | Update (st : pystr) (tsession : option pystr) (update_session : bool)
  | Delete.

Definition handle (sid : pystr) (now : Z) (q : request) (db : Db)
    : result exn (option AuthSessionState) * Db :=
  match q with
  | Get => let '(r, db) := get_session now sid db in (Some <$> r, db)
  | Update st ts us => let '(r, db) := update_status now sid st ts us db in (Some <$> r, db)
  | Delete => let '(_, db) := delete_session sid db in (Ok None, db)
  end.

Fixpoint handle_all (sid : pystr) (qs : list (Z * request)) (db : Db)
    : list (result exn (option AuthSessionState)) * Db :=
  match qs with
  | [] => ([], db)
  | (now, q) :: qs =>
      let '(r, db) := handle sid now q db in
      let '(rs, db) := handle_all sid qs db in (r :: rs, db)
  end.

(** ** The contract

    A session is a cell with an expiry: [cell] is its abstract state. *)
Definition cell := option AuthSession.

Definition step_cell (sid : pystr) (now : Z) (q : request) (c : cell)
    : result exn (option AuthSessionState) * cell :=
  match q, c with
  | Delete, _ => (Ok None, None)
  | _, None => (Err AuthSessionStateNotFoundError, None)
  | Get, Some r =>
      if as_expires_at r <=? now then (Err AuthSessionExpiredError, None)
      else (Ok (Some (_decode_row sid r)), Some r)
  | Update st ts us, Some r =>
      if as_expires_at r <=? now then (Err AuthSessionExpiredError, None)
      else
        let r := MkAuthSession (as_phone_number r) st (as_expires_at r)
                   (if us then ts else as_telegram_session r) in
        (Ok (Some (_decode_row sid r)), Some r)
  end.

Fixpoint steps_cell (sid : pystr) (qs : list (Z * request)) (c : cell)
    : list (result exn (option AuthSessionState)) * cell :=
  match qs with
  | [] => ([], c)
  | (now, q) :: qs =>
      let '(r, c) := step_cell sid now q c in
      let '(rs, c) := steps_cell sid qs c in (r :: rs, c)
  end.

Definition set_cell (sid : pystr) (c : cell) (db : Db) : Db :=
  set_auth_sessions (partial_alter (λ _, c) sid (auth_sessions db)) db.

Lemma set_cell_same sid db : set_cell sid (auth_sessions db !! sid) db = db.
Proof.
  apply db_eq; try done. unfold set_cell. cbn [auth_sessions set_auth_sessions].
  by rewrite partial_alter_self.
Qed.

Lemma set_cell_set_cell sid c c' db : set_cell sid c' (set_cell sid c db) = set_cell sid c' db.
Proof.
  apply db_eq; try done. unfold set_cell. cbn [auth_sessions set_auth_sessions].
  apply map_eq. intros i. destruct (decide (i = sid)) as [->|Hi];
    [by rewrite !lookup_partial_alter_eq|by rewrite !lookup_partial_alter_ne].
Qed.

Lemma lookup_set_cell sid c db : auth_sessions (set_cell sid c db) !! sid = c.
Proof. unfold set_cell. cbn [auth_sessions set_auth_sessions]. by rewrite lookup_partial_alter_eq. Qed.

Lemma handle_step sid now q db :
  handle sid now q db =
    let '(r, c) := step_cell sid now q (auth_sessions db !! sid) in (r, set_cell sid c db).
Proof.
  assert (∀ r, set_auth_sessions (<[sid := r]> (auth_sessions db)) db = set_cell sid (Some r) db)
    as Hins by done.
  assert ((delete_session sid db).2 = set_cell sid None db) as Hdel by done.
  assert (∀ r, (delete_session sid (set_cell sid (Some r) db)).2 = set_cell sid None db) as Hdel2.
  { intros r. transitivity (set_cell sid None (set_cell sid (Some r) db)); [done|].
    apply set_cell_set_cell. }
  assert (∀ c, auth_sessions db !! sid = c → db = set_cell sid c db) as Hsame.
  { intros c <-. by rewrite set_cell_same. }
  destruct q as [|st ts us|]; simpl.
  - unfold get_session. destruct (auth_sessions db !! sid) as [r|] eqn:E; simpl.
    2:{ f_equal. by apply Hsame. }
    unfold _is_expired. destruct (_ <=? _); simpl; f_equal. by apply Hsame.
  - unfold update_status. destruct (auth_sessions db !! sid) as [r|] eqn:E; simpl.
    2:{ f_equal. by apply Hsame. }
    unfold _is_expired. rewrite Hins. destruct (_ <=? _); simpl; f_equal.
    by rewrite <-(Hdel2 (MkAuthSession (as_phone_number r) st (as_expires_at r)
      (if us then ts else as_telegram_session r))).
  - done.
Qed.

Lemma handle_all_steps sid qs : ∀ db,
  handle_all sid qs db =
    let '(rs, c) := steps_cell sid qs (auth_sessions db !! sid) in (rs, set_cell sid c db).
Proof.
  induction qs as [|[now q] qs IH]; intros db; simpl; [by rewrite set_cell_same|].
  rewrite handle_step. destruct (step_cell _ _ _ _) as [r c]. rewrite IH, lookup_set_cell.
  destruct (steps_cell sid qs c) as [rs c']. by rewrite set_cell_set_cell.
Qed.

(** A cell that lets requests through keeps its phone number and expiry. *)
Lemma step_cell_Ok sid now q c s c' :
  step_cell sid now q c = (Ok (Some s), c') →
  ∃ r r', c = Some r ∧ c' = Some r' ∧ as_phone_number r' = as_phone_number r ∧
    as_expires_at r' = as_expires_at r ∧ now < as_expires_at r ∧ s = _decode_row sid r' ∧ q ≠ Delete.
Proof.
  destruct q as [|st ts us|], c as [r|]; simpl; try done;
    destruct (Z.leb_spec (as_expires_at r) now); intros [= <- <-]; eauto 12.
Qed.

Lemma step_cell_other sid now q c r c' :
  step_cell sid now q c = (r, c') → (∀ s, r ≠ Ok (Some s)) → c' = None.
Proof.
  destruct q as [|st ts us|], c as [x|]; simpl; try (by intros [= <- <-]);
    destruct (_ <=? _); intros [= <- <-] H; try done; by edestruct H.
Qed.

Lemma steps_cell_None sid qs : Forall (λ r, ∀ s, r ≠ Ok (Some s)) (steps_cell sid qs None).1.
Proof.
  induction qs as [|[now q] qs IH]; simpl; [constructor|].
  destruct (step_cell sid now q None) as [r c] eqn:E.
  assert (∀ s, r ≠ Ok (Some s)) as Hr by (intros s ->; apply step_cell_Ok in E; naive_solver).
  apply step_cell_other in E as ->; [|done].
  destruct (steps_cell sid qs None) as [rs c]. by constructor.
Qed.

Lemma steps_cell_spec sid phone e qs : ∀ c,
  (∀ r, c = Some r → as_phone_number r = phone ∧ as_expires_at r = e) →
  let rs := (steps_cell sid qs c).1 in
  (∀ k s, rs !! k = Some (Ok (Some s)) →
     session_id s = sid ∧ phone_number s = phone ∧ expires_at s = e ∧
     ∀ j now q, (j ≤ k)%nat → qs !! j = Some (now, q) → now < e ∧ q ≠ Delete).
Proof.
  induction qs as [|[now q] qs IH]; intros c Hc rs k s; subst rs; simpl; [done|].
  destruct (step_cell sid now q c) as [r c'] eqn:E.
  pose proof (IH c') as IHc. destruct (steps_cell sid qs c') as [rs c''] eqn:Es. simpl in *.
  assert ((∃ s', r = Ok (Some s')) ∨ ∀ s', r ≠ Ok (Some s')) as [[s' ->]|Hr]
    by (destruct r as [[?|]|]; [left; by eexists|by right..]).
  - apply step_cell_Ok in E as (x&x'&->&->&Hp&He&Hlt&->&Hq).
    destruct (Hc x eq_refl) as [Hxp Hxe]. rewrite Hxp in Hp. rewrite Hxe in He, Hlt.
    destruct k as [|k]; simpl.
    + intros [= <-]. split_and!; [done..|]. intros j n q' Hj. assert (j = 0%nat) as -> by lia.
      by intros [= <- <-].
    + intros Hk. destruct (IHc ltac:(naive_solver) k s Hk) as (?&?&?&Hall).
      split_and!; [done..|]. intros [|j] n q' Hj; simpl; [by intros [= <- <-]|].
      apply Hall. lia.
  - apply step_cell_other in E as ->; [|done].
    intros Hk. pose proof (steps_cell_None sid qs) as HN. rewrite Es in HN. simpl in HN.
    rewrite Forall_lookup in HN. destruct k as [|k]; [by injection Hk as ->; edestruct Hr|].
    by edestruct (HN k).
Qed.

(** C19. A login session that was created lives for its time to live (15 minutes unless
    one is given). Any sequence of reads, updates and deletions of it behaves as an
    expiring cell and touches no other session and no other table; whenever one returns
    the session, it has the phone number and the expiry it was created with, the clock
    was before the expiry at that and at every earlier request, and none of those was a
    deletion. A session identifier is never reused while its row exists. *)
Theorem session_lifecycle now sid phone st ts expires ttl db s db1 qs :
  create_session now sid phone st ts expires ttl db = (Ok s, db1) →
  let e := match expires with Some e => e | None => now + default 900 ttl end in
  auth_sessions db !! sid = None ∧ (expires = None ∨ ttl = None) ∧
  s = MkAuthSessionState sid phone st e ts ∧
  ∃ c, let '(rs, db2) := handle_all sid qs db1 in
  steps_cell sid qs (Some (MkAuthSession phone st e ts)) = (rs, c) ∧
  db2 = set_cell sid c db ∧
  ∀ k s', rs !! k = Some (Ok (Some s')) →
    phone_number s' = phone ∧ expires_at s' = e ∧
    ∀ j t q, (j ≤ k)%nat → qs !! j = Some (t, q) → t < e ∧ q ≠ Delete.
Proof.
  intros Hcr e.
  assert ((expires = None ∨ ttl = None) ∧ auth_sessions db !! sid = None ∧
    s = MkAuthSessionState sid phone st e ts ∧
    db1 = set_cell sid (Some (MkAuthSession phone st e ts)) db) as (Hor&Hn&->&->).
  { revert Hcr. unfold create_session, e.
    destruct expires, ttl, (auth_sessions db !! sid) eqn:E; intros [= <- <-]; auto. }
  split_and!; [done..|]. rewrite handle_all_steps, lookup_set_cell.
  pose proof (steps_cell_spec sid phone e qs (Some (MkAuthSession phone st e ts))) as H.
  destruct (steps_cell sid qs _) as [rs c]. exists c. split_and!; [done|apply set_cell_set_cell|].
  intros k s' Hk. by destruct (H ltac:(by intros r [= <-]) k s' Hk) as (?&?&?&?).
Qed.

(** ** Instance: a session read before and after its quarter of an hour *)
Lemma session_lifecycle_witness :
  ∃ s db1, create_session 1000 (u "sid") (u "+155") (u "code_sent") None None None empty_db =
      (Ok s, db1) ∧
    expires_at s = 1900 ∧
    (∀ k s', (handle_all (u "sid") [(1899, Get); (1900, Get); (1000, Get)] db1).1 !! k =
       Some (Ok (Some s')) → k = 0%nat).
Proof.
  eexists _, _. split; [reflexivity|]. split; [reflexivity|].
  match goal with |- context [handle_all _ ?qs ?db] =>
    pose proof (session_lifecycle 1000 (u "sid") (u "+155") (u "code_sent") None None None
      empty_db _ db qs eq_refl) as (_&_&_&c&H) end.
  destruct (handle_all _ _ _) as [rs db2]. destruct H as (_&_&H). intros [|k] s' Hk; [done|].
  destruct (H _ _ Hk) as (_&_&Ht). by destruct (Ht 1%nat 1900 Get ltac:(lia) eq_refl).
Defined.

End AuthSessions.
