(* ===== verification/Login.v ===== *)
(** The Telegram login routes (src/tca/api/routes/telegram_auth.py, with
    src/tca/auth/service.py): a login session moves from [code_sent] through
    [password_required] to [authenticated], and the account it ends in is stored encrypted. *)

From S2P Require Import Prelude PyValue PyTime PyText PyCodec PyJson Schema Notifications Settings.
From S2P Require Import Vault Accounts Channels Ingest Auth.
Local Open Scope Z_scope.

Module TelegramAuth.

Definition _AUTH_STATUS_CODE_SENT : pystr := u "code_sent".
Definition _AUTH_STATUS_AUTHENTICATED : pystr := u "authenticated".
Definition _AUTH_STATUS_PASSWORD_REQUIRED : pystr := u "password_required".
Definition _NOTIFICATION_TYPE_REGISTRATION_BLOCKED : pystr := u "auth_registration_blocked".
Definition _NOTIFICATION_TYPE_LOGIN_FAILED : pystr := u "auth_login_failed".
Definition _NOTIFICATION_SEVERITY_HIGH : pystr := u "high".
Definition _NOTIFICATION_SEVERITY_MEDIUM : pystr := u "medium".
Definition _DEFAULT_RETRY_AFTER_SECONDS : Z := 3600.

(** * Requests and what Telegram answers *)

Record TelegramAuthStartRequest := MkStart {
  start_api_id : Z;
  start_api_hash : pystr;
  start_phone_number : pystr;
}.
(** The code or the password, by the route. *)
Record TelegramAuthVerifyRequest := MkVerify {
  session_id : pystr;
  api_id : Z;
  api_hash : pystr;
  secret : pystr;
}.
Record TelegramAuthVerifyResponse := MkResponse {
  response_session_id : pystr;
  response_status : pystr;
}.

(** The [Field] constraints, checked before a handler runs. *)
Definition valid_start (p : TelegramAuthStartRequest) : bool :=
  (0 <? start_api_id p) && str_truthy (start_api_hash p) && str_truthy (start_phone_number p).
Definition valid_verify (p : TelegramAuthVerifyRequest) : bool :=
  str_truthy (session_id p) && (0 <? api_id p) && str_truthy (api_hash p) && str_truthy (secret p).

(** The error classes of Telethon the routes name. *)
Inductive TelegramError :=
  | ApiIdInvalidError
  | ConnectionApiIdInvalidError
  | PasswordHashInvalidError
  | PhoneCodeExpiredError
  | PhoneCodeInvalidError
  | PhoneNumberBannedError
  | PhoneNumberFloodError
  | PhoneNumberInvalidError
  | PhoneNumberUnoccupiedError
  | SessionPasswordNeededError.

#[export] Instance TelegramError_eq_dec : EqDecision TelegramError.
Proof. solve_decision. Defined.

(** [error.__class__.__name__] *)
Definition class_name (e : TelegramError) : pystr :=
  match e with
  | ApiIdInvalidError => u "ApiIdInvalidError"
  | ConnectionApiIdInvalidError => u "ConnectionApiIdInvalidError"
  | PasswordHashInvalidError => u "PasswordHashInvalidError"
  | PhoneCodeExpiredError => u "PhoneCodeExpiredError"
  | PhoneCodeInvalidError => u "PhoneCodeInvalidError"
  | PhoneNumberBannedError => u "PhoneNumberBannedError"
  | PhoneNumberFloodError => u "PhoneNumberFloodError"
  | PhoneNumberInvalidError => u "PhoneNumberInvalidError"
  | PhoneNumberUnoccupiedError => u "PhoneNumberUnoccupiedError"
  | SessionPasswordNeededError => u "SessionPasswordNeededError"
  end.

(** The outcome of a client call, connecting included: an error class with its [seconds]
    attribute, or any other exception. *)
Inductive failure :=
  | Telegram (error : TelegramError) (seconds : option Z)
  | Raised (e : exn).

(** The phone-number errors every route records. *)
Definition phone_error (e : TelegramError) : bool :=
  match e with
  | PhoneNumberBannedError | PhoneNumberFloodError | PhoneNumberInvalidError
  | PhoneNumberUnoccupiedError => true
  | _ => false
  end.
Definition credentials_error (e : TelegramError) : bool :=
  match e with ApiIdInvalidError | ConnectionApiIdInvalidError => true | _ => false end.

(** * Error responses *)

Definition _invalid_api_credentials_error : exn :=
  HTTPException 400 (u "Invalid Telegram API credentials.").
Definition _otp_request_failed_error : exn :=
  HTTPException 502 (u "Unable to send Telegram login code.").
Definition _invalid_login_code_error : exn := HTTPException 400 (u "Invalid Telegram login code.").
Definition _invalid_password_error : exn := HTTPException 400 (u "Invalid Telegram password.").
Definition _missing_password_session_error : exn :=
  HTTPException 409 (u "Auth session missing Telegram session state.").
Definition _password_session_capture_error : exn :=
  HTTPException 500 (u "Unable to capture Telegram auth session.").
Definition _sensitive_operation_locked_error : exn :=
  HTTPException 423 (u "Sensitive operations are locked. Run an unlock action first.").
Definition _expired_login_code_error : exn := HTTPException 410 (u "Telegram login code expired.").
Definition _auth_session_not_found_error (sid : pystr) : exn :=
  HTTPException 404 (u "Auth session state not found for session_id='" ++ sid ++ u "'.").
Definition _auth_session_expired_error (sid : pystr) : exn :=
  HTTPException 410 (u "Auth session state expired for session_id='" ++ sid ++ u "'.").
Definition _auth_session_status_conflict_error (st : pystr) : exn :=
  HTTPException 409 (u "Auth session cannot accept login code when status is '" ++ st ++ u "'.").
Definition _auth_session_password_status_conflict_error (st : pystr) : exn :=
  HTTPException 409 (u "Auth session cannot accept password when status is '" ++ st ++ u "'.").
Definition _auth_registration_blocked_error : exn :=
  HTTPException 403 (u "Telegram registration/login is blocked. Retry later.").
Definition _auth_login_failed_error : exn :=
  HTTPException 400 (u "Telegram login failed. Retry after verifying credentials.").

(** A Telethon error that a route does not name escapes from it. *)
Definition uncaught : exn := AppError "TelegramError".

Definition _auth_failure_http_error (notification_type : pystr) : exn :=
  if decide (notification_type = _NOTIFICATION_TYPE_REGISTRATION_BLOCKED)
  then _auth_registration_blocked_error else _auth_login_failed_error.

(** The errors of the session repository, as responses. *)
Definition session_error (sid : pystr) (e : exn) : exn :=
  if decide (e = AuthSessions.AuthSessionStateNotFoundError) then _auth_session_not_found_error sid
  else if decide (e = AuthSessions.AuthSessionExpiredError) then _auth_session_expired_error sid
  else e.

(** * The surroundings of a request

    What the request draws or reads, and what other tasks commit at the points where the
    handler waits. *)
Inductive gap :=
  | AwaitingTelegram
  | BeforeSaltInsert
  | AfterSaltInsert
  | BeforePersist
  | BeforeUpdate
  | BeforeNotification
  | BeforeBreach.

Record Env := MkEnv {
  now_at_read : Z;
  now_at_update : Z;
  timestamp : pystr;
  clock : datetime;
  unlock_at_check : Unlock.UnlockState;
  unlock_at_persist : Unlock.UnlockState;
  new_salt : list Z;
  hash_entropy : Entropy;
  session_entropy : Entropy;
  others : gap → Db → Db;
}.

(** * Failures of a login *)

Definition _extract_retry_after_seconds (seconds : option Z) : option Z :=
  match seconds with Some n => if 0 <? n then Some n else None | None => None end.

Definition _build_retry_payload (error : TelegramError) (seconds : option Z) (hint : pystr)
    : JSONValue :=
  JDict [(u "error_type", JStr (class_name error));
         (u "retry_after_seconds",
          JInt (default _DEFAULT_RETRY_AFTER_SECONDS (_extract_retry_after_seconds seconds)));
         (u "retry_hint", JStr hint)].

(** Type, severity, message and payload of the notification. *)
Definition _map_auth_error_notification (error : TelegramError) (seconds : option Z)
    : pystr * pystr * pystr * JSONValue :=
  match error with
  | PhoneNumberBannedError | PhoneNumberFloodError =>
      (_NOTIFICATION_TYPE_REGISTRATION_BLOCKED, _NOTIFICATION_SEVERITY_HIGH,
       u "Telegram registration/login is blocked for this account.",
       _build_retry_payload error seconds
         (u "Wait before retrying. If this persists, review the Telegram account."))
  | _ =>
      (_NOTIFICATION_TYPE_LOGIN_FAILED, _NOTIFICATION_SEVERITY_MEDIUM,
       u "Telegram login failed for the supplied account details.",
       _build_retry_payload error seconds (u "Confirm the phone number and retry the login flow."))
  end.

(** An exception of [record_account_risk_breach] is logged and dropped; looking the account
    up happens before that. *)
Definition _record_auth_failure_risk_breach (env : Env) (phone : pystr) (db : Db)
    : result exn unit * Db :=
  match AccountStorage.get_account_id_by_phone_number phone db with
  | Err e => (Err e, db)
  | Ok None => (Ok tt, db)
  | Ok (Some i) =>
      let '(_, db) := AccountRisk.record_account_risk_breach (timestamp env) (clock env) i
                        (u "auth-failure") (others env BeforeBreach db) in (Ok tt, db)
  end.

Definition _record_auth_failure_notification (env : Env) (error : TelegramError)
    (seconds : option Z) (phone : pystr) (db : Db) : result exn pystr * Db :=
  let '(type, severity, message, payload) := _map_auth_error_notification error seconds in
  let '(_, db) := Notifications.create (timestamp env) type severity message payload
                    (others env BeforeNotification db) in
  if str_truthy phone then
    match _record_auth_failure_risk_breach env phone db with
    | (Err e, db) => (Err e, db)
    | (Ok _, db) => (Ok type, db)
    end
  else (Ok type, db).

(** The phone-number branch of every route. *)
Definition phone_failure (env : Env) (error : TelegramError) (seconds : option Z) (phone : pystr)
    (db : Db) : exn * Db :=
  match _record_auth_failure_notification env error seconds phone db with
  | (Ok type, db) => (_auth_failure_http_error type, db)
  | (Err e, db) => (e, db)
  end.

(** The last branches of every route, which end in an error. *)
Definition login_failure (env : Env) (error : TelegramError) (seconds : option Z) (phone : pystr)
    (db : Db) : exn * Db :=
  if phone_error error then phone_failure env error seconds phone db
  else if credentials_error error then (_invalid_api_credentials_error, db)
  else (uncaught, db).

(** * Start *)

(** [sid] is the random id of the new session. *)
Definition start_telegram_auth (env : Env) (sid : pystr) (payload : TelegramAuthStartRequest)
    (answer : failure + bool) (db : Db) : result exn pystr * Db :=
  let db := others env AwaitingTelegram db in
  match answer with
  | inl (Raised e) => (Err e, db)
  | inl (Telegram error seconds) =>
      let '(e, db) := login_failure env error seconds (start_phone_number payload) db in (Err e, db)
  | inr false => (Err _otp_request_failed_error, db)
  | inr true =>
      match AuthSessions.create_session (now_at_update env) sid (start_phone_number payload)
              _AUTH_STATUS_CODE_SENT None None None (others env BeforeUpdate db) with
      | (Ok created, db) => (Ok (AuthSessions.session_id created), db)
      | (Err e, db) => (Err e, db)
      end
  end.

(** * Verification *)

Definition _update_auth_session_status (env : Env) (sid st : pystr) (tsession : option pystr)
    (update_session : bool) (db : Db) : result exn TelegramAuthVerifyResponse * Db :=
  match AuthSessions.update_status (now_at_update env) sid st tsession update_session
          (others env BeforeUpdate db) with
  | (Ok updated, db) => (Ok (MkResponse (AuthSessions.session_id updated) (AuthSessions.status updated)), db)
  | (Err e, db) => (Err (session_error sid e), db)
  end.

(** [_persist], one operation of the writer queue; the account is committed before the
    session is encrypted. *)
Definition _persist `{Crypto, FloatText} (env : Env) (api_id : Z) (api_hash phone string_session : pystr)
    (kek : list Z) (db : Db) : result exn unit * Db :=
  match AccountStorage.upsert_account (hash_entropy env) api_id api_hash (Some phone) kek db with
  | (Err e, db) => (Err e, db)
  | (Ok i, db) => SessionStorage.persist_session (session_entropy env) i string_session kek db
  end.

Definition _persist_authenticated_session `{Crypto, FloatText} (env : Env) (api_id : Z)
    (api_hash phone string_session : pystr) (db : Db) : result exn unit * Db :=
  match KeyMaterial.resolve_key_encryption_key (new_salt env) (others env BeforeSaltInsert)
          (others env AfterSaltInsert) (unlock_at_persist env) db with
  | (Err e, db) => (Err e, db)
  | (Ok kek, db) => _persist env api_id api_hash phone string_session kek (others env BeforePersist db)
  end.

(** The tail of both routes after Telegram signed the user in: [string_session] is what
    [_extract_session_string] finds, never the empty string. *)
Definition complete_login `{Crypto, FloatText} (env : Env) (payload : TelegramAuthVerifyRequest)
    (phone : pystr) (string_session : option pystr) (clear : bool) (db : Db)
    : result exn TelegramAuthVerifyResponse * Db :=
  match string_session with
  | None => (Err _password_session_capture_error, db)
  | Some text =>
      match _persist_authenticated_session env (api_id payload) (api_hash payload) phone text db with
      | (Err e, db) =>
          (Err (if decide (e = Unlock.SensitiveOperationLockedError)
                then _sensitive_operation_locked_error else e), db)
      | (Ok _, db) =>
          _update_auth_session_status env (session_id payload) _AUTH_STATUS_AUTHENTICATED None clear db
      end
  end.

(** [_extract_session_string] of what the client's session saves. *)
Definition _extract_session_string (saved : option pystr) : option pystr :=
  match saved with Some s => if str_truthy s then Some s else None | None => None end.

Definition check_unlocked (env : Env) : result exn unit :=
  match Unlock.require_unlocked (unlock_at_check env) with
  | Ok _ => Ok tt
  | Err _ => Err _sensitive_operation_locked_error
  end.

(** [answer] is the outcome of [sign_in] and [saved] what the client's session saves after it. *)
Definition verify_telegram_code `{Crypto, FloatText} (env : Env) (payload : TelegramAuthVerifyRequest)
    (answer : failure + unit) (saved : option pystr) (db : Db)
    : result exn TelegramAuthVerifyResponse * Db :=
  let sid := session_id payload in
  match AuthSessions.get_session (now_at_read env) sid db with
  | (Err e, db) => (Err (session_error sid e), db)
  | (Ok state, db) =>
      if bool_decide (AuthSessions.status state ≠ _AUTH_STATUS_CODE_SENT)
      then (Err (_auth_session_status_conflict_error (AuthSessions.status state)), db)
      else
        match check_unlocked env with
        | Err e => (Err e, db)
        | Ok _ =>
            let db := others env AwaitingTelegram db in
            let phone := AuthSessions.phone_number state in
            match answer with
            | inr _ => complete_login env payload phone (_extract_session_string saved) false db
            | inl (Raised e) => (Err e, db)
            | inl (Telegram SessionPasswordNeededError _) =>
                match _extract_session_string saved with
                | None => (Err _password_session_capture_error, db)
                | Some text =>
                    _update_auth_session_status env sid _AUTH_STATUS_PASSWORD_REQUIRED (Some text) true db
                end
            | inl (Telegram PhoneCodeInvalidError _) => (Err _invalid_login_code_error, db)
            | inl (Telegram PhoneCodeExpiredError _) =>
                let '(_, db) := AuthSessions.delete_session sid (others env BeforeUpdate db) in
                (Err _expired_login_code_error, db)
            | inl (Telegram error seconds) =>
                let '(e, db) := login_failure env error seconds phone db in (Err e, db)
            end
        end
  end.

Definition verify_telegram_password `{Crypto, FloatText} (env : Env)
    (payload : TelegramAuthVerifyRequest) (answer : failure + unit) (saved : option pystr) (db : Db)
    : result exn TelegramAuthVerifyResponse * Db :=
  let sid := session_id payload in
  match AuthSessions.get_session (now_at_read env) sid db with
  | (Err e, db) => (Err (session_error sid e), db)
  | (Ok state, db) =>
      if bool_decide (AuthSessions.status state ≠ _AUTH_STATUS_PASSWORD_REQUIRED)
      then (Err (_auth_session_password_status_conflict_error (AuthSessions.status state)), db)
      else if negb (opt_str_truthy (AuthSessions.telegram_session state))
      then (Err _missing_password_session_error, db)
      else
        match check_unlocked env with
        | Err e => (Err e, db)
        | Ok _ =>
            let db := others env AwaitingTelegram db in
            let phone := AuthSessions.phone_number state in
            match answer with
            | inr _ => complete_login env payload phone (_extract_session_string saved) true db
            | inl (Raised e) => (Err e, db)
            | inl (Telegram PasswordHashInvalidError _) => (Err _invalid_password_error, db)
            | inl (Telegram error seconds) =>
                let '(e, db) := login_failure env error seconds phone db in (Err e, db)
            end
        end
  end.

(** The two routes. *)
Inductive route := Code | Password.
Definition verify `{Crypto, FloatText} (rt : route) :=
  match rt with Code => verify_telegram_code | Password => verify_telegram_password end.
Definition awaited (rt : route) : pystr :=
  match rt with Code => _AUTH_STATUS_CODE_SENT | Password => _AUTH_STATUS_PASSWORD_REQUIRED end.

(** * Storing the account *)
Section storing.
Context `{CryptoLaws, FloatText}.

(** Other tasks leave the settings alone once the key is derived, and the accounts once the
    account is written. *)
Definition settled (env : Env) : Prop :=
  (∀ db, accounts (others env BeforeUpdate db) = accounts db ∧
         settings (others env BeforeUpdate db) = settings db) ∧
  ∀ db, settings (others env BeforePersist db) = settings db.
Definition random_ok (env : Env) : Prop :=
  all_bytes (new_salt env) ∧ length (new_salt env) = 16%nat ∧
  entropy_ok (hash_entropy env) ∧ entropy_ok (session_entropy env).

(** The account of a phone number as a login leaves it. *)
Definition stored (kek : list Z) (api_id : Z) (api_hash phone text : pystr) (db : Db) : Prop :=
  ∃ i a, accounts db !! i = Some a ∧ ac_phone_number a = Some phone ∧ ac_api_id a = api_id ∧
    opens kek a api_hash (Some text).

Lemma persist_stores env api_id api_hash phone text kek db db' :
  random_ok env → aes_key kek →
  _persist env api_id api_hash phone text kek db = (Ok tt, db') →
  stored kek api_id api_hash phone text db' ∧ settings db' = settings db.
Proof.
  intros (_&_&Heh&Hes) Hk. unfold _persist.
  pose proof (upsert_Ok (hash_entropy env) api_id api_hash (Some phone) kek db Heh Hk) as Hup.
  destruct (AccountStorage.upsert_account _ _ _ _ _ _) as [ [i|e] db1]; [|done].
  destruct (Hup _ _ eq_refl) as (a&sealed&Ha&Hphone&Hapi&Hsealed&Hopen&Hset).
  unfold SessionStorage.persist_session.
  destruct (encrypt_text (session_entropy env) text kek) as [sealed'|] eqn:Es; [|done].
  rewrite Ha. intros [= <-]. split; [|done].
  exists i, (SessionStorage.set_session sealed' a). cbn [accounts set_accounts].
  rewrite lookup_insert_eq. split_and!; [done..|]. split.
  - cbn [SessionStorage.set_session ac_api_hash_encrypted]. by rewrite Hsealed.
  - cbn [SessionStorage.set_session ac_session_encrypted]. by eapply encrypt_text_Ok.
Qed.
(** ** Sessions *)

Lemma get_session_Ok now sid db state db' :
  AuthSessions.get_session now sid db = (Ok state, db') →
  db' = db ∧ ∃ r, auth_sessions db !! sid = Some r ∧ state = AuthSessions._decode_row sid r ∧
    now < as_expires_at r.
Proof.
  unfold AuthSessions.get_session. destruct (auth_sessions db !! sid) as [r|]; [|done].
  unfold AuthSessions._is_expired. cbn [AuthSessions._decode_row AuthSessions.expires_at].
  destruct (Z.leb_spec (as_expires_at r) now); [done|]. intros [= <- <-]. split; [done|]. by exists r.
Qed.

Lemma update_session_Ok env sid st ts us db r db' :
  _update_auth_session_status env sid st ts us db = (Ok r, db') →
  r = MkResponse sid st ∧
  ∃ row, auth_sessions (others env BeforeUpdate db) !! sid = Some row ∧
    db' = set_auth_sessions (<[sid := MkAuthSession (as_phone_number row) st (as_expires_at row)
            (if us then ts else as_telegram_session row)]>
            (auth_sessions (others env BeforeUpdate db))) (others env BeforeUpdate db).
Proof.
  unfold _update_auth_session_status, AuthSessions.update_status.
  destruct (auth_sessions (others env BeforeUpdate db) !! sid) as [row|]; [|done].
  destruct (AuthSessions._is_expired _ _); [done|]. intros [= <- <-]. split; [done|]. by exists row.
Qed.

Lemma complete_login_Ok env payload phone saved clear db r db' :
  random_ok env → settled env →
  complete_login env payload phone saved clear db = (Ok r, db') →
  r = MkResponse (session_id payload) _AUTH_STATUS_AUTHENTICATED ∧
  ∃ text kek row, saved = Some text ∧
    stored kek (api_id payload) (api_hash payload) phone text db' ∧
    (∀ salt before after, KeyMaterial.resolve_key_encryption_key salt before after
       (unlock_at_persist env) db' = (Ok kek, db')) ∧
    auth_sessions db' !! session_id payload = Some row ∧
    as_status row = _AUTH_STATUS_AUTHENTICATED ∧
    (clear = true → as_telegram_session row = None).
Proof.
  intros Hrnd [Hset Hpersist]. unfold complete_login. destruct saved as [text|]; [|done].
  destruct (_persist_authenticated_session _ _ _ _ _ _) as [ [ []|e] db1] eqn:Ep; [|done].
  intros (->&row&Hrow&->)%update_session_Ok. split; [done|].
  unfold _persist_authenticated_session in Ep. pose proof Hrnd as (Hsb&Hsl&_).
  destruct (KeyMaterial.resolve_key_encryption_key _ _ _ _ _) as [ [kek|e] db0] eqn:Ek; [|done].
  destruct (kek_spec _ _ _ _ _ _ _ Hsb Hsl Ek) as (_&Hkey&Hagain).
  apply persist_stores in Ep as [ (i&a&Ha&Hst) Hsettings]; [|done..].
  exists text, kek. eexists. destruct (Hset db1) as [Ea Es].
  cbn [accounts settings set_auth_sessions auth_sessions]. split_and!; [done| | |by rewrite lookup_insert_eq|done|].
  - exists i, a. cbn [accounts set_auth_sessions]. by rewrite Ea.
  - intros salt before after. apply Hagain. cbn [settings set_auth_sessions]. by rewrite Es, Hsettings, (Hpersist db0).
  - by destruct clear.
Qed.
(** What a login that signed in has checked and left behind. *)
Definition signed_in (rt : route) (env : Env) (payload : TelegramAuthVerifyRequest)
    (answer : failure + unit) (saved : option pystr) (db db' : Db) : Prop :=
  answer = inr tt ∧ is_Some (Unlock.unlock_secret (unlock_at_check env)) ∧
  (∃ row, auth_sessions db !! session_id payload = Some row ∧ as_status row = awaited rt ∧
     now_at_read env < as_expires_at row ∧
     ∃ text kek, saved = Some text ∧ text ≠ [] ∧
       stored kek (api_id payload) (api_hash payload) (as_phone_number row) text db' ∧
       ∀ salt before after, KeyMaterial.resolve_key_encryption_key salt before after
         (unlock_at_persist env) db' = (Ok kek, db')) ∧
  ∃ row', auth_sessions db' !! session_id payload = Some row' ∧
    as_status row' = _AUTH_STATUS_AUTHENTICATED ∧ (rt = Password → as_telegram_session row' = None).

Lemma verify_signed_in rt env payload answer saved db r db' :
  random_ok env → settled env →
  verify rt env payload answer saved db = (Ok r, db') →
  response_status r = _AUTH_STATUS_AUTHENTICATED →
  signed_in rt env payload answer saved db db'.
Proof.
  intros Hrnd Hset Hv Hr.
  assert (∃ state db1 clear, AuthSessions.get_session (now_at_read env) (session_id payload) db = (Ok state, db1) ∧
    AuthSessions.status state = awaited rt ∧ check_unlocked env = Ok tt ∧ answer = inr tt ∧
    (rt = Password → clear = true) ∧
    complete_login env payload (AuthSessions.phone_number state) (_extract_session_string saved) clear
      (others env AwaitingTelegram db1) = (Ok r, db')) as (state&db1&clear&Hg&Hst&Hck&->&Hclear&Hc).
  { destruct rt; cbn [verify] in Hv; unfold verify_telegram_code, verify_telegram_password in Hv;
      destruct (AuthSessions.get_session _ _ _) as [ [state|] db1]; try done; exists state, db1.
    - exists false. case_bool_decide as Hs; [done|].
      destruct (check_unlocked env) as [ []|]; [|done].
      destruct answer as [ [e sec|e]|[]]; [|done|by split_and!].
      exfalso. destruct e; cbn in Hv; repeat case_match; try done.
      apply update_session_Ok in Hv as [-> _]. by vm_compute in Hr.
    - exists true. case_bool_decide as Hs; [done|]. case_match; [done|].
      destruct (check_unlocked env) as [ []|]; [|done].
      destruct answer as [ [e sec|e]|[]]; [|done|by split_and!].
      exfalso. destruct e; cbn in Hv; repeat case_match; try done. }
  apply get_session_Ok in Hg as (->&row&Hrow&->&Hlive).
  apply complete_login_Ok in Hc as (->&text&kek&row'&Hsaved&Hstored&Hkek&Hrow'&Hst'&Hnone); [|done..].
  split_and!; [done| | |].
  - unfold check_unlocked, Unlock.require_unlocked in Hck.
    destruct (Unlock.unlock_secret _); [by eexists|done].
  - exists row. split_and!; [done..|]. exists text, kek. unfold _extract_session_string in Hsaved.
    destruct saved as [ [|c s]|]; [done| |done]. injection Hsaved as <-. by split_and!.
  - exists row'. split_and!; [done..|]. intros Hp. auto.
Qed.

Lemma verify_status rt env payload answer saved db r db' :
  random_ok env → settled env →
  verify rt env payload answer saved db = (Ok r, db') →
  response_status r = _AUTH_STATUS_AUTHENTICATED ∨
  (rt = Code ∧ response_status r = _AUTH_STATUS_PASSWORD_REQUIRED).
Proof.
  intros Hrnd Hset Hv. destruct rt; cbn [verify] in Hv;
    unfold verify_telegram_code, verify_telegram_password in Hv;
    destruct (AuthSessions.get_session _ _ _) as [ [state|] db1]; try done;
    (case_bool_decide; [done|]).
  - destruct (check_unlocked env) as [ []|]; [|done].
    destruct answer as [ [e sec|e]|[] ]; [|done|].
    + destruct e; cbn in Hv; repeat case_match; try done.
      apply update_session_Ok in Hv as [-> _]. by right.
    + by apply complete_login_Ok in Hv as [-> _]; [left|..].
  - case_match; [done|]. destruct (check_unlocked env) as [ []|]; [|done].
    destruct answer as [ [e sec|e]|[] ]; [|done|].
    + destruct e; cbn in Hv; repeat case_match; done.
    + by apply complete_login_Ok in Hv as [-> _]; [left|..].
Qed.

(** C4. A route that answers [authenticated] was called on a live session in the status it
    waits for, with the secret unlocked, and Telegram signed the user in. The account of the
    session's phone number then holds the API id, and its two ciphertexts open, under the key
    every later call derives from the same secret, to the API hash of the request and the
    session of the client; the login session is marked, without its temporary session after
    a password. *)
Theorem login_stores_account rt env payload answer saved db r db' :
  random_ok env → settled env →
  verify rt env payload answer saved db = (Ok r, db') →
  response_status r = _AUTH_STATUS_AUTHENTICATED →
  answer = inr tt ∧ is_Some (Unlock.unlock_secret (unlock_at_check env)) ∧
  (∃ row, auth_sessions db !! session_id payload = Some row ∧ as_status row = awaited rt ∧
     now_at_read env < as_expires_at row ∧
     ∃ text kek, saved = Some text ∧ text ≠ [] ∧
       stored kek (api_id payload) (api_hash payload) (as_phone_number row) text db' ∧
       ∀ salt before after, KeyMaterial.resolve_key_encryption_key salt before after
         (unlock_at_persist env) db' = (Ok kek, db')) ∧
  ∃ row', auth_sessions db' !! session_id payload = Some row' ∧
    as_status row' = _AUTH_STATUS_AUTHENTICATED ∧ (rt = Password → as_telegram_session row' = None).
Proof. apply verify_signed_in. Qed.
End storing.

(** * The login state machine *)

(** One call of a route on a login session, by what Telegram answered and the client saved. *)
Inductive login_step (env : Env) (rt : route) (answer : failure + unit) (saved : option pystr)
    : option AuthSession → option AuthSession → Prop :=
  | login_unchanged c : login_step env rt answer saved c c
  | login_expired r :
      as_expires_at r <= now_at_read env ∨ as_expires_at r <= now_at_update env →
      login_step env rt answer saved (Some r) None
  | login_code_expired r seconds :
      rt = Code → as_status r = _AUTH_STATUS_CODE_SENT →
      answer = inl (Telegram PhoneCodeExpiredError seconds) →
      login_step env rt answer saved (Some r) None
  | login_password_needed r seconds text :
      rt = Code → as_status r = _AUTH_STATUS_CODE_SENT →
      answer = inl (Telegram SessionPasswordNeededError seconds) → saved = Some text → text ≠ [] →
      login_step env rt answer saved (Some r)
        (Some (MkAuthSession (as_phone_number r) _AUTH_STATUS_PASSWORD_REQUIRED (as_expires_at r)
                 (Some text)))
  | login_done r text :
      as_status r = awaited rt → answer = inr tt → saved = Some text → text ≠ [] →
      login_step env rt answer saved (Some r)
        (Some (MkAuthSession (as_phone_number r) _AUTH_STATUS_AUTHENTICATED (as_expires_at r)
                 (match rt with Code => as_telegram_session r | Password => None end))).

(** Other tasks leave the login sessions alone. *)
Definition quiet (env : Env) : Prop :=
  ∀ g db, auth_sessions (others env g db) = auth_sessions db.

Lemma breach_sessions ts clock i reason db :
  auth_sessions (AccountRisk.record_account_risk_breach ts clock i reason db).2 = auth_sessions db.
Proof.
  unfold AccountRisk.record_account_risk_breach. cbv zeta.
  destruct (AccountPause.get_pause_state i db) as [p|]; [|done].
  destruct (AccountPause.paused_at p); [done|].
  destruct (Settings.get_by_key _ db); [|done]. destruct (AccountRisk._filter_recent _ _); [|done].
  assert (∀ k v db, auth_sessions (Settings.upsert k v db).2 = auth_sessions db) as Hup.
  { intros k v dbx. unfold Settings.upsert. by destruct (Settings._encode_value_json v). }
  destruct (Z.ltb _ _).
  - match goal with |- context [Settings.upsert ?k ?v ?d] => pose proof (Hup k v d) as H;
      destruct (Settings.upsert k v d) as [ [?|?] ?] end; exact H.
  - destruct (AccountPause.pause_account _ _ _ _ db) as [paused db1] eqn:Ep.
    assert (auth_sessions db1 = auth_sessions db) as <-.
    { unfold AccountPause.pause_account, AccountPause.update_row in Ep.
      destruct (accounts db !! i); by injection Ep as <- <-. }
    match goal with |- context [Settings.upsert ?k ?v ?d] => pose proof (Hup k v d) as H;
      destruct (Settings.upsert k v d) as [ [?|?] ?] end; [|exact H].
    destruct paused; exact H.
Qed.

Lemma login_failure_sessions env error seconds phone db :
  quiet env → auth_sessions (login_failure env error seconds phone db).2 = auth_sessions db.
Proof.
  intros Hq. unfold login_failure. destruct (phone_error error); [|by destruct (credentials_error error)].
  unfold phone_failure, _record_auth_failure_notification, _record_auth_failure_risk_breach.
  destruct (_map_auth_error_notification error seconds) as [ [ [type severity] message] payload].
  unfold Notifications.create. cbn [insert_notification].
  set (db1 := set_notifications _ _). assert (auth_sessions db1 = auth_sessions db) as E by apply Hq.
  clearbody db1. destruct (str_truthy phone); [|exact E].
  destruct (AccountStorage.get_account_id_by_phone_number phone db1) as [ [i|]|]; [|exact E..].
  pose proof (breach_sessions (timestamp env) (clock env) i (u "auth-failure") (others env BeforeBreach db1)) as H.
  destruct (AccountRisk.record_account_risk_breach _ _ _ _ _) as [r db2]. cbn [snd] in *.
  by rewrite H, Hq.
Qed.

Lemma persist_sessions `{Crypto, FloatText} env api_id api_hash phone text db :
  quiet env →
  auth_sessions (_persist_authenticated_session env api_id api_hash phone text db).2 = auth_sessions db.
Proof.
  intros Hq. unfold _persist_authenticated_session.
  assert (∀ salt st, auth_sessions (KeyMaterial.resolve_key_encryption_key salt
    (others env BeforeSaltInsert) (others env AfterSaltInsert) st db).2 = auth_sessions db) as Hk.
  { intros salt st. unfold KeyMaterial.resolve_key_encryption_key, KeyMaterial._get_or_create_kek_salt.
    destruct (Unlock.get_sensitive_operation_secret st); [|done].
    destruct (KeyMaterial.stored_salt db) as [ [?|]|]; [done| |done].
    assert (∀ k v d, auth_sessions (Settings.create k v d).2 = auth_sessions d) as Hc.
    { intros k v d. unfold Settings.create, Settings.insert_setting.
      destruct (Settings._encode_value_json v); [|done]. by destruct (settings d !! k). }
    match goal with |- context [Settings.create ?k ?v ?d] => specialize (Hc k v d);
      destruct (Settings.create k v d) as [ [?|e] d1] end; cbn [snd] in Hc; rewrite Hq in Hc; [done|].
    case_decide; [|done].
    destruct (KeyMaterial.stored_salt _) as [ [?|]|]; cbn [snd]; by rewrite Hq. }
  specialize (Hk (new_salt env) (unlock_at_persist env)).
  destruct (KeyMaterial.resolve_key_encryption_key _ _ _ _ db) as [ [kek|e] db1]; [|exact Hk].
  cbn [snd] in Hk. rewrite <-Hk, <-(Hq BeforePersist db1). generalize (others env BeforePersist db1) as d.
  clear. intros d. unfold _persist, AccountStorage.upsert_account, AccountStorage.insert_account.
  destruct (encrypt_text _ _ _); [|done]. destruct (bindable _); [|done].
  unfold SessionStorage.persist_session.
  destruct (AccountStorage.with_phone phone d) as [|i [|j l] ]; [..|done];
    destruct (encrypt_text _ _ _); try done; by destruct (accounts _ !! _).
Qed.

(** The update of a live session: it is marked, or found expired and dropped. *)
Lemma update_session_cell env sid st ts us db :
  quiet env →
  let '(r, db') := _update_auth_session_status env sid st ts us db in
  (∀ sid', sid' ≠ sid → auth_sessions db' !! sid' = auth_sessions db !! sid') ∧
  ∀ row, auth_sessions db !! sid = Some row →
    (as_expires_at row <= now_at_update env ∧ auth_sessions db' !! sid = None) ∨
    (auth_sessions db' !! sid = Some (MkAuthSession (as_phone_number row) st (as_expires_at row)
       (if us then ts else as_telegram_session row)) ∧ r = Ok (MkResponse sid st)).
Proof.
  intros Hq. unfold _update_auth_session_status, AuthSessions.update_status. rewrite Hq.
  destruct (auth_sessions db !! sid) as [row|]; [|split; [by rewrite Hq|done] ].
  unfold AuthSessions._is_expired.
  cbn [AuthSessions._decode_row AuthSessions.expires_at as_expires_at].
  destruct (Z.leb_spec (as_expires_at row) (now_at_update env)).
  - unfold AuthSessions.delete_session. cbn [snd auth_sessions set_auth_sessions].
    split; [intros; by rewrite lookup_delete_ne, lookup_insert_ne|].
    intros ? [= <-]. left. by rewrite lookup_delete_eq.
  - cbn [auth_sessions set_auth_sessions]. split; [intros; by rewrite lookup_insert_ne|].
    intros ? [= <-]. right. by rewrite lookup_insert_eq.
Qed.

(** The state of a session before a call that finds it live. *)
Lemma get_session_cases now sid db :
  let '(r, db') := AuthSessions.get_session now sid db in
  (∀ sid', sid' ≠ sid → auth_sessions db' !! sid' = auth_sessions db !! sid') ∧
  match r with
  | Ok state => db' = db ∧ ∃ row, auth_sessions db !! sid = Some row ∧
      state = AuthSessions._decode_row sid row
  | Err _ => auth_sessions db' !! sid = None ∧
      ∀ row, auth_sessions db !! sid = Some row → as_expires_at row <= now
  end.
Proof.
  unfold AuthSessions.get_session, AuthSessions.delete_session, AuthSessions._is_expired.
  destruct (auth_sessions db !! sid) as [row|] eqn:Er; [|by rewrite Er].
  cbn [AuthSessions._decode_row AuthSessions.expires_at].
  destruct (Z.leb_spec (as_expires_at row) now); cbn [snd auth_sessions set_auth_sessions].
  - split; [intros; by rewrite lookup_delete_ne|]. rewrite lookup_delete_eq.
    split; [done|]. by intros ? [= <-].
  - split; [done|]. split; [done|]. by exists row.
Qed.

Section machine.
Context `{Crypto, FloatText}.

(** What a call leaves of the sessions: its own moves by a step, the others stay. *)
Definition moves (env : Env) (rt : route) (answer : failure + unit) (saved : option pystr)
    (sid : pystr) (db db' : Db) : Prop :=
  (∀ sid', sid' ≠ sid → auth_sessions db' !! sid' = auth_sessions db !! sid') ∧
  login_step env rt answer saved (auth_sessions db !! sid) (auth_sessions db' !! sid).

Lemma moves_same env rt answer saved sid db db' :
  auth_sessions db' = auth_sessions db → moves env rt answer saved sid db db'.
Proof. intros E. split; intros; rewrite E; [done|constructor]. Qed.

Lemma update_moves env rt answer saved sid st ts (us : bool) db1 db row :
  quiet env → auth_sessions db1 = auth_sessions db → auth_sessions db !! sid = Some row →
  login_step env rt answer saved (Some row)
    (Some (MkAuthSession (as_phone_number row) st (as_expires_at row)
             (if us then ts else as_telegram_session row))) →
  moves env rt answer saved sid db (_update_auth_session_status env sid st ts us db1).2.
Proof.
  intros Hq E Hrow Hstep. pose proof (update_session_cell env sid st ts us db1 Hq) as Hu.
  destruct (_update_auth_session_status env sid st ts us db1) as [r db']. cbn [snd].
  destruct Hu as [Hne Hu]. rewrite E in Hne, Hu. split; [done|]. rewrite Hrow.
  destruct (Hu row Hrow) as [ [He ->]|[-> _]]; [|done]. apply login_expired. by right.
Qed.

Lemma complete_moves env rt answer saved payload clear db1 db row :
  quiet env → auth_sessions db1 = auth_sessions db →
  auth_sessions db !! session_id payload = Some row →
  as_status row = awaited rt → answer = inr tt →
  clear = (match rt with Code => false | Password => true end) →
  moves env rt answer saved (session_id payload) db
    (complete_login env payload (as_phone_number row) (_extract_session_string saved) clear db1).2.
Proof.
  intros Hq E Hrow Hst Ha ->. unfold complete_login.
  destruct (_extract_session_string saved) as [text|] eqn:Et; [|by apply moves_same].
  assert (saved = Some text ∧ text ≠ []) as [Hs Hne].
  { unfold _extract_session_string in Et. destruct saved as [ [|c s]|]; [done| |done].
    by injection Et as <-. }
  pose proof (persist_sessions env (api_id payload) (api_hash payload) (as_phone_number row) text db1 Hq)
    as Hp.
  destruct (_persist_authenticated_session _ _ _ _ _ db1) as [ [ []|e] db2]; cbn [snd] in Hp;
    [|by apply moves_same; rewrite <-E].
  eapply update_moves; [done|by rewrite Hp|done|].
  destruct rt; [by apply (login_done env Code _ _ row text)|by apply (login_done env Password _ _ row text)].
Qed.

(** C5. A call of either route moves its own login session by a step of the machine and no
    other: from [code_sent] to [password_required] when Telegram asks for the password, from
    the status the route waits for to [authenticated] when Telegram signs in, to nothing when
    it has expired or its code has; whatever else happens it stays as it was. *)
Theorem login_state_machine rt env payload answer saved db :
  quiet env →
  let db' := (verify rt env payload answer saved db).2 in
  (∀ sid, sid ≠ session_id payload → auth_sessions db' !! sid = auth_sessions db !! sid) ∧
  login_step env rt answer saved (auth_sessions db !! session_id payload)
    (auth_sessions db' !! session_id payload).
Proof.
  intros Hq. cbv zeta. change (moves env rt answer saved (session_id payload) db
    (verify rt env payload answer saved db).2).
  pose proof (get_session_cases (now_at_read env) (session_id payload) db) as Hg.
  pose proof (Hq AwaitingTelegram db) as Ea.
  assert (∀ e s p, auth_sessions (login_failure env e s p (others env AwaitingTelegram db)).2 =
    auth_sessions db) as Hf by (intros; by rewrite login_failure_sessions).
  destruct rt; cbn [verify]; unfold verify_telegram_code, verify_telegram_password;
    destruct (AuthSessions.get_session _ _ _) as [ [state|e] db1]; destruct Hg as [Hne Hg].
  2,4: destruct Hg as [Hnone Hexp]; split; [exact Hne|]; cbn [snd]; rewrite Hnone;
    destruct (auth_sessions db !! session_id payload) as [row|]; [apply login_expired; left; auto|constructor].
  all: destruct Hg as (->&row&Hrow&->); case_bool_decide as Hs; [by apply moves_same|].
  - destruct (check_unlocked env); [|by apply moves_same].
    destruct answer as [ [error seconds|x]|[]]; [|by apply moves_same|by apply complete_moves].
    specialize (Hf error seconds (as_phone_number row)).
    destruct error; try (destruct (login_failure _ _ _ _ _); by apply moves_same);
      try (by apply moves_same).
    + cbn [AuthSessions.delete_session snd]. split.
      * intros sid' Hsid. cbn [auth_sessions set_auth_sessions]. by rewrite Hq, Ea, lookup_delete_ne.
      * cbn [auth_sessions set_auth_sessions]. rewrite Hrow, lookup_delete_eq.
        by eapply login_code_expired.
    + unfold _extract_session_string. destruct saved as [ [|c s]|]; [by apply moves_same| |by apply moves_same].
      eapply update_moves; [done..|]. by eapply login_password_needed.
  - case_match; [by apply moves_same|].
    destruct (check_unlocked env); [|by apply moves_same].
    destruct answer as [ [error seconds|x]|[]]; [|by apply moves_same|by apply complete_moves].
    specialize (Hf error seconds (as_phone_number row)).
    destruct error; try (destruct (login_failure _ _ _ _ _); by apply moves_same);
      by apply moves_same.
Qed.

End machine.

(** Sequences of calls on one session. *)
Inductive login_run : list (failure + unit) → option AuthSession → option AuthSession → Prop :=
  | run_nil c : login_run [] c c
  | run_cons env rt answer saved answers c c1 c2 :
      login_step env rt answer saved c c1 → login_run answers c1 c2 →
      login_run (answer :: answers) c c2.

(** A session that was not authenticated became so by a call that Telegram signed in. *)
Lemma authenticated_by_signing_in answers c r' :
  login_run answers c (Some r') → as_status r' = _AUTH_STATUS_AUTHENTICATED →
  (∀ r, c = Some r → as_status r ≠ _AUTH_STATUS_AUTHENTICATED) → inr tt ∈ answers.
Proof.
  intros Hrun Hst. remember (Some r') as c' eqn:Ec.
  induction Hrun as [c|env rt answer saved answers c c1 c2 Hstep _ IH]; intros Hno; subst.
  - by destruct (Hno r').
  - inversion Hstep; subst; try (left; reflexivity); right; apply IH; try done.
    by intros ? [= <-].
Qed.

(** * Instances *)

Definition sample_entropy (k : Z) : Entropy := MkEntropy (replicate 32 k) (replicate 12 k).
Definition sample_env : Env :=
  MkEnv 100 110 (u "2024-01-01 00:00:00") (DT 0 (Some 0)) sample_unlocked sample_unlocked
    sample_salt (sample_entropy 3) (sample_entropy 4) (λ _ db, db).
Definition sample_login_db : Db :=
  set_auth_sessions {[u "s1" := MkAuthSession (u "+100") _AUTH_STATUS_CODE_SENT 1000 None]} empty_db.
Definition sample_payload : TelegramAuthVerifyRequest := MkVerify (u "s1") 5 (u "hash") (u "12345").

Lemma sample_random_ok : random_ok sample_env.
Proof.
  unfold random_ok, entropy_ok. split_and!; try (apply all_bytes_eval; vm_compute); reflexivity.
Qed.

Lemma login_stores_account_witness :
  ∃ r db', verify Code sample_env sample_payload (inr tt) (Some (u "string")) sample_login_db = (Ok r, db') ∧
    response_status r = _AUTH_STATUS_AUTHENTICATED ∧
    ∃ kek, stored kek 5 (u "hash") (u "+100") (u "string") db'.
Proof.
  assert (∃ db', verify Code sample_env sample_payload (inr tt) (Some (u "string")) sample_login_db =
    (Ok (MkResponse (u "s1") _AUTH_STATUS_AUTHENTICATED), db')) as (db'&Hv).
  { eexists. vm_compute. reflexivity. }
  exists (MkResponse (u "s1") _AUTH_STATUS_AUTHENTICATED), db'. split; [exact Hv|]. split; [reflexivity|].
  destruct (login_stores_account Code sample_env sample_payload (inr tt) (Some (u "string"))
    sample_login_db _ db' sample_random_ok (conj (λ _, conj eq_refl eq_refl) (λ _, eq_refl)) Hv eq_refl)
    as (_&_&(row&Hrow&_&_&text&kek&Ht&_&Hs&_)&_).
  vm_compute in Hrow. injection Hrow as <-. injection Ht as <-. by exists kek.
Defined.

Lemma login_state_machine_witness :
  quiet sample_env ∧
  let db' := (verify Code sample_env sample_payload
    (inl (Telegram SessionPasswordNeededError None)) (Some (u "string")) sample_login_db).2 in
  login_step sample_env Code (inl (Telegram SessionPasswordNeededError None)) (Some (u "string"))
    (auth_sessions sample_login_db !! u "s1") (auth_sessions db' !! u "s1") ∧
  auth_sessions db' !! u "s1" =
    Some (MkAuthSession (u "+100") _AUTH_STATUS_PASSWORD_REQUIRED 1000 (Some (u "string"))).
Proof.
  split; [intros g db; reflexivity|]. split; [|vm_compute; reflexivity].
  apply (login_state_machine Code sample_env sample_payload
    (inl (Telegram SessionPasswordNeededError None)) (Some (u "string")) sample_login_db).
  intros g db; reflexivity.
Defined.

(** The account is stored although the answer is 410: the session expired while Telegram was
    asked. *)
Example late_login_is_stored :
  let env := MkEnv 100 1000 (u "2024-01-01 00:00:00") (DT 0 (Some 0)) sample_unlocked
               sample_unlocked sample_salt (sample_entropy 3) (sample_entropy 4) (λ _ db, db) in
  let '(r, db') := verify Code env sample_payload (inr tt) (Some (u "string")) sample_login_db in
  r = Err (_auth_session_expired_error (u "s1")) ∧ bool_decide (is_Some (accounts db' !! 1)) = true.
Proof. vm_compute. done. Qed.

End TelegramAuth.

(** * The client of a request

    Each handler builds a client of its own and hands it to one of three calls, which connect
    it when it is not connected and disconnect it again. *)
Module AuthClient.

Section client.
Context {C : Type} (is_connected : C → bool) (connect disconnect : C → result exn unit * C)
  (send_code_request : pystr → C → result exn bool * C)
  (sign_in_code : pystr → pystr → C → result exn unit * C)
  (sign_in_password : pystr → C → result exn unit * C).

(** [try: call  finally: disconnect], around a client that may be connected already. *)
Definition connected {A} (call : C → result exn A * C) (client : C) : result exn A * C :=
  if is_connected client then call client
  else
    match connect client with
    | (Err e, client) => (Err e, client)
    | (Ok _, client) =>
        let '(r, client) := call client in
        match disconnect client with
        | (Err e, client) => (Err e, client)
        | (Ok _, client) => (r, client)
        end
    end.

Definition request_login_code (phone : pystr) : C → result exn bool * C := send_code_request phone.
Definition _send_login_code (phone_number : pystr) : C → result exn bool * C :=
  connected (request_login_code phone_number).
Definition _sign_in_with_code (phone_number code : pystr) : C → result exn unit * C :=
  connected (sign_in_code phone_number code).
Definition _sign_in_with_password (password : pystr) : C → result exn unit * C :=
  connected (sign_in_password password).

(** What a client promises: connecting and disconnecting do so when they return, and a call
    made on a connected client leaves it connected. *)
Record client_laws : Prop := {
  connect_ok : ∀ c c', connect c = (Ok tt, c') → is_connected c' = true;
  disconnect_ok : ∀ c c', disconnect c = (Ok tt, c') → is_connected c' = false;
}.
Definition stays_connected {A} (call : C → result exn A * C) : Prop :=
  ∀ c, is_connected c = true → is_connected (call c).2 = true.

(** The call is made on a connected client and its result, an exception included, is handed
    on, unless connecting or disconnecting fails; the client ends connected exactly when it
    was. *)
Theorem connected_spec {A} (call : C → result exn A * C) c :
  client_laws → stays_connected call →
  let '(r, c') := connected call c in
  (∃ c1, is_connected c1 = true ∧ r = (call c1).1 ∧ is_connected c' = is_connected c ∧
     (is_connected c = true → c1 = c ∧ c' = (call c).2)) ∨
  is_connected c = false ∧
    ((∃ e, connect c = (Err e, c') ∧ r = Err e) ∨ (∃ c1 e, disconnect c1 = (Err e, c') ∧ r = Err e)).
Proof.
  intros Hl Hs. unfold connected. destruct (is_connected c) eqn:Ec.
  - destruct (call c) as [r c'] eqn:E. left. exists c. rewrite E. split_and!; [done..| |done].
    specialize (Hs c Ec). by rewrite E in Hs.
  - destruct (connect c) as [[[]|e] c1] eqn:E1; [|right; split; [done|left; eauto] ].
    apply (connect_ok Hl) in E1. destruct (call c1) as [r c2] eqn:E.
    destruct (disconnect c2) as [[[]|e] c3] eqn:E3; [|right; split; [done|right; eauto] ].
    left. exists c1. rewrite E. split_and!; [done..| |done]. by eapply (disconnect_ok Hl).
Qed.
End client.

(** A client as a flag and the history of its calls: a refused code is handed on after the
    disconnection. *)
Example refused_code :
  let call (name : string) (r : result exn unit) (f : bool → bool) (c : bool * list string) :=
    (r, (f c.1, c.2 ++ [name])) in
  _sign_in_with_code fst (call "connect" (Ok tt) (λ _, true)) (call "disconnect" (Ok tt) (λ _, false))
    (λ _ _, call "sign_in" (Err (AppError "PhoneCodeInvalidError")) id) (u "+100") (u "12345") (false, []) =
  (Err (AppError "PhoneCodeInvalidError"), (false, ["connect"; "sign_in"; "disconnect"])%string).
Proof. by_eval. Qed.
End AuthClient.
