(* ===== verification/Timeline.v ===== *)
(** The deduplicated timeline: the paginated thread query
    (src/tca/storage/thread_query_repo.py) and the record of bot deliveries
    (src/tca/storage/bot_deliveries_repo.py). Both statements join a cluster with its
    representative item and that item's channel. *)

From S2P Require Import Prelude PyValue PyTime PyIso Schema Notifications Clusters.
Local Open Scope Z_scope.

(** * The join *)

Record joined := MkJoined {
  j_cluster_id : Z;
  j_cluster_key : pystr;
  j_item_id : Z;
  j_item : Item;
  j_channel_id : Z;
  j_channel : Channel;
  j_members : Z;
}.

(** [clusters INNER JOIN representative INNER JOIN channel LEFT JOIN members], grouped by
    cluster. *)
Definition join_row (db : Db) (c : Z) (row : Cluster) : option joined :=
  i ← cl_representative row;
  item ← items db !! i;
  channel ← channels db !! it_channel_id item;
  Some (MkJoined c (cl_key row) i item (it_channel_id item) channel
    (Z.of_nat (size (Clusters.member_items db c)))).

Definition join_rows (db : Db) : list joined :=
  omap (λ r : Z * Cluster, join_row db r.1 r.2) (map_to_list (clusters db)).

Lemma join_row_id db c row j : join_row db c row = Some j → j_cluster_id j = c.
Proof.
  unfold join_row. destruct (cl_representative row) as [i|]; [|done]. simpl.
  destruct (items db !! i) as [x|]; [|done]. simpl.
  destruct (channels db !! it_channel_id x); [|done]. by intros [= <-].
Qed.

Lemma elem_of_join_rows db j :
  j ∈ join_rows db ↔
  ∃ row, clusters db !! j_cluster_id j = Some row ∧ join_row db (j_cluster_id j) row = Some j.
Proof.
  unfold join_rows. rewrite list_elem_of_omap. split.
  - intros ([c row]&Hc%elem_of_map_to_list&Hj). simpl in *.
    pose proof (join_row_id _ _ _ _ Hj) as ->. eauto.
  - intros (row&Hc&Hj). exists (j_cluster_id j, row). split; [by apply elem_of_map_to_list|done].
Qed.

Lemma NoDup_join_rows db : NoDup (j_cluster_id <$> join_rows db).
Proof.
  apply NoDup_omap_fst; [intros []; apply join_row_id|apply NoDup_fst_map_to_list].
Qed.

(** With the foreign keys in force only a missing representative keeps a cluster out. *)
Lemma join_row_total db c row :
  wf_db db → clusters db !! c = Some row → is_Some (cl_representative row) →
  is_Some (join_row db c row).
Proof.
  intros W Hc [i Hi]. unfold join_row. rewrite Hi. simpl.
  destruct (fk_clusters_representative _ W _ _ Hc i Hi) as [x Hx]. rewrite Hx. simpl.
  destruct (fk_items_channel _ W _ _ Hx) as [ch ->]. by eexists.
Qed.

(** Rows ordered by a comparison that tells cluster ids apart are determined by their
    set. *)
Lemma sorted_rows_unique (cmp : joined → joined → comparison) `{!GoodCmp cmp} l k :
  (∀ x y, cmp x y = Eq → j_cluster_id x = j_cluster_id y) →
  NoDup (j_cluster_id <$> l) → (∀ x, x ∈ k ↔ x ∈ l) → NoDup k →
  StronglySorted (cmp_le cmp) k → sort_by cmp l = k.
Proof.
  intros Hcmp Hnd Hin Hk Hs. apply (StronglySorted_unique_strong (cmp_le cmp)); [| |done|].
  - intros x y Hx%elem_of_sort_by Hy%Hin H1 H2. unfold cmp_le in *.
    assert (cmp x y = Eq) as E%Hcmp.
    { rewrite (cmp_opp cmp x y) in H2. by destruct (cmp x y). }
    clear -Hnd Hx Hy E. induction l as [|z l IH]; [by apply elem_of_nil in Hx|].
    csimpl in *. apply NoDup_cons in Hnd as [Hz Hnd].
    apply elem_of_cons in Hx as [->|Hx], Hy as [->|Hy]; [done| | |auto];
      destruct Hz; [rewrite E|rewrite <-E]; by apply list_elem_of_fmap_2.
  - apply sort_by_sorted, _.
  - rewrite sort_by_perm. apply NoDup_Permutation; [by eapply NoDup_fmap_1|done|].
    intros x. by rewrite Hin.
Qed.

(** * The thread query *)
Module Thread.

Definition ThreadQueryRepositoryError : exn := AppError "ThreadQueryRepositoryError".

Record ThreadEntryRecord := MkThreadEntry {
  cluster_id : Z;
  cluster_key : pystr;
  representative_item_id : Z;
  representative_published_at : option datetime;
  representative_title : option pystr;
  representative_body : option pystr;
  representative_canonical_url : option pystr;
  representative_channel_id : Z;
  representative_channel_name : pystr;
  representative_channel_username : option pystr;
  duplicate_count : Z;
}.

Definition _coerce_positive_int (n : Z) : result exn Z :=
  if 0 <? n then Ok n else Err ThreadQueryRepositoryError.
Definition _coerce_non_negative_int (n : Z) : result exn Z :=
  if 0 <=? n then Ok n else Err ThreadQueryRepositoryError.

Definition _decode_thread_entry_row (j : joined) : result exn ThreadEntryRecord :=
  c ← _coerce_positive_int (j_cluster_id j);
  i ← _coerce_positive_int (j_item_id j);
  published ← coerce_optional_datetime ThreadQueryRepositoryError (it_published_at (j_item j));
  ch ← _coerce_positive_int (j_channel_id j);
  count ← _coerce_non_negative_int (j_members j);
  mret (MkThreadEntry c (j_cluster_key j) i published (it_title (j_item j)) (it_body (j_item j))
    (it_canonical_url (j_item j)) ch (ch_name (j_channel j)) (ch_username (j_channel j)) count).

(** [ORDER BY CASE WHEN published_at IS NULL THEN 1 ELSE 0 END, published_at DESC, id DESC] *)
Definition newest_first : joined → joined → comparison :=
  cmp_lex (cmp_on (λ j, Clusters.null_rank (j_item j)) Z.compare)
  (cmp_lex (cmp_desc (cmp_on (λ j, Clusters.published_key (j_item j)) text_cmp))
    (cmp_desc (cmp_on j_cluster_id Z.compare))).

#[export] Instance newest_first_good : GoodCmp newest_first.
Proof. unfold newest_first. apply _. Qed.

Definition thread (db : Db) : list joined := sort_by newest_first (join_rows db).

(** [LIMIT :limit OFFSET :offset] of positive numbers. *)
Definition slice {A} (limit offset : Z) (l : list A) : list A :=
  take (Z.to_nat limit) (drop (Z.to_nat offset) l).

Definition list_entries (page page_size : Z) (db : Db) : result exn (list ThreadEntryRecord) :=
  page_number ← _coerce_positive_int page;
  size ← _coerce_positive_int page_size;
  let offset := (page_number - 1) * size in
  if bindable size && bindable offset
  then traverse _decode_thread_entry_row (slice size offset (thread db))
  else Err OverflowError.

(** ** Lemmas *)

Lemma newest_first_eq x y : newest_first x y = Eq → j_cluster_id x = j_cluster_id y.
Proof.
  unfold newest_first, cmp_lex, cmp_desc, cmp_on. destruct (Z.compare _ _); try done.
  destruct (text_cmp _ _); try done. by intros ->%Z.compare_eq.
Qed.

(** Decoding commutes with taking a slice. *)
Lemma traverse_slice {A B} (f : A → result exn B) l r limit offset :
  traverse f l = Ok r → traverse f (slice limit offset l) = Ok (slice limit offset r).
Proof.
  rewrite !traverse_Ok. intros H. by apply Forall2_take, Forall2_drop.
Qed.

Lemma slices_join {A} (l : list A) (size : Z) n :
  0 ≤ size →
  concat ((λ k, slice size (Z.of_nat k * size) l) <$> seq 0 n) = take (n * Z.to_nat size) l.
Proof.
  intros Hs. induction n as [|n IH]; [done|].
  rewrite seq_S, fmap_app, concat_app, IH. csimpl. rewrite app_nil_r. unfold slice.
  replace (Z.to_nat (Z.of_nat n * size)) with (n * Z.to_nat size)%nat by lia.
  replace (Z.to_nat size + n * Z.to_nat size)%nat with (n * Z.to_nat size + Z.to_nat size)%nat
    by lia.
  by rewrite take_take_drop.
Qed.

Lemma list_entries_page page size db entries :
  0 < page → 0 < size → traverse _decode_thread_entry_row (thread db) = Ok entries →
  list_entries page size db =
    if bindable size && bindable ((page - 1) * size)
    then Ok (slice size ((page - 1) * size) entries) else Err OverflowError.
Proof.
  intros Hp Hs He. unfold list_entries, _coerce_positive_int.
  rewrite !(proj2 (Z.ltb_lt _ _)) by done. cbn [mbind result_bind].
  case_match; [by apply traverse_slice|done].
Qed.

Lemma decode_fields j e :
  _decode_thread_entry_row j = Ok e →
  cluster_id e = j_cluster_id j ∧ representative_item_id e = j_item_id j ∧
  representative_title e = it_title (j_item j) ∧ representative_body e = it_body (j_item j) ∧
  representative_channel_id e = j_channel_id j ∧ duplicate_count e = j_members j.
Proof.
  unfold _decode_thread_entry_row, _coerce_positive_int, _coerce_non_negative_int.
  destruct (0 <? j_cluster_id j), (0 <? j_item_id j), (coerce_optional_datetime _ _),
    (0 <? j_channel_id j), (0 <=? j_members j); try done. simpl.
  by intros [= <-].
Qed.



End Thread.

(** * Bot deliveries *)
Module BotDeliveries.

Definition BotDeliveryAlreadyExistsError : exn := AppError "BotDeliveryAlreadyExistsError".
Definition BotDeliveryDecodeError : exn := AppError "BotDeliveryDecodeError".

Record BotDeliveryRecord := MkDeliveryRecord {
  delivery_id : Z;
  cluster_id : Z;
  delivered_at : datetime;
  telegram_message_id : option pystr;
}.

Record BotDeliveryEntryRecord := MkEntry {
  entry_cluster_id : Z;
  representative_title : option pystr;
  representative_body : option pystr;
  representative_canonical_url : option pystr;
  representative_published_at : option datetime;
  channel_name : pystr;
  channel_username : option pystr;
  duplicate_count : Z;
}.

Definition _decode_delivery_row (i : Z) (d : Delivery) : result exn BotDeliveryRecord :=
  at_ ← coerce_datetime BotDeliveryDecodeError (dl_delivered_at d);
  mret (MkDeliveryRecord i (dl_cluster_id d) at_ (dl_message_id d)).

Definition _decode_entry_row (j : joined) : result exn BotDeliveryEntryRecord :=
  published ← coerce_optional_datetime BotDeliveryDecodeError (it_published_at (j_item j));
  mret (MkEntry (j_cluster_id j) (it_title (j_item j)) (it_body (j_item j))
    (it_canonical_url (j_item j)) published (ch_name (j_channel j)) (ch_username (j_channel j))
    (j_members j)).

(** [INSERT INTO bot_deliveries ... RETURNING ...] *)
Definition insert_delivery (d : Delivery) (db : Db) : result exn (Z * Db) :=
  if any_row (λ e, Z.eqb (dl_cluster_id e) (dl_cluster_id d)) (deliveries db)
  then Err (IntegrityError (UniqueFailed "bot_deliveries.cluster_id"))
  else if decide (is_Some (clusters db !! dl_cluster_id d))
  then let i := next_id (deliveries db) in
       Ok (i, set_deliveries (<[i := d]> (deliveries db)) db)
  else Err (IntegrityError ForeignKeyFailed).

Definition _is_duplicate_cluster_integrity_error (e : exn) : bool :=
  bool_decide (e = IntegrityError (UniqueFailed "bot_deliveries.cluster_id")).

(** [now] is the statement's [CURRENT_TIMESTAMP]; the row is committed, then decoded. *)
Definition record_delivery (now : pystr) (c : Z) (message_id : option pystr) (db : Db)
    : result exn BotDeliveryRecord * Db :=
  let row := MkDelivery c now message_id in
  match insert_delivery row db with
  | Ok (i, db) => (_decode_delivery_row i row, db)
  | Err e =>
      (Err (if _is_duplicate_cluster_integrity_error e then BotDeliveryAlreadyExistsError
            else e), db)
  end.

Definition has_been_delivered (c : Z) (db : Db) : bool :=
  any_row (λ d, Z.eqb (dl_cluster_id d) c) (deliveries db).

(** The clusters without a delivery, [ORDER BY clusters.id ASC]. *)
Definition by_id : joined → joined → comparison := cmp_on j_cluster_id Z.compare.
#[export] Instance by_id_good : GoodCmp by_id.
Proof. unfold by_id. apply _. Qed.

Definition undelivered (db : Db) : list joined :=
  sort_by by_id (filter (λ j, has_been_delivered (j_cluster_id j) db = false) (join_rows db)).

(** SQLite reads a negative [LIMIT] as none. *)
Definition sql_limit {A} (limit : Z) (l : list A) : list A :=
  if limit <? 0 then l else take (Z.to_nat limit) l.

Definition list_undelivered_entries (limit : Z) (db : Db)
    : result exn (list BotDeliveryEntryRecord) :=
  traverse _decode_entry_row (sql_limit limit (undelivered db)).

(** ** Lemmas *)

Lemma has_been_delivered_true c db :
  has_been_delivered c db = true ↔ ∃ i d, deliveries db !! i = Some d ∧ dl_cluster_id d = c.
Proof. unfold has_been_delivered. rewrite any_row_true. by setoid_rewrite Z.eqb_eq. Qed.

Lemma elem_of_undelivered j db :
  j ∈ undelivered db ↔ j ∈ join_rows db ∧ has_been_delivered (j_cluster_id j) db = false.
Proof. unfold undelivered. rewrite elem_of_sort_by, list_elem_of_filter. tauto. Qed.

Lemma NoDup_undelivered db : NoDup (j_cluster_id <$> undelivered db).
Proof.
  unfold undelivered. rewrite sort_by_perm. apply NoDup_fmap_filter, NoDup_join_rows.
Qed.

Lemma insert_delivery_Ok d db i db' :
  insert_delivery d db = Ok (i, db') →
  i = next_id (deliveries db) ∧ db' = set_deliveries (<[i := d]> (deliveries db)) db ∧
  has_been_delivered (dl_cluster_id d) db = false ∧ is_Some (clusters db !! dl_cluster_id d).
Proof.
  unfold insert_delivery, has_been_delivered. destruct (any_row _ _); [done|].
  case_decide; [|done]. by intros [= <- <-].
Qed.

Lemma insert_delivery_delivered d db i db' c :
  insert_delivery d db = Ok (i, db') →
  has_been_delivered c db' = Z.eqb (dl_cluster_id d) c || has_been_delivered c db.
Proof.
  intros (->&->&_&_)%insert_delivery_Ok. apply eq_iff_eq_true.
  rewrite orb_true_iff, !has_been_delivered_true, Z.eqb_eq. simpl. split.
  - intros (i&e&[[<- <-]|[_ He]]%lookup_insert_Some&<-); eauto.
  - intros [<-|(i&e&He&<-)]; [exists (next_id (deliveries db)), d; by rewrite lookup_insert_eq|].
    exists i, e. rewrite lookup_insert_ne; [done|]. intros <-. by rewrite next_id_fresh in He.
Qed.

Lemma join_rows_set_deliveries t db : join_rows (set_deliveries t db) = join_rows db.
Proof. done. Qed.

(** Recording a delivery takes its cluster, and only it, off the list. *)
Lemma undelivered_insert d db i db' :
  insert_delivery d db = Ok (i, db') →
  undelivered db' = filter (λ j, j_cluster_id j ≠ dl_cluster_id d) (undelivered db).
Proof.
  intros Hi. pose proof (insert_delivery_delivered d db i db') as Hd.
  apply insert_delivery_Ok in Hi as Hi'. destruct Hi' as (_&E&_).
  unfold undelivered at 1. apply sorted_rows_unique; [apply _| | | | |].
  - intros x y. unfold by_id, cmp_on. by intros ->%Z.compare_eq.
  - apply NoDup_fmap_filter. rewrite E, join_rows_set_deliveries. apply NoDup_join_rows.
  - intros j. rewrite !list_elem_of_filter, elem_of_undelivered, (Hd _ Hi).
    rewrite E, join_rows_set_deliveries, orb_false_iff, Z.eqb_neq. naive_solver.
  - apply NoDup_filter. eapply NoDup_fmap_1, NoDup_undelivered.
  - apply StronglySorted_filter, sort_by_sorted. apply _.
Qed.

Lemma insert_delivery_wf d db i db' :
  insert_delivery d db = Ok (i, db') → wf_db db → wf_db db'.
Proof.
  intros (->&->&Hd&Hc)%insert_delivery_Ok W. pose proof Hd as Hno.
  unfold has_been_delivered in Hno. rewrite any_row_false in Hno. apply set_deliveries_wf; [done| |].
  - intros j e [[<- <-]|[_ He]]%lookup_insert_Some; [done|]. by eapply fk_deliveries.
  - intros j k e f [[<- <-]|[? He]]%lookup_insert_Some [[<- <-]|[? Hf]]%lookup_insert_Some;
      intros Ee; [done| | |by eapply (uq_deliveries _ W)]; exfalso.
    + apply Hno in Hf. apply Z.eqb_neq in Hf. congruence.
    + apply Hno in He. apply Z.eqb_neq in He. congruence.
Qed.

End BotDeliveries.
