(* ===== verification/Bot.v ===== *)
(** Telegram bot delivery: message formatting (src/tca/bot/formatter.py), the Bot API
    client (src/tca/bot/client.py) and the delivery run (src/tca/bot/delivery.py). *)

From S2P Require Import Prelude PyValue PyTime PyIso Schema Notifications Settings Clusters Timeline.
Local Open Scope Z_scope.

(** * Formatting *)
Module Formatter.

Import BotDeliveries.

(** [html.escape(s)] *)
Definition escape (s : pystr) : pystr :=
  let s := str_replace (u "&") (u "&amp;") s in
  let s := str_replace (u "<") (u "&lt;") s in
  let s := str_replace (u ">") (u "&gt;") s in
  let s := str_replace [34] (u "&quot;") s in
  str_replace (u "'") (u "&#x27;") s.

Definition len (s : pystr) : Z := Z.of_nat (length s).

(** ** Tags

    The pattern of [truncate_html]: an opening bracket, a slash or none, a name, and then
    the closing bracket, or white space and anything up to the next closing bracket. *)
Definition is_alnum (c : Z) : bool :=
  Z.leb 48 c && Z.leb c 57 || Z.leb 65 c && Z.leb c 90 || Z.leb 97 c && Z.leb c 122.

Fixpoint span (p : Z → bool) (s : pystr) : pystr * pystr :=
  match s with
  | [] => ([], [])
  | c :: s' => if p c then let '(a, b) := span p s' in (c :: a, b) else ([], s)
  end.

(** The text after [</?]. *)
Definition after_bracket (s : pystr) : option pystr :=
  match s with
  | c :: s => if Z.eqb c 60
              then Some (match s with d :: s' => if Z.eqb d 47 then s' else s | [] => [] end)
              else None
  | [] => None
  end.

(** [re.match] of an opening bracket, a slash or none, and a name (the group). *)
Definition tag_name (token : pystr) : option pystr :=
  s ← after_bracket token;
  match (span is_alnum s).1 with [] => None | name => Some name end.

(** The rest of the text after a tag at its start. *)
Definition match_tag (s : pystr) : option pystr :=
  s ← after_bracket s;
  match span is_alnum s with
  | ([], _) => None
  | (_, []) => None
  | (_, c :: s) =>
      if Z.eqb c 62 then Some s
      else if is_space c then
        match (span (λ d, negb (Z.eqb d 62)) s).2 with
        | [] => None
        | _ :: s => Some s
        end
      else None
  end.

(** [token_pattern.split(s)]: text, tag, text, ..., text. Every step consumes a character,
    so [length s] steps are enough. *)
Fixpoint split_from (fuel : nat) (cur s : pystr) : list pystr :=
  match fuel, s with
  | O, _ | _, [] => [cur]
  | S fuel, c :: s' =>
      match match_tag s with
      | Some rest => cur :: take (length s - length rest) s :: split_from fuel [] rest
      | None => split_from fuel (cur ++ [c]) s'
      end
  end.
Definition split_tags (s : pystr) : list pystr := split_from (length s) [] s.

Definition lower (s : pystr) : pystr := ascii_lower <$> s.

(** ** Truncation *)

(** The locals of the loop; [open_tags] has the innermost tag first. *)
Record progress := MkProgress {
  open_tags : list pystr;
  result_parts : list pystr;
  current_len : Z;
}.

Definition closing_tags_len (tags : list pystr) : Z :=
  foldr (λ t n, len t + 3 + n) 0 tags.

Definition pop_tag (name : pystr) (tags : list pystr) : list pystr :=
  match tags with
  | t :: rest => if decide (t = name) then rest else tags
  | [] => []
  end.

Definition is_tag (token : pystr) : bool := startswith token (u "<") && endswith token (u ">").

Definition tags_after (token name : pystr) (tags : list pystr) : list pystr :=
  if startswith token (u "</") then pop_tag name tags
  else if endswith token (u "/>") then tags
  else name :: tags.

Fixpoint truncate_loop (max_len : Z) (tokens : list pystr) (p : progress) : progress :=
  match tokens with
  | [] => p
  | token :: tokens =>
      if negb (str_truthy token) then truncate_loop max_len tokens p
      else if is_tag token then
        match tag_name token with
        | None => truncate_loop max_len tokens p
        | Some name =>
            let new_open_tags := tags_after token (lower name) (open_tags p) in
            if max_len <? current_len p + len token + closing_tags_len new_open_tags + 1 then p
            else truncate_loop max_len tokens
                   (MkProgress new_open_tags (result_parts p ++ [token])
                      (current_len p + len token))
        end
      else
        let available := max_len - 1 - closing_tags_len (open_tags p) - current_len p in
        if available <=? 0 then p
        else if available <? len token
        then MkProgress (open_tags p) (result_parts p ++ [take (Z.to_nat available) token])
               (current_len p + available)
        else truncate_loop max_len tokens
               (MkProgress (open_tags p) (result_parts p ++ [token]) (current_len p + len token))
  end.

Definition close_tag (name : pystr) : pystr := u "</" ++ name ++ u ">".
(** [U+2026] *)
Definition ellipsis : pystr := [8230].

Definition truncate_html (html_str : pystr) (max_len : Z) : pystr :=
  if len html_str <=? max_len then html_str
  else
    let p := truncate_loop max_len (split_tags html_str) (MkProgress [] [] 0) in
    concat (result_parts p) ++ ellipsis ++ concat (close_tag <$> open_tags p).

(** ** Messages *)

Definition anchor (href content : pystr) : pystr :=
  u "<a href=" ++ [34] ++ href ++ [34] ++ u ">" ++ content ++ u "</a>".

Definition nonempty (s : pystr) : list pystr := match s with [] => [] | _ => [s] end.

Definition escape_opt (s : option pystr) : pystr :=
  match s with Some s => escape s | None => [] end.

Definition full_message (e : BotDeliveryEntryRecord) : pystr :=
  let escaped_title := escape_opt (representative_title e) in
  let escaped_body := escape_opt (take 500 <$> representative_body e) in
  let escaped_url := escape_opt (representative_canonical_url e) in
  let escaped_channel_name := escape (channel_name e) in
  let escaped_channel_username := escape_opt (channel_username e) in
  let title_html := match escaped_title with
                    | [] => [] | t => u "<b>" ++ t ++ u "</b>" end in
  let title_html := match escaped_url with
                    | [] => title_html
                    | url => match title_html with
                             | [] => anchor url url
                             | t => anchor url t
                             end
                    end in
  let attribution := match escaped_channel_username with
                     | [] => u "via " ++ escaped_channel_name
                     | n => u "via " ++ escaped_channel_name ++ u " (@" ++ n ++ u ")"
                     end in
  let duplicates := if 1 <? duplicate_count e
                    then [u "+" ++ str_of_int (duplicate_count e) ++ u " duplicates"] else [] in
  let attr_html := join (u " ") (attribution :: duplicates) in
  join [10; 10] (nonempty title_html ++ nonempty escaped_body ++ [attr_html]).

Definition format_delivery_message (e : BotDeliveryEntryRecord) : pystr :=
  truncate_html (full_message e) 4096.

Example formats_entry :
  format_delivery_message (MkEntry 1 (Some (u "a<b")) (Some (u "text & more"))
    (Some (u "https://e.x/?a=1&b")) None (u "News") (Some (u "news")) 3) =
  u "<a href=" ++ [34] ++ u "https://e.x/?a=1&amp;b" ++ [34] ++
  u "><b>a&lt;b</b></a>" ++ [10; 10] ++ u "text &amp; more" ++ [10; 10] ++
  u "via News (@news) +3 duplicates".
Proof. vm_compute. reflexivity. Qed.

Example truncates_inside_tag :
  truncate_html (u "<b>hello world</b>") 17 = u "<b>hello wor" ++ ellipsis ++ u "</b>".
Proof. vm_compute. reflexivity. Qed.

(** ** Length

    What the loop writes, the closing tags and the ellipsis always fit. *)

Lemma len_app s t : len (s ++ t) = len s + len t.
Proof. unfold len. rewrite length_app. lia. Qed.
Lemma len_cons c s : len (c :: s) = 1 + len s.
Proof. unfold len. simpl. lia. Qed.
Lemma len_nonneg s : 0 ≤ len s.
Proof. unfold len. lia. Qed.

Lemma len_close_tag n : len (close_tag n) = len n + 3.
Proof.
  unfold close_tag. rewrite !len_app. change (len (u "</")) with 2. change (len (u ">")) with 1.
  lia.
Qed.

Lemma len_closing tags : len (concat (close_tag <$> tags)) = closing_tags_len tags.
Proof.
  induction tags as [|t tags IH]; [done|].
  change (concat (close_tag <$> t :: tags)) with (close_tag t ++ concat (close_tag <$> tags)).
  rewrite len_app, len_close_tag, IH. simpl. lia.
Qed.

Definition fits (max_len : Z) (p : progress) : Prop :=
  len (concat (result_parts p)) = current_len p ∧
  current_len p + closing_tags_len (open_tags p) + 1 ≤ max_len.

Lemma loop_fits max_len tokens : ∀ p,
  fits max_len p → fits max_len (truncate_loop max_len tokens p).
Proof.
  induction tokens as [|token tokens IH]; intros p [Hl Hf]; [done|]. cbn [truncate_loop].
  destruct (str_truthy token); [|by apply IH]. cbn [negb].
  destruct (is_tag token).
  - destruct (tag_name token) as [name|]; [|by apply IH].
    destruct (Z.ltb_spec max_len
      (current_len p + len token + closing_tags_len (tags_after token (lower name) (open_tags p)) + 1));
      [done|].
    apply IH. split; simpl; [|lia]. rewrite concat_app, len_app, Hl. simpl. by rewrite app_nil_r.
  - set (available := max_len - 1 - closing_tags_len (open_tags p) - current_len p).
    destruct (Z.leb_spec available 0); [done|].
    destruct (Z.ltb_spec available (len token)) as [Hlt|Hge].
    + split; simpl; [|unfold available; lia]. rewrite concat_app, len_app, Hl. simpl.
      rewrite app_nil_r. unfold len in *. rewrite length_take. lia.
    + apply IH. split; simpl; [|unfold available in *; lia].
      rewrite concat_app, len_app, Hl. simpl. by rewrite app_nil_r.
Qed.

Lemma truncate_length s max_len : 1 ≤ max_len → len (truncate_html s max_len) ≤ max_len.
Proof.
  intros Hm. unfold truncate_html. destruct (Z.leb_spec (len s) max_len); [done|].
  pose proof (loop_fits max_len (split_tags s) (MkProgress [] [] 0)) as [Hl Hf];
    [split; simpl; [done|lia]|].
  rewrite !len_app, Hl, len_closing. change (len ellipsis) with 1. lia.
Qed.

(** ** Nesting

    [enter] is what a tag does to the open tags of a well-formed message; a string is
    well nested when its tags close in order and none stays open. *)
Definition enter (token : pystr) (tags : list pystr) : option (list pystr) :=
  name ← tag_name token;
  if startswith token (u "</") then
    match tags with
    | t :: rest => if decide (t = lower name) then Some rest else None
    | [] => None
    end
  else if endswith token (u "/>") then Some tags
  else Some (lower name :: tags).

Fixpoint nest_tokens (tags : list pystr) (tokens : list pystr) : option (list pystr) :=
  match tokens with
  | _ :: tag :: tokens => tags ← enter tag tags; nest_tokens tags tokens
  | _ => Some tags
  end.

Definition well_nested (s : pystr) : Prop := nest_tokens [] (split_tags s) = Some [].

(** A message as text and tags. *)
Inductive piece := Txt (t : pystr) | Tag (t : pystr).
Definition piece_text (p : piece) : pystr := match p with Txt t | Tag t => t end.
Definition render (ps : list piece) : pystr := concat (piece_text <$> ps).

Record good_tag (t : pystr) : Prop := {
  tag_matches rest : match_tag (t ++ rest) = Some rest;
  tag_is_tag : is_tag t = true;
  tag_named : is_Some (tag_name t);
}.
Definition good_piece (p : piece) : Prop :=
  match p with Txt t => 60 ∉ t | Tag t => good_tag t end.

Fixpoint nest (tags : list pystr) (ps : list piece) : option (list pystr) :=
  match ps with
  | [] => Some tags
  | Txt _ :: ps => nest tags ps
  | Tag t :: ps => tags ← enter t tags; nest tags ps
  end.

(** The pieces with adjacent texts joined: what splitting finds. *)
Fixpoint merge (cur : pystr) (ps : list piece) : list piece :=
  match ps with
  | [] => [Txt cur]
  | Txt t :: ps => merge (cur ++ t) ps
  | Tag t :: ps => Txt cur :: Tag t :: merge [] ps
  end.

Lemma render_cons p ps : render (p :: ps) = piece_text p ++ render ps.
Proof. done. Qed.
Lemma render_app ps qs : render (ps ++ qs) = render ps ++ render qs.
Proof. unfold render. by rewrite fmap_app, concat_app. Qed.

Lemma nest_app tags ps qs : nest tags (ps ++ qs) = tags ← nest tags ps; nest tags qs.
Proof.
  revert tags. induction ps as [|[t|t] ps IH]; intros tags; simpl; [done|auto|].
  destruct (enter t tags); simpl; auto.
Qed.

Lemma nest_merge tags cur ps : nest tags (merge cur ps) = nest tags ps.
Proof.
  revert tags cur. induction ps as [|[t|t] ps IH]; intros tags cur; simpl; [done|auto|].
  destruct (enter t tags); simpl; auto.
Qed.

Lemma nest_tokens_merge tags cur ps : nest_tokens tags (piece_text <$> merge cur ps) = nest tags ps.
Proof.
  revert tags cur. induction ps as [|[t|t] ps IH]; intros tags cur; csimpl; [done|auto|].
  destruct (enter t tags); simpl; auto.
Qed.

Lemma merge_good cur ps : 60 ∉ cur → Forall good_piece ps → Forall good_piece (merge cur ps).
Proof.
  intros Hc H. revert cur Hc. induction H as [|[t|t] ps Hp H IH]; intros cur Hc; simpl.
  - by constructor.
  - apply IH. rewrite elem_of_app. simpl in Hp. tauto.
  - constructor; [done|]. constructor; [done|]. apply IH, not_elem_of_nil.
Qed.

Lemma render_merge cur ps : render (merge cur ps) = cur ++ render ps.
Proof.
  revert cur. induction ps as [|[t|t] ps IH]; intros cur; simpl.
  - done.
  - by rewrite IH, <-(assoc_L (++)).
  - rewrite !render_cons, IH. done.
Qed.

Lemma match_tag_text c s : c ≠ 60 → match_tag (c :: s) = None.
Proof. intros H. unfold match_tag, after_bracket. by rewrite (proj2 (Z.eqb_neq _ _) H). Qed.

Lemma good_tag_cons t : good_tag t → ∃ s, t = 60 :: s.
Proof.
  intros [_ H _]. unfold is_tag in H. apply andb_true_iff in H as [H _].
  destruct t as [|c t]; [done|].
  change (startswith (c :: t) (u "<")) with (Z.eqb 60 c && startswith t []) in H.
  apply andb_true_iff in H as [<-%Z.eqb_eq _]. eauto.
Qed.

(** Splitting a message that was put together from good pieces finds them. *)
Lemma split_render fuel cur ps :
  Forall good_piece ps → (length (render ps) ≤ fuel)%nat →
  split_from fuel cur (render ps) = piece_text <$> merge cur ps.
Proof.
  intros H. revert fuel cur. induction H as [|[t|t] ps Hp H IH]; intros fuel cur.
  - intros _. by destruct fuel.
  - rewrite render_cons. simpl. revert fuel cur. induction t as [|c t IHt]; intros fuel cur Hl.
    + simpl. rewrite app_nil_r. by apply IH.
    + simpl in Hl. destruct fuel as [|fuel]; [lia|]. cbn [split_from app].
      simpl in Hp. rewrite match_tag_text by set_solver.
      rewrite IHt by (set_solver || lia). by rewrite <-(assoc_L (++)).
  - rewrite render_cons. simpl. intros Hl. pose proof (tag_matches _ Hp (render ps)) as Hm.
    destruct (good_tag_cons _ Hp) as [s Hs].
    assert (length (t ++ render ps) - length (render ps) = length t)%nat as El
      by (rewrite length_app; lia).
    assert (take (length t) (t ++ render ps) = t) as Et by (by rewrite take_app_length).
    rewrite length_app in Hl. subst t. cbn [app] in *.
    destruct fuel as [|fuel]; [simpl in Hl; lia|]. cbn [split_from].
    rewrite Hm, El, Et. csimpl. rewrite IH by (simpl in Hl; lia). done.
Qed.

Lemma well_nested_render ps :
  Forall good_piece ps → nest [] ps = Some [] → well_nested (render ps).
Proof.
  intros Hg Hn. unfold well_nested, split_tags.
  by rewrite split_render, nest_tokens_merge by done.
Qed.

Lemma enter_tags_after t name tags tags' :
  tag_name t = Some name → enter t tags = Some tags' → tags_after t (lower name) tags = tags'.
Proof.
  unfold enter, tags_after. intros ->. cbn [mbind option_bind].
  destruct (startswith t (u "</")); [|destruct (endswith t (u "/>")); by intros [= <-]].
  destruct tags as [|x tags]; [done|]. simpl. case_decide; [by intros [= <-]|done].
Qed.

Definition name_ok (n : pystr) : Prop :=
  n ≠ [] ∧ Forall (λ c, is_alnum c = true) n ∧ lower n = n.

Lemma span_true p s : Forall (λ c, p c = true) (span p s).1.
Proof.
  induction s as [|c s IH]; simpl; [constructor|]. destruct (p c) eqn:E; [|constructor].
  destruct (span p s). by constructor.
Qed.

Lemma lower_alnum c : is_alnum c = true → is_alnum (ascii_lower c) = true.
Proof. unfold ascii_lower. destruct (Z.leb 65 c && Z.leb c 90) eqn:E; unfold is_alnum; lia. Qed.
Lemma lower_idem c : ascii_lower (ascii_lower c) = ascii_lower c.
Proof.
  unfold ascii_lower. destruct (Z.leb 65 c && Z.leb c 90) eqn:E; [|by rewrite E].
  destruct (Z.leb 65 (c + 32) && Z.leb (c + 32) 90) eqn:E'; lia.
Qed.

Lemma tag_name_ok t name : tag_name t = Some name → name_ok (lower name).
Proof.
  unfold tag_name. destruct (after_bracket t) as [s|]; [|done]. cbn [mbind option_bind].
  pose proof (span_true is_alnum s) as H. destruct (span is_alnum s).1 as [|c n]; [done|].
  intros [= <-]. split_and!; [done| |].
  - unfold lower. apply Forall_fmap. eapply Forall_impl; [exact H|]. intros x. apply lower_alnum.
  - unfold lower. rewrite <-list_fmap_compose. apply list_fmap_ext. intros i x _. apply lower_idem.
Qed.

Lemma enter_ok t tags tags' : enter t tags = Some tags' → Forall name_ok tags → Forall name_ok tags'.
Proof.
  unfold enter. destruct (tag_name t) as [name|] eqn:En; [|done]. cbn [mbind option_bind].
  destruct (startswith t (u "</")).
  - destruct tags as [|x tags]; [done|]. case_decide; [|done]. by intros [= <-] [_ ?]%Forall_cons.
  - destruct (endswith t (u "/>")); intros [= <-]; [done|]. constructor; [|done].
    by eapply tag_name_ok.
Qed.

(** On good pieces the loop writes good pieces, a prefix of the text, and its open tags
    are those the pieces leave open. *)
Lemma loop_pieces max_len qs : ∀ p,
  Forall good_piece qs → is_Some (nest (open_tags p) qs) → Forall name_ok (open_tags p) →
  let p' := truncate_loop max_len (piece_text <$> qs) p in
  ∃ out, result_parts p' = result_parts p ++ (piece_text <$> out) ∧
    Forall good_piece out ∧ nest (open_tags p) out = Some (open_tags p') ∧
    Forall name_ok (open_tags p') ∧ render out `prefix_of` render qs.
Proof.
  assert (∀ p (qs : list piece), Forall name_ok (open_tags p) → ∃ out, result_parts p = result_parts p ++ (piece_text <$> out) ∧
    Forall good_piece out ∧ nest (open_tags p) out = Some (open_tags p) ∧
    Forall name_ok (open_tags p) ∧ render out `prefix_of` render qs) as Hstop.
  { intros p ps Hn. exists []. simpl. rewrite app_nil_r. split_and!; [done..|].
    apply prefix_nil. }
  induction qs as [|q qs IH]; intros p Hg Hd Hn; cbv zeta; [by apply Hstop|].
  apply Forall_cons in Hg as [Hq Hg]. rewrite fmap_cons. cbn [truncate_loop].
  destruct q as [t|t]; cbn [piece_text]; simpl in Hq.
  - destruct t as [|c t]; cbn [str_truthy negb]; [by apply IH|].
    assert (is_tag (c :: t) = false) as ->.
    { unfold is_tag. change (startswith (c :: t) (u "<")) with (Z.eqb 60 c && startswith t []).
      rewrite (proj2 (Z.eqb_neq 60 c)); [done|set_solver]. }
    set (available := max_len - 1 - closing_tags_len (open_tags p) - current_len p).
    destruct (Z.leb_spec available 0); [by apply Hstop|].
    destruct (Z.ltb_spec available (len (c :: t))).
    + exists [Txt (take (Z.to_nat available) (c :: t))]. split_and!; [done| |done|done|].
      * constructor; [|constructor]. cbn [good_piece]. intros Hin. apply Hq.
        by eapply subseteq_take.
      * rewrite !render_cons. cbn [piece_text]. change (render []) with (@nil Z).
        rewrite app_nil_r. apply prefix_app_r. exists (drop (Z.to_nat available) (c :: t)).
        by rewrite take_drop.
    + destruct (IH (MkProgress (open_tags p) (result_parts p ++ [c :: t])
        (current_len p + len (c :: t))) Hg Hd Hn) as (out&Hr&Hgo&Hno&Hok&Hp).
      exists (Txt (c :: t) :: out). split_and!; [|by constructor|done|done|].
      * rewrite Hr. cbn [result_parts]. by rewrite <-(assoc_L (++)).
      * rewrite !render_cons. by apply prefix_app.
  - destruct (good_tag_cons _ Hq) as [s' Hs']. assert (str_truthy t = true) as -> by (by rewrite Hs').
    cbn [negb]. rewrite (tag_is_tag _ Hq). destruct (tag_named _ Hq) as [name Hname]. rewrite Hname.
    simpl in Hd. destruct (enter t (open_tags p)) as [tags'|] eqn:Ee; [|by destruct Hd].
    rewrite (enter_tags_after _ _ _ _ Hname Ee).
    destruct (Z.ltb_spec max_len (current_len p + len t + closing_tags_len tags' + 1));
      [by apply Hstop|].
    destruct (IH (MkProgress tags' (result_parts p ++ [t]) (current_len p + len t)) Hg Hd
      (enter_ok _ _ _ Ee Hn)) as (out&Hr&Hgo&Hno&Hok&Hp).
    exists (Tag t :: out). split_and!; [|by constructor| |done|].
    + rewrite Hr. cbn [result_parts]. by rewrite <-(assoc_L (++)).
    + simpl. by rewrite Ee.
    + rewrite !render_cons. by apply prefix_app.
Qed.

(** ** The tags the code writes *)

Lemma span_stop p n c s :
  Forall (λ c, p c = true) n → p c = false → span p (n ++ c :: s) = (n, c :: s).
Proof.
  intros Hn Hc. induction Hn as [|d n Hd Hn IH]; simpl; [by rewrite Hc|]. by rewrite Hd, IH.
Qed.

Lemma endswith_app s t : endswith (s ++ t) t = true.
Proof.
  unfold endswith. rewrite reverse_app. generalize (reverse t), (reverse s). intros a b.
  induction a as [|c a IH]; simpl; [by destruct b|]. by rewrite Z.eqb_refl.
Qed.

(** An opening tag with the text [attrs] before its bracket. *)
Lemma open_tag_good n attrs :
  n ≠ [] → Forall (λ c, is_alnum c = true) n → 62 ∉ attrs →
  (attrs = [] ∨ ∃ c s, attrs = c :: s ∧ is_space c = true) →
  good_tag (60 :: n ++ attrs ++ [62]) ∧ tag_name (60 :: n ++ attrs ++ [62]) = Some n ∧
  startswith (60 :: n ++ attrs ++ [62]) (u "</") = false.
Proof.
  intros Hne Hn Ha Hs.
  assert (∀ rest, after_bracket (60 :: n ++ attrs ++ [62] ++ rest) = Some (n ++ attrs ++ [62] ++ rest)) as Hab.
  { intros rest. unfold after_bracket. simpl. destruct Hn as [|d n Hd Hn]; [done|]. simpl.
    rewrite (proj2 (Z.eqb_neq d 47)); [done|]. unfold is_alnum in Hd. lia. }
  assert (∃ c s, attrs ++ [62] = c :: s ∧ is_alnum c = false) as (c&s&Ecs&Hc).
  { destruct Hs as [->|(c&s&->&Hc)]; [by exists 62, []|]. exists c, (s ++ [62]). split; [done|].
    unfold is_space in Hc. unfold is_alnum. lia. }
  assert (∀ rest, span is_alnum (n ++ attrs ++ [62] ++ rest) = (n, attrs ++ [62] ++ rest)) as Hspan.
  { intros rest. rewrite (assoc_L (++) attrs), Ecs. by apply span_stop. }
  assert (tag_name (60 :: n ++ attrs ++ [62]) = Some n) as Hname.
  { unfold tag_name. rewrite <-(app_nil_r [62]), Hab. cbn [mbind option_bind]. rewrite Hspan. simpl.
    by destruct n. }
  split_and!; [|done|].
  - split; [|unfold is_tag; rewrite andb_true_iff; split|by exists n].
    + intros rest. rewrite <-app_comm_cons, <-!(assoc_L (++)). unfold match_tag. rewrite Hab.
      cbn [mbind option_bind]. rewrite Hspan. destruct n as [|d n]; [done|].
      destruct Hs as [->|(d'&s'&->&Hd)]; [done|]. cbn [app].
      rewrite (proj2 (Z.eqb_neq d' 62)) by set_solver. rewrite Hd.
      assert (span (λ d, negb (Z.eqb d 62)) (s' ++ 62 :: rest) = (s', 62 :: rest)) as ->; [|done].
      apply span_stop; [|done]. apply Forall_forall. intros x Hx.
      rewrite (proj2 (Z.eqb_neq x 62)); [done|]. set_solver.
    + by destruct n.
    + rewrite (assoc_L (++)), app_comm_cons. apply (endswith_app _ [62]).
  - destruct Hn as [|d n Hd Hn]; [done|]. 
    change (Z.eqb 47 d && startswith (n ++ attrs ++ [62]) [] = false).
    rewrite (proj2 (Z.eqb_neq 47 d)); [done|]. unfold is_alnum in Hd. lia.
Qed.

Lemma close_tag_good n :
  name_ok n → good_tag (close_tag n) ∧ ∀ tags, enter (close_tag n) (n :: tags) = Some tags.
Proof.
  intros (Hne&Hn&Hl).
  assert (close_tag n = 60 :: 47 :: n ++ [62]) as E by done.
  assert (∀ rest, span is_alnum (n ++ 62 :: rest) = (n, 62 :: rest)) as Hspan
    by (intros rest; by apply span_stop).
  assert (tag_name (close_tag n) = Some n) as Hname.
  { rewrite E. unfold tag_name, after_bracket. simpl. rewrite Hspan. by destruct n. }
  split; [split; [|rewrite E; unfold is_tag; rewrite andb_true_iff; split|by exists n]|].
  - intros rest. rewrite E. unfold match_tag, after_bracket. simpl. rewrite <-(assoc_L (++)). simpl.
    rewrite Hspan. by destruct n.
  - done.
  - apply (endswith_app (60 :: 47 :: n) [62]).
  - intros tags. unfold enter. rewrite Hname. cbn [mbind option_bind].
    assert (startswith (close_tag n) (u "</") = true) as -> by (by destruct n).
    rewrite Hl. by rewrite decide_True.
Qed.

Lemma closers_good tags :
  Forall name_ok tags →
  Forall good_piece ((λ n, Tag (close_tag n)) <$> tags) ∧
  nest tags ((λ n, Tag (close_tag n)) <$> tags) = Some [].
Proof.
  induction 1 as [|n tags Hn H [IHg IHn]]; [by split|].
  destruct (close_tag_good n Hn) as [Hg He]. split.
  - constructor; done.
  - rewrite fmap_cons. cbn [nest]. by rewrite He.
Qed.

(** A message of good, nested pieces stays well nested when it is truncated, and keeps a
    prefix of its text. *)
Lemma truncate_nested ps max_len :
  Forall good_piece ps → nest [] ps = Some [] →
  well_nested (truncate_html (render ps) max_len) ∧
  (max_len < len (render ps) → ∃ kept closers,
     truncate_html (render ps) max_len = kept ++ ellipsis ++ closers ∧
     kept `prefix_of` render ps).
Proof.
  intros Hg Hn. unfold truncate_html. destruct (Z.leb_spec (len (render ps)) max_len) as [Hle|Hlt].
  { split; [by apply well_nested_render|lia]. }
  unfold split_tags. rewrite split_render by done.
  assert (Forall good_piece (merge [] ps)) as Hg' by (apply merge_good; [apply not_elem_of_nil|done]).
  destruct (loop_pieces max_len (merge [] ps) (MkProgress [] [] 0) Hg') as (out&Hr&Hgo&Hno&Hok&Hp);
    [cbn [open_tags]; rewrite nest_merge, Hn; by eexists|by constructor|].
  set (p := truncate_loop _ _ _) in *. rewrite Hr. simpl.
  destruct (closers_good _ Hok) as [Hgc Hnc]. split.
  - assert (concat (piece_text <$> out) ++ ellipsis ++ concat (close_tag <$> open_tags p) =
      render (out ++ Txt ellipsis :: ((λ n, Tag (close_tag n)) <$> open_tags p))) as E.
    { rewrite render_app, render_cons. unfold render. by rewrite <-list_fmap_compose. }
    unfold ellipsis in *. simpl in E. rewrite E. apply well_nested_render.
    + apply Forall_app. split; [done|]. constructor; [cbn; set_solver|done].
    + rewrite nest_app. cbn [open_tags] in Hno. rewrite Hno. done.
  - intros _. eexists _, _. split; [reflexivity|]. by rewrite render_merge in Hp.
Qed.

(** ** What a message is made of *)

Lemma elem_of_replace c new s x :
  x ∈ str_replace [c] new s → x ∈ new ∨ x ≠ c ∧ x ∈ s.
Proof.
  unfold str_replace. induction s as [|d s IH]; cbn [replace_from]; [by intros ?%elem_of_nil|].
  change (startswith (d :: s) [c]) with (Z.eqb c d && startswith s []).
  assert (startswith s [] = true) as -> by (by destruct s). rewrite andb_true_r.
  change (length [c] - 1)%nat with 0%nat.
  destruct (Z.eqb_spec c d) as [->|Hne]; rewrite ?elem_of_app, ?elem_of_cons; naive_solver.
Qed.

Lemma escape_safe s : (60 ∉ escape s) ∧ (62 ∉ escape s).
Proof.
  assert (∀ x, x ∈ escape s → x ≠ 60 ∧ x ≠ 62) as H; [|by split; intros []%H].
  intros x. unfold escape.
  assert (∀ l : pystr, x ∈ l → Forall (λ y, y ≠ 60 ∧ y ≠ 62) l → x ≠ 60 ∧ x ≠ 62) as Hl.
  { intros l Hx Hf. rewrite Forall_forall in Hf. auto. }
  intros [Hx|[_ Hx]]%elem_of_replace; [apply (Hl _ Hx); by_eval|].
  apply elem_of_replace in Hx as [Hx|[_ Hx]]; [apply (Hl _ Hx); by_eval|].
  apply elem_of_replace in Hx as [Hx|[H62 Hx]]; [apply (Hl _ Hx); by_eval|].
  apply elem_of_replace in Hx as [Hx|[H60 _]]; [apply (Hl _ Hx); by_eval|done].
Qed.

Lemma escape_opt_safe s : (60 ∉ escape_opt s) ∧ (62 ∉ escape_opt s).
Proof. destruct s; simpl; [apply escape_safe|split; apply not_elem_of_nil]. Qed.

Lemma digits_safe n : 60 ∉ str_of_int n.
Proof.
  assert (∀ fuel n acc, Forall (λ c, c ≤ 57) acc → Forall (λ c, c ≤ 57) (digits_aux fuel n acc)) as H.
  { intros fuel. induction fuel as [|fuel IH]; intros m acc Ha; cbn [digits_aux]; [done|].
    assert (Forall (λ c, c ≤ 57) (48 + m mod 10 :: acc)) as Hc.
    { constructor; [|done]. pose proof (Z.mod_pos_bound m 10). lia. }
    destruct (_ <? _); auto. }
  assert (∀ n, 60 ∉ digits n) as Hd.
  { intros m Hin. pose proof (H (S (Z.to_nat (Z.log2 m))) m [] (Forall_nil_2 _)) as Hf.
    rewrite Forall_forall in Hf. specialize (Hf _ Hin). simpl in Hf. lia. }
  unfold str_of_int. destruct (n <? 0); [|auto]. rewrite elem_of_cons. intros [?|Hin]; [done|].
  by apply Hd in Hin.
Qed.

(** Text that is made of good pieces and leaves the open tags as they are. *)
Definition balanced (s : pystr) : Prop :=
  ∃ ps, s = render ps ∧ Forall good_piece ps ∧ ∀ tags, nest tags ps = Some tags.

Lemma balanced_text s : 60 ∉ s → balanced s.
Proof.
  intros H. exists [Txt s]. split_and!; [by rewrite render_cons, app_nil_r|by constructor|done].
Qed.

Lemma balanced_app s t : balanced s → balanced t → balanced (s ++ t).
Proof.
  intros (ps&->&Hp&Hnp) (qs&->&Hq&Hnq). exists (ps ++ qs). split_and!.
  - by rewrite render_app.
  - by apply Forall_app.
  - intros tags. rewrite nest_app, Hnp. apply Hnq.
Qed.

Lemma balanced_wrap n attrs s :
  name_ok n → 62 ∉ attrs → (attrs = [] ∨ ∃ c t, attrs = c :: t ∧ is_space c = true) →
  endswith (60 :: n ++ attrs ++ [62]) (u "/>") = false → balanced s →
  balanced ((60 :: n ++ attrs ++ [62]) ++ s ++ close_tag n).
Proof.
  intros Hn Ha Hs He (ps&->&Hp&Hnp). pose proof Hn as (Hne&Hal&Hlow).
  destruct (open_tag_good n attrs Hne Hal Ha Hs) as (Hg&Hname&Hstart).
  destruct (close_tag_good n Hn) as [Hgc Hent].
  set (o := 60 :: n ++ attrs ++ [62]) in *. clearbody o.
  exists (Tag o :: ps ++ [Tag (close_tag n)]). split_and!.
  - rewrite render_cons, render_app. cbn [piece_text].
    change (render [Tag (close_tag n)]) with (close_tag n ++ []). by rewrite app_nil_r.
  - constructor; [done|]. apply Forall_app. split; [done|]. by constructor.
  - intros tags. cbn [nest]. unfold enter at 1. rewrite Hname. cbn [mbind option_bind].
    rewrite Hstart, He, Hlow. cbn [mbind option_bind]. rewrite nest_app, Hnp.
    cbn [mbind option_bind nest]. by rewrite Hent.
Qed.

Lemma balanced_bold s : balanced s → balanced (u "<b>" ++ s ++ u "</b>").
Proof.
  intros H. apply (balanced_wrap (u "b") [] s); [|apply not_elem_of_nil|by left|done|done].
  split_and!; [done|by_eval|done].
Qed.

Lemma balanced_anchor href s : 62 ∉ href → balanced s → balanced (anchor href s).
Proof.
  intros Hh H. unfold anchor.
  assert (u "<a href=" ++ [34] ++ href ++ [34] ++ u ">" ++ s ++ u "</a>" =
    (60 :: u "a" ++ (u " href=" ++ [34] ++ href ++ [34]) ++ [62]) ++ s ++ close_tag (u "a")) as ->.
  { simpl. do 9 f_equal. rewrite <-!(assoc_L (++)). done. }
  apply balanced_wrap; [split_and!; [done|by_eval|done]| | | |done].
  - rewrite !not_elem_of_app. split_and!; by_eval || done.
  - right. exists 32, (u "href=" ++ [34] ++ href ++ [34]). done.
  - unfold endswith. rewrite app_comm_cons, !reverse_app. done.
Qed.

Lemma balanced_join sep l :
  60 ∉ sep → Forall balanced l → balanced (join sep l).
Proof.
  intros Hs. induction 1 as [|s l Hb H IH]; [apply balanced_text, not_elem_of_nil|].
  destruct H; [done|]. cbn [join]. by apply balanced_app, balanced_app; [|apply balanced_text|].
Qed.

Lemma balanced_nonempty s : balanced s → Forall balanced (nonempty s).
Proof. intros H. destruct s; [constructor|]. by constructor. Qed.

Lemma full_message_balanced e : balanced (full_message e).
Proof.
  unfold full_message.
  pose proof (escape_opt_safe (representative_title e)) as [Ht _].
  pose proof (escape_opt_safe (take 500 <$> representative_body e)) as [Hb _].
  pose proof (escape_opt_safe (representative_canonical_url e)) as [Hu Hu'].
  pose proof (escape_opt_safe (channel_username e)) as [Hn _].
  pose proof (escape_safe (channel_name e)) as [Hc _].
  set (et := escape_opt (representative_title e)) in *. set (eu := escape_opt (representative_canonical_url e)) in *.
  set (eb := escape_opt (take 500 <$> representative_body e)) in *.
  set (en := escape_opt (channel_username e)) in *. set (ec := escape (channel_name e)) in *.
  clearbody et eu eb en ec. cbv zeta.
  set (t1 := match et with [] => [] | _ => _ end).
  assert (balanced t1) as H1.
  { unfold t1. destruct et; [apply balanced_text, not_elem_of_nil|]. by apply balanced_bold, balanced_text. }
  clearbody t1. apply balanced_join; [by_eval|].
  apply Forall_app. split; [|apply Forall_app; split].
  - apply balanced_nonempty. destruct eu as [|c eu]; [done|].
    destruct t1; apply balanced_anchor; try done. by apply balanced_text.
  - by apply balanced_nonempty, balanced_text.
  - constructor; [|constructor]. apply balanced_join; [by_eval|]. constructor.
    + apply balanced_text. destruct en; rewrite !not_elem_of_app; split_and!; by_eval || done.
    + destruct (_ <? _); [|constructor]. constructor; [|constructor]. apply balanced_text.
      rewrite !not_elem_of_app. split_and!; [by_eval|apply digits_safe|by_eval].
Qed.

(** C21. A bot message never exceeds Telegram's 4096 characters and its HTML is well
    nested, every tag it opens being closed, whatever the title, body, address and
    channel names contain. A message that fits is sent whole; a longer one keeps a
    prefix of it, followed by an ellipsis and the closing tags. *)
Theorem format_valid e :
  let m := format_delivery_message e in
  len m ≤ 4096 ∧ well_nested m ∧
  (len (full_message e) ≤ 4096 → m = full_message e) ∧
  (4096 < len (full_message e) →
   ∃ kept closers, m = kept ++ ellipsis ++ closers ∧ kept `prefix_of` full_message e).
Proof.
  destruct (full_message_balanced e) as (ps&E&Hg&Hn). unfold format_delivery_message. split_and!.
  - by apply truncate_length.
  - rewrite E. by apply truncate_nested.
  - intros H. unfold truncate_html. by rewrite (proj2 (Z.leb_le _ _) H).
  - rewrite E. by apply truncate_nested.
Qed.

End Formatter.

(** * The Bot API client *)
Module BotApi.

Definition BotApiError : exn := AppError "BotApiError".
Definition BotTokenInvalidError : exn := AppError "BotTokenInvalidError".
Definition BotNetworkError : exn := AppError "BotNetworkError".

(** What httpx returns or raises: a status code with the JSON value of the body, if it
    is one; a [RequestError]; or any other exception. [raise_for_status] raises unless
    the status is 2xx. *)
Inductive reply :=
  | Response (status : Z) (body : option JSONValue)
  | RequestError
  | OtherError (e : exn).

(** The two [try] statements and the [ok] test: the [result] object. *)
Definition checked_result (r : reply) : result exn (list (pystr * JSONValue)) :=
  match r with
  | RequestError => Err BotNetworkError
  | OtherError e => Err e
  | Response status body =>
      if negb (Z.leb 200 status && Z.leb status 299) then
        Err (if Z.eqb status 401 then BotTokenInvalidError else BotApiError)
      else
        match body with
        | Some (JDict data) =>
            if json_truthy (default JNull (dict_get data (u "ok"))) then
              match dict_get data (u "result") with
              | Some (JDict result) => Ok result
              | _ => Err BotApiError
              end
            else Err BotApiError
        | _ => Err BotApiError
        end
  end.

(** [isinstance(x, int)] holds for booleans too. *)
Definition int_field (result : list (pystr * JSONValue)) (field : pystr) : option JSONValue :=
  match dict_get result field with
  | Some (JInt n) => Some (JInt n)
  | Some (JBool b) => Some (JBool b)
  | _ => None
  end.

Record SentMessage := MkSent { message_id : JSONValue }.
Record BotInfo := MkBotInfo { bot_id : JSONValue; username : pystr }.

Definition send_message (r : reply) : result exn SentMessage :=
  result ← checked_result r;
  match int_field result (u "message_id") with
  | Some i => Ok (MkSent i)
  | None => Err BotApiError
  end.

Definition validate_token (r : reply) : result exn BotInfo :=
  result ← checked_result r;
  match int_field result (u "id"), dict_get result (u "username") with
  | Some i, Some (JStr name) => Ok (MkBotInfo i name)
  | _, _ => Err BotApiError
  end.

(** The request bodies. *)
Definition message_payload (chat_id text : pystr) : JSONValue :=
  JDict [(u "chat_id", JStr chat_id); (u "text", JStr text); (u "parse_mode", JStr (u "HTML"))].
Definition message_url (token : pystr) : pystr :=
  u "https://api.telegram.org/bot" ++ token ++ u "/sendMessage".

Lemma send_message_token_invalid r :
  send_message r = Err BotTokenInvalidError →
  (∃ body, r = Response 401 body) ∨ r = OtherError BotTokenInvalidError.
Proof.
  unfold send_message. destruct r as [status body| |e]; simpl.
  - destruct (negb _) eqn:E; simpl.
    + destruct (Z.eqb_spec status 401) as [->|]; [left; by eexists|done].
    + destruct body as [[| | | | | |d]|]; try done. destruct (json_truthy _); [|done].
      destruct (dict_get d _) as [[| | | | | |d']|]; try done. simpl. by destruct (int_field _ _).
  - done.
  - intros [= ->]. by right.
Qed.

End BotApi.

(** * The delivery run *)
Module Delivery.

Import BotDeliveries.

(** [str(x)] of a setting's value or a message id; [repr] is the text Python gives a
    float, a list or a dict. *)
Section run.
Context (repr : JSONValue → pystr).
Definition py_str (v : JSONValue) : pystr :=
  match v with
  | JStr s => s
  | JInt n => str_of_int n
  | JBool true => u "True"
  | JBool false => u "False"
  | JNull => u "None"
  | JFloat _ | JList _ | JDict _ => repr v
  end.

(** The constructor's [formatter]; the HTTP client: the reply to the [n]-th request, to
    an address with a body; the text of an exception; the wall clock while a cluster is
    processed; whether the constructor got a notifications repository. *)
Context (formatter : BotDeliveryEntryRecord → result exn pystr).
Context (post : nat → pystr → JSONValue → BotApi.reply).
Context (exc_text : exn → pystr).
Context (clock : Z → Z).
Context (has_notifications : bool).

(** The loop's state: the requests made (cluster and text), the records collected, and
    [_consecutive_failures], which outlives the run. *)
Record state := MkState {
  db : Db;
  sent : list (Z * pystr);
  delivered_records : list BotDeliveryRecord;
  consecutive_failures : gmap Z Z;
}.

Definition notify (now : Z) (ty severity message : pystr) (payload : JSONValue) (d : Db) : Db :=
  if has_notifications
  then (Notifications.create (current_timestamp now) ty severity message payload d).2
  else d.

Definition _handle_token_invalid (now : Z) (chat_id : pystr) (d : Db) : Db :=
  let d := notify now (u "bot_token_invalid") (u "error")
             (u "Telegram bot token is invalid. Bot delivery has been disabled.")
             (JDict [(u "chat_id", JStr chat_id)]) d in
  (Settings.upsert (u "bot.enabled") (JBool false) d).2.

Definition _log_failure (now : Z) (c : Z) (e : exn) (d : Db) : Db :=
  notify now (u "bot_delivery_failed") (u "warning")
    (u "Failed to deliver cluster " ++ str_of_int c ++ u ": " ++ exc_text e)
    (JDict [(u "cluster_id", JInt c); (u "error", JStr (exc_text e))]) d.

(** The [except Exception] branch. *)
Definition record_failure (now : Z) (c : Z) (e : exn) (st : state) : state :=
  let fail_count := default 0 (consecutive_failures st !! c) + 1 in
  if 3 <=? fail_count
  then MkState (_log_failure now c e (db st)) (sent st) (delivered_records st)
         (<[c := 0]> (consecutive_failures st))
  else MkState (db st) (sent st) (delivered_records st)
         (<[c := fail_count]> (consecutive_failures st)).

(** The [try] block. *)
Definition attempt (token chat_id : pystr) (entry : BotDeliveryEntryRecord) (st : state)
    : result exn BotDeliveryRecord * state :=
  let c := entry_cluster_id entry in
  match formatter entry with
  | Err e => (Err e, st)
  | Ok text =>
      let reply := post (length (sent st)) (BotApi.message_url token)
                     (BotApi.message_payload chat_id text) in
      let st := MkState (db st) (sent st ++ [(c, text)]) (delivered_records st)
                  (consecutive_failures st) in
      match BotApi.send_message reply with
      | Err e => (Err e, st)
      | Ok m =>
          let '(r, d) := record_delivery (current_timestamp (clock c)) c
                           (Some (py_str (BotApi.message_id m))) (db st) in
          (r, MkState d (sent st) (delivered_records st) (consecutive_failures st))
      end
  end.

(** One iteration; [true] when the loop goes on. *)
Definition deliver (token chat_id : pystr) (entry : BotDeliveryEntryRecord) (st : state)
    : bool * state :=
  let c := entry_cluster_id entry in
  match attempt token chat_id entry st with
  | (Ok r, st) =>
      (true, MkState (db st) (sent st) (delivered_records st ++ [r])
               (base.delete c (consecutive_failures st)))
  | (Err e, st) =>
      if decide (e = BotApi.BotTokenInvalidError)
      then (false, MkState (_handle_token_invalid (clock c) chat_id (db st)) (sent st)
                     (delivered_records st) (consecutive_failures st))
      else (true, record_failure (clock c) c e st)
  end.

Fixpoint deliver_all (token chat_id : pystr) (entries : list BotDeliveryEntryRecord) (st : state)
    : state :=
  match entries with
  | [] => st
  | entry :: entries =>
      let '(continue, st) := deliver token chat_id entry st in
      if continue then deliver_all token chat_id entries st else st
  end.

Definition text_setting (r : option Settings.SettingRecord) : option pystr :=
  py_str ∘ Settings.value <$> r.

(** [int(value)] of a number; a stored number is finite. *)
Definition batch_size (r : option Settings.SettingRecord) : result exn Z :=
  match Settings.value <$> r with
  | Some (JInt n) => Ok n
  | Some (JBool b) => Ok (if b then 1 else 0)
  | Some (JFloat f) => match trunc_float f with
                     | Some n => Ok n
                     | None => Err OverflowError
                     end
  | _ => Ok 10
  end.

(** What the checks before the loop come to: nothing to do, or the token, the chat and
    the batch. *)
Definition prepare (d : Db) : result exn (option (pystr * pystr * list BotDeliveryEntryRecord)) :=
  enabled ← Settings.get_by_key (u "bot.enabled") d;
  if negb (match enabled with Some r => json_truthy (Settings.value r) | None => false end)
  then mret None
  else
    token ← Settings.get_by_key (u "bot.token") d;
    chat_id ← Settings.get_by_key (u "bot.chat_id") d;
    match text_setting token, text_setting chat_id with
    | Some ((_ :: _) as token), Some ((_ :: _) as chat_id) =>
        size ← Settings.get_by_key (u "bot.delivery_batch_size") d;
        limit ← batch_size size;
        entries ← list_undelivered_entries limit d;
        mret (Some (token, chat_id, entries))
    | _, _ => mret None
    end.

Definition run_once (failures : gmap Z Z) (d : Db) : result exn (list BotDeliveryRecord) * state :=
  let st := MkState d [] [] failures in
  match prepare d with
  | Err e => (Err e, st)
  | Ok None => (Ok [], st)
  | Ok (Some (token, chat_id, entries)) =>
      let st := deliver_all token chat_id entries st in
      (Ok (delivered_records st), st)
  end.

(** ** What a run sends

    The requests for a list of entries, the first of them being request number [n], and
    the clusters of those that are accepted. *)
Context (token chat_id : pystr).

Definition reply_to (n : nat) (text : pystr) : result exn BotApi.SentMessage :=
  BotApi.send_message
    (post n (BotApi.message_url token) (BotApi.message_payload chat_id text)).

Definition stops (e : exn) : bool := bool_decide (e = BotApi.BotTokenInvalidError).
Definition token_invalid {A} (r : result exn A) : bool :=
  match r with Err e => stops e | Ok _ => false end.

Fixpoint requests (n : nat) (entries : list BotDeliveryEntryRecord) : list (Z * pystr) :=
  match entries with
  | [] => []
  | entry :: entries =>
      match formatter entry with
      | Err e => if stops e then [] else requests n entries
      | Ok text =>
          (entry_cluster_id entry, text) ::
          if token_invalid (reply_to n text) then [] else requests (S n) entries
      end
  end.

Fixpoint accepted (n : nat) (rs : list (Z * pystr)) : list Z :=
  match rs with
  | [] => []
  | (c, text) :: rs => (if is_ok (reply_to n text) then [c] else []) ++ accepted (S n) rs
  end.

Lemma requests_sublist n entries : (requests n entries).*1 `sublist_of` (entry_cluster_id <$> entries).
Proof.
  revert n. induction entries as [|e es IH]; intros n; csimpl; [done|].
  destruct (formatter e).
  - csimpl. apply sublist_skip. destruct (token_invalid _); [apply sublist_nil_l|apply IH].
  - destruct (stops _); [apply sublist_nil_l|by apply sublist_cons].
Qed.

Lemma accepted_sublist n rs : accepted n rs `sublist_of` rs.*1.
Proof.
  revert n. induction rs as [|[c t] rs IH]; intros n; csimpl; [done|].
  destruct (is_ok _); simpl; [by apply sublist_skip|by apply sublist_cons].
Qed.

(** The writes of the failure branches leave the timeline alone. *)
Definition same_timeline (d d' : Db) : Prop :=
  undelivered d' = undelivered d ∧ clusters d' = clusters d ∧ deliveries d' = deliveries d.

Lemma notify_spec now ty sv ms p d :
  wf_db d → wf_db (notify now ty sv ms p d) ∧ same_timeline d (notify now ty sv ms p d).
Proof.
  intros W. unfold notify. destruct has_notifications; [|done].
  split; [by apply Notifications.create_notification_wf|done].
Qed.

Lemma handle_token_invalid_spec now chat d :
  wf_db d → wf_db (_handle_token_invalid now chat d) ∧
  same_timeline d (_handle_token_invalid now chat d).
Proof.
  intros W. unfold _handle_token_invalid.
  pose proof (notify_spec now (u "bot_token_invalid") (u "error")
    (u "Telegram bot token is invalid. Bot delivery has been disabled.")
    (JDict [(u "chat_id", JStr chat)]) d W) as [Wn Hn].
  set (dn := notify _ _ _ _ _ d) in *. clearbody dn. split; [by apply Settings.set_settings_wf|done].
Qed.

Lemma record_failure_spec now c e st :
  wf_db (db st) →
  let st' := record_failure now c e st in
  wf_db (db st') ∧ same_timeline (db st) (db st') ∧ sent st' = sent st ∧
  delivered_records st' = delivered_records st.
Proof.
  intros W. unfold record_failure, _log_failure. destruct (_ <=? _); simpl; [|done].
  destruct (notify_spec now (u "bot_delivery_failed") (u "warning")
    (u "Failed to deliver cluster " ++ str_of_int c ++ u ": " ++ exc_text e)
    (JDict [(u "cluster_id", JInt c); (u "error", JStr (exc_text e))]) (db st) W). done.
Qed.

(** A delivery of an undelivered cluster is always recorded. *)
Lemma record_delivery_Ok now c m d :
  in_range now = true → has_been_delivered c d = false → is_Some (clusters d !! c) → wf_db d →
  ∃ r d', record_delivery (current_timestamp now) c m d = (Ok r, d') ∧ cluster_id r = c ∧
    wf_db d' ∧ clusters d' = clusters d ∧
    undelivered d' = filter (λ j, j_cluster_id j ≠ c) (undelivered d) ∧
    ∀ c', has_been_delivered c' d' = Z.eqb c c' || has_been_delivered c' d.
Proof.
  intros Hr Hd Hc W. unfold record_delivery.
  set (row := MkDelivery c (current_timestamp now) m).
  assert (∃ i d', insert_delivery row d = Ok (i, d')) as (i&d'&E).
  { unfold insert_delivery. unfold has_been_delivered in Hd. simpl. rewrite Hd.
    rewrite decide_True by done. by eexists _, _. }
  rewrite E. unfold _decode_delivery_row. cbn [dl_delivered_at row].
  rewrite coerce_current_timestamp by done. cbn [mbind result_bind].
  pose proof (insert_delivery_wf _ _ _ _ E W) as W'.
  pose proof (undelivered_insert _ _ _ _ E) as Hu.
  pose proof (λ c', insert_delivery_delivered _ _ _ _ c' E) as Hh.
  apply insert_delivery_Ok in E as (->&->&_&_). eexists _, _. split; [reflexivity|].
  split_and!; [done|exact W'|done|exact Hu|exact Hh].
Qed.

(** The state while the entries [es] are still to be processed. *)
Definition ready (es : list BotDeliveryEntryRecord) (d : Db) : Prop :=
  wf_db d ∧ NoDup (entry_cluster_id <$> es) ∧
  ∀ e, e ∈ es → has_been_delivered (entry_cluster_id e) d = false ∧
    is_Some (clusters d !! entry_cluster_id e).

Lemma ready_same e es d d' :
  ready (e :: es) d → wf_db d' → same_timeline d d' → ready es d'.
Proof.
  intros (W&[_ Hn]%NoDup_cons&H) W' (_&Ec&Ed). split_and!; [done..|]. intros x Hx.
  unfold has_been_delivered. rewrite Ec, Ed. apply H. by right.
Qed.

Lemma accepted_app n rs rs' :
  accepted n (rs ++ rs') = accepted n rs ++ accepted (n + length rs) rs'.
Proof.
  revert n. induction rs as [|[c t] rs IH]; intros n; simpl; [by rewrite Nat.add_0_r|].
  rewrite IH, <-(assoc_L (++)). do 3 f_equal. lia.
Qed.

Lemma filter_none (l : list joined) : filter (λ j, j_cluster_id j ∉ @nil Z) l = l.
Proof.
  induction l as [|j l IH]; [done|]. rewrite filter_cons_True by apply not_elem_of_nil. by rewrite IH.
Qed.

(** One entry. *)
Lemma deliver_spec e es st :
  (∀ c, in_range (clock c) = true) → ready (e :: es) (db st) →
  ∃ go st1 new recs, deliver token chat_id e st = (go, st1) ∧
    sent st1 = sent st ++ new ∧ delivered_records st1 = delivered_records st ++ recs ∧
    cluster_id <$> recs = accepted (length (sent st)) new ∧
    undelivered (db st1) = filter (λ j, j_cluster_id j ∉ accepted (length (sent st)) new)
      (undelivered (db st)) ∧
    (∀ c, has_been_delivered c (db st1) =
       bool_decide (c ∈ accepted (length (sent st)) new) || has_been_delivered c (db st)) ∧
    wf_db (db st1) ∧ (go = true → ready es (db st1)) ∧
    requests (length (sent st)) (e :: es) =
      new ++ if go then requests (length (sent st) + length new) es else [].
Proof.
  intros Hclock Hready. pose proof Hready as (W&Hnd&Hes).
  destruct (Hes e) as [Hdel Hcl]; [by left|]. set (c := entry_cluster_id e) in *.
  assert (∀ err st1, db st1 = db st → delivered_records st1 = delivered_records st →
    ∃ go st2,
      (if decide (err = BotApi.BotTokenInvalidError)
       then (false, MkState (_handle_token_invalid (clock c) chat_id (db st1)) (sent st1)
                      (delivered_records st1) (consecutive_failures st1))
       else (true, record_failure (clock c) c err st1)) = (go, st2) ∧ go = negb (stops err) ∧
      sent st2 = sent st1 ∧ delivered_records st2 = delivered_records st ∧
      undelivered (db st2) = undelivered (db st) ∧ deliveries (db st2) = deliveries (db st) ∧
      wf_db (db st2) ∧ (go = true → ready es (db st2))) as Herr.
  { intros err st1 E1 E2. unfold stops. destruct (decide (err = _)) as [->|Hne].
    - eexists _, _. split; [reflexivity|]. cbn [db sent delivered_records]. rewrite E1.
      destruct (handle_token_invalid_spec (clock c) chat_id (db st) W) as (W2&Hs).
      split_and!; [done|done|done|apply Hs|apply Hs|done|done].
    - rewrite bool_decide_eq_false_2 by done. eexists _, _. split; [reflexivity|].
      destruct (record_failure_spec (clock c) c err st1) as (W2&Hs&Hsent&Hrec); [by rewrite E1|].
      rewrite E1 in Hs. split_and!; [done|done|congruence|apply Hs|apply Hs|done|].
      intros _. by eapply ready_same. }
  unfold deliver, attempt. fold c. cbn [requests]. fold c. unfold reply_to.
  destruct (formatter e) as [text|err].
  2:{ destruct (Herr err st eq_refl eq_refl) as (go&st2&E&Hgo&Hs&Hd&Hu&Hdl&W2&Hr). rewrite E.
      exists go, st2, [], []. rewrite !app_nil_r, filter_none, Hgo, Nat.add_0_r.
      split_and!; try done; [|by rewrite <-Hgo|by destruct (stops err)].
      intros x. cbn [accepted]. rewrite bool_decide_eq_false_2 by apply not_elem_of_nil.
      unfold has_been_delivered. by rewrite Hdl. }
  destruct (BotApi.send_message _) as [m|err] eqn:Es.
  2:{ destruct (Herr err (MkState (db st) (sent st ++ [(c, text)]) (delivered_records st)
        (consecutive_failures st)) eq_refl eq_refl) as (go&st2&E&Hgo&Hs&Hd&Hu&Hdl&W2&Hr). rewrite E.
      exists go, st2, [(c, text)], []. cbn [accepted]. unfold reply_to. rewrite Es. simpl.
      rewrite !app_nil_r, filter_none, Hgo, Nat.add_1_r.
      split_and!; try done; [|by rewrite <-Hgo|by destruct (stops err)].
      intros x. unfold has_been_delivered. by rewrite Hdl. }
  destruct (record_delivery_Ok (clock c) c (Some (py_str (BotApi.message_id m))) (db st))
    as (r&d'&E&Hc&W'&Ec&Hu&Hh); [done..|]. cbn [db]. rewrite E.
  eexists _, _, [(c, text)], [r]. split; [reflexivity|].
  cbn [accepted db sent delivered_records]. unfold reply_to. rewrite Es. simpl.
  rewrite Nat.add_1_r. split_and!; [done|done|by rewrite Hc| | |done| |done].
  - rewrite Hu. apply list_filter_iff. intros j. by rewrite list_elem_of_singleton.
  - intros x. rewrite Hh. f_equal. apply eq_bool_prop_intro. rewrite !Is_true_true, Z.eqb_eq, bool_decide_eq_true.
    rewrite list_elem_of_singleton. split; congruence.
  - intros _. apply NoDup_cons in Hnd as [Hce Hnd]. split_and!; [done..|]. intros x Hx.
    rewrite Ec, Hh. destruct (Hes x) as [Hdx Hcx]; [by right|]. split; [|done].
    rewrite Hdx, (proj2 (Z.eqb_neq _ _)); [done|]. intros Ecx. apply Hce.
    fold c. rewrite Ecx. by apply list_elem_of_fmap_2.
Qed.

Lemma deliver_all_spec es : ∀ st,
  (∀ c, in_range (clock c) = true) → ready es (db st) →
  let st' := deliver_all token chat_id es st in
  let new := requests (length (sent st)) es in
  let ids := accepted (length (sent st)) new in
  sent st' = sent st ++ new ∧
  (∃ recs, delivered_records st' = delivered_records st ++ recs ∧ cluster_id <$> recs = ids) ∧
  undelivered (db st') = filter (λ j, j_cluster_id j ∉ ids) (undelivered (db st)) ∧
  (∀ c, has_been_delivered c (db st') = bool_decide (c ∈ ids) || has_been_delivered c (db st)) ∧
  wf_db (db st').
Proof.
  induction es as [|e es IH]; intros st Hclock Hready; cbv zeta.
  { simpl. rewrite app_nil_r, filter_none. destruct Hready as [W _]. split_and!; [done| |done| |done].
    - exists []. by rewrite app_nil_r.
    - done. }
  cbn [deliver_all].
  destruct (deliver_spec e es st Hclock Hready) as (go&st1&new&recs&E&Hs&Hd&Hids&Hu&Hh&W1&Hr&Hreq).
  rewrite E, Hreq. destruct go.
  - destruct (IH st1 Hclock (Hr eq_refl)) as (Hs2&(recs2&Hd2&Hids2)&Hu2&Hh2&W2). cbv zeta in *.
    rewrite Hs, length_app in *. rewrite accepted_app. split_and!.
    + by rewrite Hs2, <-(assoc_L (++)).
    + exists (recs ++ recs2). rewrite Hd2, Hd, <-(assoc_L (++)), fmap_app, Hids, Hids2. done.
    + rewrite Hu2, Hu, list_filter_filter. apply list_filter_iff. intros j.
      rewrite not_elem_of_app. tauto.
    + intros c. rewrite Hh2, Hh, orb_assoc. f_equal. apply eq_bool_prop_intro.
      rewrite orb_True, !bool_decide_spec, elem_of_app. tauto.
    + done.
  - rewrite app_nil_r. split_and!; [done| |done..]. by exists recs.
Qed.

End run.

Section theorems.
Context (repr : JSONValue → pystr) (formatter : BotDeliveryEntryRecord → result exn pystr).
Context (post : nat → pystr → JSONValue → BotApi.reply) (exc_text : exn → pystr).
Context (clock : Z → Z) (has_notifications : bool).

(** Everything is accepted: everything is sent. *)
Lemma requests_all token chat_id n es :
  (∀ e, e ∈ es → is_ok (formatter e) = true) →
  (∀ k text, is_ok (reply_to post token chat_id k text) = true) →
  (requests formatter post token chat_id n es).*1 = entry_cluster_id <$> es ∧
  accepted post token chat_id n (requests formatter post token chat_id n es) =
    entry_cluster_id <$> es.
Proof.
  intros Hf Hp. revert n. induction es as [|e es IH]; intros n; [done|]. cbn [requests].
  pose proof (Hf e ltac:(by left)) as He. destruct (formatter e) as [text|]; [|done].
  specialize (Hp n text) as Hn. unfold token_invalid.
  destruct (reply_to post token chat_id n text) eqn:Er; [|done].
  destruct (IH ltac:(intros x Hx; apply Hf; by right) (S n)) as [IH1 IH2].
  csimpl. rewrite Er. simpl. by rewrite IH1, IH2.
Qed.

Lemma listed_ids limit d es :
  list_undelivered_entries limit d = Ok es →
  entry_cluster_id <$> es = j_cluster_id <$> sql_limit limit (undelivered d).
Proof.
  intros H%traverse_Ok. induction H as [|j e l es He H IH]; [done|]. csimpl. rewrite IH. f_equal.
  revert He. unfold _decode_entry_row. destruct (coerce_optional_datetime _ _); [|done].
  by intros [= <-].
Qed.

Lemma sql_limit_sublist {A} limit (l : list A) : sql_limit limit l `sublist_of` l.
Proof. unfold sql_limit. destruct (_ <? _); [done|apply sublist_take]. Qed.

Lemma listed_ready limit d es :
  wf_db d → list_undelivered_entries limit d = Ok es → ready es d.
Proof.
  intros W Hl. pose proof (listed_ids _ _ _ Hl) as Eids.
  assert (entry_cluster_id <$> es `sublist_of` j_cluster_id <$> undelivered d) as Hsub
    by (rewrite Eids; apply fmap_sublist, sql_limit_sublist).
  split_and!; [done|eapply sublist_NoDup; [apply NoDup_undelivered|exact Hsub]|].
  intros e He. assert (entry_cluster_id e ∈ j_cluster_id <$> undelivered d) as Hin.
  { eapply elem_of_submseteq; [|by apply sublist_submseteq]. by apply list_elem_of_fmap_2. }
  apply list_elem_of_fmap in Hin as (j&->&[Hj Hd]%elem_of_undelivered). split; [done|].
  apply elem_of_join_rows in Hj as (row&Hrow&_). by eexists.
Qed.

(** What the checks let through is a batch of undelivered clusters. *)
Lemma prepare_listed d token chat_id es :
  prepare repr d = Ok (Some (token, chat_id, es)) →
  ∃ limit, list_undelivered_entries limit d = Ok es.
Proof.
  unfold prepare.
  destruct (Settings.get_by_key (u "bot.enabled") d) as [en|]; [|done]. cbn [mbind result_bind].
  destruct (negb _); [done|].
  destruct (Settings.get_by_key (u "bot.token") d) as [tk|]; [|done]. cbn [mbind result_bind].
  destruct (Settings.get_by_key (u "bot.chat_id") d) as [ch|]; [|done]. cbn [mbind result_bind].
  destruct (text_setting repr tk) as [[|]|]; try done.
  destruct (text_setting repr ch) as [[|]|]; try done.
  destruct (Settings.get_by_key (u "bot.delivery_batch_size") d) as [sz|]; [|done].
  cbn [mbind result_bind]. destruct (batch_size sz) as [limit|]; [|done]. cbn [mbind result_bind].
  destruct (list_undelivered_entries limit d) as [es'|] eqn:El; [|done].
  intros [= _ _ ->]. by exists limit.
Qed.

Lemma delivery_run_wf failures d :
  (∀ c, in_range (clock c) = true) → wf_db d →
  wf_db (db (run_once repr formatter post exc_text clock has_notifications failures d).2).
Proof.
  intros Hclock W. unfold run_once.
  destruct (prepare repr d) as [[[[token chat_id] es]|]|e] eqn:Ep; [|done|done].
  apply prepare_listed in Ep as [limit Hl].
  by destruct (deliver_all_spec repr formatter post exc_text clock has_notifications token chat_id es
    (MkState d [] [] failures) Hclock (listed_ready _ _ _ W Hl)) as (_&_&_&_&W').
Qed.

(** C6. One delivery run, for any behaviour of the Bot API. Nothing happens while the
    bot is disabled or not configured. Otherwise the run takes the first [limit]
    undelivered clusters in id order; the requests it makes are those [requests] lists:
    each cluster at most once, never one with a recorded delivery, none after a token
    the API rejects. Exactly the clusters whose request is accepted are recorded,
    returned and gone from the undelivered list; the others stay on it for the next run.
    When every request is accepted the whole batch is delivered. *)
Theorem delivery_run failures d :
  wf_db d → (∀ c, in_range (clock c) = true) →
  let '(r, st) := run_once repr formatter post exc_text clock has_notifications failures d in
  match prepare repr d with
  | Err e => r = Err e ∧ st = MkState d [] [] failures
  | Ok None => r = Ok [] ∧ st = MkState d [] [] failures
  | Ok (Some (token, chat_id, entries)) =>
      ∃ records limit,
      r = Ok records ∧
      entry_cluster_id <$> entries = j_cluster_id <$> sql_limit limit (undelivered d) ∧
      sent st = requests formatter post token chat_id 0 entries ∧
      NoDup (sent st).*1 ∧ (∀ c, c ∈ (sent st).*1 → has_been_delivered c d = false) ∧
      cluster_id <$> records = accepted post token chat_id 0 (sent st) ∧
      undelivered (db st) = filter (λ j, j_cluster_id j ∉ cluster_id <$> records) (undelivered d) ∧
      wf_db (db st) ∧
      ((∀ e, e ∈ entries → is_ok (formatter e) = true) →
       (∀ k text, is_ok (reply_to post token chat_id k text) = true) →
       cluster_id <$> records = j_cluster_id <$> sql_limit limit (undelivered d))
  end.
Proof.
  intros W Hclock. unfold run_once.
  destruct (prepare repr d) as [[[[token chat_id] es]|]|e] eqn:Ep; [|done|done].
  pose proof (prepare_listed _ _ _ _ Ep) as [limit Hl].
  pose proof (listed_ready _ _ _ W Hl) as Hready. pose proof (listed_ids _ _ _ Hl) as Hids.
  destruct (deliver_all_spec repr formatter post exc_text clock has_notifications token chat_id es
    (MkState d [] [] failures) Hclock Hready) as (Hs&(recs&Hd&Hrec)&Hu&_&W').
  cbn [sent delivered_records db length app] in *.
  set (st := deliver_all _ _ _ _ _ _ _ _ _ _) in *. clearbody st.
  pose proof (requests_sublist formatter post token chat_id 0 es) as Hsub. rewrite <-Hs in Hsub, Hrec, Hu.
  exists recs, limit. destruct Hready as (_&Hnd&Hdel). split_and!; try done.
  - by rewrite Hd.
  - by eapply sublist_NoDup.
  - intros c Hc. assert (c ∈ entry_cluster_id <$> es) as (e&->&He)%list_elem_of_fmap
      by (eapply elem_of_submseteq; [done|by apply sublist_submseteq]). by apply Hdel.
  - by rewrite Hrec.
  - intros Hf Hp. rewrite Hrec, <-Hids, Hs. by apply requests_all.
Qed.

End theorems.

(** ** Instance: a configured bot on the sample database *)
Definition sample_bot_db : Db :=
  set_settings {[u "bot.enabled" := JBool true; u "bot.token" := JStr (u "42:x");
                 u "bot.chat_id" := JInt 7]} sample_db.
Definition sample_post (n : nat) (url : pystr) (body : JSONValue) : BotApi.reply :=
  BotApi.Response 200 (Some (JDict [(u "ok", JBool true);
    (u "result", JDict [(u "message_id", JInt 5)])])).
Definition sample_formatter (e : BotDeliveryEntryRecord) : result exn pystr :=
  Ok (Formatter.format_delivery_message e).
Definition sample_clock (c : Z) : Z := 63000000000000000.

Lemma delivery_run_witness :
  ∃ r st, run_once (λ _, []) sample_formatter sample_post (λ _, []) sample_clock true ∅ sample_bot_db
      = (r, st) ∧
    (sent st).*1 = [1] ∧ undelivered (db st) = [].
Proof.
  assert (wf_db sample_bot_db) as W by (apply wf_check_sound; vm_compute; reflexivity).
  pose proof (delivery_run (λ _, []) sample_formatter sample_post (λ _, []) sample_clock true ∅
    sample_bot_db W ltac:(by intros c)) as H.
  destruct (run_once _ _ _ _ _ _ _ _) as [r st]. exists r, st. split; [done|].
  assert (∃ es, prepare (λ _, []) sample_bot_db = Ok (Some (u "42:x", u "7", es)) ∧
    entry_cluster_id <$> es = [1]) as (es&Ep&Ee).
  { eexists. split; [vm_compute; reflexivity|reflexivity]. }
  rewrite Ep in H. destruct H as (records&limit&_&Hl&Hs&_&_&Hr&Hu&_&Hall).
  assert (j_cluster_id <$> undelivered sample_bot_db = [1]) as Eu by (by vm_compute).
  rewrite Hr in Hall, Hu. rewrite Hs in *.
  destruct (requests_all sample_formatter sample_post (u "42:x") (u "7") 0 es) as [H1 H2];
    [done|done|]. rewrite H1, Ee. split; [done|].
  rewrite H2, Ee in Hu. rewrite Hu. clear -Eu.
  destruct (undelivered sample_bot_db) as [|j [|]]; try done. injection Eu as Eu.
  by rewrite filter_cons_False by (rewrite Eu; set_solver).
Defined.

End Delivery.
