(* ===== verification/Scheduler.v ===== *)
(** The poll scheduler (src/tca/scheduler/service.py) and the poll-job queue
    (src/tca/storage/poll_jobs_repo.py). *)

From S2P Require Import Prelude PyValue PyTime Schema Channels.
Local Open Scope Z_scope.

Module Scheduler.

Definition DEFAULT_POLL_INTERVAL_SECONDS : Z := 300.
Definition POLL_INTERVAL_SETTING_KEY : pystr := u "scheduler.default_poll_interval_seconds".

(** * The queue *)

Record PollJobRecord := MkPollJobRecord {
  job_id : Z;
  channel_id : Z;
  correlation_id : pystr;
}.

Definition enqueue_poll_job (channel : Z) (corr : pystr) (db : Db)
    : result exn PollJobRecord * Db :=
  atomically db
    (if any_row (λ j, bool_decide (pj_correlation_id j = corr)) (poll_jobs db)
     then Err (IntegrityError (UniqueFailed "poll_jobs.correlation_id"))
     else if decide (is_Some (channels db !! channel))
     then let i := next_id (poll_jobs db) in
          Ok (MkPollJobRecord i channel corr,
              set_poll_jobs (<[i := MkPollJob channel corr]> (poll_jobs db)) db)
     else Err (IntegrityError ForeignKeyFailed)).

(** * One tick

    [jitter c] is the draw of [jitter_rng.uniform(-range, range)] made for channel [c]
    in this tick, in microseconds: a channel draws at most once per tick. *)

Definition _is_paused (paused_until : option datetime) (now : datetime) : bool :=
  match paused_until with
  | None => false
  | Some p => dt_lt now (_normalize_datetime p)
  end.

Definition _compute_next_run_at (interval jitter : Z) (last_success : datetime)
    : result exn datetime :=
  dt_add (_normalize_datetime last_success) (interval * us_per_second + jitter).

Definition _is_due (interval jitter : Z) (last_success : option datetime) (now : datetime)
    : result exn bool :=
  match last_success with
  | None => Ok true
  | Some s =>
      next ← _compute_next_run_at interval jitter s;
      mret (dt_le next now)
  end.

(** The loop over [channel_ids]; an exception of one channel ends the tick. *)
Fixpoint select_eligible (interval : Z) (jitter : Z → Z) (now : datetime)
    (states : gmap Z ChannelStates.ChannelStateRecord) (ids : list Z)
    : result exn (list Z) :=
  match ids with
  | [] => Ok []
  | c :: ids =>
      let state := states !! c in
      if _is_paused (state ≫= ChannelStates.paused_until) now
      then select_eligible interval jitter now states ids
      else
        due ← _is_due interval (jitter c) (state ≫= ChannelStates.last_success_at) now;
        rest ← select_eligible interval jitter now states ids;
        mret (if due : bool then c :: rest else rest)
  end.

Definition _select_eligible_channels (interval : Z) (jitter : Z → Z) (now : datetime)
    (db : Db) : result exn (list Z) :=
  let channel_ids := Channels.id <$> Channels.list_schedulable_channels db in
  let state_map := ChannelStates.list_states_by_channel_ids channel_ids db in
  select_eligible interval jitter now state_map channel_ids.

(** The enqueues run one after the other, each in a transaction of its own: an
    exception leaves the earlier jobs committed. [corr] supplies the correlation ids in
    the order they are drawn. *)
Fixpoint enqueue_all (corr : nat → pystr) (ids : list Z) (db : Db)
    : result exn (list PollJobRecord) * Db :=
  match ids with
  | [] => (Ok [], db)
  | c :: ids =>
      match enqueue_poll_job c (corr 0%nat) db with
      | (Err e, db) => (Err e, db)
      | (Ok job, db) =>
          match enqueue_all (λ n, corr (S n)) ids db with
          | (Err e, db) => (Err e, db)
          | (Ok jobs, db) => (Ok (job :: jobs), db)
          end
      end
  end.

Definition run_once (interval : Z) (jitter : Z → Z) (corr : nat → pystr) (now : datetime)
    (db : Db) : result exn (list PollJobRecord) * Db :=
  let now := _normalize_datetime now in
  match _select_eligible_channels interval jitter now db with
  | Err e => (Err e, db)
  | Ok eligible => enqueue_all corr eligible db
  end.

(** * The interval setting

    [int(value)] of an infinite value raises [OverflowError]; of a NaN, [ValueError]. *)
Definition _resolve_poll_interval_seconds (db : Db) (default_value : Z) : result exn Z :=
  match settings db !! POLL_INTERVAL_SETTING_KEY with
  | Some (JInt value) => Ok (if Z.ltb 0 value then value else default_value)
  | Some (JFloat f) =>
      if float_le f (SpecFloat.S754_zero false) then Ok default_value
      else match trunc_float f with
           | Some n => Ok (if Z.ltb 0 n then n else default_value)
           | None =>
               match f with
               | SpecFloat.S754_nan => Err (ValueError "cannot convert float NaN to integer")
               | _ => Err OverflowError
               end
           end
  | _ => Ok default_value
  end.

(** * The service: a loop task and its stop event *)

Inductive task := Idle | Running | Done.
Record SchedulerService := MkService {
  task_state : task;
  stop_event : option bool;
}.

Definition is_running (s : SchedulerService) : bool :=
  match task_state s with Running => true | _ => false end.

(** The start fails when the setting cannot be resolved; then nothing is started. *)
Definition startup (db : Db) (default_value : Z) (s : SchedulerService)
    : result exn (option Z * SchedulerService) :=
  if is_running s then Ok (None, s)
  else
    interval ← _resolve_poll_interval_seconds db default_value;
    mret (Some interval, MkService Running (Some false)).

(** [shutdown] sets the event, awaits the loop and clears both fields. *)
Definition shutdown (s : SchedulerService) : SchedulerService :=
  match task_state s with
  | Idle => s
  | _ => MkService Idle None
  end.

(** The loop body on a sequence of tick inputs: an exception of a tick is logged and
    the loop goes on with what the tick committed. *)
Record tick_input := MkTick {
  tick_jitter : Z → Z;
  tick_corr : nat → pystr;
  tick_now : datetime;
}.
Fixpoint run_loop (interval : Z) (ticks : list tick_input) (db : Db) : Db :=
  match ticks with
  | [] => db
  | t :: ticks =>
      run_loop interval ticks
        (run_once interval (tick_jitter t) (tick_corr t) (tick_now t) db).2
  end.

(** * Specification of eligibility *)

(** The polling state that the tick sees for a channel. *)
Definition pause_of (db : Db) (c : Z) : option datetime :=
  channel_states db !! c ≫= cs_paused_until.
Definition success_of (db : Db) (c : Z) : option datetime :=
  channel_states db !! c ≫= cs_last_success_at.
Definition at_instant (o : option datetime) : option Z :=
  (λ d, instant (_normalize_datetime d)) <$> o.

Record eligible (interval : Z) (jitter : Z → Z) (now : datetime) (db : Db) (c : Z) : Prop := {
  el_row : ∃ ch a, channels db !! c = Some ch ∧ ch_is_enabled ch = true ∧
    accounts db !! ch_account_id ch = Some a ∧ ac_paused_at a = None;
  el_unpaused : ∀ p, at_instant (pause_of db c) = Some p → p ≤ instant now;
  el_due : ∀ s, at_instant (success_of db c) = Some s →
    s + interval * us_per_second + jitter c ≤ instant now;
}.

(** * Lemmas *)

Lemma normalize_twice (o : option datetime) :
  _normalize_datetime <$> (_normalize_datetime <$> o) = _normalize_datetime <$> o.
Proof. destruct o; simpl; [|done]. by rewrite normalize_idem. Qed.

Lemma listed_state ids db c :
  c ∈ ids →
  ChannelStates.list_states_by_channel_ids ids db !! c = ChannelStates.get_state c db.
Proof.
  intros Hc. unfold ChannelStates.list_states_by_channel_ids, ChannelStates.get_state.
  destruct ids as [|i ids]; [by apply elem_of_nil in Hc|].
  rewrite map_lookup_imap. destruct (channel_states db !! c); simpl; [|done].
  by rewrite decide_True.
Qed.

Lemma is_paused_spec db c now :
  _is_paused (ChannelStates.get_state c db ≫= ChannelStates.paused_until) now = false ↔
  ∀ p, at_instant (pause_of db c) = Some p → p ≤ instant now.
Proof.
  unfold ChannelStates.get_state, pause_of, at_instant.
  destruct (channel_states db !! c) as [s|]; simpl; [|naive_solver].
  destruct (cs_paused_until s) as [p|]; simpl; [|naive_solver].
  rewrite normalize_idem. unfold dt_lt. rewrite Z.ltb_ge. naive_solver.
Qed.

Lemma is_due_spec interval jitter db c now due :
  _is_due interval jitter (ChannelStates.get_state c db ≫= ChannelStates.last_success_at) now
    = Ok due →
  due = true ↔ ∀ s, at_instant (success_of db c) = Some s →
    s + interval * us_per_second + jitter ≤ instant now.
Proof.
  unfold ChannelStates.get_state, success_of, at_instant.
  destruct (channel_states db !! c) as [s|]; simpl; [|intros [= <-]; naive_solver].
  destruct (cs_last_success_at s) as [p|]; simpl; [|intros [= <-]; naive_solver].
  unfold _compute_next_run_at. rewrite normalize_idem.
  destruct (dt_add _ _) as [next|] eqn:E; simpl; [|done]. intros [= <-].
  apply dt_add_Ok in E as [E _]. unfold dt_le. rewrite Z.leb_le, E.
  rewrite Z.add_assoc. naive_solver.
Qed.

Lemma select_eligible_spec interval jitter now db all ids l :
  (∀ c, c ∈ ids → c ∈ all) →
  select_eligible interval jitter now (ChannelStates.list_states_by_channel_ids all db) ids
    = Ok l →
  (∀ c, c ∈ l ↔ c ∈ ids ∧
     (∀ p, at_instant (pause_of db c) = Some p → p ≤ instant now) ∧
     (∀ s, at_instant (success_of db c) = Some s →
        s + interval * us_per_second + jitter c ≤ instant now)) ∧
  l `sublist_of` ids.
Proof.
  revert l. induction ids as [|c ids IH]; intros l Hall; simpl.
  - intros [= <-]. split; [set_solver|constructor].
  - rewrite listed_state by (apply Hall; by left).
    pose proof (is_paused_spec db c now) as Hp.
    destruct (_is_paused _ now) eqn:Ep.
    + intros Hl. apply IH in Hl as [Hl Hs]; [|intros; apply Hall; by right].
      split; [|by constructor]. intros k. rewrite Hl, elem_of_cons. split; [tauto|].
      intros [[->|?] [H1 H2]]; [|tauto]. by apply Hp in H1.
    + intros Hl. apply bind_Ok_inv in Hl as (due&Ed&Hl).
      apply bind_Ok_inv in Hl as (rest&Er&[= <-]).
      apply IH in Er as [Hl Hs]; [|intros; apply Hall; by right].
      apply is_due_spec in Ed. split.
      * intros k. destruct due; rewrite ?elem_of_cons, Hl, ?elem_of_cons; [naive_solver|].
        split; [tauto|]. intros [[->|?] [H1 H2]]; [|tauto]. by apply Ed in H2.
      * destruct due; by constructor.
Qed.

Lemma sorted_sublist (l k : list Z) :
  l `sublist_of` k → StronglySorted Z.le k → NoDup k → StronglySorted Z.lt l.
Proof.
  induction 1 as [|x l k Hs IH|x l k Hs IH]; intros Hk Hnd.
  - constructor.
  - apply StronglySorted_inv in Hk as [Hk Hx]. apply NoDup_cons in Hnd as [Hn Hnd].
    constructor; [by apply IH|]. apply Forall_forall. intros y Hy.
    assert (y ∈ k) as Hyk by (by eapply elem_of_sublist).
    rewrite Forall_forall in Hx. specialize (Hx y Hyk).
    assert (x ≠ y) by (by intros ->). lia.
  - apply StronglySorted_inv in Hk as [Hk _]. apply NoDup_cons in Hnd as [_ Hnd]. by apply IH.
Qed.

(** C13. A tick selects, in increasing id order and once each, exactly the enabled
    channels of unpaused accounts whose own pause has run out and whose last success,
    moved by the interval and the jitter drawn, has passed. *)
Theorem selection_exact interval jitter now db l :
  _select_eligible_channels interval jitter now db = Ok l →
  StronglySorted Z.lt l ∧ ∀ c, c ∈ l ↔ eligible interval jitter now db c.
Proof.
  unfold _select_eligible_channels. intros H.
  set (all := Channels.id <$> Channels.list_schedulable_channels db) in *.
  apply select_eligible_spec in H as [Hl Hs]; [|done]. split.
  - eapply sorted_sublist; [done|..]; unfold all, Channels.list_schedulable_channels;
      rewrite Channels.select_channels_ids; [apply sorted_ids_sorted|apply NoDup_sorted_ids].
  - intros c. rewrite Hl. unfold all. rewrite Channels.elem_of_schedulable. split.
    + intros (Hr&Hp&Hd). by constructor.
    + by intros [Hr Hp Hd].
Qed.

(** Under the default ratio the draw stays within a fifth of the interval, so a
    schedulable, unpaused channel is selected from 6/5 of the interval after its last
    success on, and never before 4/5 of it. *)
Theorem jitter_window interval jitter now db l c ch a s :
  _select_eligible_channels interval jitter now db = Ok l →
  0 ≤ interval →
  5 * Z.abs (jitter c) ≤ interval * us_per_second →
  channels db !! c = Some ch → ch_is_enabled ch = true →
  accounts db !! ch_account_id ch = Some a → ac_paused_at a = None →
  pause_of db c = None →
  at_instant (success_of db c) = Some s →
  (5 * (s - instant now) + 6 * interval * us_per_second ≤ 0 → c ∈ l) ∧
  (0 < 5 * (s - instant now) + 4 * interval * us_per_second → c ∉ l).
Proof.
  intros Hsel Hi Hj Hch He Ha Hp Hpause Hs.
  unfold _select_eligible_channels in Hsel.
  apply select_eligible_spec in Hsel as [Hl _]; [|done]. split.
  - intros Hd. apply Hl. split_and!.
    + apply Channels.elem_of_schedulable. eauto 6.
    + rewrite Hpause. done.
    + rewrite Hs. intros ? [= <-]. lia.
  - intros Hd. rewrite Hl. intros (_&_&Hdue). specialize (Hdue s Hs). lia.
Qed.

(** ** Enqueueing *)

Lemma set_poll_jobs_twice x y db : set_poll_jobs x (set_poll_jobs y db) = set_poll_jobs x db.
Proof. by apply db_eq. Qed.
Lemma set_poll_jobs_same db : set_poll_jobs (poll_jobs db) db = db.
Proof. by destruct db. Qed.

Lemma enqueue_cases c corr db :
  (∃ e, enqueue_poll_job c corr db = (Err e, db)) ∨
  is_Some (channels db !! c) ∧
  (∀ i j, poll_jobs db !! i = Some j → pj_correlation_id j ≠ corr) ∧
  enqueue_poll_job c corr db =
    (Ok (MkPollJobRecord (next_id (poll_jobs db)) c corr),
     set_poll_jobs (<[next_id (poll_jobs db) := MkPollJob c corr]> (poll_jobs db)) db).
Proof.
  unfold enqueue_poll_job. destruct (any_row _ _) eqn:E; [left; by eexists|].
  case_decide; [|left; by eexists]. right. split_and!; [done| |done].
  intros i j Hj. apply (proj1 (any_row_false _ _) E) in Hj.
  by apply bool_decide_eq_false in Hj.
Qed.

Lemma enqueue_wf c corr db : wf_db db → wf_db (enqueue_poll_job c corr db).2.
Proof.
  intros W. destruct (enqueue_cases c corr db) as [[e ->]|(Hc&Hn&->)]; [done|].
  generalize (next_id (poll_jobs db)). intros i. cbn [snd]. revert W Hc Hn.
  intros W Hc Hn. apply set_poll_jobs_wf; [done| |].
  - intros k j Hk. insert_cases; [done|by eapply fk_poll_jobs].
  - intros k k' j j' Hk Hk' E. insert_cases; simpl in *; try done.
    + by destruct (Hn _ _ ltac:(eassumption)).
    + by destruct (Hn _ _ ltac:(eassumption)).
    + by eapply uq_poll_jobs.
Qed.

Lemma enqueue_all_spec corr ids db res db' :
  enqueue_all corr ids db = (res, db') →
  db' = set_poll_jobs (poll_jobs db') db ∧ poll_jobs db ⊆ poll_jobs db' ∧
  match res with
  | Ok jobs =>
      channel_id <$> jobs = ids ∧
      ∀ k job, jobs !! k = Some job →
        correlation_id job = corr k ∧ poll_jobs db !! job_id job = None ∧
        poll_jobs db' !! job_id job = Some (MkPollJob (channel_id job) (corr k))
  | Err _ => True
  end.
Proof.
  revert corr db res db'. induction ids as [|c ids IH]; intros corr db res db'; simpl.
  - intros [= <- <-]. by rewrite set_poll_jobs_same.
  - destruct (enqueue_cases c (corr 0%nat) db) as [[e ->]|(_&_&->)].
    { intros [= <- <-]. by rewrite set_poll_jobs_same. }
    set (i := next_id (poll_jobs db)). pose proof (next_id_fresh (poll_jobs db)) as Hi. fold i in Hi.
    set (db1 := set_poll_jobs (<[i := MkPollJob c (corr 0%nat)]> (poll_jobs db)) db).
    destruct (enqueue_all _ ids db1) as [res1 db2] eqn:E.
    apply IH in E as (Edb&Hsub&Hres).
    assert (db2 = set_poll_jobs (poll_jobs db2) db) as Edb'.
    { rewrite Edb at 1. unfold db1. by rewrite set_poll_jobs_twice. }
    assert (poll_jobs db ⊆ poll_jobs db2) as Hsub'.
    { etransitivity; [|exact Hsub]. simpl. by apply insert_subseteq. }
    destruct res1 as [jobs|e]; intros [= <- <-]; split_and!; try done.
    + destruct Hres as [<- _]. done.
    + destruct Hres as [_ Hjobs]. intros [|k] job; simpl.
      * intros [= <-]. simpl. split_and!; [done..|].
        eapply lookup_weaken; [|exact Hsub]. simpl. by rewrite lookup_insert_eq.
      * intros Hk. destruct (Hjobs k job Hk) as (Hc&Hn&Hs). split_and!; [done| |done].
        simpl in Hn. apply lookup_insert_None in Hn as [? _]. done.
Qed.

(** A tick that returns enqueued one job per selected channel, in order, each
    under a new id and its own correlation id, and changed nothing else: no queued job
    is lost or altered and no other table is touched. *)
Theorem run_once_enqueues interval jitter corr now db jobs db' :
  run_once interval jitter corr now db = (Ok jobs, db') →
  _select_eligible_channels interval jitter (_normalize_datetime now) db
    = Ok (channel_id <$> jobs) ∧
  (∀ k job, jobs !! k = Some job →
     correlation_id job = corr k ∧ poll_jobs db !! job_id job = None ∧
     poll_jobs db' !! job_id job = Some (MkPollJob (channel_id job) (corr k))) ∧
  poll_jobs db ⊆ poll_jobs db' ∧ db' = set_poll_jobs (poll_jobs db') db.
Proof.
  unfold run_once. destruct (_select_eligible_channels _ _ _ _) as [l|]; [|done].
  intros E. apply enqueue_all_spec in E as (Edb&Hsub&<-&Hjobs). done.
Qed.

(** Selection does not look at the queue: however a tick ended, at any later time
    the next tick selects from the same channels as if the tick had not run. A due
    channel is therefore enqueued again by every tick until something else advances its
    last success. *)
Theorem tick_does_not_affect_selection interval jitter corr now db jitter' now' :
  _select_eligible_channels interval jitter' now'
    (run_once interval jitter corr now db).2 =
  _select_eligible_channels interval jitter' now' db.
Proof.
  unfold run_once. destruct (_select_eligible_channels interval jitter _ db) as [l|]; [|done].
  destruct (enqueue_all corr l db) as [res db'] eqn:E.
  apply enqueue_all_spec in E as (Edb&_). simpl. by rewrite Edb.
Qed.

Lemma run_once_wf interval jitter corr now db :
  wf_db db → wf_db (run_once interval jitter corr now db).2.
Proof.
  unfold run_once. destruct (_select_eligible_channels _ _ _ _) as [l|]; [|done].
  revert corr db. induction l as [|c l IH]; intros corr db W; [done|]. simpl.
  pose proof (enqueue_wf c (corr 0%nat) db W) as W1.
  destruct (enqueue_poll_job _ _ _) as [[job|e] db1]; [|done].
  specialize (IH (λ n, corr (S n)) db1 W1). by destruct (enqueue_all _ l db1) as [[|] ?].
Qed.

(** ** Instances: on the sample database, channels 1 and 2 are enabled *)

Definition sample_tick : datetime := utc_day 738947 43200.
Definition sample_corr (n : nat) : pystr := str_of_int (Z.of_nat n).
(** Channel 1 succeeded 400 seconds before the tick. *)
Definition sample_polled : Db :=
  set_channel_states
    {[1 := MkChannelState None None (Some (utc_day 738947 42800))]} sample_db.

Lemma selection_exact_witness :
  ∃ l, _select_eligible_channels 300 (λ _, 0) sample_tick sample_polled = Ok l ∧
       StronglySorted Z.lt l ∧ eligible 300 (λ _, 0) sample_tick sample_polled 1.
Proof.
  destruct (_select_eligible_channels 300 (λ _, 0) sample_tick sample_polled) as [l|] eqn:E;
    [|by vm_compute in E].
  destruct (selection_exact 300 (λ _, 0) sample_tick sample_polled l E) as [Hs Hl].
  exists l. split_and!; [done..|]. apply Hl. vm_compute in E. injection E as <-. by_eval.
Defined.

Lemma jitter_window_witness :
  ∃ l, _select_eligible_channels 300 (λ _, 60000000) sample_tick sample_polled = Ok l ∧ 1 ∈ l.
Proof.
  destruct (_select_eligible_channels 300 (λ _, 60000000) sample_tick sample_polled)
    as [l|] eqn:E; [|by vm_compute in E].
  exists l. split; [done|].
  eapply (jitter_window 300 (λ _, 60000000) sample_tick sample_polled l 1 _ _ _ E);
    try reflexivity; vm_compute; intros; discriminate.
Defined.

Lemma run_once_enqueues_witness :
  ∃ jobs db', run_once 300 (λ _, 0) sample_corr sample_tick sample_polled = (Ok jobs, db') ∧
    channel_id <$> jobs = [1; 2] ∧ poll_jobs sample_polled ⊆ poll_jobs db'.
Proof.
  destruct (run_once 300 (λ _, 0) sample_corr sample_tick sample_polled) as [[jobs|] db'] eqn:E;
    [|by vm_compute in E].
  destruct (run_once_enqueues _ _ _ _ _ _ _ E) as (Hs&_&Hsub&_).
  exists jobs, db'. split_and!; [done| |done].
  assert (_select_eligible_channels 300 (λ _, 0) (_normalize_datetime sample_tick) sample_polled
    = Ok [1; 2]) as E2 by by_eval.
  rewrite E2 in Hs. by injection Hs as <-.
Defined.
End Scheduler.
