(* ===== verification/BotService.v ===== *)
(** The background service around the delivery run (BotDeliveryService of
    src/tca/bot/delivery.py): its interval, its life cycle and its loop. *)

From S2P Require Import Prelude PyValue PyTime Schema Settings Timeline Bot Scheduler.
Local Open Scope Z_scope.

Module DeliveryService.
Import BotDeliveries.

Record BotDeliveryService := MkService {
  delivery_interval_seconds : Z;
  task_state : Scheduler.task;
  stop_event : option bool;
}.
Definition initial : BotDeliveryService := MkService 60 Scheduler.Idle None.

Definition is_running (s : BotDeliveryService) : bool :=
  match task_state s with Scheduler.Running => true | _ => false end.

(** [isinstance(value, int) and value > 0]: [True] is an integer. *)
Definition resolved_interval (record : option Settings.SettingRecord) (current : Z) : Z :=
  match Settings.value <$> record with
  | Some (JInt n) => if 0 <? n then n else current
  | Some (JBool true) => 1
  | _ => current
  end.

Lemma resolved_interval_pos record current : 0 < current → 0 < resolved_interval record current.
Proof.
  unfold resolved_interval. destruct (Settings.value <$> record) as [ [| [] |n| | | |]|]; try done.
  by destruct (Z.ltb_spec 0 n).
Qed.

Definition startup (d : Db) (s : BotDeliveryService) : result exn BotDeliveryService :=
  if is_running s then Ok s
  else
    interval_rec ← Settings.get_by_key (u "bot.delivery_interval_seconds") d;
    mret (MkService (resolved_interval interval_rec (delivery_interval_seconds s)) Scheduler.Running
            (Some false)).

(** [shutdown] sets the event, awaits the loop and clears both fields. *)
Definition shutdown (s : BotDeliveryService) : BotDeliveryService :=
  match task_state s with
  | Scheduler.Idle => s
  | _ => MkService (delivery_interval_seconds s) Scheduler.Idle None
  end.

Section loop.
Context (repr : JSONValue → pystr) (formatter : BotDeliveryEntryRecord → result exn pystr)
  (exc_text : exn → pystr).

(** One turn of the loop: the event loop's clock in microseconds, what others have committed
    since the last turn, and the Bot API and the wall clock of a run that starts now. *)
Record tick := MkTick {
  tick_now : Z;
  others : Db → Db;
  post : nat → pystr → JSONValue → BotApi.reply;
  clock : Z → Z;
}.

(** The runs with their start and what they delivered; a run that raises delivers nothing,
    is logged and counts as a run. *)
Fixpoint _run_loop (interval last_run_at : Z) (failures : gmap Z Z) (ticks : list tick) (d : Db)
    : list (Z * list BotDeliveryRecord) * Db :=
  match ticks with
  | [] => ([], d)
  | t :: ticks =>
      let d := others t d in
      if interval * us_per_second <=? tick_now t - last_run_at then
        let '(r, st) := Delivery.run_once repr formatter (post t) exc_text (clock t) true failures d in
        let '(runs, d) := _run_loop interval (tick_now t) (Delivery.consecutive_failures st) ticks
                            (Delivery.db st) in
        ((tick_now t, match r with Ok records => records | Err _ => [] end) :: runs, d)
      else _run_loop interval last_run_at failures ticks d
  end.

(** ** What a run delivers *)

Lemma run_once_delivers post clock failures d :
  wf_db d → (∀ c, in_range (clock c) = true) →
  let '(r, st) := Delivery.run_once repr formatter post exc_text clock true failures d in
  let ids := cluster_id <$> match r with Ok records => records | Err _ => [] end in
  wf_db (Delivery.db st) ∧ NoDup ids ∧ (∀ c, c ∈ ids → has_been_delivered c d = false) ∧
  ∀ c, has_been_delivered c (Delivery.db st) = bool_decide (c ∈ ids) || has_been_delivered c d.
Proof.
  intros W Hclock. unfold Delivery.run_once.
  destruct (Delivery.prepare repr d) as [ [ [ [token chat_id] es]|]|e] eqn:Ep;
    [|cbn; split_and!; [done|constructor|by intros ? ?%elem_of_nil|done]..].
  apply Delivery.prepare_listed in Ep as [limit Hl].
  pose proof (Delivery.listed_ready _ _ _ W Hl) as Hready.
  destruct (Delivery.deliver_all_spec repr formatter post exc_text clock true token chat_id es
    (Delivery.MkState d [] [] failures) Hclock Hready) as (_&(recs&Hd&Hrec)&_&Hh&W').
  cbn [Delivery.sent Delivery.delivered_records Delivery.db length] in *. cbv zeta. rewrite app_nil_l in Hd.
  rewrite Hd, Hrec. destruct Hready as (_&Hnd&Hdel).
  pose proof (Delivery.accepted_sublist post token chat_id 0
    (Delivery.requests formatter post token chat_id 0 es)) as Hs1.
  pose proof (Delivery.requests_sublist formatter post token chat_id 0 es) as Hs2.
  assert (Delivery.accepted post token chat_id 0 (Delivery.requests formatter post token chat_id 0 es)
    `sublist_of` entry_cluster_id <$> es) as Hsub by (by etrans).
  split_and!; [done|by eapply sublist_NoDup| |done].
  intros c Hc. assert (c ∈ entry_cluster_id <$> es) as (e&->&He)%list_elem_of_fmap
    by (eapply elem_of_submseteq; [done|by apply sublist_submseteq]).
  by apply Hdel.
Qed.

(** Successive runs are at least [gap] apart, the first from [last]. *)
Fixpoint spaced (gap last : Z) (starts : list Z) : Prop :=
  match starts with
  | [] => True
  | s :: starts => gap <= s - last ∧ spaced gap s starts
  end.

(** Others keep the database well formed. *)
Definition orderly (t : tick) : Prop :=
  (∀ c, in_range (clock t c) = true) ∧ ∀ d, wf_db d → wf_db (others t d).

(** In this execution of the loop, others remove no delivery of the cluster: what they
    commit between two turns keeps its record if there is one. *)
Fixpoint spared (c interval last_run_at : Z) (failures : gmap Z Z) (ticks : list tick) (d : Db) : Prop :=
  match ticks with
  | [] => True
  | t :: ticks =>
      let d0 := others t d in
      (has_been_delivered c d = true → has_been_delivered c d0 = true) ∧
      if interval * us_per_second <=? tick_now t - last_run_at then
        let st := (Delivery.run_once repr formatter (post t) exc_text (clock t) true failures d0).2 in
        spared c interval (tick_now t) (Delivery.consecutive_failures st) ticks (Delivery.db st)
      else spared c interval last_run_at failures ticks d0
  end.

(** How often a cluster is in a list of deliveries. *)
Definition times (c : Z) (ids : list Z) : nat := length (filter (λ x, x = c) ids).
Lemma times_app c ids ids' : times c (ids ++ ids') = (times c ids + times c ids')%nat.
Proof. unfold times. by rewrite filter_app, length_app. Qed.
Lemma times_absent c ids : c ∉ ids → times c ids = 0%nat.
Proof.
  intros Hc. unfold times. destruct (filter (λ x, x = c) ids) as [|x l] eqn:E; [done|].
  assert (x ∈ filter (λ x, x = c) ids) as [-> Hx]%list_elem_of_filter by (rewrite E; by left). done.
Qed.
Lemma times_NoDup c ids : NoDup ids → (times c ids <= 1)%nat.
Proof.
  intros Hn. unfold times. assert (NoDup (filter (λ x, x = c) ids)) as Hf by by apply NoDup_filter.
  assert (∀ x, x ∈ filter (λ x, x = c) ids → x = c) as Hx by (by intros x [? _]%list_elem_of_filter).
  destruct (filter (λ x, x = c) ids) as [|x [|y l] ]; simpl; [lia..|].
  exfalso. apply NoDup_cons in Hf as [Hf _]. apply Hf.
  rewrite (Hx x), (Hx y) by set_solver. by left.
Qed.

(** C34. The delivery loop, whatever the Bot API answers and the runs raise, and whatever
    other tasks commit between the turns as long as the schema's integrity holds. Runs start
    at least an interval apart, and no turn is left without a run within the interval before
    it; no run delivers a cluster twice; the database stays well formed. A cluster whose
    delivery record nobody else removes while the loop runs (as a purge, a merge or a prune
    does together with the cluster) is delivered at most once over all the runs together and
    not at all if it was delivered before the loop began, and once delivered stays recorded
    to the end. *)
Theorem delivery_loop interval last failures ticks d :
  0 < interval → wf_db d → Forall orderly ticks →
  StronglySorted Z.le (last :: (tick_now <$> ticks)) →
  let '(runs, d') := _run_loop interval last failures ticks d in
  let ids := runs ≫= λ r, cluster_id <$> r.2 in
  spaced (interval * us_per_second) last runs.*1 ∧
  (∀ t, t ∈ ticks → ∃ s, s ∈ last :: runs.*1 ∧ s <= tick_now t < s + interval * us_per_second) ∧
  Forall (λ r, NoDup (cluster_id <$> r.2)) runs ∧ wf_db d' ∧
  ∀ c, spared c interval last failures ticks d →
    (times c ids <= 1)%nat ∧
    (has_been_delivered c d = true → c ∉ ids) ∧
    (has_been_delivered c d = true ∨ c ∈ ids → has_been_delivered c d' = true).
Proof.
  intros Hi. revert last failures d. induction ticks as [|t ticks IH]; intros last failures d W Hall Hsort.
  { cbn. split_and!; [done|by intros ? ?%elem_of_nil|constructor|done|].
    intros c _. split_and!; [lia|by intros _ ?%elem_of_nil|by intros [|?%elem_of_nil] ]. }
  apply Forall_cons in Hall as [ (Hclock&Hwf) Hall]. cbn [_run_loop spared].
  rewrite fmap_cons in Hsort. apply StronglySorted_inv in Hsort as [Hsort Hle].
  apply Forall_cons in Hle as [Hlt Hle]. specialize (Hwf d W). set (d0 := others t d) in *.
  destruct (Z.leb_spec (interval * us_per_second) (tick_now t - last)) as [Hdue|Hdue].
  - pose proof (run_once_delivers (post t) (clock t) failures d0 Hwf Hclock) as Hrun.
    destruct (Delivery.run_once _ _ _ _ _ _ _ _) as [r st]. destruct Hrun as (W1&Hnd&Hnew&Hh).
    specialize (IH (tick_now t) (Delivery.consecutive_failures st) (Delivery.db st) W1 Hall Hsort).
    cbn [snd]. destruct (_run_loop interval (tick_now t) _ ticks _) as [runs d'].
    destruct IH as (Hsp&Hcov&Hnd2&W'&Hids). set (records := match r with Ok l => l | Err _ => [] end) in *.
    cbn [fst snd fmap list_fmap mbind list_bind]. split_and!; [by split| |by constructor|done|].
    + intros x [->|Hx]%elem_of_cons.
      * exists (tick_now t). split; [right; by left|]. unfold us_per_second. lia.
      * destruct (Hcov x Hx) as (s&Hs&?). exists s. split; [by right|done].
    + intros c [Hkeep Hspared]. destruct (Hids c Hspared) as (Hcount&Hbefore&Hafter). specialize (Hh c).
      rewrite times_app. destruct (decide (c ∈ cluster_id <$> records)) as [Hc|Hc].
      * rewrite bool_decide_eq_true_2, orb_true_l in Hh by done. pose proof (times_NoDup c _ Hnd).
        rewrite (times_absent c (mbind _ runs)) by auto. split_and!; [lia| |auto].
        intros Hd%Hkeep. specialize (Hnew c Hc). congruence.
      * rewrite bool_decide_eq_false_2, orb_false_l in Hh by done. rewrite times_absent by done.
        split_and!; [lia| |]; setoid_rewrite elem_of_app.
        -- intros Hd%Hkeep. rewrite <-Hh in Hd. naive_solver.
        -- intros [Hd%Hkeep|[?|?] ]; [|done|auto]. rewrite <-Hh in Hd. auto.
  - specialize (IH last failures d0 Hwf Hall).
    destruct (_run_loop interval last failures ticks d0) as [runs d'].
    destruct IH as (Hsp&Hcov&Hnd&W'&Hids).
    { apply StronglySorted_inv in Hsort as [Hsort _]. constructor; [done|]. done. }
    split_and!; [done| |done|done|].
    + intros x [->|Hx]%elem_of_cons; [|by apply Hcov]. exists last. split; [by left|]. lia.
    + intros c [Hkeep Hspared]. destruct (Hids c Hspared) as (?&?&Hafter). split_and!; [done|auto|].
      intros [?|?]; auto.
Qed.

End loop.

(** ** Instance: four turns in a little over two minutes *)

Definition sample_tick (now : Z) : tick := MkTick now id Delivery.sample_post Delivery.sample_clock.
Definition sample_ticks : list tick := sample_tick <$> [0; 60000000; 61000000; 120000000].

Lemma sample_orderly now : orderly (sample_tick now).
Proof. split; [intros c; reflexivity|done]. Qed.
(** Nobody else commits anything. *)
Lemma sample_spared c interval last failures nows d :
  spared (λ _, []) Delivery.sample_formatter (λ _, []) c interval last failures (sample_tick <$> nows) d.
Proof.
  revert last failures d. induction nows as [|now nows IH]; intros last failures d; [done|].
  cbn [fmap list_fmap spared]. split; [done|]. destruct (_ <=? _); apply IH.
Qed.

Lemma delivery_loop_witness :
  let '(runs, d') := _run_loop (λ _, []) Delivery.sample_formatter (λ _, []) 60 0 ∅ sample_ticks
                       Delivery.sample_bot_db in
  spaced (60 * us_per_second) 0 runs.*1 ∧ (times 1 (runs ≫= λ r, cluster_id <$> r.2) <= 1)%nat ∧ wf_db d' ∧
  runs.*1 = [60000000; 120000000] ∧ (runs ≫= λ r, cluster_id <$> r.2) = [1].
Proof.
  pose proof (delivery_loop (λ _, []) Delivery.sample_formatter (λ _, []) 60 0 ∅ sample_ticks
    Delivery.sample_bot_db eq_refl) as H.
  destruct (_run_loop _ _ _ _ _ _ _ _) as [runs d'] eqn:E.
  destruct H as (Hs&_&_&W&Hc).
  - apply wf_check_sound. vm_compute. reflexivity.
  - apply Forall_fmap, Forall_true. intros now. apply sample_orderly.
  - unfold sample_ticks. csimpl.
    repeat first [by apply SSorted_nil|apply SSorted_cons|by apply Forall_nil|apply Forall_cons; split|by apply Z.leb_le].
  - destruct (Hc 1 (sample_spared 1 60 0 ∅ [0; 60000000; 61000000; 120000000] Delivery.sample_bot_db)) as [Hn _].
    split_and!; [exact Hs|exact Hn|exact W|apply (f_equal (λ x, x.1.*1)) in E; by vm_compute in E|].
    apply (f_equal (λ x, x.1 ≫= λ r, cluster_id <$> r.2)) in E. by vm_compute in E.
Defined.

End DeliveryService.
