(* ===== verification/Backup.v ===== *)
(** The nightly backup (src/tca/ops/backup_job.py): the copy that is checked before it takes
    its name, the retention of the newest files and the notification of a failure. What
    SQLite writes and what the file system answers are parameters; the directory of the
    backups is a map of names, with SQLite's side files. *)

From S2P Require Import Prelude PyValue PyTime PyIso PyText Schema Settings Notifications.
Local Open Scope Z_scope.

Module Backup.

Definition FileNotFoundError : exn := AppError "FileNotFoundError".
Definition IsADirectoryError : exn := AppError "IsADirectoryError".
Definition NightlySQLiteBackupError : exn := AppError "NightlySQLiteBackupError".
Definition CancelledError : exn := AppError "CancelledError".

Definition BACKUP_FAILURE_NOTIFICATION_TYPE : pystr := u "backup_failure".
Definition BACKUP_FAILURE_NOTIFICATION_SEVERITY : pystr := u "high".
Definition BACKUP_FAILURE_NOTIFICATION_MESSAGE : pystr := u "Nightly SQLite backup failed.".
Definition BACKUP_RETAIN_COUNT_SETTING_KEY : pystr := u "backup.retain_count".
Definition DEFAULT_BACKUP_RETAIN_COUNT : Z := 14.

Record BackupJobRunSummary := MkSummary {
  backup_path : pystr;
  integrity_check_result : pystr;
}.

(** ** Names *)

(** [f"tca-{run_date.strftime('%Y%m%d')}.db"]: the date text without its dashes. *)
Definition _backup_path_for_date (day : Z) : pystr :=
  let '(y, m, d) := ord2ymd day in u "tca-" ++ pad 4 y ++ pad 2 m ++ pad 2 d ++ u ".db".
(** [backup_path.with_suffix(backup_path.suffix + ".tmp")] *)
Definition temporary_backup_path (path : pystr) : pystr := path ++ u ".tmp".

(** [glob("tca-*.db")]; the two ends cannot overlap. *)
Definition is_backup_name (name : pystr) : bool :=
  bool_decide (u "tca-" `prefix_of` name) && bool_decide (u ".db" `suffix_of` name).

Definition name_order : pystr → pystr → comparison := cmp_desc text_cmp.
#[export] Instance name_order_good : GoodCmp name_order.
Proof. unfold name_order. apply _. Qed.

(** ** The retention setting *)

Definition _coerce_retain_count (value : JSONValue) : Z :=
  match value with
  | JInt n => if 0 <? n then n else DEFAULT_BACKUP_RETAIN_COUNT
  | JFloat f =>
      if is_integer f then
        let resolved := default 0 (trunc_float f) in
        if 0 <? resolved then resolved else DEFAULT_BACKUP_RETAIN_COUNT
      else DEFAULT_BACKUP_RETAIN_COUNT
  | _ => DEFAULT_BACKUP_RETAIN_COUNT
  end.

(** [unreadable]: the read raises an [SQLAlchemyError]. *)
Definition _resolve_retain_count (unreadable : bool) (db : Db) : result exn Z :=
  if unreadable then Ok DEFAULT_BACKUP_RETAIN_COUNT
  else
    record ← Settings.get_by_key BACKUP_RETAIN_COUNT_SETTING_KEY db;
    mret match record with
         | None => DEFAULT_BACKUP_RETAIN_COUNT
         | Some record => _coerce_retain_count (Settings.value record)
         end.

Lemma retain_count_pos unreadable db n : _resolve_retain_count unreadable db = Ok n → 1 <= n.
Proof.
  unfold _resolve_retain_count, DEFAULT_BACKUP_RETAIN_COUNT. destruct unreadable; [by intros [= <-]|].
  destruct (Settings.get_by_key _ db) as [[record|]|]; cbn; intros [= <-]; try lia.
  destruct (Settings.value record); cbn; unfold DEFAULT_BACKUP_RETAIN_COUNT; try lia.
  - case_match; lia.
  - repeat case_match; lia.
Qed.

Section backup.
(** The bytes of a file. *)
Context `{UD : UnicodeData} {content : Type}.

Inductive entry := File (c : content) | Directory.
Abbreviation directory := (gmap pystr entry).

(** The files SQLite may keep next to a database while a connection to it is open: the
    rollback journal, the write-ahead log and its index. *)
Record sides := MkSides { journal : option content; wal : option content; shm : option content }.

(** What SQLite and the file system do. [sqlite_backup] gives, for the source and the
    directory it finds, the contents the destination and its side files pass through, and at
    the end the copy or the error. [integrity_row] reads the copy; on the way only side
    files change. *)
Record Platform := MkPlatform {
  mkdir_error : option exn;
  unlink_error : pystr → option exn;
  sqlite_backup : content → directory → list (content * sides) * result exn (content * sides);
  integrity_row : content → sides → list sides * result exn (option (list JSONValue));
  replace_error : option exn;
}.
Context (os : Platform).
Implicit Types (name path : pystr) (n : Z).

(** ** Effects

    The state is the directory, absent until it is made, with every state it went through. *)
Definition world : Type := option directory * list (option directory).
Definition io (A : Type) : Type := world → result exn A * world.

Definition ret {A} (x : A) : io A := λ w, (Ok x, w).
Definition raise {A} (e : exn) : io A := λ w, (Err e, w).
Definition bind {A B} (m : io A) (k : A → io B) : io B := λ w,
  match m w with (Ok x, w) => k x w | (Err e, w) => (Err e, w) end.
Definition lift {A} (r : result exn A) : io A := λ w, (r, w).
Local Notation "'let!' x := m 'in' k" := (bind m (λ x, k))
  (at level 200, x binder, m at level 100, k at level 200).

Definition entry_at (d : option directory) name : option entry := d ≫= (.!! name).
Definition write (d : directory) : io unit := λ w, (Ok tt, (Some d, w.2 ++ [Some d])).
Definition update (f : directory → directory) : io unit := λ w, write (f (default ∅ w.1)) w.
Definition exists_ name : io bool := λ w, (Ok (bool_decide (is_Some (entry_at w.1 name))), w).

Definition mkdir : io unit := λ w,
  match w.1, mkdir_error os with
  | Some _, _ => (Ok tt, w)
  | None, Some e => (Err e, w)
  | None, None => write ∅ w
  end.

Definition unlink name : io unit := λ w,
  match entry_at w.1 name with
  | None => raise FileNotFoundError w
  | Some Directory => raise IsADirectoryError w
  | Some (File _) =>
      match unlink_error os name with
      | Some e => raise e w
      | None => update (base.delete name) w
      end
  end.

(** [Path.replace] is atomic. *)
Definition replace name path : io unit := λ w,
  match entry_at w.1 name, entry_at w.1 path with
  | None, _ => raise FileNotFoundError w
  | _, Some Directory => raise IsADirectoryError w
  | Some e, _ =>
      match replace_error os with
      | Some x => raise x w
      | None => update (λ d, <[path := e]> (base.delete name d)) w
      end
  end.

(** The side files are named after the database; a directory of that name stays. *)
Definition side_names name : list pystr :=
  [name ++ u "-journal"; name ++ u "-wal"; name ++ u "-shm"].
Definition put name (c : option content) (d : directory) : directory :=
  match d !! name, c with
  | Some Directory, _ => d
  | _, Some c => <[name := File c]> d
  | _, None => base.delete name d
  end.
Definition put_sides name (s : sides) (d : directory) : directory :=
  put (name ++ u "-journal") (journal s) (put (name ++ u "-wal") (wal s) (put (name ++ u "-shm") (shm s) d)).
Definition put_database name (c : content * sides) (d : directory) : directory :=
  <[name := File c.1]> (put_sides name c.2 d).

Fixpoint pass_through {A} (f : A → directory → directory) (xs : list A) : io unit :=
  match xs with
  | [] => ret tt
  | x :: xs => let! _ := update (f x) in pass_through f xs
  end.
Definition copy (source : content) name : io (content * sides) := λ w,
  let '(steps, r) := sqlite_backup os source (default ∅ w.1) in
  (let! _ := pass_through (put_database name) steps in
   let! c := lift r in
   let! _ := update (put_database name c) in
   ret c) w.

(** ** The checked copy *)

Definition _coerce_integrity_check_row (row : option (list JSONValue)) : result exn pystr :=
  match row with
  | Some [JStr value] => Ok (lower value)
  | _ => Err NightlySQLiteBackupError
  end.
Definition check_result (c : content * sides) : result exn pystr :=
  row ← (integrity_row os c.1 c.2).2; _coerce_integrity_check_row row.
Definition _run_integrity_check name (c : content * sides) : io pystr :=
  let! _ := pass_through (put_sides name) (integrity_row os c.1 c.2).1 in
  lift (check_result c).

(** The body of the [try]. *)
Definition checked_copy (source : content) path : io unit :=
  let! c := copy source (temporary_backup_path path) in
  let! integrity_check_result := _run_integrity_check (temporary_backup_path path) c in
  if bool_decide (integrity_check_result = u "ok") then replace (temporary_backup_path path) path
  else raise NightlySQLiteBackupError.

(** [if temporary_backup_path.exists(): temporary_backup_path.unlink()] *)
Definition discard name : io unit :=
  let! present := exists_ name in if present then unlink name else ret tt.

(** [except Exception: discard; raise] *)
Definition cleaning_up path (m : io unit) : io unit := λ w,
  match m w with
  | (Ok _, w) => (Ok tt, w)
  | (Err e, w) => (let! _ := discard (temporary_backup_path path) in raise e) w
  end.

Definition _create_backup_and_run_integrity_check (source : option content) path : io pystr :=
  match source with
  | None => raise FileNotFoundError
  | Some source =>
      let! _ := mkdir in
      let! _ := discard (temporary_backup_path path) in
      let! _ := cleaning_up path (checked_copy source path) in
      ret (u "ok")
  end.

(** ** Retention *)

Definition is_file (e : entry) : bool := match e with File _ => true | Directory => false end.
Definition is_backup (e : pystr * entry) : bool := is_backup_name e.1 && is_file e.2.
Definition backup_files (d : directory) : list pystr :=
  sort_by name_order (fst <$> filter (λ e, is_backup e = true) (map_to_list d)).

Fixpoint unlink_all (names : list pystr) : io unit :=
  match names with
  | [] => ret tt
  | name :: names => let! _ := unlink name in unlink_all names
  end.

Definition _cleanup_old_backups (retain_count : Z) : io unit := λ w,
  if retain_count <? 1 then ret tt w
  else match w.1 with
       | None => ret tt w
       | Some d => unlink_all (drop (Z.to_nat retain_count) (backup_files d)) w
       end.

(** ** The copy takes its name only when it is complete and checked *)

Definition verified (source c : content) : Prop :=
  ∃ found s, (sqlite_backup os source found).2 = Ok (c, s) ∧ check_result (c, s) = Ok (u "ok").

(** The names a run works under: the temporary one and those of its side files. *)
Definition scratch path : list pystr :=
  temporary_backup_path path :: side_names (temporary_backup_path path).

(** What may be found under the names, [d0] being the directory before the run: only these
    names have anything else than before, or than a checked copy. *)
Definition sound (source : option content) path (d0 d : option directory) : Prop :=
  (∀ name, name ∉ scratch path → name ≠ path → entry_at d name = entry_at d0 name) ∧
  (entry_at d path = entry_at d0 path ∨
   ∃ s c, source = Some s ∧ verified s c ∧ entry_at d path = Some (File c)).

(** From a directory satisfying [P] the step ends in [Q], every state on the way in [I]. *)
Definition triple (I P : option directory → Prop) {A} (m : io A)
    (Q : result exn A → option directory → Prop) : Prop :=
  ∀ w, P w.1 → Q (m w).1 (m w).2.1 ∧ ∃ l, (m w).2.2 = w.2 ++ l ∧ Forall I l.

Lemma triple_bind {A B : Type} (I P : option directory → Prop) (R : A → option directory → Prop) (m : io A) (k : A → io B) Q :
  triple I P m (λ r d, match r with Ok x => R x d | Err e => Q (Err e) d end) →
  (∀ x, triple I (R x) (k x) Q) → triple I P (bind m k) Q.
Proof.
  intros Hm Hk w Hw. unfold bind. specialize (Hm w Hw). destruct (m w) as [[x|e] w1]; [|done].
  cbn in Hm. destruct Hm as [H1 (l1&E1&Hl1)]. destruct (Hk x w1 H1) as [H2 (l2&E2&Hl2)].
  split; [done|]. exists (l1 ++ l2). rewrite E2, E1, <-app_assoc. split; [done|by apply Forall_app_2].
Qed.
Lemma triple_pure {A : Type} (I P : option directory → Prop) (r : result exn A) Q :
  (∀ d, P d → Q r d) → triple I P (λ w, (r, w)) Q.
Proof. intros H w Hw. split; [by apply H|]. exists []. by rewrite app_nil_r. Qed.
Lemma triple_update (I P : option directory → Prop) (f : directory → directory) Q :
  (∀ d, P d → I (Some (f (default ∅ d))) ∧ Q (Ok tt) (Some (f (default ∅ d)))) →
  triple I P (update f) Q.
Proof.
  intros H w Hw. cbn. destruct (H _ Hw) as [Hi Hq]. split; [done|]. eexists. split; [done|].
  by apply Forall_singleton.
Qed.
Lemma triple_weaken {A : Type} (I P P' : option directory → Prop) (m : io A) Q Q' :
  triple I P' m Q' → (∀ d, P d → P' d) → (∀ r d, Q' r d → Q r d) → triple I P m Q.
Proof. intros H HP HQ w Hw. destruct (H w (HP _ Hw)). split; [by apply HQ|done]. Qed.

Section copying.
Context (source : option content) (path : pystr) (d0 : option directory).
Let tmp := temporary_backup_path path.

Definition only_tmp (d : option directory) : Prop :=
  ∀ name, name ∉ scratch path → entry_at d name = entry_at d0 name.
Definition others_kept (d : option directory) : Prop :=
  ∀ name, name ∉ scratch path → name ≠ path → entry_at d name = entry_at d0 name.
Definition tmp_writable (d : option directory) : Prop := entry_at d tmp ≠ Some Directory.
Definition refuses_tmp : Prop := unlink_error os tmp ≠ None.
Local Abbreviation I := (sound source path d0).

Lemma path_not_scratch : path ∉ scratch path.
Proof.
  assert (∀ x, (length path < length x)%nat → path ≠ x) as Hlen by (by intros x Hx ->; lia).
  unfold scratch, side_names, temporary_backup_path.
  rewrite !not_elem_of_cons. split_and!; [..|apply not_elem_of_nil]; apply Hlen;
    rewrite !length_app; cbn; lia.
Qed.
Lemma tmp_fresh : tmp ≠ path.
Proof. intros E. apply path_not_scratch. rewrite <-E at 1. by left. Qed.
Lemma tmp_not_side : tmp ∉ side_names tmp.
Proof.
  unfold side_names. rewrite !not_elem_of_cons. split_and!; [..|apply not_elem_of_nil];
    intros E%(f_equal length); rewrite length_app in E; cbn in E; lia.
Qed.

Lemma only_tmp_sound d : only_tmp d → I d.
Proof. intros H. split; [intros; by apply H|left; apply H, path_not_scratch]. Qed.

Lemma entry_at_Some (d : directory) name : entry_at (Some d) name = d !! name.
Proof. done. Qed.
Lemma entry_at_default d name : default ∅ d !! name = entry_at d name.
Proof. by destruct d. Qed.

Lemma lookup_put_ne (x name : pystr) (c : option content) (d : directory) : name ≠ x → put x c d !! name = d !! name.
Proof.
  intros Hn. unfold put. destruct (d !! x) as [[]|], c; by rewrite ?lookup_insert_ne, ?lookup_delete_ne.
Qed.
Lemma lookup_put_sides (name x : pystr) (s : sides) (d : directory) :
  name ∉ side_names x → put_sides x s d !! name = d !! name.
Proof.
  unfold side_names, put_sides. rewrite !not_elem_of_cons. intros (H1&H2&H3&_).
  by rewrite !lookup_put_ne.
Qed.

Lemma only_tmp_sides d (s : sides) : only_tmp d → only_tmp (Some (put_sides tmp s (default ∅ d))).
Proof.
  intros H name Hn. rewrite entry_at_Some, lookup_put_sides, entry_at_default; [by apply H|].
  intros Hin. apply Hn. by right.
Qed.
Lemma only_tmp_insert e d : only_tmp d → only_tmp (Some (<[tmp := e]> (default ∅ d))).
Proof.
  intros H name Hn. rewrite entry_at_Some, lookup_insert_ne, entry_at_default; [by apply H|].
  intros <-. apply Hn. by left.
Qed.
Lemma only_tmp_delete d : only_tmp d → only_tmp (Some (base.delete tmp (default ∅ d))).
Proof.
  intros H name Hn. rewrite entry_at_Some, lookup_delete_ne, entry_at_default; [by apply H|].
  intros <-. apply Hn. by left.
Qed.

Lemma mkdir_triple :
  triple I (λ d, d = d0) mkdir (λ r d, match r with Ok _ => only_tmp d ∧ entry_at d tmp = entry_at d0 tmp | Err _ => d = d0 end).
Proof.
  intros [x l] Hw. cbn in Hw. unfold mkdir, only_tmp. rewrite <-Hw.
  destruct x as [d|]; cbn [fst snd].
  - split; [done|]. exists []. by rewrite app_nil_r.
  - destruct (mkdir_error os); cbn; [split; [done|]; exists []; by rewrite app_nil_r|].
    assert (∀ name, (∅ : directory) !! name = None) as Hn by apply lookup_empty.
    split; [split; [intros name _; apply Hn|apply Hn]|]. eexists. split; [done|].
    apply Forall_singleton.
    split; [intros name _ _; apply Hn|left; apply Hn].
Qed.

Lemma discard_triple before :
  triple I (λ d, only_tmp d ∧ entry_at d tmp = before) (discard tmp) (λ r d, only_tmp d ∧
    match r with
    | Ok _ => entry_at d tmp = None
    | Err _ => refuses_tmp ∨ before = Some Directory
    end).
Proof.
  intros w [Hw <-]. unfold discard, bind, exists_. cbn. case_bool_decide as Hs; cbn.
  - unfold unlink. destruct Hs as [e E]. rewrite E. destruct e; cbn.
    + unfold refuses_tmp. destruct (unlink_error os tmp); cbn.
      * split; [split; [done|by left]|]. exists []. by rewrite app_nil_r.
      * pose proof (only_tmp_delete _ Hw). split; [split; [done|apply lookup_delete_eq]|].
        eexists. split; [done|]. by apply Forall_singleton, only_tmp_sound.
    + split; [split; [done|by right]|]. exists []. by rewrite app_nil_r.
  - split; [split; [done|by apply eq_None_not_Some]|]. exists []. by rewrite app_nil_r.
Qed.

Lemma write_triple c :
  triple I (λ d, only_tmp d ∧ tmp_writable d) (update (put_database tmp c))
    (λ r d, r = Ok tt ∧ only_tmp d ∧ entry_at d tmp = Some (File c.1)).
Proof.
  apply triple_update. intros d [Hd _].
  pose proof (only_tmp_insert (File c.1) _ (only_tmp_sides d c.2 Hd)) as H.
  split; [by apply only_tmp_sound|]. split_and!; [done|done|]. apply lookup_insert_eq.
Qed.
Lemma side_triple (s : sides) e :
  triple I (λ d, only_tmp d ∧ entry_at d tmp = e) (update (put_sides tmp s))
    (λ r d, r = Ok tt ∧ only_tmp d ∧ entry_at d tmp = e).
Proof.
  apply triple_update. intros d [Hd He]. pose proof (only_tmp_sides d s Hd).
  split; [by apply only_tmp_sound|]. split_and!; [done|done|].
  rewrite entry_at_Some, lookup_put_sides, entry_at_default; [done|apply tmp_not_side].
Qed.

Lemma pass_through_triple {A} (f : A → directory → directory) (P : option directory → Prop) xs :
  (∀ x, triple I P (update (f x)) (λ r d, r = Ok tt ∧ P d)) →
  triple I P (pass_through f xs) (λ r d, r = Ok tt ∧ P d).
Proof.
  intros Hf. induction xs as [|x xs IH]; cbn [pass_through]; [by apply triple_pure|].
  eapply triple_bind; [|intros y; apply IH].
  eapply triple_weaken; [apply Hf|done|]. by intros r d (->&?).
Qed.

Definition copied_to_tmp (src : content) (r : result exn (content * sides)) (d : option directory) : Prop :=
  only_tmp d ∧
  match r with
  | Ok c => (∃ found, (sqlite_backup os src found).2 = Ok c) ∧ entry_at d tmp = Some (File c.1)
  | Err _ => tmp_writable d
  end.
Lemma copy_body_triple (src : content) steps (r : result exn (content * sides)) :
  (∃ found, (sqlite_backup os src found).2 = r) →
  triple I (λ d, only_tmp d ∧ tmp_writable d)
    (let! _ := pass_through (put_database tmp) steps in
     let! c := lift r in
     let! _ := update (put_database tmp c) in
     ret c) (copied_to_tmp src).
Proof.
  intros Hr. apply (triple_bind _ _ (λ _ d, only_tmp d ∧ tmp_writable d)).
  - eapply triple_weaken; [apply (pass_through_triple _ (λ d, only_tmp d ∧ tmp_writable d))|done|].
    + intros c. eapply triple_weaken; [apply write_triple|done|]. intros ? d (->&?&E).
      split; [done|]. split; [done|]. unfold tmp_writable. by rewrite E.
    + by intros ? d (->&H).
  - intros []. apply (triple_bind _ _ (λ c d, r = Ok c ∧ only_tmp d ∧ tmp_writable d)).
    + apply triple_pure. intros d [? ?]. by destruct r.
    + intros c. apply (triple_bind _ _ (λ _ d, r = Ok c ∧ only_tmp d ∧ entry_at d tmp = Some (File c.1))).
      * intros w (->&H). destruct (write_triple c w H) as [(E&H1&H2) H3]. by rewrite E.
      * intros ?. apply triple_pure. intros d (->&?&?). by split.
Qed.
Lemma copy_triple (src : content) :
  triple I (λ d, only_tmp d ∧ tmp_writable d) (copy src tmp) (copied_to_tmp src).
Proof.
  intros w Hw. unfold copy.
  destruct (sqlite_backup os src (default ∅ w.1)) as [steps r] eqn:E.
  apply copy_body_triple; [|done]. exists (default ∅ w.1). by rewrite E.
Qed.

Lemma check_triple (c : content * sides) :
  triple I (λ d, only_tmp d ∧ entry_at d tmp = Some (File c.1)) (_run_integrity_check tmp c)
    (λ r d, r = check_result c ∧ only_tmp d ∧ entry_at d tmp = Some (File c.1)).
Proof.
  unfold _run_integrity_check.
  apply (triple_bind _ _ (λ _ d, only_tmp d ∧ entry_at d tmp = Some (File c.1))).
  - eapply triple_weaken; [apply (pass_through_triple _
      (λ d, only_tmp d ∧ entry_at d tmp = Some (File c.1)))|done|].
    + intros s. apply side_triple.
    + by intros ? d (->&H).
  - intros _. by apply triple_pure.
Qed.

(** [path] holds the checked copy. *)
Definition in_place (src : content) (d : option directory) : Prop :=
  ∃ c, verified src c ∧ others_kept d ∧ entry_at d path = Some (File c) ∧ entry_at d tmp = None.

Definition placed (src : content) (r : result exn unit) (d : option directory) : Prop :=
  match r with Ok _ => in_place src d | Err _ => only_tmp d ∧ tmp_writable d end.

Lemma replace_triple src c :
  source = Some src → verified src c →
  triple I (λ d, only_tmp d ∧ entry_at d tmp = Some (File c)) (replace tmp path)
    (placed src).
Proof.
  intros Hs Hv w [Hw Et]. unfold replace. rewrite Et.
  assert (only_tmp w.1 ∧ tmp_writable w.1) as Hn by (split; [done|]; unfold tmp_writable; by rewrite Et).
  assert (∀ e, triple I (λ d, d = w.1) (raise e) (placed src)) as Hr.
  { intros e. apply triple_pure. by intros d ->. }
  set (d := Some (<[path := File c]> (base.delete tmp (default ∅ w.1)))).
  assert (others_kept d ∧ entry_at d path = Some (File c) ∧ entry_at d tmp = None) as (H1&H2&H3).
  { unfold d. split_and!.
    - intros name H1 H2. assert (tmp ≠ name) by (intros <-; apply H1; by left).
      rewrite entry_at_Some, lookup_insert_ne, lookup_delete_ne, entry_at_default by done.
      by apply Hw.
    - by rewrite entry_at_Some, lookup_insert_eq.
    - rewrite entry_at_Some, lookup_insert_ne, lookup_delete_eq; [done|apply not_eq_sym, tmp_fresh]. }
  assert (triple I (λ d, d = w.1) (update (λ d, <[path := File c]> (base.delete tmp d)))
    (placed src)) as Hu.
  { apply triple_update. intros ? ->. fold d. split; [split; [done|right; eauto]|by exists c]. }
  destruct (entry_at w.1 path) as [[]|]; try (by apply Hr); destruct (replace_error os);
    first [by apply Hr|by apply Hu].
Qed.

Lemma checked_copy_triple src :
  source = Some src →
  triple I (λ d, only_tmp d ∧ tmp_writable d) (checked_copy src path) (placed src).
Proof.
  intros Hs. unfold checked_copy. fold tmp.
  apply (triple_bind _ _ (λ c d, (only_tmp d ∧ entry_at d tmp = Some (File c.1)) ∧
    ∃ found, (sqlite_backup os src found).2 = Ok c)).
  { eapply triple_weaken; [apply copy_triple|done|]. unfold copied_to_tmp. intros [c|e] d; naive_solver. }
  intros c. apply (triple_bind _ _ (λ v d, (only_tmp d ∧ entry_at d tmp = Some (File c.1)) ∧
    (∃ found, (sqlite_backup os src found).2 = Ok c) ∧ check_result c = Ok v)).
  - intros w [Hw Hb]. destruct (check_triple c w Hw) as [(E&H1&H2) Hl]. split; [|done].
    rewrite E. destruct (check_result c); [done|]. split; [done|]. unfold tmp_writable. by rewrite H2.
  - intros v. case_bool_decide as Hv.
    + subst v. intros w (Hw&[found Hb]&Hi). apply (replace_triple src c.1); [done| |done].
      exists found, c.2. by destruct c.
    + apply triple_pure. intros d [[H1 H2] _]. split; [done|]. unfold tmp_writable. by rewrite H2.
Qed.

Definition copied (r : result exn pystr) (d : option directory) : Prop :=
  match r with
  | Ok v => v = u "ok" ∧ ∃ src, source = Some src ∧ in_place src d
  | Err _ => only_tmp d ∧ (d = d0 ∨ entry_at d tmp = None ∨ refuses_tmp ∨ entry_at d0 tmp = Some Directory)
  end.

Lemma create_triple :
  triple I (λ d, d = d0) (_create_backup_and_run_integrity_check source path) copied.
Proof.
  assert (∀ s, s = source → triple I (λ d, d = d0) (_create_backup_and_run_integrity_check s path) copied)
    as H; [|by apply H].
  intros [src|] Es; cbn [_create_backup_and_run_integrity_check].
  2: { apply triple_pure. intros d ->. split; [by intros ??|by left]. }
  fold tmp. apply (triple_bind _ _ (λ _ d, only_tmp d ∧ entry_at d tmp = entry_at d0 tmp)).
  { eapply triple_weaken; [apply mkdir_triple|done|]. intros [?|e] d; cbn; [done|].
    intros ->. split; [by intros ??|by left]. }
  intros _. apply (triple_bind _ _ (λ _ d, only_tmp d ∧ tmp_writable d)).
  { eapply triple_weaken; [apply (discard_triple (entry_at d0 tmp))|done|].
    intros [?|e] d; cbn; [|tauto]. intros [? E]. split; [done|]. unfold tmp_writable. by rewrite E. }
  intros _. apply (triple_bind _ _ (λ _, in_place src)).
  2: { intros _. apply triple_pure. intros d Hd. split; [done|]. by exists src. }
  intros w Hw. unfold cleaning_up.
  pose proof (checked_copy_triple src (eq_sym Es) w Hw) as H.
  destruct (checked_copy src path w) as [[[]|e] w1]; [done|].
  cbn [placed fst snd] in H. destruct H as [[H1 H2] (l1&E1&Hl1)].
  pose proof (discard_triple _ w1 (conj H1 eq_refl)) as H. fold tmp. unfold bind.
  destruct (discard tmp w1) as [r w2]. cbn [fst snd] in H. destruct H as [[H3 H4] (l2&E2&Hl2)].
  assert (∃ l, w2.2 = w.2 ++ l ∧ Forall I l).
  { exists (l1 ++ l2). rewrite E2, E1, <-app_assoc. split; [done|by apply Forall_app_2]. }
  destruct r; cbn; (split; [split; [done|]|done]); [tauto|].
  destruct H4; [tauto|done].
Qed.
End copying.
(** ** Retention keeps the newest names *)

Definition stale (n : Z) (d : directory) name : Prop :=
  name ∈ backup_files d ∧ n <= Z.of_nat (length (filter (λ o, name_order o name = Lt) (backup_files d))).

Lemma elem_of_backup_files (d : directory) name :
  name ∈ backup_files d ↔ is_backup_name name = true ∧ ∃ c, d !! name = Some (File c).
Proof.
  unfold backup_files. rewrite elem_of_sort_by, list_elem_of_fmap. split.
  - intros ([x e]&->&[Hb He%elem_of_map_to_list]%list_elem_of_filter). unfold is_backup in Hb.
    cbn in *. destruct (is_backup_name x); [|done]. destruct e as [c|]; [|done]. split; [done|by exists c].
  - intros [Hb [c Hc]]. exists (name, File c). split; [done|]. apply list_elem_of_filter.
    unfold is_backup. cbn. rewrite Hb. split; [done|by apply elem_of_map_to_list].
Qed.

Lemma backup_files_sorted (d : directory) : StronglySorted (λ a b, name_order a b = Lt) (backup_files d).
Proof.
  pose proof (sort_by_sorted name_order (fst <$> filter (λ e, is_backup e = true) (map_to_list d))) as Hs.
  assert (NoDup (backup_files d)) as Hn.
  { unfold backup_files. rewrite sort_by_perm. apply NoDup_fmap_filter, NoDup_fst_map_to_list. }
  change (StronglySorted (cmp_le name_order) (backup_files d)) in Hs. revert Hs Hn.
  generalize (backup_files d). intros l Hs. induction Hs as [|x l Hl IH Hx]; [constructor|].
  intros [Hni Hn]%NoDup_cons. constructor; [auto|]. rewrite Forall_forall in *. intros y Hy.
  specialize (Hx y Hy). unfold cmp_le in Hx. destruct (name_order x y) eqn:E; [|done..].
  unfold name_order, cmp_desc in E. apply text_cmp_eq in E. by subst.
Qed.

Lemma stale_dropped n (d : directory) name :
  1 <= n → stale n d name ↔ name ∈ drop (Z.to_nat n) (backup_files d).
Proof.
  intros Hn. rewrite (elem_of_drop_sorted name_order) by apply backup_files_sorted.
  unfold stale. by rewrite Z2Nat.inj_le, Nat2Z.id by lia.
Qed.

Definition pruned (n : Z) (d : directory) (d' : option directory) : Prop :=
  ∀ name, entry_at d' name = d !! name ∨ entry_at d' name = None ∧ stale n d name.
Definition refuses (n : Z) (d : directory) : Prop :=
  ∃ name, stale n d name ∧ unlink_error os name ≠ None.

Definition removed (names : list pystr) (d : directory) (d' : option directory) : Prop :=
  ∀ name, entry_at d' name = if decide (name ∈ names) then None else d !! name.

Lemma removed_pruned names n d d' :
  (∀ name, name ∈ names → stale n d name) → removed names d d' → pruned n d d'.
Proof. intros Hs Hr name. rewrite (Hr name). case_decide; auto. Qed.

Lemma unlink_all_triple n (d : directory) l gone :
  NoDup (gone ++ l) → (∀ name, name ∈ gone ++ l → stale n d name) →
  triple (pruned n d) (removed gone d) (unlink_all l) (λ r d',
    pruned n d d' ∧ match r with Ok _ => removed (gone ++ l) d d' | Err _ => refuses n d end).
Proof.
  revert gone. induction l as [|name l IH]; intros gone Hn Hs; cbn [unlink_all].
  - apply triple_pure. intros d' Hr. rewrite app_nil_r in *. split; [by eapply removed_pruned|done].
  - assert (gone ++ name :: l = (gone ++ [name]) ++ l) as El by (by rewrite <-app_assoc).
    rewrite El in *.
    eapply (triple_bind _ _ (λ _, removed (gone ++ [name]) d)); [|intros _; by apply IH].
    intros w Hr. assert (stale n d name) as Hst by (apply Hs; set_solver).
    assert (name ∉ gone) as Hni. { intros H. apply NoDup_app in Hn as [[_ [Hd _]]%NoDup_app _]. set_solver. }
    pose proof (proj1 (elem_of_backup_files d name) (proj1 Hst)) as (_&c&Hc).
    assert (pruned n d w.1) as Hp by (eapply removed_pruned; [|done]; set_solver).
    unfold unlink. rewrite (Hr name), decide_False, Hc by done. destruct (unlink_error os name) eqn:E.
    + split; [|exists []; by rewrite app_nil_r]. split; [done|]. exists name. by rewrite E.
    + assert (removed (gone ++ [name]) d (Some (base.delete name (default ∅ w.1)))) as Hr'.
      { intros other. rewrite entry_at_Some. destruct (decide (other = name)) as [->|].
        - rewrite lookup_delete_eq, decide_True by set_solver. done.
        - rewrite lookup_delete_ne, entry_at_default, (Hr other) by done.
          by repeat case_decide; set_solver. }
      split; [done|]. eexists. split; [done|]. apply Forall_singleton.
      eapply removed_pruned; [|done]. set_solver.
Qed.

(** From a directory of [d] the clean-up removes stale backups only, and all of them unless
    the system refuses to remove one. *)
Lemma cleanup_triple n (d : directory) :
  1 <= n → triple (pruned n d) (λ d', d' = Some d) (_cleanup_old_backups n) (λ r d',
    pruned n d d' ∧
    match r with Ok _ => ∀ name, stale n d name → entry_at d' name = None | Err _ => refuses n d end).
Proof.
  intros Hn w Hw. unfold _cleanup_old_backups. rewrite Hw. destruct (Z.ltb_spec n 1); [lia|].
  assert (removed [] d w.1) as Hr by (intros name; by rewrite Hw).
  assert (∀ name, name ∈ drop (Z.to_nat n) (backup_files d) → stale n d name) as Hs
    by (intros ?; by apply stale_dropped).
  assert (NoDup (drop (Z.to_nat n) (backup_files d))) as Hnd.
  { pose proof (StronglySorted_NoDup name_order _ (backup_files_sorted d)) as H1.
    rewrite <-(take_drop (Z.to_nat n) (backup_files d)) in H1. by apply NoDup_app in H1 as (_&_&?). }
  destruct (unlink_all_triple n d _ [] Hnd Hs w Hr) as [[H1 H2] H3]. split; [split; [done|]|done].
  destruct (unlink_all _ w) as [[] ?]; cbn in *; [|done].
  intros name Hst%stale_dropped; [|done]. rewrite (H2 name). by rewrite decide_True.
Qed.

(** ** The newest names are the newest days *)

(** Dated names compare as their days do. *)
Lemma name_order_days a b :
  0 <= a < max_days → 0 <= b < max_days →
  name_order (_backup_path_for_date a) (_backup_path_for_date b) = (b ?= a).
Proof.
  assert (∀ day, 0 <= day < max_days → ∃ y m d, PyIso.ymd2ord y m d = Some day ∧
    1 <= y <= 9999 ∧ 1 <= m <= 12 ∧ 1 <= d <= 31 ∧ _backup_path_for_date day =
    u "tca-" ++ PyIso.fixed 4 y ++ PyIso.fixed 2 m ++ PyIso.fixed 2 d ++ u ".db") as Hf.
  { intros day Hday. unfold _backup_path_for_date. destruct (ord2ymd day) as [[y m] d] eqn:E.
    pose proof (PyIso.ymd2ord_ord2ymd _ _ _ _ Hday E) as Ho.
    destruct (PyIso.ymd2ord_range _ _ _ _ Ho) as (Hy&Hm&Hd). exists y, m, d.
    by rewrite !PyIso.pad_fixed by (cbn; lia). }
  intros Ha Hb. destruct (Hf a Ha) as (y&m&d&Ea&?&?&?&->). destruct (Hf b Hb) as (y'&m'&d'&Eb&?&?&?&->).
  unfold name_order, cmp_desc. change (u "tca-") with ([116; 99; 97; 45] : pystr).
  change (text_cmp (?x ++ ?s) (?x ++ ?t)) with (text_cmp s t).
  rewrite !PyIso.text_cmp_fixed by (cbn; lia).
  rewrite (PyIso.ymd2ord_compare _ _ _ _ _ _ _ _ Eb Ea).
  by destruct (y' ?= y), (m' ?= m), (d' ?= d).
Qed.

Lemma backup_path_inj a b :
  0 <= a < max_days → 0 <= b < max_days → _backup_path_for_date a = _backup_path_for_date b → a = b.
Proof.
  intros Ha Hb E. pose proof (name_order_days a b Ha Hb) as H. rewrite E, (cmp_refl name_order) in H.
  symmetry in H. apply Z.compare_eq in H. by subst.
Qed.

(** Among backups named after the days [days], the stale ones are those with [n] later days. *)
Lemma stale_days n (d : directory) days day :
  NoDup days → Forall (λ x, 0 <= x < max_days) days →
  (∀ name, name ∈ backup_files d ↔ name ∈ _backup_path_for_date <$> days) → day ∈ days →
  stale n d (_backup_path_for_date day) ↔ n <= Z.of_nat (length (filter (λ x, day < x) days)).
Proof.
  intros Hn Hr Hd Hday. rewrite Forall_forall in Hr.
  assert (∀ l, (∀ x, x ∈ l → x ∈ days) → NoDup l → NoDup (_backup_path_for_date <$> l)) as Hinj.
  { intros l Hl. induction 1 as [|x l Hx Hnl IH]; csimpl; constructor; [|apply IH; set_solver].
    intros (y&E&Hy)%list_elem_of_fmap. apply backup_path_inj in E; [by subst|apply Hr, Hl; set_solver..]. }
  assert (filter (λ o, name_order o (_backup_path_for_date day) = Lt) (backup_files d) ≡ₚ
    _backup_path_for_date <$> filter (λ x, day < x) days) as Hp.
  { apply NoDup_Permutation.
    - apply NoDup_filter, (StronglySorted_NoDup name_order), backup_files_sorted.
    - apply Hinj; [|by apply NoDup_filter]. by intros x [_ ?]%list_elem_of_filter.
    - intros name. rewrite list_elem_of_filter, Hd, !list_elem_of_fmap. split.
      + intros [Ho (x&->&Hx)]. exists x. split; [done|]. apply list_elem_of_filter. split; [|done].
        rewrite name_order_days in Ho by auto. by apply Z.compare_lt_iff.
      + intros (x&->&[Hlt Hx]%list_elem_of_filter). split; [|by exists x].
        rewrite name_order_days by auto. by apply Z.compare_lt_iff. }
  unfold stale. rewrite Hp, length_fmap. split; [tauto|]. intros ?. split; [|done].
  apply Hd, list_elem_of_fmap. by exists day.
Qed.

(** C33. Retention by date. When the backups of the directory are named after distinct days,
    and the system removes what it is asked to, the clean-up with a retained number [k >= 1]
    succeeds and keeps a backup exactly when fewer than [k] backups of later days exist;
    every other file, whatever its name, stays. *)
Theorem retention_newest_days (k : Z) (d : directory) hist days :
  1 <= k → NoDup days → Forall (λ x, 0 <= x < max_days) days →
  (∀ name, name ∈ backup_files d ↔ name ∈ _backup_path_for_date <$> days) →
  (∀ name, unlink_error os name = None) →
  let '(r, w) := _cleanup_old_backups k (Some d, hist) in
  r = Ok tt ∧
  (∀ day, day ∈ days → entry_at w.1 (_backup_path_for_date day) =
     if k <=? Z.of_nat (length (filter (λ x, day < x) days)) then None
     else d !! _backup_path_for_date day) ∧
  (∀ name, name ∉ _backup_path_for_date <$> days → entry_at w.1 name = d !! name).
Proof.
  intros Hk Hn Hr Hd Hos. pose proof (cleanup_triple k d Hk (Some d, hist) eq_refl) as [ [Hp Hx] _].
  destruct (_cleanup_old_backups k (Some d, hist)) as [ [[]|e] w]; cbn [fst snd] in *.
  2: { destruct Hx as (name&_&H). by rewrite Hos in H. }
  split; [done|]. split.
  - intros day Hday. pose proof (stale_days k d days day Hn Hr Hd Hday) as Hs.
    destruct (Z.leb_spec k (Z.of_nat (length (filter (λ x, day < x) days)))).
    + apply Hx. by apply Hs.
    + destruct (Hp (_backup_path_for_date day)) as [|[_ H']]; [done|]. apply Hs in H'. lia.
  - intros name Hni. destruct (Hp name) as [|[_ [H' _]]]; [done|]. by apply Hd in H'.
Qed.

(** ** The job *)

Context (exc_class exc_text : exn → pystr) (as_posix : pystr → pystr).

Definition failure_payload path (run_at : datetime) (error : exn) : JSONValue :=
  JDict [(u "backup_path", JStr (as_posix path)); (u "error_type", JStr (exc_class error));
    (u "error_message", JStr (exc_text error)); (u "failed_at", JStr (isoformat (u "T") run_at))].
Definition _create_failure_notification (ts : pystr) path (run_at : datetime) (error : exn) (db : Db) : Db :=
  (Notifications.create ts BACKUP_FAILURE_NOTIFICATION_TYPE BACKUP_FAILURE_NOTIFICATION_SEVERITY
     BACKUP_FAILURE_NOTIFICATION_MESSAGE (failure_payload path run_at error) db).2.

(** [await asyncio.to_thread(...)]: a cancelled caller does not stop the thread. *)
Definition to_thread {A} (cancelled : bool) (m : io A) : io A := λ w,
  if cancelled then (Err CancelledError, (m w).2) else m w.

(** [try: await to_thread(...)] with its two handlers. *)
Definition guarded {A} (ts : pystr) path (run_at : datetime) (m : io A) (st : world * Db)
    : result exn A * (world * Db) :=
  match m st.1 with
  | (Ok x, w) => (Ok x, (w, st.2))
  | (Err e, w) =>
      if decide (e = CancelledError) then (Err e, (w, st.2))
      else (Err NightlySQLiteBackupError, (w, _create_failure_notification ts path run_at e st.2))
  end.

Definition day_of (d : datetime) : Z := dt_wall d / us_per_second / seconds_per_day.

(** [ts]: the database's clock; the two flags tell which await is cancelled. *)
Definition run_once (ts : pystr) (clock : datetime) (cancel_copy cancel_cleanup unreadable : bool)
    (source : option content) (st : world * Db) : result exn BackupJobRunSummary * (world * Db) :=
  let run_at := _normalize_datetime clock in
  let path := _backup_path_for_date (day_of run_at) in
  match guarded ts path run_at
          (to_thread cancel_copy (_create_backup_and_run_integrity_check source path)) st with
  | (Err e, st) => (Err e, st)
  | (Ok integrity, st) =>
      match _resolve_retain_count unreadable st.2 with
      | Err e => (Err e, st)
      | Ok retain_count =>
          match guarded ts path run_at
                  (to_thread cancel_cleanup (_cleanup_old_backups retain_count)) st with
          | (Err e, st) => (Err e, st)
          | (Ok _, st) => (Ok (MkSummary path integrity), st)
          end
      end
  end.

(** ** A whole run *)

(** Every state of the directory: as before but for the temporary name, or with the checked
    copy in place and then, of that, some stale backups removed. *)
Definition safe (source : option content) path (n : result exn Z) (d0 d : option directory) : Prop :=
  sound source path d0 d ∨
  ∃ src d1 k, source = Some src ∧ in_place path d0 src (Some d1) ∧ n = Ok k ∧ pruned k d1 d.

Lemma guarded_spec {A} ts path run_at (m : io A) (w : world) db :
  let '(r, (w', db')) := guarded ts path run_at m (w, db) in
  w' = (m w).2 ∧
  match r with
  | Ok x => (m w).1 = Ok x ∧ db' = db
  | Err e => ∃ cause, (m w).1 = Err cause ∧
      (e = CancelledError ∧ cause = CancelledError ∧ db' = db ∨
       e = NightlySQLiteBackupError ∧ cause ≠ CancelledError ∧
       db' = _create_failure_notification ts path run_at cause db)
  end.
Proof.
  unfold guarded. cbn [fst snd]. destruct (m w) as [[x|e] w']; [done|].
  case_decide; split; try done; exists e; naive_solver.
Qed.

(** The outcome of a run, by what is left in the directory and in the database. *)
Definition outcome (ts : pystr) (run_at : datetime) path (source : option content) (n : result exn Z)
    (d0 : option directory) (db : Db) (r : result exn BackupJobRunSummary)
    (d : option directory) (db' : Db) : Prop :=
  match r with
  | Ok summary =>
      summary = MkSummary path (u "ok") ∧ db' = db ∧
      ∃ src d1 k, source = Some src ∧ in_place path d0 src (Some d1) ∧ n = Ok k ∧
        ∀ name, (stale k d1 name → entry_at d name = None) ∧
                (¬ stale k d1 name → entry_at d name = d1 !! name)
  | Err e =>
      (e = CancelledError ∧ db' = db) ∨
      (e = NightlySQLiteBackupError ∧ (∃ cause, db' = set_notifications
         (<[next_id (notifications db) := Notifications.new_row ts BACKUP_FAILURE_NOTIFICATION_TYPE
              BACKUP_FAILURE_NOTIFICATION_SEVERITY BACKUP_FAILURE_NOTIFICATION_MESSAGE
              (failure_payload path run_at cause)]> (notifications db)) db) ∧
         (only_tmp path d0 d ∧
            (d = d0 ∨ entry_at d (temporary_backup_path path) = None ∨ refuses_tmp path ∨
             entry_at d0 (temporary_backup_path path) = Some Directory) ∨
          ∃ src d1 k, source = Some src ∧ in_place path d0 src (Some d1) ∧ n = Ok k ∧
            pruned k d1 d ∧ refuses k d1)) ∨
      (n = Err e ∧ db' = db ∧ ∃ src, source = Some src ∧ in_place path d0 src d)
  end.

Lemma copied_sound source path d0 r d : copied source path d0 r d → sound source path d0 d.
Proof.
  destruct r as [v|e]; cbn; [|intros [H _]; by apply only_tmp_sound].
  intros (_&src&Hs&c&Hv&Ho&Hp&_). split; [done|]. right. by exists src, c.
Qed.

Definition history (I : option directory → Prop) (w w' : world) : Prop :=
  I w'.1 ∧ ∃ l, w'.2 = w.2 ++ l ∧ Forall I l.
Lemma history_mono (I J : option directory → Prop) w w' :
  (∀ d, I d → J d) → history I w w' → history J w w'.
Proof.
  intros H [Hi (l&E&Hl)]. split; [by apply H|]. exists l. split; [done|]. by eapply Forall_impl.
Qed.
Lemma history_trans I w w' w'' : history I w w' → history I w' w'' → history I w w''.
Proof.
  intros [_ (l&E&Hl)] [Hi (l'&E'&Hl')]. split; [done|]. exists (l ++ l').
  rewrite E', E, <-app_assoc. split; [done|by apply Forall_app_2].
Qed.

(** The clean-up after a copy that is in place. *)
Lemma cleanup_phase ts run_at path cancelled source src k d0 (w : world) db :
  1 <= k → source = Some src → in_place path d0 src w.1 →
  let '(r, (w', db')) := guarded ts path run_at (to_thread cancelled (_cleanup_old_backups k)) (w, db) in
  history (safe source path (Ok k) d0) w w' ∧
  outcome ts run_at path source (Ok k) d0 db ((λ _, MkSummary path (u "ok")) <$> r) w'.1 db'.
Proof.
  intros Hk Hs Hin. destruct w as [[d1|] hist]; [|by destruct Hin as (c&_&_&H&_)].
  destruct (cleanup_triple k d1 Hk (Some d1, hist) eq_refl) as [ [Hp Hr] Hl].
  set (m := to_thread cancelled (_cleanup_old_backups k)).
  pose proof (guarded_spec ts path run_at m (Some d1, hist) db) as Hg.
  destruct (guarded ts path run_at m _) as [r [w' db']]. destruct Hg as [-> Hg].
  assert (history (safe source path (Ok k) d0) (Some d1, hist) (_cleanup_old_backups k (Some d1, hist)).2)
    as Hh. { apply (history_mono (pruned k d1)); [|done]. intros d Hd. right. by exists src, d1, k. }
  unfold m, to_thread in *. destruct cancelled; cbn [fst snd] in *; (split; [done|]).
  - destruct r as [|e]; [by destruct Hg|]. left. naive_solver.
  - destruct (_cleanup_old_backups k _) as [[[]|e0] w2]; cbn [fst snd] in *.
    + destruct r as [[]|e]; [|naive_solver]. destruct Hg as [_ ->]. cbn. split_and!; [done..|].
      exists src, d1, k. split_and!; [done..|]. intros name. split; [auto|]. intros Hn.
      destruct (Hp name) as [|[_ H]]; [done|by destruct Hn].
    + destruct r as [[]|e]; [naive_solver|]. destruct Hg as (cause&_&[(->&_&->)|(->&_&->)]); cbn.
      * by left.
      * right. left. split; [done|]. split; [by exists cause|]. right. by exists src, d1, k.
Qed.

Lemma run_history ts clock cancel_copy cancel_cleanup unreadable source (w : world) db :
  let run_at := _normalize_datetime clock in
  let path := _backup_path_for_date (day_of run_at) in
  let n := _resolve_retain_count unreadable db in
  let '(r, (w', db')) := run_once ts clock cancel_copy cancel_cleanup unreadable source (w, db) in
  history (safe source path n w.1) w w' ∧ outcome ts run_at path source n w.1 db r w'.1 db'.
Proof.
  intros run_at path n.
  assert (∀ k, n = Ok k → 1 <= k) as Hpos by (intros k; apply retain_count_pos).
  destruct (create_triple source path w.1 w eq_refl) as [Hc Hl].
  unfold run_once. fold run_at. fold path.
  set (m := to_thread cancel_copy (_create_backup_and_run_integrity_check source path)).
  assert ((m w).2 = (_create_backup_and_run_integrity_check source path w).2 ∧
    ((m w).1 = Err CancelledError ∨ (m w).1 = (_create_backup_and_run_integrity_check source path w).1))
    as [E2 E1] by (unfold m, to_thread; destruct cancel_copy; auto).
  pose proof (guarded_spec ts path run_at m w db) as Hg.
  destruct (guarded ts path run_at m (w, db)) as [r [w1 db1]]. destruct Hg as [-> Hg].
  destruct (_create_backup_and_run_integrity_check source path w) as [r0 w0].
  cbn [fst snd] in *. rewrite E2 in *. clearbody m.
  assert (history (sound source path w.1) w w0) as Hh by (split; [by eapply copied_sound|done]).
  assert (history (safe source path n w.1) w w0) as Hh' by (eapply history_mono; [by left|done]).
  destruct r as [v|e]; cbn [fst snd].
  - destruct Hg as [E ->]. rewrite E in E1. destruct E1 as [|<-]; [done|].
    destruct Hc as (->&src&Hs&Hin). fold n. destruct n as [k|e] eqn:En.
    + pose proof (cleanup_phase ts run_at path cancel_cleanup source src k w.1 w0 db
        (Hpos k eq_refl) Hs Hin) as Hd.
      destruct (guarded ts path run_at _ (w0, db)) as [r [w2 db2]]. destruct Hd as [Hd Ho].
      destruct r; cbn in Ho; (split; [by eapply history_trans|done]).
    + split; [done|]. right. right. split; [done|]. split; [done|]. by exists src.
  - destruct Hg as (cause&E&Hg). split; [done|].
    destruct Hg as [(->&_&->)|(->&Hne&->)]; [by left|]. right. left. split; [done|].
    split; [by exists cause|]. left. rewrite E in E1. destruct E1 as [ [= ->]|<-]; [done|]. exact Hc.
Qed.

Lemma scratch_not_backup path name : name ∈ scratch path → is_backup_name name = false.
Proof.
  intros Hin. apply andb_false_iff. right. apply bool_decide_eq_false_2. intros [k E].
  apply (f_equal last) in E. unfold scratch, side_names, temporary_backup_path in Hin.
  rewrite !elem_of_cons, elem_of_nil in Hin.
  destruct Hin as [->|[->|[->|[->|[] ] ] ] ]; rewrite !last_app in E;
    change (last (u ".db")) with (Some 98) in E;
    first [ change (last (u ".tmp")) with (Some 112) in E; discriminate
          | change (last (u "-journal")) with (Some 108) in E; discriminate
          | change (last (u "-wal")) with (Some 108) in E; discriminate
          | change (last (u "-shm")) with (Some 109) in E; discriminate ].
Qed.

(** No backup has a name that sorts after the day's. *)
Definition latest path (d : option directory) : Prop :=
  ∀ name, name ∈ backup_files (default ∅ d) → text_cmp name path ≠ Gt.

Lemma latest_kept path d0 src d1 k :
  1 <= k → in_place path d0 src (Some d1) → latest path d0 → ¬ stale k d1 path.
Proof.
  intros Hk (c&_&Ho&_) Hl [_ Hlen].
  assert (filter (λ o, name_order o path = Lt) (backup_files d1) = []) as E.
  { destruct (filter _ _) as [|o l] eqn:Ef; [done|]. exfalso.
    assert (o ∈ filter (λ o, name_order o path = Lt) (backup_files d1)) as Hin by (rewrite Ef; by left).
    apply list_elem_of_filter in Hin as [Hlt [Hb [c' Hc']]%elem_of_backup_files].
    assert (text_cmp o path = Gt) as Hgt.
    { unfold name_order, cmp_desc in Hlt. rewrite (cmp_opp text_cmp), Hlt. done. }
    assert (o ≠ path) as Hne by (intros ->; by rewrite (cmp_refl text_cmp) in Hgt).
    apply (Hl o); [|done]. apply elem_of_backup_files. split; [done|]. exists c'.
    rewrite entry_at_default, <-Ho; [done| |done].
    intros Hs%scratch_not_backup. congruence. }
  rewrite E in Hlen. cbn in Hlen. lia.
Qed.

(** C32. The nightly backup. At every moment of a run, and so wherever the process may stop,
    the directory is as it was except for the temporary name and SQLite's side files of it,
    until the copy takes the day's name in one step: by then it is complete and the integrity
    check has said ok; after that only stale backups disappear. A run that returns has put
    the checked copy under the day's name and then removed exactly the backups that have at
    least the retained number of newer names (1 or more), and leaves the database alone; when
    no backup had a name that sorts after the day's, the checked copy is still there. (A
    later or foreign name counts as newer, so that the day's own copy may be removed:
    [foreign_name_wins].) A run that raises is cancelled, or adds exactly one failure
    notification, or failed to decode the retention setting after the copy. A failed copy
    leaves every other file and the previous backup of the day as they were, and no temporary
    file (side files apart), unless the system refuses to remove it, a directory has its
    name, or the directory is untouched. *)
Theorem nightly_backup ts clock cancel_copy cancel_cleanup unreadable source (w : world) db :
  let run_at := _normalize_datetime clock in
  let path := _backup_path_for_date (day_of run_at) in
  let n := _resolve_retain_count unreadable db in
  let '(r, (w', db')) := run_once ts clock cancel_copy cancel_cleanup unreadable source (w, db) in
  history (safe source path n w.1) w w' ∧
  outcome ts run_at path source n w.1 db r w'.1 db' ∧
  (∀ k, n = Ok k → 1 <= k) ∧
  (latest path w.1 → ∀ summary, r = Ok summary →
     ∃ src c, source = Some src ∧ verified src c ∧ entry_at w'.1 path = Some (File c)).
Proof.
  intros run_at path n.
  assert (∀ k, n = Ok k → 1 <= k) as Hpos by (intros k; apply retain_count_pos).
  pose proof (run_history ts clock cancel_copy cancel_cleanup unreadable source w db) as H.
  cbv zeta in H. fold run_at in H. fold path in H. fold n in H.
  destruct (run_once _ _ _ _ _ _ (w, db)) as [r [w' db'] ]. destruct H as [Hh Ho].
  split_and!; [done..|]. intros Hl summary ->.
  destruct Ho as (_&_&src&d1&k&Hs&Hin&Hk&Hd).
  pose proof (latest_kept path w.1 src d1 k (Hpos k Hk) Hin Hl) as Hn.
  destruct Hin as (c&Hv&_&Hp&_). exists src, c. split_and!; [done..|].
  by rewrite (proj2 (Hd path) Hn).
Qed.

End backup.

(** ** A concrete platform *)

Definition sample_platform : Platform :=
  MkPlatform None (λ _, None)
    (λ c _, ([(take 1 c, MkSides (Some []) None None)], Ok (c, MkSides None None None)))
    (λ _ _, ([MkSides None (Some []) (Some [])], Ok (Some [JStr (u "ok")]))) None
    (content := pystr).
Definition sample_directory (names : list pystr) : gmap pystr (entry (content := pystr)) :=
  list_to_map ((λ name, (name, File [])) <$> names).

Lemma retention_newest_days_witness :
  let days := [738000; 738001; 738003] in
  let d := sample_directory (u "tca-notes.txt" :: (_backup_path_for_date <$> days)) in
  (∀ name, name ∈ backup_files d ↔ name ∈ _backup_path_for_date <$> days) ∧
  let '(r, w) := _cleanup_old_backups sample_platform 2 (Some d, []) in
  r = Ok tt ∧
  (∀ day, day ∈ days → entry_at w.1 (_backup_path_for_date day) =
     if 2 <=? Z.of_nat (length (filter (λ x, day < x) days)) then None
     else d !! _backup_path_for_date day) ∧
  (∀ name, name ∉ _backup_path_for_date <$> days → entry_at w.1 name = d !! name).
Proof.
  intros days d.
  assert (∀ name, name ∈ backup_files d ↔ name ∈ _backup_path_for_date <$> days) as H.
  { intros name. replace (backup_files d) with (reverse (_backup_path_for_date <$> days)) by by_eval.
    by rewrite elem_of_reverse. }
  split; [exact H|].
  apply (retention_newest_days sample_platform 2 d [] days).
  - lia.
  - by_eval.
  - refine (bool_decide_unpack _ _). vm_compute. exact I.
  - exact H.
  - done.
Defined.

(** A night's run: the directory holds the night before's backup, and at the end the
    checked copy too. *)
Definition sample_text : exn → pystr := λ _, [].
Definition sample_posix : pystr → pystr := λ p, p.
Definition sample_clock : datetime := DT (738000 * seconds_per_day * us_per_second) (Some 0).
Definition sample_before : world (content := pystr) :=
  (Some (sample_directory [_backup_path_for_date 737999]), []).
Definition sample_night :=
  run_once sample_platform sample_text sample_text sample_posix (u "now") sample_clock false false false
    (Some (u "data")) (sample_before, empty_db).
Lemma sample_latest :
  latest (_backup_path_for_date (day_of (_normalize_datetime sample_clock))) sample_before.1.
Proof.
  intros name.
  assert (backup_files (default ∅ sample_before.1) = [_backup_path_for_date 737999]) as ->
    by (vm_compute; reflexivity).
  intros ->%list_elem_of_singleton. vm_compute. discriminate.
Qed.
Lemma nightly_backup_witness :
  sample_night.1 = Ok (MkSummary (_backup_path_for_date 738000) (u "ok")) ∧
  entry_at sample_night.2.1.1 (_backup_path_for_date 738000) = Some (File (u "data")).
Proof.
  assert (sample_night.1 = Ok (MkSummary (_backup_path_for_date 738000) (u "ok"))) as E
    by (vm_compute; reflexivity).
  split; [exact E|].
  pose proof (nightly_backup sample_platform sample_text sample_text sample_posix (u "now") sample_clock
    false false false (Some (u "data")) sample_before empty_db) as H.
  cbv zeta in H. fold sample_night in H. destruct sample_night as [r [w' db'] ]. cbn [fst snd] in *.
  destruct H as (_&_&_&H).
  destruct (H sample_latest _ E) as (src&c&Hs&(found&s&Hc&_)&Hp).
  injection Hs as <-. cbn in Hc. injection Hc as <- _. exact Hp.
Defined.

(** A name that is no date but sorts after the digits counts as the newest, and with one
    backup to keep the fresh one is removed by the run that made it. *)
Example foreign_name_wins :
  let d := sample_directory [u "tca-old.db"] in
  let db := set_settings {[BACKUP_RETAIN_COUNT_SETTING_KEY := JInt 1]} empty_db in
  let '(r, (w, _)) := run_once sample_platform (λ _, []) (λ _, []) id (u "now")
    (DT (738000 * seconds_per_day * us_per_second) (Some 0)) false false false (Some (u "data")) ((Some d, []), db) in
  r = Ok (MkSummary (_backup_path_for_date 738000) (u "ok")) ∧
  entry_at w.1 (_backup_path_for_date 738000) = None.
Proof. vm_compute. by split. Qed.
End Backup.
