(* ===== verification/Strategy.v ===== *)
(** Dedupe strategies: the result contract (src/tca/dedupe/strategy_contract.py), the
    short-circuiting chain with its trace (strategy_chain.py) and the exact-URL
    strategy (exact_url_strategy.py). *)

From Stdlib Require Import SpecFloat.
From S2P Require Import Prelude PyValue.
Local Open Scope Z_scope.

(** * Python objects

    What a strategy may return is not typed: a contract check sees a mapping or some
    other object. A mapping holds its items in order, each key once. *)
Inductive obj :=
  | ONone
  | OBool (b : bool)
  | OInt (n : Z)
  | OFloat (f : pyfloat)
  | OStr (s : pystr)
  | OMap (items : list (obj * obj))
  | OOther (n : Z).

(** [mapping.get(key)] for a text key. *)
Fixpoint obj_get (items : list (obj * obj)) (key : pystr) : obj :=
  match items with
  | [] => ONone
  | (OStr k, v) :: items => if bool_decide (k = key) then v else obj_get items key
  | _ :: items => obj_get items key
  end.

Module Strategy.

(** * The contract *)

Abbreviation StrategyMetadata := (list (pystr * obj)).

Inductive StrategyResult :=
  | DuplicateResult (score : pyfloat) (reason : pystr) (metadata : option StrategyMetadata)
  | DistinctResult (reason : pystr) (metadata : option StrategyMetadata)
  | AbstainResult (reason : pystr) (metadata : option StrategyMetadata).

Definition StrategyContractError : exn := AppError "StrategyContractError".

Definition duplicate (score : pyfloat) (reason : pystr) (metadata : option StrategyMetadata)
  : StrategyResult := DuplicateResult score reason metadata.
Definition distinct (reason : pystr) (metadata : option StrategyMetadata) : StrategyResult :=
  DistinctResult reason metadata.
Definition abstain (reason : pystr) (metadata : option StrategyMetadata) : StrategyResult :=
  AbstainResult reason metadata.

Definition status (r : StrategyResult) : pystr :=
  match r with
  | DuplicateResult _ _ _ => u "DUPLICATE"
  | DistinctResult _ _ => u "DISTINCT"
  | AbstainResult _ _ => u "ABSTAIN"
  end.
Definition reason (r : StrategyResult) : pystr :=
  match r with
  | DuplicateResult _ x _ | DistinctResult x _ | AbstainResult x _ => x
  end.
Definition metadata (r : StrategyResult) : option StrategyMetadata :=
  match r with
  | DuplicateResult _ _ m | DistinctResult _ m | AbstainResult _ m => m
  end.

(** [float(n)] of an integer too large for a float raises [OverflowError]. *)
Definition _coerce_score (result_map : list (obj * obj)) : result exn pyfloat :=
  match obj_get result_map (u "score") with
  | OInt n => float_of_int n
  | OFloat f => if isfinite f then Ok f else Err StrategyContractError
  | _ => Err StrategyContractError
  end.

Fixpoint metadata_items (items : list (obj * obj)) : result exn StrategyMetadata :=
  match items with
  | [] => Ok []
  | (OStr k, v) :: items => rest ← metadata_items items; mret ((k, v) :: rest)
  | _ :: _ => Err StrategyContractError
  end.

Definition _coerce_metadata (result_map : list (obj * obj))
    : result exn (option StrategyMetadata) :=
  match obj_get result_map (u "metadata") with
  | ONone => Ok None
  | OMap items => m ← metadata_items items; mret (Some m)
  | _ => Err StrategyContractError
  end.

Definition coerce_strategy_result (raw : obj) : result exn StrategyResult :=
  match raw with
  | OMap m =>
      match obj_get m (u "status") with
      | OStr st =>
          if decide (st = u "DUPLICATE" ∨ st = u "DISTINCT" ∨ st = u "ABSTAIN") then
            match obj_get m (u "reason") with
            | OStr r =>
                let r := strip r in
                if str_truthy r then
                  md ← _coerce_metadata m;
                  if decide (st = u "DUPLICATE")
                  then score ← _coerce_score m; mret (duplicate score r md)
                  else if decide (st = u "DISTINCT") then mret (distinct r md)
                  else mret (abstain r md)
                else Err StrategyContractError
            | _ => Err StrategyContractError
            end
          else Err StrategyContractError
      | _ => Err StrategyContractError
      end
  | _ => Err StrategyContractError
  end.

(** A strategy is called for what it returns or raises. The name only decorates the
    message of a contract error. *)
Definition run_strategy (strategy_name : pystr) (strategy : result exn obj)
    : result exn StrategyResult :=
  raw ← strategy; coerce_strategy_result raw.

Definition metadata_obj (m : StrategyMetadata) : list (obj * obj) :=
  (λ kv : pystr * obj, (OStr kv.1, kv.2)) <$> m.
#[global] Arguments metadata_obj : simpl never.

(** The dictionary of a result. *)
Definition result_items (r : StrategyResult) : list (obj * obj) :=
  [(OStr (u "status"), OStr (status r))] ++
  match r with
  | DuplicateResult s _ _ => [(OStr (u "score"), OFloat s)]
  | _ => []
  end ++
  [(OStr (u "reason"), OStr (reason r))] ++
  match metadata r with
  | Some m => [(OStr (u "metadata"), OMap (metadata_obj m))]
  | None => []
  end.
Definition to_obj (r : StrategyResult) : obj := OMap (result_items r).

(** * The chain *)

Definition NO_STRATEGY_MATCH_REASON : pystr := u "no_strategy_match".

Record StrategyDecisionAttempt := MkAttempt {
  strategy_name : pystr;
  outcome : pystr;
  attempt_reason : pystr;
  attempt_score : option pyfloat;
}.

Definition attempt_of (name : pystr) (r : StrategyResult) : StrategyDecisionAttempt :=
  MkAttempt name (status r) (reason r)
    match r with DuplicateResult s _ _ => Some s | _ => None end.

Definition is_abstain (r : StrategyResult) : bool :=
  match r with AbstainResult _ _ => true | _ => false end.

(** The loop, with the attempts made so far. *)
Fixpoint chain_loop (strategies : list (pystr * result exn obj))
    (attempts : list StrategyDecisionAttempt)
    : result exn (StrategyResult * list StrategyDecisionAttempt) :=
  match strategies with
  | [] => Ok (distinct NO_STRATEGY_MATCH_REASON None, attempts)
  | (name, strategy) :: strategies =>
      r ← run_strategy name strategy;
      let attempts := attempts ++ [attempt_of name r] in
      if is_abstain r then chain_loop strategies attempts else mret (r, attempts)
  end.

Definition execute_strategy_chain_with_trace (strategies : list (pystr * result exn obj))
    : result exn (StrategyResult * list StrategyDecisionAttempt) := chain_loop strategies [].

Definition execute_strategy_chain (strategies : list (pystr * result exn obj))
    : result exn StrategyResult :=
  '(r, _) ← execute_strategy_chain_with_trace strategies; mret r.

(** * Exact URL *)

Definition EXACT_URL_MATCH_REASON : pystr := u "exact_url_match".
Definition EXACT_URL_MISMATCH_REASON : pystr := u "exact_url_mismatch".
Definition EXACT_URL_MISSING_REASON : pystr := u "exact_url_missing".

Definition one : pyfloat := S754_finite false 4503599627370496 (-52).

(** Both values are present, and equal or not; [None] when one is missing. *)
Definition compare_present (a b : option pystr) : option bool :=
  match a, b with Some a, Some b => Some (bool_decide (a = b)) | _, _ => None end.

Definition evaluate_exact_url (left_url right_url left_hash right_hash : option pystr)
    : StrategyResult :=
  match compare_present left_hash right_hash with
  | Some true => duplicate one EXACT_URL_MATCH_REASON None
  | h =>
      match compare_present left_url right_url with
      | Some true => duplicate one EXACT_URL_MATCH_REASON None
      | v =>
          if bool_decide (is_Some h ∨ is_Some v)
          then distinct EXACT_URL_MISMATCH_REASON None
          else abstain EXACT_URL_MISSING_REASON None
      end
  end.

(** * Properties *)

(** What the contract promises of every coerced result. *)
Definition valid (r : StrategyResult) : Prop :=
  reason r ≠ [] ∧ strip (reason r) = reason r ∧
  match r with DuplicateResult s _ _ => isfinite s = true | _ => True end.

Lemma coerce_Ok raw r :
  coerce_strategy_result raw = Ok r →
  ∃ m txt md, raw = OMap m ∧ obj_get m (u "status") = OStr (status r) ∧
    obj_get m (u "reason") = OStr txt ∧ reason r = strip txt ∧ strip txt ≠ [] ∧
    _coerce_metadata m = Ok md ∧ metadata r = md ∧
    match r with DuplicateResult s _ _ => _coerce_score m = Ok s | _ => True end.
Proof.
  unfold coerce_strategy_result. destruct raw as [| | | | |m|]; try done.
  destruct (obj_get m (u "status")) as [| | | |st| |] eqn:Es; try done.
  case_decide as Hst; [|done].
  destruct (obj_get m (u "reason")) as [| | | |txt| |] eqn:Er; try done.
  destruct (str_truthy (strip txt)) eqn:Et; [|done].
  assert (strip txt ≠ []) as Hne by (by destruct (strip txt)).
  intros (md&Em&H)%bind_Ok_inv. exists m, txt, md.
  case_decide as H1; [subst|case_decide as H2].
  - apply bind_Ok_inv in H as (s&Hs&[= <-]). by split_and!.
  - subst. injection H as <-. by split_and!.
  - destruct Hst as [? | [? | ->] ]; [done..|]. injection H as <-. by split_and!.
Qed.

Lemma metadata_items_fmap md :
  metadata_items (metadata_obj md) = Ok md.
Proof.
  unfold metadata_obj. induction md as [|[k v] md IH]; [done|].
  rewrite fmap_cons. cbn [metadata_items fst snd]. by rewrite IH.
Qed.

Lemma coerce_score_finite m s : _coerce_score m = Ok s → isfinite s = true.
Proof.
  unfold _coerce_score, float_of_int. destruct (obj_get m _) as [| |n|f| | |]; try done.
  - destruct (isfinite _) eqn:E; [|done]. by intros [= <-].
  - destruct (isfinite f) eqn:E; [|done]. by intros [= <-].
Qed.

Lemma coerce_valid raw r : coerce_strategy_result raw = Ok r → valid r.
Proof.
  intros (m&txt&md&_&_&_&Hr&Hne&_&_&Hs)%coerce_Ok. unfold valid. rewrite Hr, strip_idem.
  split_and!; try done. destruct r; try done. by eapply coerce_score_finite.
Qed.

Lemma result_items_get r :
  obj_get (result_items r) (u "status") = OStr (status r) ∧
  obj_get (result_items r) (u "reason") = OStr (reason r) ∧
  obj_get (result_items r) (u "metadata") =
    match metadata r with Some m => OMap (metadata_obj m) | None => ONone end ∧
  obj_get (result_items r) (u "score") =
    match r with DuplicateResult s _ _ => OFloat s | _ => ONone end.
Proof. by destruct r as [s x [md|]|x [md|]|x [md|]]. Qed.

Lemma coerce_metadata_items r : _coerce_metadata (result_items r) = Ok (metadata r).
Proof.
  unfold _coerce_metadata. destruct (result_items_get r) as (_&_&->&_).
  destruct (metadata r); [|done]. by rewrite metadata_items_fmap.
Qed.

(** A valid result passes the contract as it is. *)
Lemma coerce_to_obj r : valid r → coerce_strategy_result (to_obj r) = Ok r.
Proof.
  intros (Hne&Hs&Hf). unfold coerce_strategy_result, to_obj.
  rewrite coerce_metadata_items. unfold _coerce_score.
  destruct (result_items_get r) as (->&->&_&->). rewrite Hs.
  assert (str_truthy (reason r) = true) as -> by (by destruct (reason r)).
  destruct r; cbn; [by rewrite Hf|done..].
Qed.

(** The contract check is a closure: whatever a strategy returned, an accepted
    result has a known status, a stripped non-empty reason and, for DUPLICATE, a finite
    score; checking its dictionary again accepts it unchanged; and the check accepts
    every result of that form. *)
Theorem coerce_idempotent raw r :
  coerce_strategy_result raw = Ok r →
  valid r ∧ coerce_strategy_result (to_obj r) = Ok r.
Proof. intros H. pose proof (coerce_valid _ _ H). split; [done|by apply coerce_to_obj]. Qed.

(** ** The chain *)

Lemma chain_loop_acc strategies attempts :
  chain_loop strategies attempts =
  '(r, tr) ← chain_loop strategies []; mret (r, attempts ++ tr).
Proof.
  revert attempts. induction strategies as [|[name s] strategies IH]; intros attempts; simpl.
  - by rewrite app_nil_r.
  - destruct (run_strategy name s) as [r|]; simpl; [|done].
    destruct (is_abstain r); simpl; [|done].
    rewrite IH, (IH [_]). destruct (chain_loop strategies []) as [[r' tr]|]; simpl; [|done].
    by rewrite <-app_assoc.
Qed.

(** [Forall2 abstained ss rs]: each strategy ran and abstained with that result. *)
Definition abstained (s : pystr * result exn obj) (r : StrategyResult) : Prop :=
  run_strategy s.1 s.2 = Ok r ∧ is_abstain r = true.
Definition trace (ss : list (pystr * result exn obj)) (rs : list StrategyResult) :=
  zip_with (λ s r, attempt_of s.1 r) ss rs.

Lemma chain_abstained ss rs rest :
  Forall2 abstained ss rs →
  chain_loop (ss ++ rest) [] =
  '(r, tr) ← chain_loop rest []; mret (r, trace ss rs ++ tr).
Proof.
  induction 1 as [|[name s] r ss rs [Hr Ha] _ IH]; simpl.
  - by destruct (chain_loop rest []) as [[]|].
  - simpl in Hr. rewrite Hr. simpl. rewrite Ha, chain_loop_acc, IH.
    by destruct (chain_loop rest []) as [[]|].
Qed.

(** The chain short-circuits: it returns the result of the first strategy that
    does not abstain, with one attempt per strategy run up to and including it, whatever
    the strategies after it would do; when all abstain it returns DISTINCT with
    [no_strategy_match] and an attempt for each; and the first strategy that raises or
    violates the contract ends it with that exception. These are all the cases. *)
Theorem chain_first_decision strategies :
  (∃ pre rs name s post r,
     strategies = pre ++ (name, s) :: post ∧ Forall2 abstained pre rs ∧
     run_strategy name s = Ok r ∧ is_abstain r = false ∧
     execute_strategy_chain_with_trace strategies
       = Ok (r, trace pre rs ++ [attempt_of name r])) ∨
  (∃ rs, Forall2 abstained strategies rs ∧
     execute_strategy_chain_with_trace strategies
       = Ok (distinct NO_STRATEGY_MATCH_REASON None, trace strategies rs)) ∨
  (∃ pre rs name s post e,
     strategies = pre ++ (name, s) :: post ∧ Forall2 abstained pre rs ∧
     run_strategy name s = Err e ∧
     execute_strategy_chain_with_trace strategies = Err e).
Proof.
  assert ((∃ pre rs name s post r, strategies = pre ++ (name, s) :: post ∧
             Forall2 abstained pre rs ∧ run_strategy name s = r ∧
             (∀ x, r = Ok x → is_abstain x = false)) ∨
          ∃ rs, Forall2 abstained strategies rs) as [H|H].
  { induction strategies as [|[name s] ss IH]; [right; by exists []|].
    destruct (run_strategy name s) as [r|e] eqn:Er; [destruct (is_abstain r) eqn:Ea|].
    - destruct IH as [(pre&rs&nm&s'&post&r'&->&Hf&Hr&Hx)|[rs Hf]].
      + left. exists ((name, s) :: pre), (r :: rs), nm, s', post, r'.
        split_and!; try done. by constructor.
      + right. exists (r :: rs). by constructor.
    - left. exists [], [], name, s, ss, (Ok r). split_and!; try done. by intros ? [= <-].
    - left. exists [], [], name, s, ss, (Err e). by split_and!. }
  - destruct H as (pre&rs&name&s&post&[r|e]&->&Hf&Hr&Hx).
    + left. exists pre, rs, name, s, post, r. split_and!; try done; [by apply Hx|].
      unfold execute_strategy_chain_with_trace. rewrite (chain_abstained _ _ _ Hf). simpl.
      rewrite Hr. simpl. by rewrite Hx.
    + right; right. exists pre, rs, name, s, post, e. split_and!; try done.
      unfold execute_strategy_chain_with_trace. rewrite (chain_abstained _ _ _ Hf). simpl.
      by rewrite Hr.
  - right; left. destruct H as [rs Hf]. exists rs. split; [done|].
    unfold execute_strategy_chain_with_trace.
    rewrite <-(app_nil_r strategies) at 1. rewrite (chain_abstained _ _ _ Hf). simpl.
    by rewrite app_nil_r.
Qed.

(** The exact-URL strategy: DUPLICATE when both hashes are known and equal or both
    URLs are; else DISTINCT when at least one pair was comparable; else ABSTAIN. The
    verdict does not depend on which item is left or right, and always meets the
    contract. *)
Theorem exact_url_spec lu ru lh rh :
  (is_abstain (evaluate_exact_url lu ru lh rh) = true ↔
     (lu = None ∨ ru = None) ∧ (lh = None ∨ rh = None)) ∧
  (status (evaluate_exact_url lu ru lh rh) = u "DUPLICATE" ↔
     (∃ h, lh = Some h ∧ rh = Some h) ∨ (∃ v, lu = Some v ∧ ru = Some v)) ∧
  evaluate_exact_url ru lu rh lh = evaluate_exact_url lu ru lh rh ∧
  valid (evaluate_exact_url lu ru lh rh).
Proof.
  unfold evaluate_exact_url, compare_present.
  destruct lh as [lh|], rh as [rh|], lu as [lu|], ru as [ru|];
    repeat match goal with
    | |- context [bool_decide (?a = ?b)] =>
        rewrite ?(bool_decide_ext (b = a) (a = b)) by done;
        destruct (bool_decide_reflect (a = b)); subst
    end; cbn; (split_and!; [naive_solver|naive_solver|done|by repeat split]).
Qed.
(** ** Instance: a dictionary with a padded reason *)
Definition sample_raw : obj :=
  OMap [(OStr (u "status"), OStr (u "DUPLICATE")); (OStr (u "score"), OInt 1);
        (OStr (u "reason"), OStr (u " same "))].

Lemma coerce_idempotent_witness :
  ∃ r, coerce_strategy_result sample_raw = Ok r ∧ valid r ∧ reason r = u "same".
Proof.
  destruct (coerce_strategy_result sample_raw) as [r|] eqn:E; [|by vm_compute in E].
  exists r. split; [done|]. destruct (coerce_idempotent sample_raw r E) as [Hv _].
  split; [done|]. vm_compute in E. by injection E as <-.
Defined.
End Strategy.
