(* ===== verification/Matchers.v ===== *)
(** The strategies that compare normalised content: content hash
    (src/tca/dedupe/content_hash_strategy.py), title similarity
    (title_similarity_strategy.py) and semantic similarity
    (semantic_similarity_strategy.py, embedding_service.py). *)

From Stdlib Require Import SpecFloat.
From S2P Require Import Prelude PyValue PyText PySha PyUrl Normalize Texts Strategy.
Import Strategy.
Local Open Scope Z_scope.

(** * Content hash *)

Module ContentHash.

Definition CONTENT_HASH_MATCH_REASON : pystr := u "content_hash_match".
Definition CONTENT_HASH_MISMATCH_REASON : pystr := u "content_hash_mismatch".
Definition CONTENT_HASH_MISSING_REASON : pystr := u "content_hash_missing".

Definition _sha256_hex (value : pystr) : result exn pystr :=
  bytes ← utf8_encode value; mret (sha256_hexdigest bytes).
Definition hash_of (normalized : pystr) : result exn (option pystr) :=
  if str_truthy normalized then h ← _sha256_hex normalized; mret (Some h) else mret None.

Definition opt_str (s : option pystr) : obj := match s with Some s => OStr s | None => ONone end.

Definition evaluate_content_hash `{UnicodeData} (left_title left_body right_title right_body : option pystr)
    : result exn StrategyResult :=
  left_normalized ← build_hash_normalized_input left_title left_body;
  right_normalized ← build_hash_normalized_input right_title right_body;
  left_hash ← hash_of left_normalized;
  right_hash ← hash_of right_normalized;
  let metadata := Some [(u "left_content_hash", opt_str left_hash);
                        (u "right_content_hash", opt_str right_hash)] in
  mret match left_hash, right_hash with
       | Some l, Some r =>
           if decide (l = r) then duplicate one CONTENT_HASH_MATCH_REASON metadata
           else distinct CONTENT_HASH_MISMATCH_REASON metadata
       | _, _ => abstain CONTENT_HASH_MISSING_REASON metadata
       end.
End ContentHash.

(** * Title similarity *)

(** RapidFuzz's token_set_ratio: a similarity between 0 and 100 that ignores the order of
    its arguments and is 100 for equal texts. *)
Class RapidFuzz := { token_set_ratio : pystr → pystr → pyfloat }.

Definition hundred : pyfloat := S754_finite false 7036874417766400 (-46).
Class RapidFuzzLaws `{RapidFuzz} : Prop := {
  token_set_ratio_sym a b : token_set_ratio a b = token_set_ratio b a;
  token_set_ratio_same a : a ≠ [] → token_set_ratio a a = hundred;
}.

Module TitleSimilarity.

(** 0.92 *)
Definition TITLE_SIMILARITY_THRESHOLD_DEFAULT : pyfloat :=
  S754_finite false 8286623314361713 (-53).
Definition TITLE_SIMILARITY_MIN_TOKEN_COUNT : nat := 3.
Definition TITLE_SIMILARITY_MATCH_REASON : pystr := u "title_similarity_match".
Definition TITLE_SIMILARITY_MISMATCH_REASON : pystr := u "title_similarity_mismatch".
Definition TITLE_SIMILARITY_SHORT_TITLE_REASON : pystr := u "title_similarity_short_title".

Definition _token_count (value : pystr) : nat := length (split_ws value).

Definition evaluate_title_similarity `{UnicodeData, RapidFuzz} (left_title right_title : option pystr)
    (threshold : pyfloat) : result exn StrategyResult :=
  left_normalized ← normalize_similarity_text left_title;
  right_normalized ← normalize_similarity_text right_title;
  let left_count := _token_count left_normalized in
  let right_count := _token_count right_normalized in
  let metadata := [(u "left_token_count", OInt (Z.of_nat left_count));
                   (u "right_token_count", OInt (Z.of_nat right_count));
                   (u "threshold", OFloat threshold)] in
  mret
    (if (left_count <? TITLE_SIMILARITY_MIN_TOKEN_COUNT)%nat ||
        (right_count <? TITLE_SIMILARITY_MIN_TOKEN_COUNT)%nat
     then abstain TITLE_SIMILARITY_SHORT_TITLE_REASON (Some metadata)
     else
       let score := SFdiv 53 1024 (token_set_ratio left_normalized right_normalized) hundred in
       let metadata := Some (metadata ++ [(u "score", OFloat score)]) in
       if float_ge score threshold
       then duplicate score TITLE_SIMILARITY_MATCH_REASON metadata
       else distinct TITLE_SIMILARITY_MISMATCH_REASON metadata).
End TitleSimilarity.

(** * Semantic similarity *)

(** The array operations of NumPy the strategy calls. *)
Class ArrayOps := {
  array : Type;
  frombuffer : list Z → array;
  norm_positive : array → bool;
  normalised : array → array;
  dot : array → array → pyfloat;
}.

Module SemanticSimilarity.

Definition EMBEDDING_DIMENSIONS : nat := 384.
(** 384 numbers of four bytes *)
Definition EXPECTED_BYTE_LENGTH : nat := EMBEDDING_DIMENSIONS * 4.
(** 0.85 *)
Definition SEMANTIC_SIMILARITY_THRESHOLD_DEFAULT : pyfloat :=
  S754_finite false 7656119366529843 (-53).
Definition SEMANTIC_SIMILARITY_MATCH_REASON : pystr := u "semantic_similarity_match".
Definition SEMANTIC_SIMILARITY_MISMATCH_REASON : pystr := u "semantic_similarity_mismatch".
Definition SEMANTIC_SIMILARITY_MISSING_REASON : pystr := u "semantic_similarity_missing".
Definition SEMANTIC_SIMILARITY_INVALID_REASON : pystr := u "semantic_similarity_invalid".

(** A zero vector is left as it is. *)
Definition unit_array `{ArrayOps} (blob : list Z) : array :=
  let a := frombuffer blob in if norm_positive a then normalised a else a.

Definition evaluate_semantic_similarity `{ArrayOps} (left_embedding right_embedding : option (list Z))
    (threshold : pyfloat) : StrategyResult :=
  match left_embedding, right_embedding with
  | Some l, Some r =>
      if (length l =? EXPECTED_BYTE_LENGTH)%nat && (length r =? EXPECTED_BYTE_LENGTH)%nat
      then
        let score := dot (unit_array l) (unit_array r) in
        let metadata := Some [(u "score", OFloat score); (u "threshold", OFloat threshold)] in
        if float_ge score threshold
        then duplicate score SEMANTIC_SIMILARITY_MATCH_REASON metadata
        else distinct SEMANTIC_SIMILARITY_MISMATCH_REASON metadata
      else abstain SEMANTIC_SIMILARITY_INVALID_REASON (Some [(u "threshold", OFloat threshold)])
  | _, _ =>
      abstain SEMANTIC_SIMILARITY_MISSING_REASON (Some [(u "threshold", OFloat threshold)])
  end.

(** [prepare_text_for_embedding] *)
Definition prepare_text_for_embedding `{UnicodeData} (title body : option pystr) : result exn pystr :=
  normalized ← build_similarity_normalized_input title body;
  mret (u "query: " ++ normalized).
End SemanticSimilarity.

(** * Properties *)

Module ContentHashSpec.
Import ContentHash.

Section laws.
Context `{UnicodeLaws}.

Definition digest (s : pystr) : pystr := sha256_hexdigest (s ≫= utf8_char).

Lemma hash_of_text v n :
  normalize_hash_text v = Ok n →
  hash_of n = Ok (if str_truthy n then Some (digest n) else None).
Proof.
  intros Hn%hash_text_scalar. unfold hash_of, _sha256_hex, utf8_encode. rewrite Hn.
  by destruct (str_truthy n).
Qed.

Lemma content_hash_eq lt lb rt rb nl nr :
  build_hash_normalized_input lt lb = Ok nl → build_hash_normalized_input rt rb = Ok nr →
  ∃ md, evaluate_content_hash lt lb rt rb =
  Ok (if str_truthy nl && str_truthy nr then
        if decide (digest nl = digest nr) then duplicate one CONTENT_HASH_MATCH_REASON md
        else distinct CONTENT_HASH_MISMATCH_REASON md
      else abstain CONTENT_HASH_MISSING_REASON md).
Proof.
  intros Hl Hr. unfold evaluate_content_hash. rewrite Hl, Hr. cbn [mbind result_bind].
  rewrite (hash_of_text _ _ Hl), (hash_of_text _ _ Hr). cbn [mbind result_bind].
  exists (Some [(u "left_content_hash", opt_str (if str_truthy nl then Some (digest nl) else None));
                (u "right_content_hash", opt_str (if str_truthy nr then Some (digest nr) else None))]).
  by destruct (str_truthy nl), (str_truthy nr).
Qed.

(** The content-hash strategy compares the normalised contents: it abstains exactly
    when one of them has no letter or digit, says DUPLICATE with score 1 when they are
    equal, and otherwise exactly when their SHA-256 digests collide; it gives the same
    verdict with the items exchanged, its result always meets the strategy contract, and
    it raises only when the canonical form of an embedded link does. *)
Theorem content_hash_spec lt lb rt rb nl nr :
  build_hash_normalized_input lt lb = Ok nl → build_hash_normalized_input rt rb = Ok nr →
  ∃ r r', evaluate_content_hash lt lb rt rb = Ok r ∧ evaluate_content_hash rt rb lt lb = Ok r' ∧
    valid r ∧ status r' = status r ∧
    (is_abstain r = true ↔ nl = [] ∨ nr = []) ∧
    (nl ≠ [] → nl = nr → ∃ md, r = duplicate one CONTENT_HASH_MATCH_REASON md) ∧
    (status r = u "DUPLICATE" ↔ nl ≠ [] ∧ nr ≠ [] ∧ digest nl = digest nr).
Proof.
  intros Hl Hr. destruct (content_hash_eq _ _ _ _ _ _ Hl Hr) as [md ->].
  destruct (content_hash_eq _ _ _ _ _ _ Hr Hl) as [md' ->].
  assert (nl = nr → digest nl = digest nr) as Hd by (intros Heq; rewrite Heq; reflexivity).
  revert Hd. generalize (digest nl) (digest nr). intros dl dr Hd.
  eexists _, _. split; [done|]. split; [done|].
  rewrite (decide_ext (dr = dl) (dl = dr)) by done.
  destruct nl as [|c nl], nr as [|d nr]; cbn [str_truthy andb].
  1-3: split_and!; [by repeat split|done|naive_solver|done|naive_solver].
  destruct (decide (dl = dr)) as [E|E].
  - split_and!; [by repeat split|done|naive_solver|naive_solver|naive_solver].
  - split_and!; [by repeat split|done|naive_solver|naive_solver|naive_solver].
Qed.
End laws.

Lemma content_hash_spec_witness :
  ∃ r, evaluate_content_hash (Some (u "Big news!")) (Some (u "Rates  fall")) (Some (u "BIG NEWS: rates"))
         (Some (u "(fall)")) = Ok r ∧ status r = u "DUPLICATE".
Proof.
  destruct (content_hash_spec (Some (u "Big news!")) (Some (u "Rates  fall")) (Some (u "BIG NEWS: rates"))
    (Some (u "(fall)")) (u "big news rates fall") (u "big news rates fall"))
    as (r&_&Hr&_&_&_&_&Hdup&_); [vm_compute; reflexivity..|].
  exists r. split; [exact Hr|]. destruct (Hdup ltac:(discriminate) eq_refl) as [md ->]. reflexivity.
Defined.
End ContentHashSpec.

Module TitleSimilaritySpec.
Import TitleSimilarity.

(** The score of two normalised titles. *)
Definition title_score `{RapidFuzz} (l r : pystr) : pyfloat :=
  SFdiv 53 1024 (token_set_ratio l r) hundred.
Definition short (n : pystr) : Prop := (_token_count n < 3)%nat.

Section laws.
Context `{UnicodeData, RapidFuzzLaws}.

Lemma title_similarity_eq lt rt threshold nl nr :
  normalize_similarity_text lt = Ok nl → normalize_similarity_text rt = Ok nr →
  ∃ md md', evaluate_title_similarity lt rt threshold =
  Ok (if decide (short nl ∨ short nr) then abstain TITLE_SIMILARITY_SHORT_TITLE_REASON md
      else if float_ge (title_score nl nr) threshold
      then duplicate (title_score nl nr) TITLE_SIMILARITY_MATCH_REASON md'
      else distinct TITLE_SIMILARITY_MISMATCH_REASON md').
Proof.
  intros Hl Hr. unfold evaluate_title_similarity. rewrite Hl, Hr. cbn [mbind result_bind].
  change TITLE_SIMILARITY_MIN_TOKEN_COUNT with 3%nat.
  eexists _, _. f_equal. unfold short, title_score.
  set (a := _token_count nl). set (b := _token_count nr).
  destruct (decide _) as [Hs|Hs].
  - assert ((a <? 3)%nat || (b <? 3)%nat = true) as ->; [|reflexivity].
    rewrite orb_true_iff, !Nat.ltb_lt. done.
  - assert ((a <? 3)%nat || (b <? 3)%nat = false) as ->; [|reflexivity].
    rewrite orb_false_iff, !Nat.ltb_ge. lia.
Qed.

(** Title similarity: titles with fewer than three words after normalisation are
    never judged; otherwise the verdict is DUPLICATE exactly when the RapidFuzz ratio over
    100 reaches the threshold, the same with the titles exchanged, and equal normalised
    titles are duplicates with score 1 for every threshold up to 1. *)
Theorem title_similarity_spec lt rt threshold nl nr :
  normalize_similarity_text lt = Ok nl → normalize_similarity_text rt = Ok nr →
  ∃ r r', evaluate_title_similarity lt rt threshold = Ok r ∧
    evaluate_title_similarity rt lt threshold = Ok r' ∧ status r' = status r ∧
    (is_abstain r = true ↔ short nl ∨ short nr) ∧
    (status r = u "DUPLICATE" ↔
       ¬ short nl ∧ ¬ short nr ∧ float_ge (title_score nl nr) threshold = true) ∧
    (nl = nr → ¬ short nl → float_ge one threshold = true →
       ∃ md, r = duplicate one TITLE_SIMILARITY_MATCH_REASON md).
Proof.
  intros Hl Hr. destruct (title_similarity_eq lt rt threshold _ _ Hl Hr) as (m1&m2&->).
  destruct (title_similarity_eq rt lt threshold _ _ Hr Hl) as (m3&m4&->).
  assert (title_score nr nl = title_score nl nr) as ->.
  { unfold title_score. by rewrite token_set_ratio_sym. }
  assert (nl = nr → ¬ short nl → title_score nl nr = one) as Hone.
  { intros <- Hs. unfold title_score. rewrite token_set_ratio_same.
    - vm_compute. reflexivity.
    - intros ->. apply Hs. unfold short. vm_compute. lia. }
  revert Hone. generalize (title_score nl nr). intros s Hone.
  eexists _, _. split; [done|]. split; [done|].
  destruct (decide (short nl ∨ short nr)) as [Hs|Hs], (decide (short nr ∨ short nl)); try tauto.
  - split_and!; [done|done|split; [by intros E; vm_compute in E|tauto]|intros -> ?; tauto].
  - destruct (float_ge s threshold) eqn:E.
    + split_and!; [done|split; [done|tauto]|tauto|].
      intros Heq Hn _. exists m2. by rewrite Hone.
    + split_and!; [done|split; [done|tauto]|split; [by intros Es; vm_compute in Es|naive_solver]|].
      intros Heq Hn Hge. rewrite Hone in E by done. congruence.
Qed.
End laws.

(** A ratio that recognises equal texts only. *)
#[export] Instance equal_ratio : RapidFuzz :=
  {| token_set_ratio a b := if decide (a = b) then hundred else S754_zero false |}.
#[export] Instance equal_ratio_laws : @RapidFuzzLaws equal_ratio.
Proof.
  split; cbn; intros a.
  - intros b. by rewrite (decide_ext (a = b) (b = a)).
  - intros _. by rewrite decide_True.
Qed.

Lemma title_similarity_spec_witness :
  ∃ r, evaluate_title_similarity (Some (u "Rates fall  again")) (Some (u " RATES fall again"))
         TITLE_SIMILARITY_THRESHOLD_DEFAULT = Ok r ∧ status r = u "DUPLICATE".
Proof.
  destruct (title_similarity_spec (Some (u "Rates fall  again")) (Some (u " RATES fall again"))
    TITLE_SIMILARITY_THRESHOLD_DEFAULT (u "rates fall again") (u "rates fall again"))
    as (r&_&Hr&_&_&_&_&Hdup); [vm_compute; reflexivity..|].
  exists r. split; [exact Hr|]. destruct Hdup as [md ->]; [reflexivity| |vm_compute; reflexivity|].
  - unfold short. vm_compute. lia.
  - reflexivity.
Defined.
End TitleSimilaritySpec.

Module SemanticSimilaritySpec.
Import SemanticSimilarity.

(** Embeddings are judged when both are there with 384 single-precision numbers each; a
    score that is not a number is never a duplicate. *)
Lemma semantic_similarity_spec `{ArrayOps} l r threshold :
  (is_abstain (evaluate_semantic_similarity l r threshold) = false ↔
     ∃ a b, l = Some a ∧ r = Some b ∧ length a = EXPECTED_BYTE_LENGTH ∧ length b = EXPECTED_BYTE_LENGTH) ∧
  (∀ a b, l = Some a → r = Some b → length a = EXPECTED_BYTE_LENGTH → length b = EXPECTED_BYTE_LENGTH →
     (status (evaluate_semantic_similarity l r threshold) = u "DUPLICATE" ↔
        float_ge (dot (unit_array a) (unit_array b)) threshold = true) ∧
     (dot (unit_array a) (unit_array b) = S754_nan →
        status (evaluate_semantic_similarity l r threshold) = u "DISTINCT")).
Proof.
  unfold evaluate_semantic_similarity. generalize EXPECTED_BYTE_LENGTH. intros n. split.
  - destruct l as [a|], r as [b|]; [|by split; [|intros (?&?&?&?&_)]..].
    destruct (Nat.eqb_spec (length a) n), (Nat.eqb_spec (length b) n); cbn [andb];
      [|by split; [|intros (?&?&[= <-]&[= <-]&?&?)]..].
    split; [by intros _; exists a, b|]. by destruct (float_ge _ _).
  - intros a b -> -> Ha Hb. rewrite Ha, Hb. rewrite Nat.eqb_refl. cbn [andb].
    destruct (float_ge _ threshold) eqn:E.
    + split; [done|]. intros Hn. by rewrite Hn in E.
    + split; [|done]. split; [by intros Es; vm_compute in Es|done].
Qed.
End SemanticSimilaritySpec.

(** * Computing embeddings *)
Module Embeddings.
Import SemanticSimilarity.

Definition MODEL_NAME : pystr := u "intfloat/multilingual-e5-small".

Section service.
(** Loading a model of sentence-transformers by name, and its [encode] of one text and of a
    batch, with normalised vectors; the bytes of a vector as single-precision numbers. *)
Context {model vector : Type} (SentenceTransformer : pystr → result exn model)
  (encode : model → pystr → vector) (encode_batch : model → list pystr → Z → list vector)
  (tobytes : vector → list Z).

(** The module's [_model]: loaded on first use, and kept when loading succeeds. *)
Definition get_model (_model : option model) : result exn model * option model :=
  match _model with
  | Some m => (Ok m, Some m)
  | None =>
      match SentenceTransformer MODEL_NAME with
      | Ok m => (Ok m, Some m)
      | Err e => (Err e, None)
      end
  end.
Definition compute_embedding (text : pystr) (_model : option model) : result exn (list Z) * option model :=
  let '(m, _model) := get_model _model in (tobytes ∘ (λ m, encode m text) <$> m, _model).
Definition compute_embeddings_batch (texts : list pystr) (batch_size : Z) (_model : option model)
    : result exn (list (list Z)) * option model :=
  match texts with
  | [] => (Ok [], _model)
  | _ =>
      let safe_batch_size := Z.max 1 batch_size in
      let '(m, _model) := get_model _model in
      ((λ m, tobytes <$> encode_batch m texts safe_batch_size) <$> m, _model)
  end.
Definition reset_model (_model : option model) : option model := None.

(** The model is loaded once: after a call that returned, no later one loads. *)
Lemma get_model_once _model m _model' :
  get_model _model = (Ok m, _model') → _model' = Some m ∧ get_model _model' = (Ok m, _model').
Proof.
  unfold get_model. destruct _model as [m'|]; [by intros [= -> <-]|].
  destruct (SentenceTransformer MODEL_NAME); [by intros [= -> <-]|done].
Qed.

(** An empty batch loads nothing; otherwise the model gets a batch size of at least one, and
    there is an embedding for each text when it gives a vector for each. *)
Lemma compute_embeddings_batch_spec texts batch_size _model embeddings _model' :
  (∀ m n, 1 <= n → length (encode_batch m texts n) = length texts) →
  compute_embeddings_batch texts batch_size _model = (Ok embeddings, _model') →
  length embeddings = length texts ∧ (texts = [] → _model' = _model) ∧
  (texts ≠ [] → ∃ m n, _model' = Some m ∧ 1 <= n ∧ embeddings = tobytes <$> encode_batch m texts n).
Proof.
  intros Hn H. unfold compute_embeddings_batch in H. destruct texts as [|t texts]; [by injection H as <- <-|].
  destruct (get_model _model) as [[m|e] _model1] eqn:Em; [|done]. injection H as <- <-.
  apply get_model_once in Em as [-> _]. rewrite length_fmap, Hn by lia. split_and!; [done..|].
  intros _. exists m, (Z.max 1 batch_size). split_and!; [done|lia|done].
Qed.

(** Two texts embedded by a model of 384 dimensions are always judged, never set aside. *)
Lemma computed_embeddings_judged `{ArrayOps} a b _model x y _model1 _model2 threshold :
  (∀ m t, length (tobytes (encode m t)) = EXPECTED_BYTE_LENGTH) →
  compute_embedding a _model = (Ok x, _model1) → compute_embedding b _model1 = (Ok y, _model2) →
  is_abstain (evaluate_semantic_similarity (Some x) (Some y) threshold) = false.
Proof.
  intros Hl Ha Hb. apply SemanticSimilaritySpec.semantic_similarity_spec. exists x, y. split_and!; [done..| |].
  - unfold compute_embedding in Ha. destruct (get_model _model) as [[m|e] k]; [|done]. injection Ha as <- _. apply Hl.
  - unfold compute_embedding in Hb. destruct (get_model _model1) as [[m|e] k]; [|done]. injection Hb as <- _. apply Hl.
Qed.
End service.
End Embeddings.
