(* ===== verification/Decisions.v ===== *)
(** The explainability log of dedupe decisions
    (src/tca/storage/dedupe_decisions_repo.py). *)

From S2P Require Import Prelude PyValue PyTime Schema Strategy.
Local Open Scope Z_scope.

Module Decisions.

Definition DedupeDecisionsRepositoryError : exn := AppError "DedupeDecisionsRepositoryError".

Record DedupeDecisionRecord := MkDecisionRecord {
  decision_id : Z;
  decision_row : DecisionRow;
}.

(** ** Validation of the attempts *)

Definition _coerce_non_empty_str (s : pystr) : result exn pystr :=
  if str_truthy (strip s) then Ok s else Err DedupeDecisionsRepositoryError.

Definition _coerce_optional_finite_float (f : option pyfloat) : result exn (option pyfloat) :=
  match f with
  | None => Ok None
  | Some f => if isfinite f then Ok (Some f) else Err DedupeDecisionsRepositoryError
  end.

Fixpoint _validate_attempts (attempts : list Strategy.StrategyDecisionAttempt)
    : result exn (list Strategy.StrategyDecisionAttempt) :=
  match attempts with
  | [] => Ok []
  | a :: attempts =>
      _ ← _coerce_non_empty_str (Strategy.strategy_name a);
      _ ← _coerce_non_empty_str (Strategy.outcome a);
      _ ← _coerce_non_empty_str (Strategy.attempt_reason a);
      _ ← _coerce_optional_finite_float (Strategy.attempt_score a);
      rest ← _validate_attempts attempts;
      mret (a :: rest)
  end.

(** A mapping of JSON values; one with a non-finite number cannot be written. *)
Definition _encode_metadata (metadata : option (list (pystr * JSONValue)))
    : result exn (option JSONValue) :=
  match metadata with
  | None => Ok None
  | Some d =>
      if json_encodable (JDict d) then Ok (Some (sort_keys (JDict d)))
      else Err DedupeDecisionsRepositoryError
  end.

(** ** Writing *)

Definition attempt_row (now : pystr) (item : Z) (cluster candidate : option Z)
    (metadata : option JSONValue) (a : Strategy.StrategyDecisionAttempt) : DecisionRow :=
  MkDecision item cluster candidate (Strategy.strategy_name a) (Strategy.outcome a)
    (Some (Strategy.attempt_reason a)) (Strategy.attempt_score a) metadata now.

Fixpoint insert_rows (rows : list DecisionRow) (db : Db) : result exn (list Z * Db) :=
  match rows with
  | [] => Ok ([], db)
  | row :: rows =>
      '(i, db) ← insert_decision row db;
      '(ids, db) ← insert_rows rows db;
      mret (i :: ids, db)
  end.

Definition persist_attempts (now : pystr) (item : Z) (cluster candidate : option Z)
    (attempts : list Strategy.StrategyDecisionAttempt)
    (metadata : option (list (pystr * JSONValue))) (db : Db) : result exn (list Z) * Db :=
  atomically db
    (validated ← _validate_attempts attempts;
     match validated with
     | [] => mret ([], db)
     | _ =>
         metadata_json ← _encode_metadata metadata;
         insert_rows (attempt_row now item cluster candidate metadata_json <$> validated) db
     end).

(** ** Reading *)

(** A stored score reads back only when finite; the other columns have their types. *)
Definition _decode_decision_row (i : Z) (d : DecisionRow) : result exn DedupeDecisionRecord :=
  _ ← _coerce_optional_finite_float (de_score d);
  mret (MkDecisionRecord i d).

Definition decode_all (p : DecisionRow → bool) (db : Db)
    : list (result exn DedupeDecisionRecord) :=
  omap (λ i, _decode_decision_row i <$> decisions db !! i)
    (sorted_ids (ids_where p (decisions db))).

Definition for_item (item : Z) (d : DecisionRow) : bool := Z.eqb (de_item_id d) item.
Definition for_cluster (cluster : Z) (d : DecisionRow) : bool :=
  bool_decide (de_cluster_id d = Some cluster).
Definition list_for_item (item : Z) (db : Db) : result exn (list DedupeDecisionRecord) :=
  sequence (decode_all (for_item item) db).
Definition list_for_cluster (cluster : Z) (db : Db) : result exn (list DedupeDecisionRecord) :=
  sequence (decode_all (for_cluster cluster) db).

(** ** Lemmas *)

(** A row under a fresh id is listed last. *)
Lemma decode_all_insert p db d :
  decode_all p (set_decisions (<[next_id (decisions db) := d]> (decisions db)) db) =
  decode_all p db ++
    if p d then [_decode_decision_row (next_id (decisions db)) d] else [].
Proof.
  unfold decode_all. set (n := next_id (decisions db)). simpl.
  pose proof (next_id_fresh (decisions db)) as Hn. fold n in Hn.
  assert (∀ i, i ∈ ids_where p (decisions db) → i < n) as Hlt.
  { intros i (x&Hx&_)%elem_of_ids_where. apply max_id_spec in Hx. unfold n, next_id. lia. }
  assert (∀ l : list Z, (∀ i, i ∈ l → i < n) →
    omap (λ i, _decode_decision_row i <$> <[n:=d]> (decisions db) !! i) l =
    omap (λ i, _decode_decision_row i <$> decisions db !! i) l) as Hsame.
  { induction l as [|i l IH]; intros Hl; csimpl; [done|].
    assert (i < n) by (apply Hl; by left). rewrite lookup_insert_ne by lia.
    rewrite IH; [done|]. intros j Hj. apply Hl. by right. }
  destruct (p d) eqn:Ep.
  - assert (ids_where p (<[n:=d]> (decisions db)) = ids_where p (decisions db) ∪ {[n]}) as ->.
    { apply set_eq. intros i. rewrite elem_of_union, elem_of_singleton, !elem_of_ids_where.
      setoid_rewrite lookup_insert_Some. destruct (decide (n = i)); naive_solver. }
    rewrite sorted_ids_snoc by done. rewrite omap_app. f_equal.
    + apply Hsame. intros i Hi. apply Hlt. by apply elem_of_sorted_ids.
    + simpl. by rewrite lookup_insert_eq.
  - rewrite app_nil_r.
    assert (ids_where p (<[n:=d]> (decisions db)) = ids_where p (decisions db)) as ->.
    { apply set_eq. intros i. rewrite !elem_of_ids_where. setoid_rewrite lookup_insert_Some.
      split; [|naive_solver]. intros (x&[[<- <-]|[? ?]]&Hp); [congruence|eauto]. }
    apply Hsame. intros i Hi. apply Hlt. by apply elem_of_sorted_ids.
Qed.

Lemma insert_decision_Ok d db i db' :
  insert_decision d db = Ok (i, db') →
  i = next_id (decisions db) ∧ db' = set_decisions (<[i := d]> (decisions db)) db.
Proof. unfold insert_decision. repeat case_decide; [|done]. case_match; [|done]. naive_solver. Qed.

Lemma validate_Ok attempts l :
  _validate_attempts attempts = Ok l →
  l = attempts ∧
  Forall (λ a, strip (Strategy.strategy_name a) ≠ [] ∧ strip (Strategy.outcome a) ≠ [] ∧
    strip (Strategy.attempt_reason a) ≠ [] ∧
    ∀ f, Strategy.attempt_score a = Some f → isfinite f = true) attempts.
Proof.
  revert l. induction attempts as [|a attempts IH]; intros l; simpl; [by intros [= <-]|].
  unfold _coerce_non_empty_str.
  destruct (strip (Strategy.strategy_name a)) eqn:E1; [done|]. simpl.
  destruct (strip (Strategy.outcome a)) eqn:E2; [done|]. simpl.
  destruct (strip (Strategy.attempt_reason a)) eqn:E3; [done|]. simpl.
  unfold _coerce_optional_finite_float.
  destruct (Strategy.attempt_score a) as [f|] eqn:Ef.
  - destruct (isfinite f) eqn:Ei; [|done]. simpl.
    intros (rest&Hr&[= <-])%bind_Ok_inv. apply IH in Hr as [-> Hf]. split; [done|].
    constructor; [|done]. rewrite E1, E2, E3. naive_solver.
  - simpl. intros (rest&Hr&[= <-])%bind_Ok_inv. apply IH in Hr as [-> Hf]. split; [done|].
    constructor; [|done]. rewrite E1, E2, E3. naive_solver.
Qed.

Lemma insert_rows_spec rows db ids db' :
  insert_rows rows db = Ok (ids, db') →
  length ids = length rows ∧ StronglySorted Z.lt ids ∧
  (∀ i, i ∈ ids → next_id (decisions db) ≤ i) ∧
  (wf_db db → wf_db db') ∧
  ∀ p, decode_all p db' =
    decode_all p db ++
    omap (λ id, if p id.2 then Some (_decode_decision_row id.1 id.2) else None) (zip ids rows).
Proof.
  revert db ids db'. induction rows as [|row rows IH]; intros db ids db'; simpl.
  - intros [= <- <-]. split_and!; try done; [constructor|set_solver|].
    intros p. by rewrite app_nil_r.
  - intros ([i db1]&Ei&H)%bind_Ok_inv. apply bind_Ok_inv in H as ([ids' db2]&Er&[= <- <-]).
    pose proof (insert_decision_wf _ _ _ _ Ei) as Hw.
    apply insert_decision_Ok in Ei as [-> E1].
    apply IH in Er as (Hl&Hs&Hge&Hw'&Hd).
    assert (next_id (decisions db) < next_id (decisions db1)) as Hlt.
    { rewrite E1. simpl. unfold next_id at 2.
      pose proof (max_id_spec (<[next_id (decisions db):=row]> (decisions db))
        (next_id (decisions db)) row ltac:(apply lookup_insert_eq)). lia. }
    split_and!.
    + simpl. by rewrite Hl.
    + constructor; [done|]. apply Forall_forall. intros j Hj. apply Hge in Hj. lia.
    + intros j [->|Hj]%elem_of_cons; [done|]. apply Hge in Hj. lia.
    + tauto.
    + intros p. rewrite Hd. subst db1. rewrite decode_all_insert. simpl.
      destruct (p row); simpl; by rewrite <-app_assoc.
Qed.

(** The records a call adds. *)
Definition new_records (now : pystr) (item : Z) (cluster candidate : option Z)
    (metadata : option JSONValue) (ids : list Z)
    (attempts : list Strategy.StrategyDecisionAttempt) : list DedupeDecisionRecord :=
  zip_with MkDecisionRecord ids (attempt_row now item cluster candidate metadata <$> attempts).

Lemma decode_attempt_row i now item cluster candidate metadata a :
  (∀ f, Strategy.attempt_score a = Some f → isfinite f = true) →
  _decode_decision_row i (attempt_row now item cluster candidate metadata a) =
  Ok (MkDecisionRecord i (attempt_row now item cluster candidate metadata a)).
Proof.
  intros Ha. unfold _decode_decision_row, attempt_row. cbn [de_score].
  unfold _coerce_optional_finite_float.
  destruct (Strategy.attempt_score a) as [f|]; [by rewrite (Ha f eq_refl)|done].
Qed.

Lemma decode_new now item cluster candidate metadata ids attempts (p : DecisionRow → bool) :
  length ids = length attempts →
  Forall (λ a, ∀ f, Strategy.attempt_score a = Some f → isfinite f = true) attempts →
  (∀ a, p (attempt_row now item cluster candidate metadata a) = true) →
  sequence (omap (λ id : Z * DecisionRow,
      if p id.2 then Some (_decode_decision_row id.1 id.2) else None)
    (zip ids (attempt_row now item cluster candidate metadata <$> attempts)))
  = Ok (new_records now item cluster candidate metadata ids attempts).
Proof.
  unfold new_records. intros Hl Hf Hp. revert ids Hl.
  induction Hf as [|a attempts Ha Hf IH]; intros [|i ids] Hl; try done.
  csimpl in *. rewrite Hp. csimpl. rewrite decode_attempt_row by done. csimpl.
  by rewrite IH by lia.
Qed.

Lemma decode_none now item cluster candidate metadata ids attempts (p : DecisionRow → bool) :
  (∀ a, p (attempt_row now item cluster candidate metadata a) = false) →
  omap (λ id : Z * DecisionRow,
      if p id.2 then Some (_decode_decision_row id.1 id.2) else None)
    (zip ids (attempt_row now item cluster candidate metadata <$> attempts)) = [].
Proof.
  intros Hp. revert ids. induction attempts as [|a attempts IH]; intros [|i ids]; try done.
  csimpl. by rewrite Hp, IH.
Qed.

Lemma persist_cases now item cluster candidate attempts metadata db ids db' :
  persist_attempts now item cluster candidate attempts metadata db = (Ok ids, db') →
  (attempts = [] ∧ ids = [] ∧ db' = db) ∨
  ∃ md, _encode_metadata metadata = Ok md ∧
    insert_rows (attempt_row now item cluster candidate md <$> attempts) db = Ok (ids, db') ∧
    Forall (λ a, ∀ f, Strategy.attempt_score a = Some f → isfinite f = true) attempts.
Proof.
  unfold persist_attempts. destruct (_validate_attempts attempts) as [l|] eqn:Ev; [|done].
  apply validate_Ok in Ev as [-> Hf]. simpl. destruct attempts as [|a attempts].
  - intros [= <- <-]. by left.
  - destruct (_encode_metadata metadata) as [md|]; [|done]. cbn [mbind result_bind].
    destruct (insert_rows _ db) as [[ids0 db0]|] eqn:E; [|done].
    intros [= <- <-]. right. exists md. split_and!; try done.
    eapply Forall_impl; [exact Hf|]. naive_solver.
Qed.

(** Persisting the attempts of an item appends one decision per attempt, in order,
    under new increasing ids, to what is listed for the item and, when a cluster is
    given, for that cluster; the lists of other items and other clusters are unchanged;
    everything written reads back. *)
Theorem persist_then_list now item cluster candidate attempts metadata db ids db' :
  persist_attempts now item cluster candidate attempts metadata db = (Ok ids, db') →
  ∃ md,
    (attempts ≠ [] → _encode_metadata metadata = Ok md) ∧
    length ids = length attempts ∧ StronglySorted Z.lt ids ∧
    (∀ i, i ∈ ids → decisions db !! i = None) ∧
    (∀ before, list_for_item item db = Ok before →
       list_for_item item db' =
         Ok (before ++ new_records now item cluster candidate md ids attempts)) ∧
    (∀ c before, cluster = Some c → list_for_cluster c db = Ok before →
       list_for_cluster c db' =
         Ok (before ++ new_records now item cluster candidate md ids attempts)) ∧
    (∀ other, other ≠ item → list_for_item other db' = list_for_item other db) ∧
    (∀ c, cluster ≠ Some c → list_for_cluster c db' = list_for_cluster c db).
Proof.
  intros [(->&->&->)|(md&Hmd&Hins&Hf)]%persist_cases.
  - exists None. split_and!; try done; [constructor|set_solver| |];
      intros; unfold new_records; simpl; by rewrite app_nil_r.
  - exists md. apply insert_rows_spec in Hins as (Hl&Hs&Hge&_&Hd). rewrite length_fmap in Hl.
    split_and!; try done.
    + intros i Hi. apply Hge in Hi. destruct (decisions db !! i) as [d|] eqn:E; [|done].
      apply max_id_spec in E. unfold next_id in Hi. lia.
    + unfold list_for_item. intros before Hb. rewrite Hd, sequence_app, Hb.
      cbn [mbind result_bind].
      rewrite decode_new by (done || (intros; apply Z.eqb_refl)). done.
    + unfold list_for_cluster. intros c before -> Hb. rewrite Hd, sequence_app, Hb.
      cbn [mbind result_bind].
      rewrite decode_new by (done || (intros; by apply bool_decide_eq_true)). done.
    + unfold list_for_item. intros other Hne. rewrite Hd, decode_none, app_nil_r; [done|].
      intros a. apply Z.eqb_neq. simpl. intros E. by apply Hne.
    + unfold list_for_cluster. intros c Hne. rewrite Hd, decode_none, app_nil_r; [done|].
      intros a. simpl. by apply bool_decide_eq_false.
Qed.

Lemma persist_attempts_wf now item cluster candidate attempts metadata db :
  wf_db db → wf_db (persist_attempts now item cluster candidate attempts metadata db).2.
Proof.
  intros W. destruct (persist_attempts _ _ _ _ _ _ db) as [[ids|e] db'] eqn:E.
  - apply persist_cases in E as [(_&_&->)|(md&_&Hins&_)]; [done|].
    by apply insert_rows_spec in Hins as (_&_&_&Hw&_); apply Hw.
  - unfold persist_attempts, atomically in E. case_match; [by case_match|].
    by injection E as _ <-.
Qed.

(** ** Instance: two attempts on item 1 against item 2 *)
Definition sample_attempts : list Strategy.StrategyDecisionAttempt :=
  [Strategy.MkAttempt (u "exact_url") (u "ABSTAIN") (u "exact_url_missing") None;
   Strategy.MkAttempt (u "content_hash") (u "DUPLICATE") (u "content_hash_match")
     (Some Strategy.one)].

Lemma persist_then_list_witness :
  ∃ ids db', persist_attempts (sample_time 9) 1 (Some 1) (Some 2) sample_attempts None sample_db
      = (Ok ids, db') ∧ ids = [1; 2] ∧
    list_for_item 1 db' =
      Ok (new_records (sample_time 9) 1 (Some 1) (Some 2) None ids sample_attempts).
Proof.
  destruct (persist_attempts (sample_time 9) 1 (Some 1) (Some 2) sample_attempts None sample_db)
    as [[ids|] db'] eqn:E; [|by vm_compute in E].
  destruct (persist_then_list _ _ _ _ _ _ _ _ _ E) as (md&Hmd&_&_&_&Hl&_).
  exists ids, db'. split_and!; [done|vm_compute in E; by injection E as <- _|].
  specialize (Hmd ltac:(discriminate)). injection Hmd as <-. by apply (Hl []).
Defined.
End Decisions.
