(* ===== verification/Rows.v ===== *)
(** Rows as the SQLite driver gives them and their decoding by the repositories
    (the [_decode_*] and [_coerce_*] functions of src/tca/storage and src/tca/auth): the rows
    of the modelled tables, written out as the driver's values, decode to the records the other
    files work with. *)

From Stdlib Require Import SpecFloat.
From S2P Require Import Prelude PyValue PyTime PyIso PyText PyCodec PyJson Schema Settings Channels.
From S2P Require Import Groups Notifications Contents Decisions Timeline Scheduler Auth Accounts Vault.
Local Open Scope Z_scope.

(** * Values *)

(** A value of a row; the driver itself gives no booleans and no datetimes. *)
Inductive value :=
  | VNull
  | VBool (b : bool)
  | VInt (n : Z)
  | VFloat (f : pyfloat)
  | VText (s : pystr)
  | VBlob (b : list Z)
  | VDatetime (d : datetime).
Definition mapping : Type := list (string * value).
(** [row_map.get(column)] *)
Fixpoint get (row : mapping) (column : string) : value :=
  match row with
  | [] => VNull
  | (k, v) :: row => if String.eqb k column then v else get row column
  end.

(** [str.isdigit], which follows the Unicode database, and [float] of a text. *)
Class TextNumbers := { isdigit : pystr → bool; float_of : pystr → option pyfloat }.

Definition optional {A} (f : A → value) (o : option A) : value :=
  match o with Some a => f a | None => VNull end.

(** * The coercions, by shape *)
Section shapes.
Context `{DD : DecimalDigits, TN : TextNumbers} (err : exn).

(** [int(value)] *)
Definition int_of_text (s : pystr) : result exn Z :=
  match py_int s with
  | Some n => Ok n
  | None => Err (ValueError "invalid literal for int() with base 10")
  end.
(** A [bool] is an [int]. *)
Definition int_or_digits (v : value) : result exn Z :=
  match v with
  | VInt n => Ok n
  | VBool b => Ok (Z.b2z b)
  | VText s => if isdigit s then int_of_text s else Err err
  | _ => Err err
  end.
Definition int_not_bool (v : value) : result exn Z :=
  match v with
  | VInt n => Ok n
  | VText s => if isdigit s then int_of_text s else Err err
  | _ => Err err
  end.
(** [type(value) is int] *)
Definition exact_int (v : value) : result exn Z := match v with VInt n => Ok n | _ => Err err end.
(** [isinstance(value, int)] *)
Definition any_int (v : value) : result exn Z :=
  match v with VInt n => Ok n | VBool b => Ok (Z.b2z b) | _ => Err err end.
Definition text (v : value) : result exn pystr := match v with VText s => Ok s | _ => Err err end.
Definition or_none {A} (f : value → result exn A) (v : value) : result exn (option A) :=
  match v with VNull => Ok None | v => Some <$> f v end.
(** A text is read, a naive one as UTC; a datetime is kept as it is. *)
Definition stored_datetime (v : value) : result exn datetime :=
  match v with
  | VDatetime d => Ok d
  | VText s => coerce_datetime err s
  | _ => Err err
  end.
(** The same with a naive datetime taken as UTC as well. *)
Definition aware_datetime (v : value) : result exn datetime := _normalize_datetime <$> stored_datetime v.
Definition blob (v : value) : result exn (list Z) := match v with VBlob b => Ok b | _ => Err err end.

(** What the driver gives for a column of the right type is taken over. *)
Lemma or_none_optional {A B} (f : value → result exn B) (g : A → value) (h : A → B) o :
  (∀ a, o = Some a → g a ≠ VNull ∧ f (g a) = Ok (h a)) → or_none f (optional g o) = Ok (h <$> o).
Proof.
  intros H. destruct o as [a|]; [|done]. destruct (H a eq_refl) as [Hg Hf]. cbn.
  unfold or_none. by destruct (g a); rewrite ?Hf.
Qed.
Lemma optional_text o : or_none text (optional VText o) = Ok o.
Proof. by destruct o. Qed.
Lemma optional_int (f : value → result exn Z) o : (∀ n, f (VInt n) = Ok n) → or_none f (optional VInt o) = Ok o.
Proof. intros Hf. destruct o as [n|]; [|done]. unfold optional, or_none. by rewrite Hf. Qed.
Lemma optional_datetime_text o : or_none stored_datetime (optional VText o) = coerce_optional_datetime err o.
Proof. destruct o as [s|]; [|done]. cbn. by destruct (coerce_datetime err s). Qed.
Lemma optional_aware_text o : or_none aware_datetime (optional VText o) = coerce_optional_datetime err o.
Proof.
  destruct o as [s|]; [|done]. cbn. unfold aware_datetime, stored_datetime, coerce_datetime.
  destruct (PyIso.fromisoformat s) as [d|]; [|done].
  cbn [fmap result_fmap mbind result_bind mret result_ret]. by rewrite normalize_idem.
Qed.

(** A bound datetime comes back as its text, and reads back as the same instant. *)
Lemma stored_sql_datetime d : PyIso.valid d → stored_datetime (VText (sql_datetime d)) = Ok (_normalize_datetime d).
Proof.
  intros H. cbn. unfold coerce_datetime, sql_datetime. change (u " ") with [32].
  by rewrite PyIso.fromisoformat_isoformat.
Qed.
Lemma optional_sql_datetime o :
  (∀ d, o = Some d → PyIso.valid d) →
  or_none stored_datetime (optional (VText ∘ sql_datetime) o) = Ok (_normalize_datetime <$> o).
Proof. intros Hv. apply or_none_optional. intros d Hd. split; [done|]. by apply stored_sql_datetime, Hv. Qed.
Lemma optional_aware_sql o :
  (∀ d, o = Some d → PyIso.valid d) →
  or_none aware_datetime (optional (VText ∘ sql_datetime) o) = Ok (_normalize_datetime <$> o).
Proof.
  intros Hv. apply or_none_optional. intros d Hd. split; [done|]. unfold aware_datetime.
  cbn [compose]. rewrite stored_sql_datetime by auto. cbn. by rewrite normalize_idem.
Qed.
(** What was read from a text always has an offset. *)
Lemma stored_text_aware s d : stored_datetime (VText s) = Ok d → is_Some (dt_offset d).
Proof.
  cbn. unfold coerce_datetime. destruct (PyIso.fromisoformat s) as [d'|]; [|done]. intros [= <-].
  unfold _normalize_datetime. destruct (dt_offset d') eqn:E; cbn; [by rewrite E|done].
Qed.
End shapes.
Arguments optional : simpl never.
Arguments or_none : simpl never.
Arguments stored_datetime : simpl never.
Arguments aware_datetime : simpl never.
Arguments decrypt_text : simpl never.

(** * Channels, groups and accounts *)
Module ChannelRows.
Definition ChannelDecodeError : exn := AppError "ChannelDecodeError".

Definition _decode_is_enabled (v : value) : result exn bool :=
  match v with
  | VBool b => Ok b
  | VInt n => if (n =? 0) || (n =? 1) then Ok (n =? 1) else Err ChannelDecodeError
  | _ => Err ChannelDecodeError
  end.
Definition _decode_channel_row (row : mapping) : result exn Channels.ChannelRecord :=
  i ← exact_int ChannelDecodeError (get row "id");
  account ← exact_int ChannelDecodeError (get row "account_id");
  telegram ← exact_int ChannelDecodeError (get row "telegram_channel_id");
  name ← text ChannelDecodeError (get row "name");
  username ← or_none (text ChannelDecodeError) (get row "username");
  enabled ← _decode_is_enabled (get row "is_enabled");
  mret (Channels.MkChannelRecord i account telegram name username enabled).
Definition _coerce_count_int `{DecimalDigits, TextNumbers} : value → result exn Z :=
  int_not_bool ChannelDecodeError.

Definition columns (i : Z) (c : Channel) : mapping :=
  [("id", VInt i); ("account_id", VInt (ch_account_id c));
   ("telegram_channel_id", VInt (ch_telegram_channel_id c)); ("name", VText (ch_name c));
   ("username", optional VText (ch_username c)); ("is_enabled", VInt (Z.b2z (ch_is_enabled c)))]%string.
Lemma decode_channel_columns i c : _decode_channel_row (columns i c) = Ok (Channels._decode_channel_row i c).
Proof.
  unfold _decode_channel_row, Channels._decode_channel_row. cbn. rewrite optional_text. by destruct (ch_is_enabled c).
Qed.
End ChannelRows.

Module GroupRows.
Definition ChannelGroupDecodeError : exn := AppError "ChannelGroupDecodeError".

Definition _decode_group_row (row : mapping) : result exn Groups.ChannelGroupRecord :=
  i ← exact_int ChannelGroupDecodeError (get row "id");
  name ← text ChannelGroupDecodeError (get row "name");
  description ← or_none (text ChannelGroupDecodeError) (get row "description");
  horizon ← or_none (exact_int ChannelGroupDecodeError) (get row "dedupe_horizon_minutes_override");
  mret (Groups.MkGroupRecord i name description horizon).
Definition _decode_membership_row (row : mapping) : result exn Groups.ChannelGroupMembershipRecord :=
  group ← exact_int ChannelGroupDecodeError (get row "group_id");
  channel ← exact_int ChannelGroupDecodeError (get row "channel_id");
  mret (Groups.MkMembership group channel).

Definition columns (i : Z) (g : Group) : mapping :=
  [("id", VInt i); ("name", VText (gr_name g)); ("description", optional VText (gr_description g));
   ("dedupe_horizon_minutes_override", optional VInt (gr_horizon_override g))]%string.
Lemma decode_group_columns i g : _decode_group_row (columns i g) = Ok (Groups._decode_group_row i g).
Proof.
  unfold _decode_group_row. cbn. rewrite optional_text. cbn. by rewrite optional_int.
Qed.
Lemma decode_membership g c :
  _decode_membership_row [("group_id", VInt g); ("channel_id", VInt c)]%string = Ok (Groups.MkMembership g c).
Proof. done. Qed.
End GroupRows.

Module AccountRows.
Import AccountStorage SessionStorage.

Definition _coerce_int `{DecimalDigits, TextNumbers} : value → result exn Z :=
  int_or_digits TelegramAccountStorageError.
Definition _coerce_optional_str : value → result exn (option pystr) :=
  or_none (text TelegramAccountStorageError).
Definition _coerce_blob_bytes : value → result exn (list Z) := blob TelegramAccountStorageError.
Definition session_blob_bytes : value → result exn (list Z) := blob TelegramSessionStorageError.
Definition _decode_account_row `{DecimalDigits, TextNumbers, Crypto, FloatText} (kek : list Z) (row : mapping)
    : result exn TelegramAccountRecord :=
  i ← _coerce_int (get row "id");
  api_id ← _coerce_int (get row "api_id");
  payload ← _coerce_blob_bytes (get row "api_hash_encrypted");
  api_hash ← decrypt_text TelegramAccountStorageError payload kek;
  phone ← _coerce_optional_str (get row "phone_number");
  mret (AccountStorage.MkRecord i api_id api_hash phone).
Definition rotation_int : value → result exn Z := any_int (AppError "KeyRotationError").

Definition columns (i : Z) (a : Account) : mapping :=
  [("id", VInt i); ("api_id", VInt (ac_api_id a)); ("api_hash_encrypted", VBlob (ac_api_hash_encrypted a));
   ("phone_number", optional VText (ac_phone_number a))]%string.
Lemma decode_account_columns `{DecimalDigits, TextNumbers, Crypto, FloatText} kek i a :
  _decode_account_row kek (columns i a) = AccountStorage._decode_account_row kek i a.
Proof.
  unfold _decode_account_row, AccountStorage._decode_account_row, _coerce_optional_str. cbn.
  destruct (decrypt_text _ _ _); [|done]. cbn. by rewrite optional_text.
Qed.
End AccountRows.

Module PauseRows.
Import AccountPause.
Definition AccountPauseDecodeError : exn := AppError "AccountPauseDecodeError".

Definition _coerce_int `{DecimalDigits, TextNumbers} : value → result exn Z := int_or_digits AccountPauseDecodeError.
Definition _coerce_optional_str : value → result exn (option pystr) := or_none (text AccountPauseDecodeError).
Definition _coerce_optional_datetime : value → result exn (option datetime) :=
  or_none (stored_datetime AccountPauseDecodeError).
Definition _decode_pause_row `{DecimalDigits, TextNumbers} (row : mapping) : result exn AccountPauseRecord :=
  i ← _coerce_int (get row "id");
  paused_at ← _coerce_optional_datetime (get row "paused_at");
  reason ← _coerce_optional_str (get row "pause_reason");
  mret (MkPauseRecord i paused_at reason).

Definition columns (i : Z) (a : Account) : mapping :=
  [("id", VInt i); ("paused_at", optional (VText ∘ sql_datetime) (ac_paused_at a));
   ("pause_reason", optional VText (ac_pause_reason a))]%string.
Lemma decode_pause_columns `{DecimalDigits, TextNumbers} i a :
  (∀ d, ac_paused_at a = Some d → PyIso.valid d) →
  _decode_pause_row (columns i a) = Ok (AccountPause._decode_pause_row i a).
Proof.
  intros Hv. unfold _decode_pause_row, AccountPause._decode_pause_row, _coerce_optional_datetime, _coerce_optional_str.
  cbn. rewrite optional_sql_datetime by done. cbn. by rewrite optional_text.
Qed.
End PauseRows.

Module StateRows.
Import ChannelStates.

Definition _coerce_int `{DecimalDigits, TextNumbers} : value → result exn Z := int_or_digits ChannelStateDecodeError.
Definition _coerce_optional_datetime : value → result exn (option datetime) :=
  or_none (aware_datetime ChannelStateDecodeError).
(** [read_json]: [json.loads] that refuses the constants NaN and Infinity. *)
Definition _decode_cursor_json (read_json : pystr → result exn JSONValue) (v : value)
    : result exn (option ChannelCursor) :=
  match v with
  | VNull => Ok None
  | VText s =>
      match read_json s with
      | Ok decoded => ChannelStates._decode_cursor_json (Some decoded)
      | Err _ => Err ChannelStateDecodeError
      end
  | _ => Err ChannelStateDecodeError
  end.
Definition _decode_state_row `{DecimalDigits, TextNumbers} (read_json : pystr → result exn JSONValue)
    (row : mapping) : result exn ChannelStateRecord :=
  i ← _coerce_int (get row "channel_id");
  cursor ← _decode_cursor_json read_json (get row "cursor_json");
  paused_until ← _coerce_optional_datetime (get row "paused_until");
  last_success_at ← _coerce_optional_datetime (get row "last_success_at");
  mret (MkStateRecord i cursor paused_until last_success_at).

Definition columns (cursor_json : option pystr) (i : Z) (s : ChannelState) : mapping :=
  [("channel_id", VInt i); ("cursor_json", optional VText cursor_json);
   ("paused_until", optional (VText ∘ sql_datetime) (cs_paused_until s));
   ("last_success_at", optional (VText ∘ sql_datetime) (cs_last_success_at s))]%string.
Lemma decode_state_columns `{DecimalDigits, TextNumbers} read_json cursor_json i s :
  (∀ d, cs_paused_until s = Some d → PyIso.valid d) → (∀ d, cs_last_success_at s = Some d → PyIso.valid d) →
  _decode_cursor_json read_json (optional VText cursor_json) = Ok (cs_cursor s) →
  _decode_state_row read_json (columns cursor_json i s) = Ok (ChannelStates._decode_state_row i s).
Proof.
  intros Hp Hs Hc. unfold _decode_state_row, _coerce_optional_datetime. cbn.
  change (get _ "cursor_json") with (optional VText cursor_json). rewrite Hc. cbn.
  rewrite optional_aware_sql by done. cbn. by rewrite optional_aware_sql.
Qed.
End StateRows.

(** * Content *)
Module RawRows.
Import RawMessages.

Definition _coerce_int `{DecimalDigits, TextNumbers} : value → result exn Z :=
  int_or_digits RawMessagePayloadDecodeError.
Definition _coerce_str : value → result exn pystr := text RawMessagePayloadDecodeError.
Definition _coerce_datetime : value → result exn datetime := stored_datetime RawMessagePayloadDecodeError.
(** A [JSONDecodeError] is translated; the [ValueError] of an integer with too many digits
    escapes. *)
Definition _decode_payload_json `{FloatText} (payload_json : pystr) : result exn JSONValue :=
  match loads payload_json with
  | Err e => if bool_decide (e = JSONDecodeError) then Err RawMessagePayloadDecodeError else Err e
  | r => r
  end.
Definition _decode_raw_message_row `{DecimalDigits, TextNumbers, FloatText} (row : mapping)
    : result exn RawMessageRecord :=
  i ← _coerce_int (get row "id");
  channel ← _coerce_int (get row "channel_id");
  message ← _coerce_int (get row "message_id");
  payload_json ← _coerce_str (get row "payload_json");
  payload ← _decode_payload_json payload_json;
  created ← _coerce_datetime (get row "created_at");
  updated ← _coerce_datetime (get row "updated_at");
  mret (MkRawRecord i channel message payload created updated).

(** [payload_json]: the text of the column. *)
Definition columns (payload_json : pystr) (i : Z) (r : RawMessage) : mapping :=
  [("id", VInt i); ("channel_id", VInt (rm_channel_id r)); ("message_id", VInt (rm_message_id r));
   ("payload_json", VText payload_json); ("created_at", VText (rm_created_at r));
   ("updated_at", VText (rm_updated_at r))]%string.
Lemma decode_raw_columns `{DecimalDigits, TextNumbers, FloatText} payload_json i r :
  loads payload_json = Ok (rm_payload r) →
  _decode_raw_message_row (columns payload_json i r) = RawMessages._decode_raw_message_row i r.
Proof. intros Hp. unfold _decode_raw_message_row, _decode_payload_json. cbn. by rewrite Hp. Qed.
(** The text the repository writes denotes the payload. *)
Lemma decode_raw_written `{DecimalDigits, TextNumbers, FloatText} i r :
  writable (rm_payload r) →
  _decode_raw_message_row (columns (dumps (rm_payload r)) i r) = RawMessages._decode_raw_message_row i r.
Proof. intros Hw. by apply decode_raw_columns, loads_dumps. Qed.
End RawRows.

Module ItemRows.
Import Items.

Definition _coerce_int `{DecimalDigits, TextNumbers} : value → result exn Z := int_or_digits ItemsRepositoryError.
Definition _coerce_optional_int `{DecimalDigits, TextNumbers} : value → result exn (option Z) :=
  or_none (int_or_digits ItemsRepositoryError).
Definition _coerce_str : value → result exn pystr := text ItemsRepositoryError.
Definition _coerce_optional_str : value → result exn (option pystr) := or_none (text ItemsRepositoryError).
Definition _parse_datetime : pystr → result exn datetime := coerce_datetime ItemsRepositoryError.
Definition _coerce_datetime : value → result exn datetime := stored_datetime ItemsRepositoryError.
Definition _coerce_optional_datetime : value → result exn (option datetime) :=
  or_none (stored_datetime ItemsRepositoryError).
Definition _decode_item_row `{DecimalDigits, TextNumbers} (row : mapping) : result exn ItemRecord :=
  i ← _coerce_int (get row "id");
  channel ← _coerce_int (get row "channel_id");
  message ← _coerce_int (get row "message_id");
  raw ← _coerce_optional_int (get row "raw_message_id");
  published ← _coerce_optional_datetime (get row "published_at");
  title ← _coerce_optional_str (get row "title");
  body ← _coerce_optional_str (get row "body");
  url ← _coerce_optional_str (get row "canonical_url");
  url_hash ← _coerce_optional_str (get row "canonical_url_hash");
  hash ← _coerce_optional_str (get row "content_hash");
  state ← _coerce_str (get row "dedupe_state");
  created ← _coerce_datetime (get row "created_at");
  updated ← _coerce_datetime (get row "updated_at");
  mret (MkItemRecord i channel message raw published title body url url_hash hash state created updated).

Definition columns (i : Z) (x : Item) : mapping :=
  [("id", VInt i); ("channel_id", VInt (it_channel_id x)); ("message_id", VInt (it_message_id x));
   ("raw_message_id", optional VInt (it_raw_message_id x)); ("published_at", optional VText (it_published_at x));
   ("title", optional VText (it_title x)); ("body", optional VText (it_body x));
   ("canonical_url", optional VText (it_canonical_url x));
   ("canonical_url_hash", optional VText (it_canonical_url_hash x));
   ("content_hash", optional VText (it_content_hash x)); ("dedupe_state", VText (it_dedupe_state x));
   ("created_at", VText (it_created_at x)); ("updated_at", VText (it_updated_at x))]%string.
Lemma decode_item_columns `{DecimalDigits, TextNumbers} i x :
  _decode_item_row (columns i x) = Items._decode_item_row i x.
Proof.
  unfold _decode_item_row, Items._decode_item_row, _coerce_optional_int, _coerce_optional_str, _coerce_optional_datetime.
  cbn. rewrite optional_int by done. cbn. rewrite optional_datetime_text.
  destruct (coerce_optional_datetime _ _); cbn; [|done]. by rewrite !optional_text.
Qed.
End ItemRows.

Module DecisionRows.
Import Decisions.

(** The record as the repository has it, with the text of the metadata. *)
Record DedupeDecisionRecord := MkDecisionRecord {
  decision_id : Z;
  item_id : Z;
  cluster_id : option Z;
  candidate_item_id : option Z;
  strategy_name : pystr;
  outcome : pystr;
  reason_code : option pystr;
  score : option pyfloat;
  metadata_json : option pystr;
  created_at : datetime;
}.

Definition _coerce_int `{DecimalDigits, TextNumbers} : value → result exn Z :=
  int_not_bool DedupeDecisionsRepositoryError.
Definition _coerce_write_int : value → result exn Z := exact_int DedupeDecisionsRepositoryError.
Definition _coerce_optional_write_int : value → result exn (option Z) := or_none _coerce_write_int.
Definition _coerce_optional_int `{DecimalDigits, TextNumbers} : value → result exn (option Z) :=
  or_none (int_not_bool DedupeDecisionsRepositoryError).
Definition _coerce_str : value → result exn pystr := text DedupeDecisionsRepositoryError.
Definition _coerce_optional_str : value → result exn (option pystr) :=
  or_none (text DedupeDecisionsRepositoryError).
Definition finite (f : pyfloat) : result exn (option pyfloat) :=
  if isfinite f then Ok (Some f) else Err DedupeDecisionsRepositoryError.
(** [float(value)] of a large integer overflows. *)
Definition _coerce_optional_float `{TextNumbers} (v : value) : result exn (option pyfloat) :=
  match v with
  | VNull => Ok None
  | VInt n => f ← float_of_int n; finite f
  | VFloat f => finite f
  | VText s => match float_of s with Some f => finite f | None => Err DedupeDecisionsRepositoryError end
  | _ => Err DedupeDecisionsRepositoryError
  end.
Definition _parse_datetime : pystr → result exn datetime := coerce_datetime DedupeDecisionsRepositoryError.
Definition _coerce_datetime : value → result exn datetime := stored_datetime DedupeDecisionsRepositoryError.
Definition _decode_decision_row `{DecimalDigits, TextNumbers} (row : mapping) : result exn DedupeDecisionRecord :=
  i ← _coerce_int (get row "id");
  item ← _coerce_int (get row "item_id");
  cluster ← _coerce_optional_int (get row "cluster_id");
  candidate ← _coerce_optional_int (get row "candidate_item_id");
  strategy ← _coerce_str (get row "strategy_name");
  outcome ← _coerce_str (get row "outcome");
  reason ← _coerce_optional_str (get row "reason_code");
  score ← _coerce_optional_float (get row "score");
  metadata ← _coerce_optional_str (get row "metadata_json");
  created ← _coerce_datetime (get row "created_at");
  mret (MkDecisionRecord i item cluster candidate strategy outcome reason score metadata created).

Definition columns (metadata_json : option pystr) (i : Z) (d : DecisionRow) : mapping :=
  [("id", VInt i); ("item_id", VInt (de_item_id d)); ("cluster_id", optional VInt (de_cluster_id d));
   ("candidate_item_id", optional VInt (de_candidate_item_id d)); ("strategy_name", VText (de_strategy_name d));
   ("outcome", VText (de_outcome d)); ("reason_code", optional VText (de_reason_code d));
   ("score", optional VFloat (de_score d)); ("metadata_json", optional VText metadata_json);
   ("created_at", VText (de_created_at d))]%string.
(** With a creation time that can be read, a row decodes exactly when the score is finite, to
    the columns it has. *)
Lemma decode_decision_columns `{DecimalDigits, TextNumbers} metadata_json i d created :
  coerce_datetime DedupeDecisionsRepositoryError (de_created_at d) = Ok created →
  _decode_decision_row (columns metadata_json i d) =
    _ ← Decisions._decode_decision_row i d;
    Ok (MkDecisionRecord i (de_item_id d) (de_cluster_id d) (de_candidate_item_id d) (de_strategy_name d)
          (de_outcome d) (de_reason_code d) (de_score d) metadata_json created).
Proof.
  intros Hc. unfold _decode_decision_row, Decisions._decode_decision_row, _coerce_optional_int, _coerce_optional_str.
  cbn. rewrite optional_int by done. cbn. rewrite optional_int by done. cbn. rewrite optional_text.
  cbn. rewrite optional_text. unfold optional, Decisions._coerce_optional_finite_float, _coerce_optional_float, finite.
  unfold _coerce_datetime, stored_datetime. destruct (de_score d) as [f|]; [destruct (isfinite f)|]; cbn; by rewrite ?Hc.
Qed.
End DecisionRows.

(** * Errors, notifications, jobs and sessions *)
Module ErrorRows.
Import IngestErrors.

Definition _coerce_int `{DecimalDigits, TextNumbers} : value → result exn Z := int_or_digits IngestErrorDecodeError.
Definition _coerce_optional_int `{DecimalDigits, TextNumbers} : value → result exn (option Z) :=
  or_none (int_or_digits IngestErrorDecodeError).
Definition _coerce_str : value → result exn pystr := text IngestErrorDecodeError.
Definition _coerce_optional_str : value → result exn (option pystr) := or_none (text IngestErrorDecodeError).
Definition _coerce_datetime : value → result exn datetime := stored_datetime IngestErrorDecodeError.
Definition _decode_ingest_error_row `{DecimalDigits, TextNumbers} (row : mapping) : result exn IngestErrorRecord :=
  i ← _coerce_int (get row "id");
  channel ← _coerce_optional_int (get row "channel_id");
  stage ← _coerce_str (get row "stage");
  code ← _coerce_str (get row "error_code");
  message ← _coerce_str (get row "error_message");
  ref ← _coerce_optional_str (get row "payload_ref");
  created ← _coerce_datetime (get row "created_at");
  mret (MkErrorRecord i channel stage code message ref created).

Definition columns (i : Z) (e : IngestError) : mapping :=
  [("id", VInt i); ("channel_id", optional VInt (ie_channel_id e)); ("stage", VText (ie_stage e));
   ("error_code", VText (ie_error_code e)); ("error_message", VText (ie_error_message e));
   ("payload_ref", optional VText (ie_payload_ref e)); ("created_at", VText (ie_created_at e))]%string.
Lemma decode_error_columns `{DecimalDigits, TextNumbers} i e :
  _decode_ingest_error_row (columns i e) = IngestErrors._decode_ingest_error_row i e.
Proof.
  unfold _decode_ingest_error_row, _coerce_optional_int, _coerce_optional_str. cbn.
  rewrite optional_int by done. cbn. by rewrite optional_text.
Qed.
End ErrorRows.

Module NotificationRows.
Import Notifications.

(** [json.loads] lets its errors through. *)
Definition _decode_payload_json `{FloatText} (payload_json : value) : result exn JSONValue :=
  match payload_json with
  | VNull => Ok JNull
  | VText s => loads s
  | _ => Err NotificationsRepositoryError
  end.
Definition _decode_row `{FloatText} (row : mapping) : result exn NotificationRecord :=
  i ← any_int NotificationsRepositoryError (get row "id");
  type ← text NotificationsRepositoryError (get row "type");
  severity ← text NotificationsRepositoryError (get row "severity");
  message ← text NotificationsRepositoryError (get row "message");
  payload ← _decode_payload_json (get row "payload_json");
  mret (MkRecord i type severity message payload).
Definition _coerce_datetime : value → result exn datetime := stored_datetime NotificationsRepositoryError.
Definition _coerce_optional_datetime : value → result exn (option datetime) :=
  or_none (stored_datetime NotificationsRepositoryError).
Definition _decode_list_row `{FloatText} (row : mapping) : result exn NotificationListRecord :=
  i ← any_int NotificationsRepositoryError (get row "id");
  type ← text NotificationsRepositoryError (get row "type");
  severity ← text NotificationsRepositoryError (get row "severity");
  message ← text NotificationsRepositoryError (get row "message");
  flag ← any_int NotificationsRepositoryError (get row "is_acknowledged");
  acknowledged ← _coerce_optional_datetime (get row "acknowledged_at");
  created ← _coerce_datetime (get row "created_at");
  payload ← _decode_payload_json (get row "payload_json");
  mret (MkListRecord (MkRecord i type severity message payload) (negb (flag =? 0)) acknowledged created).

Definition columns (payload_json : option pystr) (i : Z) (n : Notification) : mapping :=
  [("id", VInt i); ("type", VText (no_type n)); ("severity", VText (no_severity n));
   ("message", VText (no_message n)); ("payload_json", optional VText payload_json);
   ("is_acknowledged", VInt (Z.b2z (no_is_acknowledged n)));
   ("acknowledged_at", optional VText (no_acknowledged_at n)); ("created_at", VText (no_created_at n))]%string.
Lemma decode_notification_columns `{FloatText} payload_json i n :
  _decode_payload_json (optional VText payload_json) = Ok (Notifications._decode_payload_json (no_payload n)) →
  _decode_row (columns payload_json i n) = Ok (Notifications._decode_row i n).
Proof. intros Hp. unfold _decode_row. cbn -[_decode_payload_json]. by rewrite Hp. Qed.
Lemma decode_list_columns `{FloatText} payload_json i n :
  _decode_payload_json (optional VText payload_json) = Ok (Notifications._decode_payload_json (no_payload n)) →
  _decode_list_row (columns payload_json i n) = Notifications._decode_list_row i n.
Proof.
  intros Hp. unfold _decode_list_row, Notifications._decode_list_row, _coerce_optional_datetime.
  cbn -[_decode_payload_json]. rewrite optional_datetime_text.
  destruct (coerce_optional_datetime _ _); [|done]. cbn -[_decode_payload_json]. unfold _coerce_datetime, stored_datetime.
  destruct (coerce_datetime _ _); [|done]. cbn -[_decode_payload_json]. rewrite Hp. by destruct (no_is_acknowledged n).
Qed.
(** The text the repository writes denotes the payload; no payload is written as NULL. *)
Lemma decode_notification_written `{FloatText} payload :
  writable (PyValue.sort_keys payload) →
  _decode_payload_json (optional VText (dumps <$> Notifications._encode_payload_json payload)) =
    Ok (Notifications._decode_payload_json (Notifications._encode_payload_json payload)).
Proof.
  intros Hw. destruct payload; try done; cbn [fmap option_fmap option_map Notifications._encode_payload_json default];
    unfold optional, _decode_payload_json; by apply loads_dumps.
Qed.
End NotificationRows.

Module PollJobRows.
Import Scheduler.
Definition PollJobsRepositoryError : exn := AppError "PollJobsRepositoryError".
Definition _decode_poll_job_row (row : mapping) : result exn PollJobRecord :=
  i ← any_int PollJobsRepositoryError (get row "id");
  channel ← any_int PollJobsRepositoryError (get row "channel_id");
  correlation ← text PollJobsRepositoryError (get row "correlation_id");
  mret (MkPollJobRecord i channel correlation).
Lemma decode_poll_job_columns i j :
  _decode_poll_job_row [("id", VInt i); ("channel_id", VInt (pj_channel_id j));
    ("correlation_id", VText (pj_correlation_id j))]%string =
  Ok (MkPollJobRecord i (pj_channel_id j) (pj_correlation_id j)).
Proof. done. Qed.
End PollJobRows.

Module SessionRows.
Import AuthSessions.
Definition AuthSessionStateError : exn := AppError "AuthSessionStateError".

Definition _coerce_str : value → result exn pystr := text AuthSessionStateError.
Definition _coerce_int `{DecimalDigits, TextNumbers} : value → result exn Z := int_or_digits AuthSessionStateError.
Definition _coerce_optional_str : value → result exn (option pystr) := or_none (text AuthSessionStateError).
Definition _decode_row `{DecimalDigits, TextNumbers} (row : mapping) : result exn AuthSessionState :=
  sid ← _coerce_str (get row "session_id");
  phone ← _coerce_str (get row "phone_number");
  status ← _coerce_str (get row "status");
  expires ← _coerce_int (get row "expires_at");
  session ← _coerce_optional_str (get row "telegram_session");
  mret (MkAuthSessionState sid phone status expires session).

Definition columns (sid : pystr) (r : AuthSession) : mapping :=
  [("session_id", VText sid); ("phone_number", VText (as_phone_number r)); ("status", VText (as_status r));
   ("expires_at", VInt (as_expires_at r)); ("telegram_session", optional VText (as_telegram_session r))]%string.
Lemma decode_session_columns `{DecimalDigits, TextNumbers} sid r :
  _decode_row (columns sid r) = Ok (AuthSessions._decode_row sid r).
Proof. unfold _decode_row, _coerce_optional_str. cbn. by rewrite optional_text. Qed.
End SessionRows.

Module SettingRows.
Import Settings.

(** [read_json]: [json.loads] that refuses the constants NaN and Infinity. *)
Definition _decode_value_json (read_json : pystr → result exn JSONValue) (value_json : pystr) : result exn JSONValue :=
  match read_json value_json with
  | Err _ => Err SettingValueDecodeError
  | Ok decoded => if _is_json_value decoded then Ok decoded else Err SettingValueDecodeError
  end.
Definition _decode_row (read_json : pystr → result exn JSONValue) (row : mapping) : result exn SettingRecord :=
  key ← text SettingValueDecodeError (get row "key");
  value_json ← text SettingValueDecodeError (get row "value_json");
  decoded ← _decode_value_json read_json value_json;
  mret (MkSetting key decoded).

Definition columns (key value_json : pystr) : mapping := [("key", VText key); ("value_json", VText value_json)]%string.
Lemma decode_setting_columns read_json key value_json v :
  read_json value_json = Ok v →
  _decode_row read_json (columns key value_json) = Settings._decode_row key v.
Proof.
  intros Hr. unfold _decode_row, _decode_value_json, Settings._decode_row. cbn -[_is_json_value]. rewrite Hr.
  by destruct (_is_json_value v).
Qed.
End SettingRows.

(** * Clusters, the thread and deliveries *)
Module ClusterRows.
Definition missing_integer : exn := TypeError "missing integer".
Definition _coerce_int : value → result exn Z := exact_int missing_integer.
Definition _coerce_row_int : value → result exn Z := exact_int (TypeError "expected integer").
End ClusterRows.

Module ThreadRows.
Import Thread.

Definition _coerce_positive_int `{DecimalDigits, TextNumbers} (v : value) : result exn Z :=
  n ← int_not_bool ThreadQueryRepositoryError v; Thread._coerce_positive_int n.
Definition _coerce_non_negative_int `{DecimalDigits, TextNumbers} (v : value) : result exn Z :=
  match v with
  | VInt n => if 0 <=? n then Ok n else Err ThreadQueryRepositoryError
  | v => int_not_bool ThreadQueryRepositoryError v
  end.
Definition _coerce_str : value → result exn pystr := text ThreadQueryRepositoryError.
Definition _coerce_optional_str : value → result exn (option pystr) := or_none (text ThreadQueryRepositoryError).
Definition _coerce_optional_datetime : value → result exn (option datetime) :=
  or_none (aware_datetime ThreadQueryRepositoryError).
Definition _decode_thread_entry_row `{DecimalDigits, TextNumbers} (row : mapping) : result exn ThreadEntryRecord :=
  cluster ← _coerce_positive_int (get row "cluster_id");
  key ← _coerce_str (get row "cluster_key");
  item ← _coerce_positive_int (get row "representative_item_id");
  published ← _coerce_optional_datetime (get row "representative_published_at");
  title ← _coerce_optional_str (get row "representative_title");
  body ← _coerce_optional_str (get row "representative_body");
  url ← _coerce_optional_str (get row "representative_canonical_url");
  channel ← _coerce_positive_int (get row "representative_channel_id");
  name ← _coerce_str (get row "representative_channel_name");
  username ← _coerce_optional_str (get row "representative_channel_username");
  count ← _coerce_non_negative_int (get row "duplicate_count");
  mret (MkThreadEntry cluster key item published title body url channel name username count).

Definition columns (j : joined) : mapping :=
  [("cluster_id", VInt (j_cluster_id j)); ("cluster_key", VText (j_cluster_key j));
   ("representative_item_id", VInt (j_item_id j));
   ("representative_published_at", optional VText (it_published_at (j_item j)));
   ("representative_title", optional VText (it_title (j_item j)));
   ("representative_body", optional VText (it_body (j_item j)));
   ("representative_canonical_url", optional VText (it_canonical_url (j_item j)));
   ("representative_channel_id", VInt (j_channel_id j));
   ("representative_channel_name", VText (ch_name (j_channel j)));
   ("representative_channel_username", optional VText (ch_username (j_channel j)));
   ("duplicate_count", VInt (j_members j))]%string.
Lemma decode_thread_entry_columns `{DecimalDigits, TextNumbers} j :
  _decode_thread_entry_row (columns j) = Thread._decode_thread_entry_row j.
Proof.
  unfold _decode_thread_entry_row, Thread._decode_thread_entry_row, _coerce_optional_str, _coerce_optional_datetime.
  cbn -[Thread._coerce_positive_int]. destruct (Thread._coerce_positive_int (j_cluster_id j)); [|done].
  cbn -[Thread._coerce_positive_int]. destruct (Thread._coerce_positive_int (j_item_id j)); [|done].
  cbn -[Thread._coerce_positive_int]. rewrite optional_aware_text. destruct (coerce_optional_datetime _ _); [|done].
  cbn -[Thread._coerce_positive_int]. rewrite !optional_text. cbn -[Thread._coerce_positive_int].
  destruct (Thread._coerce_positive_int (j_channel_id j)); [|done]. cbn.
  unfold Thread._coerce_non_negative_int. cbn. by destruct (0 <=? j_members j).
Qed.
End ThreadRows.

Module DeliveryRows.
Import BotDeliveries.

Definition _coerce_int `{DecimalDigits, TextNumbers} : value → result exn Z := int_or_digits BotDeliveryDecodeError.
Definition _coerce_str : value → result exn pystr := text BotDeliveryDecodeError.
Definition _coerce_optional_str : value → result exn (option pystr) := or_none (text BotDeliveryDecodeError).
Definition _coerce_datetime : value → result exn datetime := stored_datetime BotDeliveryDecodeError.
Definition _coerce_optional_datetime : value → result exn (option datetime) :=
  or_none (aware_datetime BotDeliveryDecodeError).
Definition _decode_delivery_row `{DecimalDigits, TextNumbers} (row : mapping) : result exn BotDeliveryRecord :=
  i ← _coerce_int (get row "id");
  cluster ← _coerce_int (get row "cluster_id");
  delivered ← _coerce_datetime (get row "delivered_at");
  message ← _coerce_optional_str (get row "telegram_message_id");
  mret (MkDeliveryRecord i cluster delivered message).
Definition _decode_entry_row `{DecimalDigits, TextNumbers} (row : mapping) : result exn BotDeliveryEntryRecord :=
  cluster ← _coerce_int (get row "cluster_id");
  title ← _coerce_optional_str (get row "representative_title");
  body ← _coerce_optional_str (get row "representative_body");
  url ← _coerce_optional_str (get row "representative_canonical_url");
  published ← _coerce_optional_datetime (get row "representative_published_at");
  name ← _coerce_str (get row "channel_name");
  username ← _coerce_optional_str (get row "channel_username");
  count ← _coerce_int (get row "duplicate_count");
  mret (MkEntry cluster title body url published name username count).

Definition columns (i : Z) (d : Delivery) : mapping :=
  [("id", VInt i); ("cluster_id", VInt (dl_cluster_id d)); ("delivered_at", VText (dl_delivered_at d));
   ("telegram_message_id", optional VText (dl_message_id d))]%string.
Lemma decode_delivery_columns `{DecimalDigits, TextNumbers} i d :
  _decode_delivery_row (columns i d) = BotDeliveries._decode_delivery_row i d.
Proof.
  unfold _decode_delivery_row, BotDeliveries._decode_delivery_row, _coerce_optional_str, _coerce_datetime, stored_datetime.
  cbn. destruct (coerce_datetime _ _); [|done]. cbn. by rewrite optional_text.
Qed.
Definition entry_columns (j : joined) : mapping :=
  [("cluster_id", VInt (j_cluster_id j)); ("representative_title", optional VText (it_title (j_item j)));
   ("representative_body", optional VText (it_body (j_item j)));
   ("representative_canonical_url", optional VText (it_canonical_url (j_item j)));
   ("representative_published_at", optional VText (it_published_at (j_item j)));
   ("channel_name", VText (ch_name (j_channel j))); ("channel_username", optional VText (ch_username (j_channel j)));
   ("duplicate_count", VInt (j_members j))]%string.
Lemma decode_entry_columns `{DecimalDigits, TextNumbers} j :
  _decode_entry_row (entry_columns j) = BotDeliveries._decode_entry_row j.
Proof.
  unfold _decode_entry_row, BotDeliveries._decode_entry_row, _coerce_optional_str, _coerce_optional_datetime.
  cbn. rewrite !optional_text, optional_aware_text. by destruct (coerce_optional_datetime _ _).
Qed.
End DeliveryRows.

(** * What the guards miss *)
(** [isdigit] holds of more than [int] reads: for a superscript digit the [ValueError] of
    [int] escapes instead of the repository's error. *)
Example superscript_digit :
  let digits : TextNumbers := {| isdigit s := bool_decide (s = [178]); float_of _ := None |} in
  int_or_digits Items.ItemsRepositoryError (VText [178]) = Err (ValueError "invalid literal for int() with base 10").
Proof. by_eval. Qed.
