(* ===== verification/Api.v ===== *)
(** The API routes over the repositories: channels (src/tca/api/routes/channels.py), polling on
    request (jobs.py), dynamic settings (settings.py), notifications (notifications.py), the
    thread (thread.py), decision traces (dedupe_decisions.py) and the bot's configuration
    (bot_config.py). A handler that writes is one operation of the writer queue. *)

From S2P Require Import Prelude PyValue PyTime PyIso PyText Schema Notifications Settings.
From S2P Require Import Channels Timeline Bot Scheduler Strategy Decisions.
Local Open Scope Z_scope.

Definition _channel_not_found (i : Z) : exn :=
  HTTPException 404 (u "Channel '" ++ str_of_int i ++ u "' was not found.").

(** What FastAPI answers when a parameter breaks its constraint. *)
Definition unprocessable : exn := HTTPException 422 (u "Unprocessable Entity").

(** * Channels *)
Module ChannelsApi.

Record ChannelCreateRequest := MkCreate {
  c_account_id : Z;
  c_telegram_channel_id : Z;
  c_name : pystr;
  c_username : option pystr;
}.
Definition valid_create (p : ChannelCreateRequest) : bool :=
  (0 <? c_account_id p) && (0 <? c_telegram_channel_id p) && str_truthy (c_name p) &&
  match c_username p with Some s => str_truthy s | None => true end.

(** A field is [None] when the request does not set it. *)
Record ChannelPatchRequest := MkPatch {
  p_name : option (option pystr);
  p_username : option (option pystr);
  p_is_enabled : option (option bool);
  p_paused_until : option (option datetime);
  p_last_success_at : option (option datetime);
}.

Record ChannelResponse := MkChannelResponse {
  id : Z;
  account_id : Z;
  telegram_channel_id : Z;
  name : pystr;
  username : option pystr;
  is_enabled : bool;
  paused_until : option datetime;
  last_success_at : option datetime;
}.

Definition _to_channel_response (c : Channels.ChannelRecord)
    (state : option ChannelStates.ChannelStateRecord) : ChannelResponse :=
  MkChannelResponse (Channels.id c) (Channels.account_id c) (Channels.telegram_channel_id c)
    (Channels.name c) (Channels.username c) (Channels.is_enabled c)
    (state ≫= ChannelStates.paused_until) (state ≫= ChannelStates.last_success_at).

Definition list_channels (db : Db) : list ChannelResponse :=
  let channels := Channels.list_active_channels None db in
  let states := ChannelStates.list_states_by_channel_ids (Channels.id <$> channels) db in
  (λ c, _to_channel_response c (states !! Channels.id c)) <$> channels.

Definition create_channel (payload : ChannelCreateRequest) (db : Db) : result exn ChannelResponse * Db :=
  match Channels.create_channel (c_account_id payload) (c_telegram_channel_id payload)
          (c_name payload) (c_username payload) db with
  | (Ok created, db) => (Ok (_to_channel_response created None), db)
  | (Err e, db) => (Err e, db)
  end.

(** The second half of the update: the polling state, when a field of it is set. *)
Definition patch_state (i : Z) (payload : ChannelPatchRequest) (db : Db)
    : result exn (option ChannelStates.ChannelStateRecord) * Db :=
  match p_paused_until payload, p_last_success_at payload with
  | None, None => (Ok (ChannelStates.get_state i db), db)
  | pause, success =>
      let current := ChannelStates.get_state i db in
      let updated_pause := default (current ≫= ChannelStates.paused_until) pause in
      let updated_success := default (current ≫= ChannelStates.last_success_at) success in
      match ChannelStates.upsert_state i updated_pause updated_success db with
      | (Ok s, db) => (Ok (Some s), db)
      | (Err e, db) => (Err e, db)
      end
  end.

Definition patch_channel (i : Z) (payload : ChannelPatchRequest) (db : Db)
    : result exn ChannelResponse * Db :=
  match Channels.get_channel_by_id i db with
  | None => (Err (_channel_not_found i), db)
  | Some current =>
      match p_name payload, p_is_enabled payload with
      | Some None, _ => (Err (HTTPException 400 (u "Field `name` cannot be null.")), db)
      | _, Some None => (Err (HTTPException 400 (u "Field `is_enabled` cannot be null.")), db)
      | nm, enabled =>
          let updated_name := match nm with Some (Some n) => n | _ => Channels.name current end in
          let updated_username := default (Channels.username current) (p_username payload) in
          let updated_is_enabled :=
            match enabled with Some (Some b) => b | _ => Channels.is_enabled current end in
          match Channels.update_channel i updated_name updated_username updated_is_enabled db with
          | (None, db) => (Err (_channel_not_found i), db)
          | (Some updated, db) =>
              match patch_state i payload db with
              | (Ok state, db) => (Ok (_to_channel_response updated state), db)
              | (Err e, db) => (Err e, db)
              end
          end
      end
  end.

Definition delete_channel (now : pystr) (purge : bool) (i : Z) (db : Db)
    : result exn ChannelResponse * Db :=
  if purge then
    match Channels.purge_channel now i db with
    | (None, db) => (Err (_channel_not_found i), db)
    | (Some purged, db) => (Ok (_to_channel_response purged None), db)
    end
  else
    match Channels.disable_channel i db with
    | (None, db) => (Err (_channel_not_found i), db)
    | (Some disabled, db) => (Ok (_to_channel_response disabled (ChannelStates.get_state i db)), db)
    end.

End ChannelsApi.

(** * Polling on request *)
Module JobsApi.

Record PollNowResponse := MkPollNow { channel_id : Z; correlation_id : pystr }.

Definition _channel_disabled (i : Z) : exn :=
  HTTPException 409 (u "Channel '" ++ str_of_int i ++ u "' is disabled.").
Definition _channel_paused (i : Z) (paused_until : datetime) : exn :=
  HTTPException 409 (u "Channel '" ++ str_of_int i ++ u "' is paused until " ++
    isoformat (u "T") paused_until ++ u ".").

(** [now] is the clock and [uuid] the new correlation id. *)
Definition poll_now (now : datetime) (uuid : pystr) (i : Z) (db : Db)
    : result exn PollNowResponse * Db :=
  match Channels.get_channel_by_id i db with
  | None => (Err (_channel_not_found i), db)
  | Some channel =>
      if negb (Channels.is_enabled channel) then (Err (_channel_disabled i), db)
      else
        let enqueue :=
          match Scheduler.enqueue_poll_job i uuid db with
          | (Ok job, db) => (Ok (MkPollNow (Scheduler.channel_id job) (Scheduler.correlation_id job)), db)
          | (Err e, db) => (Err e, db)
          end in
        match ChannelStates.get_state i db ≫= ChannelStates.paused_until with
        | Some pause => if dt_lt now pause then (Err (_channel_paused i pause), db) else enqueue
        | None => enqueue
        end
  end.

End JobsApi.

(** * Dynamic settings *)
Module SettingsApi.

Definition allowed (k : pystr) : bool :=
  bool_decide (k ∈ Settings.DYNAMIC_SETTINGS_DEFAULTS.*1).

Definition _validate_allowed_setting_key (k : pystr) : result exn unit :=
  if allowed k then Ok tt
  else Err (HTTPException 400 (u "Unknown setting key '" ++ k ++ u "'.")).

Definition _resolve_effective_setting_value (k : pystr) (db : Db) : result exn Settings.SettingRecord :=
  record ← Settings.get_by_key k db;
  match record with
  | Some r => Ok r
  | None => Ok (Settings.MkSetting k (default JNull (dict_get Settings.DYNAMIC_SETTINGS_DEFAULTS k)))
  end.

Definition get_setting (k : pystr) (db : Db) : result exn Settings.SettingRecord :=
  _ ← _validate_allowed_setting_key k; _resolve_effective_setting_value k db.

(** Update, or create when there is nothing to update. *)
Definition write_setting (k : pystr) (v : JSONValue) (db : Db) : result exn Settings.SettingRecord * Db :=
  match Settings.update k v db with
  | (Err e, db) => (Err e, db)
  | (Ok (Some updated), db) => (Ok updated, db)
  | (Ok None, db) => Settings.create k v db
  end.

Definition put_setting (k : pystr) (v : JSONValue) (db : Db) : result exn Settings.SettingRecord * Db :=
  match _validate_allowed_setting_key k with
  | Err e => (Err e, db)
  | Ok _ => write_setting k v db
  end.

End SettingsApi.

(** * Notifications, the thread and decision traces *)
Module ReadApi.

(** An empty filter is no filter. *)
Definition list_notifications (severity type : option (list pystr)) (db : Db)
    : result exn (list Notifications.NotificationListRecord) :=
  let some l := match l with Some (_ :: _) => l | _ => None end in
  Notifications.list_notifications (some severity) (some type) db.

Definition acknowledge_notification (now : pystr) (i : Z) (db : Db)
    : result exn Notifications.NotificationListRecord * Db :=
  match Notifications.acknowledge now i db with
  | (Ok None, db) => (Err (HTTPException 404 (u "Notification not found.")), db)
  | (Ok (Some r), db) => (Ok r, db)
  | (Err e, db) => (Err e, db)
  end.

Definition list_thread_entries (page size : Z) (db : Db) : result exn (list Thread.ThreadEntryRecord) :=
  if (1 <=? page) && (1 <=? size) && (size <=? 100) then Thread.list_entries page size db
  else Err unprocessable.

Definition get_dedupe_decisions_trace (i : Z) (db : Db)
    : result exn (list Decisions.DedupeDecisionRecord) :=
  match items db !! i with
  | None => Err (HTTPException 404 (u "Item '" ++ str_of_int i ++ u "' was not found."))
  | Some _ => Decisions.list_for_item i db
  end.

End ReadApi.

(** * The bot's configuration *)
Module BotConfigApi.
Section bot_config.
(** [str] of an exception and [repr] of a value that is not text. *)
Context (exc_text : exn → pystr) (repr : JSONValue → pystr).

Record BotConfigResponse := MkConfigured { bot_username : pystr; r_chat_id : pystr }.
Record BotConfigStatusResponse := MkStatus {
  token_masked : option pystr;
  chat_id : option pystr;
  enabled : bool;
}.

Fixpoint write_all (entries : list (pystr * JSONValue)) (db : Db) : result exn unit * Db :=
  match entries with
  | [] => (Ok tt, db)
  | (k, v) :: entries =>
      match SettingsApi.write_setting k v db with
      | (Err e, db) => (Err e, db)
      | (Ok _, db) => write_all entries db
      end
  end.

(** [reply] is what the Bot API answers to [getMe]. *)
Definition configure_bot (token chat : pystr) (reply : BotApi.reply) (db : Db)
    : result exn BotConfigResponse * Db :=
  match BotApi.validate_token reply with
  | Err e =>
      (Err (if decide (e = BotApi.BotTokenInvalidError)
            then HTTPException 422 (u "Invalid Telegram bot token: " ++ exc_text e)
            else HTTPException 400 (u "Failed to validate bot token: " ++ exc_text e)), db)
  | Ok info =>
      match write_all [(u "bot.token", JStr token); (u "bot.chat_id", JStr chat);
                       (u "bot.enabled", JBool true)] db with
      | (Err e, db) => (Err e, db)
      | (Ok _, db) => (Ok (MkConfigured (BotApi.username info) chat), db)
      end
  end.

Definition mask (token : pystr) : pystr :=
  if (4 <? length token)%nat
  then replicate (length token - 4) 42 ++ drop (length token - 4) token
  else replicate (length token) 42.

Definition get_bot_config (db : Db) : result exn BotConfigStatusResponse :=
  token_rec ← Settings.get_by_key (u "bot.token") db;
  chat_id_rec ← Settings.get_by_key (u "bot.chat_id") db;
  enabled_rec ← Settings.get_by_key (u "bot.enabled") db;
  let on := match enabled_rec with Some r => json_truthy (Settings.value r) | None => false end in
  match Delivery.text_setting repr token_rec, Delivery.text_setting repr chat_id_rec with
  | Some ((_ :: _) as token), Some ((_ :: _) as chat) => mret (MkStatus (Some (mask token)) (Some chat) on)
  | _, _ => mret (MkStatus None None false)
  end.

Definition delete_bot_config (db : Db) : result exn unit * Db :=
  let db := Settings.delete (u "bot.token") db in
  let db := Settings.delete (u "bot.chat_id") db in
  match Settings.upsert (u "bot.enabled") (JBool false) db with
  | (Err e, db) => (Err e, db)
  | (Ok _, db) => (Ok tt, db)
  end.

Definition test_bot_config (reply : BotApi.reply) (db : Db) : result exn JSONValue :=
  token_rec ← Settings.get_by_key (u "bot.token") db;
  chat_id_rec ← Settings.get_by_key (u "bot.chat_id") db;
  match Delivery.text_setting repr token_rec, Delivery.text_setting repr chat_id_rec with
  | Some (_ :: _), Some (_ :: _) =>
      match BotApi.send_message reply with
      | Ok sent => Ok (BotApi.message_id sent)
      | Err e => Err (HTTPException 400 (u "Test message delivery failed: " ++ exc_text e))
      end
  | _, _ => Err (HTTPException 422 (u "Telegram bot delivery is not configured."))
  end.

End bot_config.
End BotConfigApi.

(** * Lemmas *)

Lemma write_setting_spec k v db :
  json_encodable v = true →
  SettingsApi.write_setting k v db =
    (Ok (Settings.MkSetting k v), set_settings (<[k := v]> (settings db)) db).
Proof.
  intros Hv. unfold SettingsApi.write_setting, Settings.update, Settings.create,
    Settings.insert_setting, Settings._encode_value_json, Settings._decode_row, Settings._is_json_value.
  rewrite Hv. by destruct (settings db !! k) eqn:E; cbn; rewrite ?E, ?Hv.
Qed.

Lemma mask_spec token :
  ∃ k, BotConfigApi.mask token = replicate k 42 ++ drop k token ∧
    (length token = k + 4 ∨ k = length token)%nat.
Proof.
  unfold BotConfigApi.mask. destruct (Nat.ltb_spec 4 (length token)).
  - exists (length token - 4)%nat. split; [done|]. left. lia.
  - exists (length token). rewrite drop_all, app_nil_r. split; [done|]. by right.
Qed.

Section bot_config.
Context (exc_text : exn → pystr) (repr : JSONValue → pystr).

Lemma configure_bot_Ok token chat reply db r db' :
  BotConfigApi.configure_bot exc_text token chat reply db = (Ok r, db') →
  settings db' = <[u "bot.enabled" := JBool true]> (<[u "bot.chat_id" := JStr chat]>
    (<[u "bot.token" := JStr token]> (settings db))) ∧
  set_settings (settings db) db' = db ∧ BotConfigApi.r_chat_id r = chat.
Proof.
  unfold BotConfigApi.configure_bot. destruct (BotApi.validate_token reply); [|done].
  unfold BotConfigApi.write_all. rewrite !write_setting_spec by done. intros [= <- <-].
  by destruct db.
Qed.

(** A deletion, on any store. *)
Lemma delete_bot_config_spec db :
  let '(r, db') := BotConfigApi.delete_bot_config db in
  r = Ok tt ∧ BotConfigApi.get_bot_config repr db' = Ok (BotConfigApi.MkStatus None None false) ∧
  Delivery.prepare repr db' = Ok None ∧
  ∃ s, db' = set_settings s db ∧
    ∀ k, k ∉ [u "bot.token"; u "bot.chat_id"; u "bot.enabled"] → s !! k = settings db !! k.
Proof.
  unfold BotConfigApi.delete_bot_config, Settings.delete, Settings.upsert, Settings._encode_value_json,
    Settings._decode_row, Settings._is_json_value.
  cbn [json_encodable settings set_settings]. set (db' := set_settings _ _).
  assert (∃ s, db' = set_settings s db ∧
    s = <[u "bot.enabled" := JBool false]> (base.delete (u "bot.chat_id")
      (base.delete (u "bot.token") (settings db)))) as (s&Edb&Es) by by eexists.
  assert (settings db' = s) as E by by rewrite Edb. clearbody db'.
  assert (settings db' !! u "bot.enabled" = Some (JBool false)) as He
    by (by rewrite E, Es, lookup_insert_eq).
  assert (settings db' !! u "bot.chat_id" = None) as Hc
    by (by rewrite E, Es, lookup_insert_ne, lookup_delete_eq).
  assert (settings db' !! u "bot.token" = None) as Ht
    by (by rewrite E, Es, lookup_insert_ne, lookup_delete_ne, lookup_delete_eq).
  split_and!; [done| | |exists s; split; [done|] ].
  - unfold BotConfigApi.get_bot_config.
    by rewrite (Settings.get_missing _ _ Ht), (Settings.get_missing _ _ Hc), (Settings.get_written _ _ _ He).
  - unfold Delivery.prepare. by rewrite (Settings.get_written _ _ _ He).
  - intros k Hk. rewrite !not_elem_of_cons in Hk. destruct Hk as (?&?&?&_).
    by rewrite Es, lookup_insert_ne, !lookup_delete_ne.
Qed.

(** C30. What a configuration the API accepted controls. When neither the token nor the chat
    is empty, the status shows the chat, delivery enabled and of the token at most the last
    four characters, and a delivery run works with exactly this token and chat. When one of
    them is empty (which the route accepts, for the chat, once the token validates), the
    status is empty and a delivery run does nothing. After the deletion that follows, too,
    the status is empty and a delivery run does nothing; the rest of the store is as
    before. *)
Theorem bot_config_controls_delivery token chat reply db r db1 :
  BotConfigApi.configure_bot exc_text token chat reply db = (Ok r, db1) →
  (token ≠ [] → chat ≠ [] →
   (∃ k, (length token = k + 4 ∨ k = length token)%nat ∧
      BotConfigApi.get_bot_config repr db1 =
        Ok (BotConfigApi.MkStatus (Some (replicate k 42 ++ drop k token)) (Some chat) true)) ∧
   Delivery.prepare repr db1 =
     (size ← Settings.get_by_key (u "bot.delivery_batch_size") db1;
      limit ← Delivery.batch_size size;
      entries ← BotDeliveries.list_undelivered_entries limit db1;
      mret (Some (token, chat, entries)))) ∧
  (token = [] ∨ chat = [] →
   BotConfigApi.get_bot_config repr db1 = Ok (BotConfigApi.MkStatus None None false) ∧
   Delivery.prepare repr db1 = Ok None) ∧
  let '(r2, db2) := BotConfigApi.delete_bot_config db1 in
  r2 = Ok tt ∧ BotConfigApi.get_bot_config repr db2 = Ok (BotConfigApi.MkStatus None None false) ∧
  Delivery.prepare repr db2 = Ok None ∧
  set_settings (settings db) db2 = db ∧
  (∀ k, k ∉ [u "bot.token"; u "bot.chat_id"; u "bot.enabled"] → settings db2 !! k = settings db !! k).
Proof.
  intros (Es&Edb&_)%configure_bot_Ok.
  assert (settings db1 !! u "bot.enabled" = Some (JBool true)) as He
    by (by rewrite Es, lookup_insert_eq).
  assert (settings db1 !! u "bot.chat_id" = Some (JStr chat)) as Hch
    by (by rewrite Es, lookup_insert_ne, lookup_insert_eq).
  assert (settings db1 !! u "bot.token" = Some (JStr token)) as Htk
    by (by rewrite Es, 2!lookup_insert_ne, lookup_insert_eq).
  split_and!.
  - intros Ht Hc. split.
    + destruct (mask_spec token) as (k&Hm&Hk). exists k. split; [done|].
      unfold BotConfigApi.get_bot_config.
      rewrite (Settings.get_written _ _ _ Htk), (Settings.get_written _ _ _ Hch), (Settings.get_written _ _ _ He) by done.
      rewrite <-Hm. by destruct token, chat.
    + unfold Delivery.prepare.
      rewrite (Settings.get_written _ _ _ He), (Settings.get_written _ _ _ Htk), (Settings.get_written _ _ _ Hch) by done.
      cbn [mbind result_bind Settings.value json_truthy negb]. by destruct token, chat.
  - intros Hempty. unfold BotConfigApi.get_bot_config, Delivery.prepare.
    rewrite (Settings.get_written _ _ _ Htk), (Settings.get_written _ _ _ Hch), (Settings.get_written _ _ _ He) by done.
    cbn [mbind result_bind Settings.value json_truthy negb Delivery.text_setting].
    destruct Hempty as [->| ->]; [done|by destruct token].
  - pose proof (delete_bot_config_spec db1) as Hd.
    destruct (BotConfigApi.delete_bot_config db1) as [r2 db2].
    destruct Hd as (->&Hget&Hprep&s&->&Hs). split_and!; [done..|by rewrite <-Edb|].
    intros k Hk. rewrite Hs by done. rewrite Es.
    rewrite !not_elem_of_cons in Hk. destruct Hk as (?&?&?&_). by rewrite !lookup_insert_ne.
Qed.
End bot_config.

(** ** Channels *)

Lemma update_channel_spec i nm user en db row :
  channels db !! i = Some row →
  Channels.update_channel i nm user en db =
    (Some (Channels.MkChannelRecord i (ch_account_id row) (ch_telegram_channel_id row) nm user en),
     set_channels (<[i := MkChannel (ch_account_id row) (ch_telegram_channel_id row) nm user en]>
       (channels db)) db).
Proof. intros Hr. unfold Channels.update_channel, Channels.update_row. by rewrite Hr. Qed.

(** The polling state after a patch: set fields replace, the cursor stays. *)
Definition patched_state (p : ChannelsApi.ChannelPatchRequest) (s : option ChannelState)
    : option ChannelState :=
  match ChannelsApi.p_paused_until p, ChannelsApi.p_last_success_at p with
  | None, None => s
  | pause, success =>
      Some (MkChannelState (s ≫= cs_cursor)
        (default (_normalize_datetime <$> (s ≫= cs_paused_until)) pause)
        (default (_normalize_datetime <$> (s ≫= cs_last_success_at)) success))
  end.

Lemma patch_state_spec i p db :
  is_Some (channels db !! i) →
  ∃ db', ChannelsApi.patch_state i p db = (Ok (ChannelStates.get_state i db'), db') ∧
    channel_states db' !! i = patched_state p (channel_states db !! i) ∧
    (∀ j, j ≠ i → channel_states db' !! j = channel_states db !! j) ∧
    set_channel_states (channel_states db) db' = db.
Proof.
  intros Hc. unfold ChannelsApi.patch_state, patched_state.
  assert (∀ pause success, ∃ db', ChannelStates.upsert_state i pause success db =
    (Ok (ChannelStates._decode_state_row i
           (MkChannelState (channel_states db !! i ≫= cs_cursor) pause success)), db') ∧
    channel_states db' !! i = Some (MkChannelState (channel_states db !! i ≫= cs_cursor) pause success) ∧
    (∀ j, j ≠ i → channel_states db' !! j = channel_states db !! j) ∧
    set_channel_states (channel_states db) db' = db) as Hup.
  { intros pause success. unfold ChannelStates.upsert_state, ChannelStates.upsert, atomically.
    rewrite decide_True by (by right). destruct (channel_states db !! i); eexists; (split; [done|]).
    all: cbn [channel_states set_channel_states]; rewrite lookup_insert_eq.
    all: split_and!; [done|intros; by rewrite lookup_insert_ne|by destruct db]. }
  assert (ChannelStates.get_state i db ≫= ChannelStates.paused_until =
    _normalize_datetime <$> (channel_states db !! i ≫= cs_paused_until)) as ->
    by (unfold ChannelStates.get_state; by destruct (channel_states db !! i)).
  assert (ChannelStates.get_state i db ≫= ChannelStates.last_success_at =
    _normalize_datetime <$> (channel_states db !! i ≫= cs_last_success_at)) as ->
    by (unfold ChannelStates.get_state; by destruct (channel_states db !! i)).
  destruct (ChannelsApi.p_paused_until p) as [pause|], (ChannelsApi.p_last_success_at p) as [success|];
    cbn [default];
    try (match goal with |- context [ChannelStates.upsert_state i ?a ?b db] =>
      destruct (Hup a b) as (db'&->&Hi&Hne&Hdb) end;
      exists db'; split_and!; [|done..]; unfold ChannelStates.get_state; by rewrite Hi).
  exists db. by destruct db.
Qed.

(** A patch of a channel: a missing channel, a null name or a null flag are refused and
    change nothing. Otherwise exactly the fields the request sets change, of the row and of
    the polling state, whose cursor stays; the answer shows the row and the state as they
    are stored, and nothing else of the store changes. *)
Theorem patch_channel_spec i p db :
  let '(r, db') := ChannelsApi.patch_channel i p db in
  match r with
  | Err e =>
      db' = db ∧
      ((e = _channel_not_found i ∧ channels db !! i = None) ∨
       (is_Some (channels db !! i) ∧ (∃ msg, e = HTTPException 400 msg) ∧
        (ChannelsApi.p_name p = Some None ∨ ChannelsApi.p_is_enabled p = Some None)))
  | Ok response =>
      ∃ row row', channels db !! i = Some row ∧ channels db' = <[i := row']> (channels db) ∧
        ch_account_id row' = ch_account_id row ∧
        ch_telegram_channel_id row' = ch_telegram_channel_id row ∧
        Some (ch_name row') = default (Some (ch_name row)) (ChannelsApi.p_name p) ∧
        ch_username row' = default (ch_username row) (ChannelsApi.p_username p) ∧
        Some (ch_is_enabled row') = default (Some (ch_is_enabled row)) (ChannelsApi.p_is_enabled p) ∧
        channel_states db' !! i = patched_state p (channel_states db !! i) ∧
        (∀ j, j ≠ i → channel_states db' !! j = channel_states db !! j) ∧
        set_channels (channels db) (set_channel_states (channel_states db) db') = db ∧
        response = ChannelsApi._to_channel_response (Channels._decode_channel_row i row')
                     (ChannelStates.get_state i db')
  end.
Proof.
  unfold ChannelsApi.patch_channel, Channels.get_channel_by_id.
  destruct (channels db !! i) as [row|] eqn:Erow; cbn [fmap option_fmap option_map];
    [|split; [done|by left] ].
  destruct (ChannelsApi.p_name p) as [ [nm|]|] eqn:En; cbv beta iota;
    [|split; [done|right; split_and!; [by eexists..|by left] ]|].
  all: destruct (ChannelsApi.p_is_enabled p) as [ [en|]|] eqn:Een; cbv beta iota;
    [|split; [done|right; split_and!; [by eexists..|by right] ]|].
  all: rewrite (update_channel_spec _ _ _ _ _ row) by done.
  all: match goal with |- context [set_channels (<[_ := ?row']> _) _] =>
    destruct (patch_state_spec i p (set_channels (<[i := row']> (channels db)) db)) as (db'&->&Hi&Hne&Hdb);
    [cbn [channels set_channels]; rewrite lookup_insert_eq; by eexists|];
    exists row, row'; cbn [channel_states set_channels] in *;
    assert (channels db' = <[i := row']> (channels db)) as Hch
      by (change (channels db') with (channels (set_channel_states (channel_states db) db')); by rewrite Hdb);
    split_and!; try done; rewrite Hdb; by destruct db end.
Qed.

Lemma bot_config_controls_delivery_witness :
  let token := u "123:abcdefgh" in
  let reply := BotApi.Response 200 (Some (JDict [(u "ok", JBool true);
    (u "result", JDict [(u "id", JInt 7); (u "username", JStr (u "tca_bot"))])])) in
  let configured := BotConfigApi.configure_bot (λ _, []) token (u "42") reply empty_db in
  (∃ k, (length token = k + 4 ∨ k = length token)%nat ∧
     BotConfigApi.get_bot_config (λ _, []) configured.2 =
       Ok (BotConfigApi.MkStatus (Some (replicate k 42 ++ drop k token)) (Some (u "42")) true)) ∧
  Delivery.prepare (λ _, []) (BotConfigApi.delete_bot_config configured.2).2 = Ok None.
Proof.
  intros token reply configured.
  assert (configured = (Ok (BotConfigApi.MkConfigured (u "tca_bot") (u "42")), configured.2)) as Hc
    by reflexivity.
  destruct (bot_config_controls_delivery (λ _, []) (λ _, []) token (u "42") reply empty_db
      (BotConfigApi.MkConfigured (u "tca_bot") (u "42")) configured.2)
    as (Hs&_&Hd); [exact Hc|].
  split; [by apply Hs|]. destruct (BotConfigApi.delete_bot_config configured.2) as [r2 db2].
  by destruct Hd as (_&_&Hp&_).
Defined.

(** An empty chat is accepted, and then nothing is delivered. *)
Example empty_chat_accepted :
  let token := u "123:abcdefgh" in
  let reply := BotApi.Response 200 (Some (JDict [(u "ok", JBool true);
    (u "result", JDict [(u "id", JInt 7); (u "username", JStr (u "tca_bot"))])])) in
  let configured := BotConfigApi.configure_bot (λ _, []) token [] reply empty_db in
  configured.1 = Ok (BotConfigApi.MkConfigured (u "tca_bot") []) ∧
  Delivery.prepare (λ _, []) configured.2 = Ok None.
Proof. vm_compute. done. Qed.
