(* ===== verification/Ui.v ===== *)
(** The pages over the repositories (src/tca/ui/routes.py): forms, the thread page, the
    notifications page and the page of channels and groups. A handler returns where to
    redirect or which page to render with which status and message; the page itself is a
    function of the database at the time it is rendered. *)

From S2P Require Import Prelude PyValue PyTime PyIso PyText PyCodec Schema.
From S2P Require Import Notifications Clusters Channels Groups Timeline.
Local Open Scope Z_scope.

(** * Forms *)
Module Forms.

(** Of repeated fields the last value counts. *)
Definition _parse_urlencoded_form (raw_body : list Z) : gmap pystr pystr :=
  foldl (λ form kv, <[kv.1 := kv.2]> form) ∅ (parse_qsl (utf8_decode_ignore raw_body)).

(** [str(form.get(name, "")).strip()] *)
Definition field (form : gmap pystr pystr) (name : pystr) : pystr :=
  strip (default [] (form !! name)).
(** [text or None] *)
Definition or_none (s : pystr) : option pystr := if str_truthy s then Some s else None.

(** [int | None | Literal["invalid"]] *)
Inductive optional_int := NoInt | AnInt (n : Z) | invalid.
#[export] Instance optional_int_eq_dec : EqDecision optional_int.
Proof. solve_decision. Defined.
Definition to_option (o : optional_int) : option Z :=
  match o with AnInt n => Some n | _ => None end.

Section digits.
Context `{DecimalDigits}.

Definition _parse_int (value : pystr) : option Z := py_int value.

Definition _parse_optional_int (raw_value : pystr) : optional_int :=
  let value := strip raw_value in
  if str_truthy value then
    match _parse_int value with Some n => AnInt n | None => invalid end
  else NoInt.

Record UIGroupFormValues := MkGroupForm {
  name : pystr;
  description : option pystr;
  dedupe_horizon_minutes_override : option Z;
  channel_id : option Z;
}.

Definition _parse_channel_assignment (form : gmap pystr pystr) : optional_int :=
  _parse_optional_int (field form (u "channel_id")).

(** The values, or the message to show. *)
Definition _parse_group_form_values (form : gmap pystr pystr) (include_channel : bool)
    : UIGroupFormValues + pystr :=
  let nm := field form (u "name") in
  if negb (str_truthy nm) then inr (u "Group name cannot be empty.")
  else
    let description_raw := field form (u "description") in
    let horizon := _parse_optional_int (field form (u "dedupe_horizon_minutes_override")) in
    if decide (horizon = invalid) then inr (u "Group horizon override must be an integer.")
    else
      let channel := if include_channel then _parse_channel_assignment form else NoInt in
      if decide (channel = invalid) then inr (u "Group channel assignment must be an integer.")
      else inl (MkGroupForm nm (or_none description_raw) (to_option horizon) (to_option channel)).

End digits.

Example form_example :
  let form := _parse_urlencoded_form [97; 61; 49; 38; 255; 97; 61; 37; 50; 48; 120; 43] in
  field form (u "a") = u "x" ∧ field form (u "b") = [].
Proof. vm_compute. done. Qed.

End Forms.

(** * The thread page *)
Module ThreadView.
Import Forms.

Definition DEFAULT_THREAD_PAGE : Z := 1.
Definition DEFAULT_THREAD_PAGE_SIZE : Z := 20.
Definition MAX_THREAD_PAGE_SIZE : Z := 100.

Record UIThreadEntryRow := MkEntryRow {
  cluster_id : Z;
  cluster_key : pystr;
  representative_item_id : Z;
  representative_published_at : option pystr;
  representative_title : option pystr;
  representative_body : option pystr;
  representative_canonical_url : option pystr;
  representative_channel_id : Z;
  representative_channel_name : pystr;
  duplicate_count : Z;
  source_channel_names : list pystr;
}.

(** The column [metadata_json] is the value its text denotes. *)
Record UIThreadDecisionRow := MkDecisionRow {
  decision_id : Z;
  item_id : Z;
  decision_cluster_id : option Z;
  candidate_item_id : option Z;
  strategy_name : pystr;
  outcome : pystr;
  reason_code : option pystr;
  score : option pyfloat;
  metadata_json : option JSONValue;
  created_at : pystr;
}.

Record UIThreadFilterChannelRow := MkFilterRow { channel_id : Z; channel_name : pystr }.

Record UIThreadViewState := MkViewState {
  page : Z;
  size : Z;
  selected_channel_id : option Z;
  selected_item_id : option Z;
}.

Definition _parse_source_channel_names (names : option pystr) : list pystr :=
  match names with
  | None => []
  | Some text =>
      sort_by text_cmp
        (elements (list_to_set (filter (λ part, part ≠ []) (strip <$> split_on 44 text)) : gset pystr))
  end.

(** The channels of the members the joins find. *)
Definition member_channel_names (db : Db) (c : Z) : gset pystr :=
  list_to_set (omap (λ i, item ← items db !! i; ch ← channels db !! it_channel_id item;
                          Some (ch_name ch)) (elements (Clusters.member_items db c))).

(** [GROUP_CONCAT(DISTINCT member_channels.name)], null when there is none; the order of
    the names does not matter to [_parse_source_channel_names]. *)
Definition group_concat (names : gset pystr) : option pystr :=
  match elements names with [] => None | names => Some (join [44] names) end.

Definition _decode_ui_thread_entry_row (db : Db) (j : joined) : UIThreadEntryRow :=
  MkEntryRow (j_cluster_id j) (j_cluster_key j) (j_item_id j) (it_published_at (j_item j))
    (it_title (j_item j)) (it_body (j_item j)) (it_canonical_url (j_item j)) (j_channel_id j)
    (ch_name (j_channel j)) (j_members j)
    (_parse_source_channel_names
      (Some (default (ch_name (j_channel j)) (group_concat (member_channel_names db (j_cluster_id j)))))).

(** [WHERE :selected_channel_id IS NULL OR representative.channel_id = :selected_channel_id],
    with the grouping and the order of the statement. *)
Definition selected (channel : option Z) (db : Db) : list joined :=
  filter (λ j, default (it_channel_id (j_item j)) channel = it_channel_id (j_item j)) (Thread.thread db).

(** One row more than the page shows is read to see whether there is a next page. *)
Definition _load_thread_entries (pg sz : Z) (channel : option Z) (db : Db)
    : result exn (list UIThreadEntryRow * bool) :=
  let offset := (pg - 1) * sz in
  let limit := sz + 1 in
  if bindable limit && bindable offset && bindable (default 0 channel) then
    let rows := Thread.slice limit offset (selected channel db) in
    Ok (_decode_ui_thread_entry_row db <$> take (Z.to_nat sz) rows, sz <? Z.of_nat (length rows))
  else Err OverflowError.

(** [ORDER BY name ASC, id ASC] *)
Definition _load_thread_filter_channels (db : Db) : list UIThreadFilterChannelRow :=
  sort_by (cmp_lex (cmp_on channel_name text_cmp) (cmp_on channel_id Z.compare))
    ((λ r : Z * Channel, MkFilterRow r.1 (ch_name r.2)) <$> map_to_list (channels db)).

Definition _decode_ui_thread_decision_row (i : Z) (d : DecisionRow) : UIThreadDecisionRow :=
  MkDecisionRow i (de_item_id d) (de_cluster_id d) (de_candidate_item_id d) (de_strategy_name d)
    (de_outcome d) (de_reason_code d) (de_score d) (de_metadata d) (de_created_at d).

Definition _load_thread_decisions_for_item (item : option Z) (db : Db)
    : result exn (list UIThreadDecisionRow) :=
  match item with
  | None => Ok []
  | Some item =>
      if bindable item then
        Ok (omap (λ i, d ← decisions db !! i;
                       if de_item_id d =? item then Some (_decode_ui_thread_decision_row i d) else None)
              (sorted_ids (dom (decisions db))))
      else Err OverflowError
  end.

Record ThreadPage := MkThreadPage {
  status_code : Z;
  error_message : option pystr;
  thread_entries : list UIThreadEntryRow;
  thread_filter_channels : list UIThreadFilterChannelRow;
  thread_selected_decisions : list UIThreadDecisionRow;
  thread_state : UIThreadViewState;
  thread_has_prev_page : bool;
  thread_has_next_page : bool;
}.

Definition _render_thread_view (state : UIThreadViewState) (status : Z) (error : option pystr) (db : Db)
    : result exn ThreadPage :=
  loaded ← _load_thread_entries (page state) (size state) (selected_channel_id state) db;
  decisions ← _load_thread_decisions_for_item (selected_item_id state) db;
  mret (MkThreadPage status error loaded.1 (_load_thread_filter_channels db) decisions state
    (1 <? page state) loaded.2).

Section view.
Context `{DecimalDigits}.

(** What the query parameters ask for: the state to render, the status and the message.
    [query] has the last value of each parameter. *)
Definition thread_request (query : gmap pystr pystr) : UIThreadViewState * Z * option pystr :=
  let param name fallback := strip (default fallback (query !! name)) in
  let channel := _parse_optional_int (param (u "channel_id") []) in
  let item := _parse_optional_int (param (u "selected_item_id") []) in
  match _parse_int (param (u "page") (str_of_int DEFAULT_THREAD_PAGE)),
        _parse_int (param (u "size") (str_of_int DEFAULT_THREAD_PAGE_SIZE)) with
  | None, _ =>
      (MkViewState DEFAULT_THREAD_PAGE DEFAULT_THREAD_PAGE_SIZE None None, 400,
       Some (u "Thread page must be an integer greater than zero."))
  | Some pg, sz =>
      if pg <? 1 then
        (MkViewState DEFAULT_THREAD_PAGE DEFAULT_THREAD_PAGE_SIZE None None, 400,
         Some (u "Thread page must be an integer greater than zero."))
      else
        let size_error :=
          (MkViewState pg DEFAULT_THREAD_PAGE_SIZE None None, 400,
           Some (u "Thread page size must be between 1 and " ++ str_of_int MAX_THREAD_PAGE_SIZE ++ u ".")) in
        match sz with
        | None => size_error
        | Some sz =>
            if (sz <? 1) || (MAX_THREAD_PAGE_SIZE <? sz) then size_error
            else if decide (channel = invalid) then
              (MkViewState pg sz None None, 400, Some (u "Thread filter channel id must be an integer."))
            else if decide (item = invalid) then
              (MkViewState pg sz (to_option channel) None, 400,
               Some (u "Selected thread item id must be an integer."))
            else (MkViewState pg sz (to_option channel) (to_option item), 200, None)
        end
  end.

Definition get_thread_view (query : gmap pystr pystr) (db : Db) : result exn ThreadPage :=
  let '(state, status, error) := thread_request query in
  _render_thread_view state status error db.

End view.

(** ** Lemmas *)

Lemma split_on_concat c parts :
  parts ≠ [] → split_on c (join [c] parts) = parts ≫= split_on c.
Proof.
  intros Hne. induction parts as [|p parts IH]; [done|].
  destruct parts as [|q parts]; [cbn; by rewrite app_nil_r|].
  change (join [c] (p :: q :: parts)) with (p ++ c :: join [c] (q :: parts)).
  by rewrite split_on_app, bind_cons, IH.
Qed.

Lemma parse_names_spec text :
  let names := _parse_source_channel_names (Some text) in
  StronglySorted (cmp_le text_cmp) names ∧ NoDup names ∧
  ∀ n, n ∈ names ↔ n ≠ [] ∧ ∃ part, part ∈ split_on 44 text ∧ n = strip part.
Proof.
  cbn [_parse_source_channel_names]. split_and!.
  - apply sort_by_sorted, _.
  - rewrite sort_by_perm. apply NoDup_elements.
  - intros n. rewrite elem_of_sort_by, elem_of_elements, elem_of_list_to_set, list_elem_of_filter,
      list_elem_of_fmap. naive_solver.
Qed.

(** The names on a row, whatever the order in which SQLite concatenated them: the stripped
    pieces between the commas of the members' channel names, or of the representative's
    channel when no member has one. *)
Lemma source_names_spec db j n :
  n ∈ source_channel_names (_decode_ui_thread_entry_row db j) ↔
  n ≠ [] ∧ ∃ nm part, part ∈ split_on 44 nm ∧ n = strip part ∧
    (nm ∈ member_channel_names db (j_cluster_id j) ∨
     (member_channel_names db (j_cluster_id j) = ∅ ∧ nm = ch_name (j_channel j))).
Proof.
  cbn [_decode_ui_thread_entry_row source_channel_names].
  rewrite (proj2 (proj2 (parse_names_spec _))). unfold group_concat.
  set (names := member_channel_names db _). apply and_iff_compat_l.
  destruct (elements names) as [|m ms] eqn:E.
  - apply elements_empty_inv, leibniz_equiv in E. rewrite E. cbn [default]. set_solver.
  - assert (names ≠ ∅) as Hne by (intros E'; by rewrite E', elements_empty in E).
    cbn [default from_option id]. rewrite split_on_concat by done. setoid_rewrite list_elem_of_bind.
    rewrite <-E. setoid_rewrite elem_of_elements. naive_solver.
Qed.

(** A page of rows and whether more follow. *)
Lemma load_thread_entries_spec pg sz channel db :
  0 < pg → 0 < sz →
  _load_thread_entries pg sz channel db =
  if bindable (sz + 1) && bindable ((pg - 1) * sz) && bindable (default 0 channel) then
    Ok (_decode_ui_thread_entry_row db <$> Thread.slice sz ((pg - 1) * sz) (selected channel db),
        pg * sz <? Z.of_nat (length (selected channel db)))
  else Err OverflowError.
Proof.
  intros Hp Hs. unfold _load_thread_entries, Thread.slice. case_match; [|done].
  set (offset := (pg - 1) * sz). assert (0 <= offset) as Ho by nia.
  rewrite take_take, length_take, length_drop.
  replace (Z.to_nat sz `min` Z.to_nat (sz + 1))%nat with (Z.to_nat sz) by lia.
  do 2 f_equal. replace (pg * sz) with (offset + sz) by lia. zbool; lia.
Qed.

Lemma selected_None db : selected None db = Thread.thread db.
Proof. unfold selected. apply filter_id, Forall_true. done. Qed.

Lemma thread_request_bounds `{DecimalDigits} query :
  let '(state, status, error) := thread_request query in
  1 <= page state ∧ 1 <= size state <= MAX_THREAD_PAGE_SIZE ∧
  ((status = 200 ∧ error = None) ∨ (status = 400 ∧ is_Some error)).
Proof.
  unfold thread_request, MAX_THREAD_PAGE_SIZE, DEFAULT_THREAD_PAGE, DEFAULT_THREAD_PAGE_SIZE.
  destruct (_parse_int _) as [pg|]; [|cbn; split_and!; [lia..|right; by eauto] ].
  destruct (Z.ltb_spec pg 1); [cbn; split_and!; [lia..|right; by eauto]|].
  destruct (_parse_int _) as [sz|]; [|cbn; split_and!; [lia..|right; by eauto] ].
  destruct (Z.ltb_spec sz 1), (Z.ltb_spec 100 sz); cbn [orb]; try (cbn; split_and!; [lia..|right; by eauto]).
  repeat case_decide; cbn; split_and!; try lia; eauto.
Qed.

Lemma decisions_spec item db ds :
  _load_thread_decisions_for_item item db = Ok ds →
  ∀ d, d ∈ ds ↔ ∃ i row, decisions db !! i = Some row ∧ item = Some (de_item_id row) ∧
    d = _decode_ui_thread_decision_row i row.
Proof.
  destruct item as [item|]; [|intros [= <-] d; set_solver]. cbn [_load_thread_decisions_for_item].
  destruct (bindable item); [|done]. intros [= <-] d. rewrite list_elem_of_omap.
  setoid_rewrite elem_of_sorted_ids. split.
  - intros (i&_&Hi). destruct (decisions db !! i) as [row|] eqn:E; [|done]. cbn in Hi.
    destruct (Z.eqb_spec (de_item_id row) item) as [<-|]; [|done]. injection Hi as <-. eauto.
  - intros (i&row&Hi&[= ->]&->). exists i. rewrite Hi. cbn. rewrite Z.eqb_refl.
    split; [by eapply elem_of_dom_2|done].
Qed.

(** What the page and the API show of an entry. *)
Definition row_key (e : UIThreadEntryRow) : Z * Z * Z :=
  (cluster_id e, representative_item_id e, duplicate_count e).
Definition record_key (e : Thread.ThreadEntryRecord) : Z * Z * Z :=
  (Thread.cluster_id e, Thread.representative_item_id e, Thread.duplicate_count e).

Lemma api_entries_keys pg sz db records :
  Thread.list_entries pg sz db = Ok records →
  record_key <$> records =
    row_key ∘ _decode_ui_thread_entry_row db <$> Thread.slice sz ((pg - 1) * sz) (Thread.thread db).
Proof.
  unfold Thread.list_entries, Thread._coerce_positive_int. destruct (0 <? pg), (0 <? sz); try done.
  cbn [mbind result_bind]. case_match; [|done]. intros HF%traverse_Ok.
  induction HF as [|j e js es Hj _ IH]; [done|]. csimpl. rewrite IH. f_equal.
  apply Thread.decode_fields in Hj as (Hc&Hi&_&_&_&Hd). unfold record_key, row_key. by rewrite Hc, Hi, Hd.
Qed.


End ThreadView.

(** * Redirects and pages *)

(** A page is rendered after the handler's writes, from the database as it is then. *)
Inductive Response :=
  | RedirectResponse (url : pystr) (status : Z)
  | Render (status : Z) (error : option pystr).

Definition bad (status : Z) (message : pystr) : Response := Render status (Some message).

(** * Notifications *)
Module NotificationsView.

Record UINotificationRow := MkRow {
  id : Z;
  type : pystr;
  severity : pystr;
  message : pystr;
  is_acknowledged : bool;
  acknowledged_at : option pystr;
  created_at : pystr;
  is_high_severity : bool;
}.

(** [value.isoformat(sep=" ", timespec="seconds")] *)
Definition _format_datetime (value : datetime) : pystr :=
  isoformat (u " ") (DT (dt_wall value / us_per_second * us_per_second) (dt_offset value)).

Section notifications.
Context `{UnicodeData}.

Definition _to_ui_notification_row (r : Notifications.NotificationListRecord) : UINotificationRow :=
  let n := Notifications.li_record r in
  MkRow (Notifications.notification_id n) (Notifications.type n) (Notifications.severity n)
    (Notifications.message n) (Notifications.is_acknowledged r)
    (_format_datetime <$> Notifications.acknowledged_at r) (_format_datetime (Notifications.created_at r))
    (bool_decide (lower (strip (Notifications.severity n)) = u "high")).

Definition _load_notifications (db : Db) : result exn (list UINotificationRow) :=
  fmap (M:=list) _to_ui_notification_row <$> Notifications.list_notifications None None db.

End notifications.

Definition post_acknowledge_notification (now : pystr) (i : Z) (db : Db) : result exn Response * Db :=
  if negb (bindable i) then (Err OverflowError, db)
  else
    match Notifications.acknowledge now i db with
    | (Err e, db) => (Err e, db)
    | (Ok None, db) =>
        (Ok (bad 404 (u "Notification '" ++ str_of_int i ++ u "' was not found.")), db)
    | (Ok (Some _), db) => (Ok (RedirectResponse (u "/ui/notifications") 303), db)
    end.

End NotificationsView.

(** * Channels and groups *)
Module GroupsView.
Import Forms.

Record UIChannelRow := MkChannelRow {
  c_id : Z;
  c_account_id : Z;
  c_telegram_channel_id : Z;
  c_name : pystr;
  c_username : option pystr;
  c_is_enabled : bool;
  c_group_id : option Z;
}.

Record UIGroupRow := MkGroupRow {
  g_id : Z;
  g_name : pystr;
  g_description : option pystr;
  g_dedupe_horizon_minutes_override : option Z;
  g_channel_id : option Z;
}.

(** The right-hand ids of a LEFT JOIN: one null when there is none. *)
Definition left_join (ids : list Z) : list (option Z) :=
  match ids with [] => [None] | _ => Some <$> ids end.

(** [SELECT channel_id FROM channel_group_members WHERE group_id = :group_id], in the order
    of the primary key. *)
Definition members_of (g : Z) (db : Db) : list Z :=
  sorted_ids (set_map snd (filter (λ m : Z * Z, m.1 = g) (group_members db))).

Definition channel_rows (db : Db) : list UIChannelRow :=
  sorted_ids (dom (channels db)) ≫= λ i,
    match channels db !! i with
    | None => []
    | Some c =>
        (λ g, MkChannelRow i (ch_account_id c) (ch_telegram_channel_id c) (ch_name c) (ch_username c)
                (ch_is_enabled c) g) <$> left_join (sorted_ids (list_to_set (Groups.groups_of i db)))
    end.
Definition group_rows (db : Db) : list UIGroupRow :=
  sorted_ids (dom (groups db)) ≫= λ g,
    match groups db !! g with
    | None => []
    | Some row =>
        (λ c, MkGroupRow g (gr_name row) (gr_description row) (gr_horizon_override row) c) <$>
          left_join (members_of g db)
    end.

(** Channels, groups and the default account of the page. *)
Definition _load_channels_groups_data (db : Db) : list UIChannelRow * list UIGroupRow * option Z :=
  (channel_rows db, group_rows db, head (sorted_ids (dom (accounts db)))).

Definition channels_groups : Response := RedirectResponse (u "/ui/channels-groups") 303.
Definition channel_missing (i : Z) : Response :=
  bad 404 (u "Channel '" ++ str_of_int i ++ u "' was not found.").

(** The driver's message is known by the constraint it names. *)
Definition _is_duplicate_channel_integrity_error (e : exn) : bool :=
  bool_decide (e = IntegrityError (UniqueFailed "telegram_channels.telegram_channel_id")).
Definition _is_channel_account_fk_integrity_error (e : exn) : bool :=
  bool_decide (e = IntegrityError ForeignKeyFailed).
Definition _is_membership_channel_fk_integrity_error (e : exn) : bool :=
  bool_decide (e = IntegrityError ForeignKeyFailed).

(** What the group operations raise: the conflict with its channel, or another exception. *)
Inductive group_error :=
  | ChannelAlreadyAssigned (c : Z)
  | OtherError (e : exn).
Definition of_exn (c : Z) (e : exn) : group_error :=
  if decide (e = Groups.ChannelAlreadyAssignedToGroupError) then ChannelAlreadyAssigned c else OtherError e.
(** [str(exc)] *)
Definition assigned_text (c : Z) : pystr :=
  u "Channel '" ++ str_of_int c ++ u "' is already assigned to a group.".

(** [meanwhile] is what others commit between the checks and the insertion. *)
Definition _create_group_from_form_values (meanwhile : Db → Db) (values : UIGroupFormValues) (db : Db)
    : result group_error bool * Db :=
  let create (db : Db) :=
    if negb (bindable (default 0 (dedupe_horizon_minutes_override values)))
    then (Err (OtherError OverflowError), db)
    else
      let '(created, db) := Groups.create_group (name values) (description values)
                              (dedupe_horizon_minutes_override values) db in
      match channel_id values with
      | None => (Ok true, db)
      | Some c =>
          match Groups.add_channel_membership (Groups.id created) c (meanwhile db) with
          | (Ok _, db) => (Ok true, db)
          | (Err e, db) =>
              let '(_, db) := Groups.delete_group (Groups.id created) db in
              if _is_membership_channel_fk_integrity_error e then (Ok false, db)
              else (Err (of_exn c e), db)
          end
      end in
  match channel_id values with
  | None => create db
  | Some c =>
      if negb (bindable c) then (Err (OtherError OverflowError), db)
      else
        match Channels.get_channel_by_id c db with
        | None => (Ok false, db)
        | Some _ =>
            match Groups.get_membership_by_channel_id c db with
            | Err e => (Err (OtherError e), db)
            | Ok (Some _) => (Err (ChannelAlreadyAssigned c), db)
            | Ok None => create db
            end
        end
  end.

(** [scalar_one_or_none] *)
Definition _get_group_channel_assignment (g : Z) (db : Db) : result exn (option Z) :=
  match members_of g db with
  | [] => Ok None
  | [c] => Ok (Some c)
  | _ => Err Groups.MultipleResultsFound
  end.

(** Replace the group's channel; when the new one is refused the old one is put back.
    [meanwhile] is what others commit between the two writes. *)
Definition replace_membership (meanwhile : Db → Db) (g : Z) (current : option Z) (c : Z) (db : Db)
    : result group_error bool * Db :=
  let db :=
    match current with
    | Some old => (Groups.remove_channel_membership g old db).2
    | None => db
    end in
  match Groups.add_channel_membership g c (meanwhile db) with
  | (Ok _, db) => (Ok true, db)
  | (Err e, db) =>
      match current with
      | None => (Err (of_exn c e), db)
      | Some old =>
          match Groups.add_channel_membership g old db with
          | (Ok _, db) => (Err (of_exn c e), db)
          | (Err e, db) => (Err (of_exn old e), db)
          end
      end
  end.

Definition _assign_group_channel_membership (meanwhile : Db → Db) (g : Z) (desired : option Z) (db : Db)
    : result group_error bool * Db :=
  if negb (bindable g) then (Err (OtherError OverflowError), db)
  else
    match Groups.get_group_by_id g db with
    | None => (Ok false, db)
    | Some _ =>
        match _get_group_channel_assignment g db with
        | Err e => (Err (OtherError e), db)
        | Ok current =>
            match desired with
            | None =>
                (Ok true,
                 match current with
                 | Some c => (Groups.remove_channel_membership g c db).2
                 | None => db
                 end)
            | Some c =>
                if negb (bindable c) then (Err (OtherError OverflowError), db)
                else
                  match Channels.get_channel_by_id c db with
                  | None => (Ok false, db)
                  | Some _ =>
                      match Groups.get_membership_by_channel_id c db with
                      | Err e => (Err (OtherError e), db)
                      | Ok membership =>
                          if match membership with
                             | Some m => negb (Groups.group_id m =? g)
                             | None => false
                             end
                          then (Err (ChannelAlreadyAssigned c), db)
                          else if decide (current = Some c) then (Ok true, db)
                          else replace_membership meanwhile g current c db
                      end
                  end
            end
        end
    end.

(** The answer to a group operation. *)
Definition group_response (r : result group_error bool) (missing : pystr) : result exn Response :=
  match r with
  | Err (ChannelAlreadyAssigned c) => Ok (bad 409 (assigned_text c))
  | Err (OtherError e) => Err e
  | Ok false => Ok (bad 404 missing)
  | Ok true => Ok channels_groups
  end.

Section handlers.
Context `{DecimalDigits}.

Definition post_create_channel (form : gmap pystr pystr) (db : Db) : result exn Response * Db :=
  let nm := field form (u "name") in
  let username_raw := field form (u "username") in
  match _parse_int (field form (u "account_id")), _parse_int (field form (u "telegram_channel_id")) with
  | Some account_id, Some telegram_channel_id =>
      if negb (str_truthy nm)
      then (Ok (bad 400 (u "Channel create requires account, channel id, and name.")), db)
      else if negb (bindable account_id && bindable telegram_channel_id) then (Err OverflowError, db)
      else
        match Channels.create_channel account_id telegram_channel_id nm (or_none username_raw) db with
        | (Ok _, db) => (Ok channels_groups, db)
        | (Err e, db) =>
            (if _is_duplicate_channel_integrity_error e
             then Ok (bad 409 (u "Channel create conflict: duplicate telegram channel id."))
             else if _is_channel_account_fk_integrity_error e
             then Ok (bad 404 (u "Account '" ++ str_of_int account_id ++ u "' was not found."))
             else Err e, db)
        end
  | _, _ => (Ok (bad 400 (u "Channel create requires account, channel id, and name.")), db)
  end.

Definition post_edit_channel (i : Z) (form : gmap pystr pystr) (db : Db) : result exn Response * Db :=
  let nm := field form (u "name") in
  let username_raw := field form (u "username") in
  if negb (str_truthy nm) then (Ok (bad 400 (u "Channel name cannot be empty.")), db)
  else if negb (bindable i) then (Err OverflowError, db)
  else
    match Channels.get_channel_by_id i db with
    | None => (Ok (channel_missing i), db)
    | Some current =>
        match Channels.update_channel i nm (or_none username_raw) (Channels.is_enabled current) db with
        | (None, db) => (Ok (channel_missing i), db)
        | (Some _, db) => (Ok channels_groups, db)
        end
    end.

Definition post_disable_channel (i : Z) (db : Db) : result exn Response * Db :=
  if negb (bindable i) then (Err OverflowError, db)
  else
    match Channels.disable_channel i db with
    | (None, db) => (Ok (channel_missing i), db)
    | (Some _, db) => (Ok channels_groups, db)
    end.

Definition post_create_group (meanwhile : Db → Db) (form : gmap pystr pystr) (db : Db)
    : result exn Response * Db :=
  match _parse_group_form_values form true with
  | inr message => (Ok (bad 400 message), db)
  | inl values =>
      let '(r, db) := _create_group_from_form_values meanwhile values db in
      (group_response r (u "Assigned channel was not found."), db)
  end.

Definition post_edit_group (g : Z) (form : gmap pystr pystr) (db : Db) : result exn Response * Db :=
  match _parse_group_form_values form false with
  | inr message => (Ok (bad 400 message), db)
  | inl values =>
      if negb (bindable g && bindable (default 0 (dedupe_horizon_minutes_override values)))
      then (Err OverflowError, db)
      else
        match Groups.update_group g (name values) (description values)
                (dedupe_horizon_minutes_override values) db with
        | (None, db) =>
            (Ok (bad 404 (u "Channel group '" ++ str_of_int g ++ u "' was not found.")), db)
        | (Some _, db) => (Ok channels_groups, db)
        end
  end.

Definition post_assign_group_channel (meanwhile : Db → Db) (g : Z) (form : gmap pystr pystr) (db : Db)
    : result exn Response * Db :=
  match _parse_channel_assignment form with
  | invalid => (Ok (bad 400 (u "Group channel assignment must be an integer.")), db)
  | desired =>
      let '(r, db) := _assign_group_channel_membership meanwhile g (to_option desired) db in
      (group_response r (u "Requested group or channel was not found."), db)
  end.

End handlers.

(** ** Lemmas *)

Lemma elem_of_members_of g c db : c ∈ members_of g db ↔ (g, c) ∈ group_members db.
Proof.
  unfold members_of. rewrite elem_of_sorted_ids, elem_of_map. setoid_rewrite elem_of_filter. split.
  - by intros ([g' c']&->&[<- ?]).
  - intros H. by exists (g, c).
Qed.
Lemma members_of_ext g db db' :
  (∀ c, (g, c) ∈ group_members db' ↔ (g, c) ∈ group_members db) → members_of g db' = members_of g db.
Proof.
  intros H. unfold members_of. f_equal. apply set_eq. intros c.
  rewrite !elem_of_map. setoid_rewrite elem_of_filter. naive_solver.
Qed.

Lemma insert_member_cases g c db :
  (∃ db', Groups.add_channel_membership g c db = (Ok (Groups.MkMembership g c), db') ∧
     db' = set_group_members ({[(g, c)]} ∪ group_members db) db ∧
     is_Some (groups db !! g) ∧ is_Some (channels db !! c) ∧ ∀ h, (h, c) ∉ group_members db) ∨
  (∃ e, Groups.add_channel_membership g c db = (Err e, db) ∧
     ((e = Groups.ChannelAlreadyAssignedToGroupError ∧ ∃ h, (h, c) ∈ group_members db) ∨
      (e = IntegrityError ForeignKeyFailed ∧ ¬ (is_Some (groups db !! g) ∧ is_Some (channels db !! c))))).
Proof.
  unfold Groups.add_channel_membership, Groups.insert_group_member.
  destruct (Groups.groups_of c db) as [|h l] eqn:E.
  - assert (∀ h, (h, c) ∉ group_members db) as Hno.
    { intros h. rewrite <-Groups.elem_of_groups_of, E. apply not_elem_of_nil. }
    case_decide as Hd; [left|right].
    + destruct Hd. eexists. by split_and!.
    + eexists. split; [reflexivity|]. by right.
  - right. eexists. split; [reflexivity|]. left. split; [done|]. exists h.
    rewrite <-Groups.elem_of_groups_of, E. by left.
Qed.

Lemma deleted_group_gone g db : groups (Groups.delete_group g db).2 !! g = None.
Proof.
  unfold Groups.delete_group. destruct (groups db !! g) eqn:E; [|done].
  cbn [snd delete_groups set_groups set_group_members groups]. unfold drop_ids.
  apply map_lookup_filter_None. right. intros x _ H. apply H. by apply elem_of_singleton.
Qed.
Lemma free_channel c db :
  wf_db db → Groups.get_membership_by_channel_id c db = Ok None → ∀ h, (h, c) ∉ group_members db.
Proof. intros W Hm. by destruct (Groups.membership_spec c db W) as [ [_ ?]|(h&Hh&_)]; [|congruence]. Qed.

Definition form_group (values : UIGroupFormValues) (db : Db) : Db :=
  set_groups (<[next_id (groups db) := MkGroup (name values) (description values)
    (dedupe_horizon_minutes_override values)]> (groups db)) db.

(** What a failed check of the form leaves. *)
Lemma create_group_cases meanwhile values db :
  let g := next_id (groups db) in
  let '(r, db') := _create_group_from_form_values meanwhile values db in
  (r ≠ Ok true ∧ db' = db ∧
   (bindable (default 0 (channel_id values)) && bindable (default 0 (dedupe_horizon_minutes_override values)) = true →
    ∃ c, channel_id values = Some c ∧
      (channels db !! c = None ∨ Groups.get_membership_by_channel_id c db ≠ Ok None))) ∨
  (channel_id values = None ∧ r = Ok true ∧ db' = form_group values db) ∨
  ∃ c, channel_id values = Some c ∧ is_Some (channels db !! c) ∧
    Groups.get_membership_by_channel_id c db = Ok None ∧
    let db1 := meanwhile (form_group values db) in
    match Groups.add_channel_membership g c db1 with
    | (Ok _, db2) => r = Ok true ∧ db' = db2
    | (Err _, db2) => r ≠ Ok true ∧ db' = (Groups.delete_group g db2).2
    end.
Proof.
  unfold _create_group_from_form_values, Groups.create_group. cbv zeta beta.
  destruct (channel_id values) as [c|].
  - cbn [default from_option id]. destruct (bindable c) eqn:Eb; cbn [negb]; [|by left].
    unfold Channels.get_channel_by_id.
    destruct (channels db !! c) as [row|] eqn:Ec; cbn [fmap option_fmap option_map];
      [|left; split_and!; [done..|intros _; exists c; by auto] ].
    destruct (Groups.get_membership_by_channel_id c db) as [ [m|]|e] eqn:Em;
      [left; split_and!; [done..|intros _; exists c; rewrite Em; by auto]| |
       left; split_and!; [done..|intros _; exists c; rewrite Em; by auto] ].
    destruct (bindable (default 0 _)); cbn [negb]; [|by left].
    cbn [Groups.id Groups._decode_group_row]. fold (form_group values db).
    destruct (Groups.add_channel_membership _ c _) as [ [m|e] db2] eqn:Ea;
      [|destruct (Groups.delete_group _ db2) as [b db3] eqn:Ed; destruct (_is_membership_channel_fk_integrity_error e)];
      right; right; exists c; (split_and!; [done|by eexists|done|]); rewrite Ea; [done|by rewrite Ed..].
  - destruct (bindable _) eqn:Eb; cbn [negb]; [right; left; done|]. left. split_and!; [done..|].
    by intros [_ ?]%andb_true_iff.
Qed.

(** Creating a group from the form leaves no half-made group. Whatever others commit
    before the member is inserted, an answer other than success leaves no group under the id
    the form would have got, and success leaves the group with its member. When nothing
    intervenes the outcome is decided by the checks: without a channel or with one that
    exists and is in no group the group and its member are added and nothing else changes;
    otherwise nothing changes at all. *)
Theorem create_group_from_form values db :
  wf_db db →
  let g := next_id (groups db) in
  (∀ meanwhile, let '(r, db') := _create_group_from_form_values meanwhile values db in
     (r ≠ Ok true → groups db' !! g = None) ∧
     (∀ c, r = Ok true → channel_id values = Some c → (g, c) ∈ group_members db' ∧ is_Some (groups db' !! g))) ∧
  let '(r, db') := _create_group_from_form_values id values db in
  let added := set_group_members (list_to_set ((g,.) <$> option_list (channel_id values)) ∪ group_members db)
                 (form_group values db) in
  (r ≠ Ok true → db' = db) ∧ (r = Ok true → db' = added) ∧
  (bindable (default 0 (channel_id values)) = true →
   bindable (default 0 (dedupe_horizon_minutes_override values)) = true →
   (r = Ok true ↔ ∀ c, channel_id values = Some c →
      is_Some (channels db !! c) ∧ ∀ h, (h, c) ∉ group_members db)).
Proof.
  intros W g. split.
  - intros meanwhile. pose proof (create_group_cases meanwhile values db) as H. cbv zeta in H.
    destruct (_create_group_from_form_values meanwhile values db) as [r db']. fold g in H.
    destruct H as [(Hr&->&_)|[(Hc&->&->)|(c&Hc&_&_&H)] ].
    + split; [intros _; apply next_id_fresh|done].
    + split; [done|]. congruence.
    + destruct (insert_member_cases g c (meanwhile (form_group values db)))
        as [(db2&Ha&Hdb2&Hg&_)|(e&Ha&_)]; rewrite Ha in H; destruct H as [Hr ->].
      * split; [done|]. intros c' _ Hc'. assert (c' = c) as -> by congruence. rewrite Hdb2.
        split; [|done]. cbn [group_members set_group_members]. set_solver.
      * split; [|done]. intros _. apply deleted_group_gone.
  - pose proof (create_group_cases id values db) as H. cbv zeta in H.
    destruct (_create_group_from_form_values id values db) as [r db']. fold g in H. cbv zeta.
    destruct H as [(Hr&->&Hwhy)|[(Hc&->&->)|(c&Hc&Hch&Hm&H)] ].
    + split_and!; [done..|]. intros Hb1 Hb2. rewrite Hb1, Hb2 in Hwhy. split; [done|]. intros Hall.
      destruct (Hwhy eq_refl) as (c&Hc&[Hno|Hno]); destruct (Hall c Hc) as [ [? ?] Hfree]; [congruence|].
      destruct Hno. unfold Groups.get_membership_by_channel_id. by rewrite Groups.groups_of_nil.
    + rewrite Hc. cbn. split_and!; [done|intros _; by rewrite union_empty_l_L|done].
    + pose proof (free_channel c db W Hm) as Hfree.
      change (id (form_group values db)) with (form_group values db) in H.
      destruct (insert_member_cases g c (form_group values db))
        as [(db2&Ha&Hdb2&Hg&_)|(e&Ha&He)]; rewrite Ha in H; destruct H as [Hr ->].
      * rewrite Hdb2, Hc. cbn. rewrite union_empty_r_L. split_and!; [done..|]. intros _ _. split; [|done].
        by intros _ c' [= <-].
      * exfalso. destruct He as [(_&h&Hh)|(_&Hno)]; [by apply (Hfree h)|]. apply Hno.
        split; [|done]. cbn [form_group groups set_groups]. rewrite lookup_insert_eq. by eexists.
Qed.

(** ** Assigning the channel of a group *)

Definition assignable (g : Z) (desired : option Z) (db : Db) : Prop :=
  bindable g = true ∧ is_Some (groups db !! g) ∧ (length (members_of g db) <= 1)%nat ∧
  ∀ c, desired = Some c →
    bindable c = true ∧ is_Some (channels db !! c) ∧ ∀ h, (h, c) ∈ group_members db → h = g.
Definition several_members (g : Z) (db : Db) : Prop :=
  bindable g = true ∧ is_Some (groups db !! g) ∧ (2 <= length (members_of g db))%nat.

(** The memberships once [desired] is the channel of [g]. *)
Definition assigned (g : Z) (desired : option Z) (db : Db) : Db :=
  set_group_members (list_to_set ((g,.) <$> option_list desired) ∪
    filter (λ m : Z * Z, m.1 ≠ g) (group_members db)) db.

Lemma assigned_members g desired db h c :
  (h, c) ∈ group_members (assigned g desired db) ↔
  (h = g ∧ desired = Some c) ∨ (h ≠ g ∧ (h, c) ∈ group_members db).
Proof.
  cbn [assigned group_members set_group_members].
  rewrite elem_of_union, elem_of_list_to_set, list_elem_of_fmap, elem_of_filter. cbn [fst].
  apply or_iff_compat_r. destruct desired as [d|]; cbn; [|split; [by intros (?&_&?%elem_of_nil)|naive_solver] ].
  setoid_rewrite list_elem_of_singleton. naive_solver.
Qed.
Lemma members_of_assigned g desired db : members_of g (assigned g desired db) = option_list desired.
Proof.
  unfold members_of.
  assert (set_map snd (filter (λ m : Z * Z, m.1 = g) (group_members (assigned g desired db))) =
    list_to_set (C:=gset Z) (option_list desired)) as ->.
  { apply set_eq. intros c. rewrite elem_of_map, elem_of_list_to_set. setoid_rewrite elem_of_filter. split.
    - intros ([h c']&->&Hh&Hin). cbn in Hh. subst h. apply assigned_members in Hin as [ [_ ->]|[? _] ]; [|done].
      by left.
    - intros Hc. exists (g, c). split; [done|]. split; [done|]. apply assigned_members. left. split; [done|].
      destruct desired as [d|]; [|by apply elem_of_nil in Hc]. by apply list_elem_of_singleton in Hc as ->. }
  unfold sorted_ids. destruct desired as [d|]; cbn [option_list option_rect list_to_set].
  - by rewrite union_empty_r_L, elements_singleton.
  - by rewrite elements_empty.
Qed.

Lemma assigned_same g desired db :
  members_of g db = option_list desired → assigned g desired db = db.
Proof.
  intros Hm. unfold assigned.
  assert (list_to_set ((g,.) <$> option_list desired) ∪
    filter (λ m : Z * Z, m.1 ≠ g) (group_members db) = group_members db) as ->; [|by destruct db].
  apply set_eq. intros [h c]. rewrite elem_of_union, elem_of_list_to_set, list_elem_of_fmap, elem_of_filter.
  setoid_rewrite <-Hm. setoid_rewrite elem_of_members_of. cbn [fst]. split.
  - by intros [(c'&[= -> ->]&?)|[_ ?] ].
  - intros H. destruct (decide (h = g)) as [->|]; [left; by exists c|by right].
Qed.

Lemma removed_members g old db :
  members_of g db = [old] →
  (Groups.remove_channel_membership g old db).2 = assigned g None db.
Proof.
  intros Hm. unfold Groups.remove_channel_membership, assigned.
  assert ((g, old) ∈ group_members db) as Hin by (apply elem_of_members_of; rewrite Hm; by left).
  rewrite decide_True by done. cbn [snd option_list option_rect fmap list_fmap list_to_set].
  f_equal. apply set_eq. intros [h c].
  rewrite elem_of_difference, elem_of_singleton, elem_of_union, elem_of_empty, elem_of_filter. cbn [fst].
  split; [|by intros [ []|[? ?] ]; split; [|intros [= ? ?]; congruence] ].
  intros [Hhc Hne]. right. split; [|done]. intros ->.
  assert (c ∈ [old]) as ->%list_elem_of_singleton by (rewrite <-Hm; by apply elem_of_members_of). done.
Qed.

Lemma add_after_removal g c db :
  is_Some (groups db !! g) → is_Some (channels db !! c) →
  (∀ h, (h, c) ∈ group_members db → h = g) →
  Groups.add_channel_membership g c (assigned g None db) =
    (Ok (Groups.MkMembership g c), assigned g (Some c) db).
Proof.
  intros Hg Hc Hfree. destruct (insert_member_cases g c (assigned g None db))
    as [(db2&->&->&_)|(e&_&[(_&h&Hh)|(_&Hno)])]; [| |by destruct Hno].
  - unfold assigned. cbn [group_members set_group_members]. f_equal. cbn.
    rewrite union_empty_l_L, union_empty_r_L. by destruct db.
  - exfalso. cbn [assigned group_members set_group_members option_list option_rect] in Hh. csimpl in Hh.
    rewrite elem_of_union, elem_of_filter in Hh. destruct Hh as [Hh|[Hne Hh] ]; [by apply not_elem_of_empty in Hh|].
    by apply Hne, Hfree.
Qed.

Lemma replace_sequential g current c db :
  members_of g db = option_list current → current ≠ Some c →
  is_Some (groups db !! g) → is_Some (channels db !! c) →
  (∀ h, (h, c) ∈ group_members db → h = g) →
  replace_membership id g current c db = (Ok true, assigned g (Some c) db).
Proof.
  intros Hm Hne Hg Hc Hfree. unfold replace_membership.
  assert (match current with Some old => (Groups.remove_channel_membership g old db).2 | None => db end =
    assigned g None db) as ->.
  { destruct current as [old|]; [by apply removed_members|]. by rewrite assigned_same. }
  change (id (assigned g None db)) with (assigned g None db).
  by rewrite add_after_removal.
Qed.

Lemma assign_cases g desired db :
  wf_db db →
  let '(r, db') := _assign_group_channel_membership id g desired db in
  (r ≠ Ok true ∧ db' = db ∧ ¬ assignable g desired db ∧
   (r = Err (OtherError Groups.MultipleResultsFound) ↔ several_members g db)) ∨
  (r = Ok true ∧ assignable g desired db ∧ db' = assigned g desired db).
Proof.
  intros W. unfold _assign_group_channel_membership.
  destruct (bindable g) eqn:Eb; cbn [negb];
    [|left; split_and!; [done..|by intros [? _]; congruence|split; [done|intros [? _]; congruence] ] ].
  unfold Groups.get_group_by_id. destruct (groups db !! g) as [grp|] eqn:Eg;
    cbn [fmap option_fmap option_map];
    [|left; split_and!; [done..|intros (_&[? ?]&_); congruence|split; [done|intros (_&[? ?]&_); congruence] ] ].
  assert (is_Some (groups db !! g)) as Hg by (rewrite Eg; by eexists).
  destruct (decide (length (members_of g db) <= 1)%nat) as [Hl|Hl].
  2: { unfold _get_group_channel_assignment. destruct (members_of g db) as [|old [|other l] ] eqn:Em;
         [cbn in Hl; lia..|]. left. split_and!; [done..|intros (_&_&?&_); congruence|].
       split; [|done]. intros _. split_and!; [done..|]. rewrite Em. cbn. lia. }
  assert (¬ several_members g db) as Hs by (intros (_&_&?); lia).
  assert (∃ current, _get_group_channel_assignment g db = Ok current ∧
    members_of g db = option_list current) as (current&->&Em).
  { unfold _get_group_channel_assignment. destruct (members_of g db) as [|old [|other l] ];
      [by exists None|by exists (Some old)|cbn in Hl; lia]. }
  destruct desired as [c|]; [|right; split_and!; [done|split_and!; done|] ].
  2: { destruct current as [old|]; [by apply removed_members|by rewrite assigned_same]. }
  assert (∀ r : result group_error bool, r ≠ Ok true → r ≠ Err (OtherError Groups.MultipleResultsFound) →
    ¬ (bindable c = true ∧ is_Some (channels db !! c) ∧ ∀ h, (h, c) ∈ group_members db → h = g) →
    r ≠ Ok true ∧ db = db ∧ ¬ assignable g (Some c) db ∧
    (r = Err (OtherError Groups.MultipleResultsFound) ↔ several_members g db)) as Hfail.
  { intros r H1 H2 Hno. split_and!; [done..| |by split]. intros (_&_&_&H). by apply Hno, H. }
  destruct (bindable c) eqn:Ebc; cbn [negb]; [|left; apply Hfail; [done..|by intros [? _] ] ].
  unfold Channels.get_channel_by_id. destruct (channels db !! c) as [ch|] eqn:Ec;
    cbn [fmap option_fmap option_map]; [|left; apply Hfail; [done..|by intros (_&[? ?]&_)] ].
  assert (is_Some (channels db !! c)) as Hc by (rewrite Ec; by eexists).
  assert (∀ h, (h, c) ∈ group_members db → current = Some c ↔ h = g) as Hcur.
  { intros h Hh. split.
    - intros ->. apply (uq_group_members _ W _ _ c); [done|]. apply elem_of_members_of. rewrite Em. by left.
    - intros ->. apply elem_of_members_of in Hh. rewrite Em in Hh. destruct current; [|by apply elem_of_nil in Hh].
      by apply list_elem_of_singleton in Hh as ->. }
  destruct (Groups.membership_spec c db W) as [ [-> Hno]|(h&->&Hh&Huniq)].
  - rewrite decide_False.
    2: { intros ->. destruct (Hno g). apply elem_of_members_of. rewrite Em. by left. }
    rewrite replace_sequential; [|done|intros ->; destruct (Hno g); apply elem_of_members_of; rewrite Em; by left
      |done|done|by intros h Hh; destruct (Hno h)].
    right. split_and!; [done| |done]. split_and!; [done..|].
    intros ? [= <-]. split_and!; [done..|]. by intros h Hh; destruct (Hno h).
  - cbn [Groups.group_id]. destruct (Z.eqb_spec h g) as [->|Hne]; cbn [negb].
    + rewrite decide_True by (by apply (Hcur g)). right. split_and!; [done| |].
      * split_and!; [done..|]. by intros ? [= <-].
      * rewrite assigned_same; [done|]. rewrite Em. by rewrite (proj2 (Hcur g Hh) eq_refl).
    + left. apply Hfail; [done..|]. intros (_&_&H). by apply Hne, H.
Qed.

(** Assigning a group's channel from the form. When nothing intervenes: an answer other
    than success changes nothing; success leaves the group with exactly the chosen channel
    (none, when the field is empty) and every other membership as it was; and it is given
    exactly when the group exists with at most one channel and the chosen channel exists and
    is in no other group. A group to which the API gave several channels cannot be edited:
    the request ends in an internal error. Whatever others commit between the removal of the
    old channel and the insertion of the new one, a refused insertion puts the old one back,
    as long as it is still there and free. *)
Theorem assign_group_channel g desired db :
  wf_db db →
  (let '(r, db') := _assign_group_channel_membership id g desired db in
   (r ≠ Ok true → db' = db) ∧
   (r = Ok true → members_of g db' = option_list desired ∧ set_group_members (group_members db) db' = db ∧
      ∀ h c, h ≠ g → (h, c) ∈ group_members db' ↔ (h, c) ∈ group_members db) ∧
   (r = Ok true ↔ assignable g desired db) ∧
   (r = Err (OtherError Groups.MultipleResultsFound) ↔ several_members g db)) ∧
  ∀ meanwhile old c,
    let between := meanwhile (Groups.remove_channel_membership g old db).2 in
    let '(r, db') := replace_membership meanwhile g (Some old) c db in
    (r = Ok true → (g, c) ∈ group_members db') ∧
    (r ≠ Ok true → is_Some (groups between !! g) → is_Some (channels between !! old) →
     (∀ h, (h, old) ∉ group_members between) → (g, old) ∈ group_members db').
Proof.
  intros W. split.
  - pose proof (assign_cases g desired db W) as H.
    destruct (_assign_group_channel_membership id g desired db) as [r db'].
    destruct H as [(Hr&->&Hno&Hs)|(->&Hok&->)]; split_and!; try done.
    + intros _. split_and!; [|by destruct db|].
      * apply members_of_assigned.
      * intros h c Hh. rewrite assigned_members. tauto.
    + split; [done|]. intros (_&_&?). destruct Hok as (_&_&?&_). lia.
  - intros meanwhile old c between. unfold replace_membership. fold between.
    destruct (insert_member_cases g c between) as [(db2&->&->&_)|(e&->&_)].
    + split; [|done]. intros _. cbn [group_members set_group_members]. set_solver.
    + destruct (insert_member_cases g old between) as [(db2&->&->&_)|(e'&->&He)].
      * split; [done|]. intros _ _ _ _. cbn [group_members set_group_members]. set_solver.
      * split; [done|]. intros _ Hg Ho Hfree. exfalso.
        destruct He as [(_&h&Hh)|(_&Hno)]; [by apply (Hfree h)|]. by apply Hno.
Qed.

(** ** Instances *)

Definition sample_form : UIGroupFormValues := MkGroupForm (u "new") None (Some 30) (Some 3).

(** Channel 3 is free, channel 1 is not. *)
Lemma create_group_from_form_witness :
  let made := _create_group_from_form_values id sample_form sample_db in
  made.1 = Ok true ∧ (next_id (groups sample_db), 3) ∈ group_members made.2 ∧
  (_create_group_from_form_values id (MkGroupForm (u "new") None None (Some 1)) sample_db) =
    (Err (ChannelAlreadyAssigned 1), sample_db).
Proof.
  pose proof (create_group_from_form sample_form sample_db sample_db_wf) as [H _].
  specialize (H id). destruct (_create_group_from_form_values id sample_form sample_db) as [r db'] eqn:E.
  cbn. assert (r = Ok true) as -> by (apply (f_equal fst) in E; by vm_compute in E).
  split; [done|]. split; [by apply (proj2 H 3)|]. by vm_compute.
Defined.

Lemma assign_group_channel_witness :
  let made := _assign_group_channel_membership id 2 (Some 3) sample_db in
  made.1 = Ok true ∧ members_of 2 made.2 = [3].
Proof.
  pose proof (assign_group_channel 2 (Some 3) sample_db sample_db_wf) as [H _].
  destruct (_assign_group_channel_membership id 2 (Some 3) sample_db) as [r db'] eqn:E. cbn.
  assert (r = Ok true) as -> by (apply (f_equal fst) in E; by vm_compute in E).
  split; [done|]. destruct H as (_&H&_). by apply H.
Defined.

(** Two channels in one group: the form cannot change it. *)
Example several_members_example :
  let db := set_group_members ({[(1, 3)]} ∪ group_members sample_db) sample_db in
  (_assign_group_channel_membership id 1 None db).1 = Err (OtherError Groups.MultipleResultsFound).
Proof. by vm_compute. Qed.

(** A comma in a channel's name splits it on the thread page. *)
Example comma_in_name :
  ThreadView._parse_source_channel_names (ThreadView.group_concat {[u "News, live"]}) =
    [u "News"; u "live"].
Proof. by vm_compute. Qed.

End GroupsView.
