(* ===== verification/Wizard.v ===== *)
(** The setup wizard (src/tca/ui/routes.py): unlocking, and the Telegram login over the
    login routes, one page per step until an account is stored. *)

From S2P Require Import Prelude PyValue PyText PyCodec PyJson Schema.
From S2P Require Import Vault Accounts Auth Login Ui.
Local Open Scope Z_scope.

Module Setup.
Import Forms.

(** What a page carries to the next step. *)
Record step_context := MkContext {
  session_id : pystr;
  api_id : Z;
  api_hash : pystr;
}.

Inductive SetupResponse :=
  | RedirectResponse (url : pystr) (status : Z)
  | _render_setup_step (step : pystr) (status : Z) (error : option pystr) (context : option step_context).

Definition failed (step : pystr) (status : Z) (message : pystr) : SetupResponse :=
  _render_setup_step step status (Some message) None.
Definition invalid_transition (step : pystr) : SetupResponse :=
  failed step 409 (u "Setup step transition is invalid.").
Definition to_shell : SetupResponse := RedirectResponse (u "/ui") 302.

(** A request model refuses its fields; nothing catches it. *)
Definition ValidationError : exn := AppError "ValidationError".

Definition _has_persisted_account (db : Db) : bool := bool_decide (accounts db ≠ ∅).

Definition get_setup_wizard (db : Db) : SetupResponse :=
  if _has_persisted_account db then to_shell else _render_setup_step (u "unlock") 200 None None.

Definition post_setup_unlock (form : gmap pystr pystr) (st : Unlock.UnlockState) (db : Db)
    : result exn SetupResponse * Unlock.UnlockState :=
  if _has_persisted_account db then (Ok to_shell, st)
  else
    let candidate := field form (u "passphrase") in
    if negb (str_truthy candidate)
    then (Ok (failed (u "unlock") 400 (u "Unlock passphrase cannot be empty.")), st)
    else
      let next := Ok (_render_setup_step (u "auth-start") 200 None None) in
      match Unlock.require_unlocked st with
      | Ok _ => (next, st)
      | Err _ =>
          match Unlock.unlock_with_passphrase candidate st with
          | (Ok _, st) => (next, st)
          | (Err e, st) => (Err e, st)
          end
      end.

(** An [HTTPException] is shown on the page of the step; another exception goes through. *)
Definition step_failure (step : pystr) (context : option step_context) (e : exn)
    : result exn SetupResponse :=
  match e with
  | HTTPException status detail => Ok (_render_setup_step step status (Some detail) context)
  | e => Err e
  end.

Section setup.
Context `{DecimalDigits}.

(** [sid] is the id of the new login session and [answer] what Telegram answers. *)
Definition post_setup_start_auth (env : TelegramAuth.Env) (sid : pystr)
    (answer : TelegramAuth.failure + bool) (form : gmap pystr pystr) (db : Db)
    : result exn SetupResponse * Db :=
  if _has_persisted_account db then (Ok to_shell, db)
  else
    let api_id_value := field form (u "api_id") in
    let hash := field form (u "api_hash") in
    let phone_number := field form (u "phone_number") in
    if negb (str_truthy api_id_value && str_truthy hash && str_truthy phone_number)
    then (Ok (failed (u "auth-start") 400 (u "Missing required credentials fields.")), db)
    else
      match py_int api_id_value with
      | None => (Ok (failed (u "auth-start") 400 (u "API ID must be an integer.")), db)
      | Some n =>
          match Unlock.require_unlocked (TelegramAuth.unlock_at_check env) with
          | Err _ => (Ok (invalid_transition (u "unlock")), db)
          | Ok _ =>
              let payload := TelegramAuth.MkStart n hash phone_number in
              if negb (TelegramAuth.valid_start payload) then (Err ValidationError, db)
              else
                match TelegramAuth.start_telegram_auth env sid payload answer db with
                | (Ok started, db) =>
                    (Ok (_render_setup_step (u "verify-code") 200 None (Some (MkContext started n hash))), db)
                | (Err e, db) => (step_failure (u "auth-start") None e, db)
                end
          end
      end.

Context `{Crypto, FloatText}.

Definition post_setup_verify_code (env : TelegramAuth.Env) (answer : TelegramAuth.failure + unit)
    (saved : option pystr) (form : gmap pystr pystr) (db : Db) : result exn SetupResponse * Db :=
  if _has_persisted_account db then (Ok to_shell, db)
  else
    let sid := field form (u "session_id") in
    let hash := field form (u "api_hash") in
    let code := field form (u "code") in
    match _parse_int (field form (u "api_id")) with
    | Some n =>
        if negb (str_truthy hash && str_truthy code)
        then (Ok (failed (u "verify-code") 400 (u "Missing required OTP fields.")), db)
        else if negb (str_truthy sid) then (Ok (invalid_transition (u "auth-start")), db)
        else
          let payload := TelegramAuth.MkVerify sid n hash code in
          let context := Some (MkContext sid n hash) in
          if negb (TelegramAuth.valid_verify payload) then (Err ValidationError, db)
          else
            match TelegramAuth.verify_telegram_code env payload answer saved db with
            | (Ok verified, db) =>
                (Ok (if decide (TelegramAuth.response_status verified = u "password_required")
                     then _render_setup_step (u "verify-password") 200 None context
                     else _render_setup_step (u "complete") 200 None None), db)
            | (Err e, db) => (step_failure (u "verify-code") context e, db)
            end
    | None => (Ok (failed (u "verify-code") 400 (u "Missing required OTP fields.")), db)
    end.

Definition post_setup_verify_password (env : TelegramAuth.Env) (answer : TelegramAuth.failure + unit)
    (saved : option pystr) (form : gmap pystr pystr) (db : Db) : result exn SetupResponse * Db :=
  if _has_persisted_account db then (Ok to_shell, db)
  else
    let sid := field form (u "session_id") in
    let api_id_value := field form (u "api_id") in
    let hash := field form (u "api_hash") in
    let password := field form (u "password") in
    if negb (str_truthy api_id_value && str_truthy hash && str_truthy password)
    then (Ok (failed (u "verify-password") 400 (u "Missing required password fields.")), db)
    else
      match py_int api_id_value with
      | None => (Ok (failed (u "verify-password") 400 (u "API ID must be an integer.")), db)
      | Some n =>
          if negb (str_truthy sid) then (Ok (invalid_transition (u "auth-start")), db)
          else
            let payload := TelegramAuth.MkVerify sid n hash password in
            let context := Some (MkContext sid n hash) in
            if negb (TelegramAuth.valid_verify payload) then (Err ValidationError, db)
            else
              match TelegramAuth.verify_telegram_password env payload answer saved db with
              | (Ok _, db) => (Ok (_render_setup_step (u "complete") 200 None None), db)
              | (Err e, db) => (step_failure (u "verify-password") context e, db)
              end
      end.

End setup.

(** The page of a verification route. *)
Definition verify_page `{DecimalDigits, Crypto, FloatText} (rt : TelegramAuth.route) :=
  match rt with
  | TelegramAuth.Code => post_setup_verify_code
  | TelegramAuth.Password => post_setup_verify_password
  end.
Definition secret_field (rt : TelegramAuth.route) : pystr :=
  match rt with TelegramAuth.Code => u "code" | TelegramAuth.Password => u "password" end.
Definition complete : SetupResponse := _render_setup_step (u "complete") 200 None None.

Lemma no_account_spec db : _has_persisted_account db = false ↔ accounts db = ∅.
Proof. unfold _has_persisted_account. rewrite bool_decide_eq_false. split; [apply dec_stable|naive_solver]. Qed.

Section wizard.
Context `{DecimalDigits, CryptoLaws, FloatText}.

Lemma verify_page_complete rt env answer saved form db db' :
  TelegramAuth.random_ok env → TelegramAuth.settled env →
  verify_page rt env answer saved form db = (Ok complete, db') →
  _has_persisted_account db = false ∧
  ∃ n r, py_int (field form (u "api_id")) = Some n ∧
    TelegramAuth.verify rt env (TelegramAuth.MkVerify (field form (u "session_id")) n
      (field form (u "api_hash")) (field form (secret_field rt))) answer saved db = (Ok r, db') ∧
    TelegramAuth.response_status r = TelegramAuth._AUTH_STATUS_AUTHENTICATED.
Proof.
  intros Hrnd Hset Hv.
  assert (∀ payload r, TelegramAuth.verify rt env payload answer saved db = (Ok r, db') →
    (rt = TelegramAuth.Code → TelegramAuth.response_status r ≠ u "password_required") →
    TelegramAuth.response_status r = TelegramAuth._AUTH_STATUS_AUTHENTICATED) as Hst.
  { intros payload r Hr Hno. destruct (TelegramAuth.verify_status _ _ _ _ _ _ _ _ Hrnd Hset Hr)
      as [?|[Hc Hp] ]; [done|]. by destruct (Hno Hc). }
  destruct rt; cbn [verify_page] in Hv; unfold post_setup_verify_code, post_setup_verify_password in Hv;
    destruct (_has_persisted_account db); try done; split; try done; unfold _parse_int in Hv.
  - destruct (py_int _) as [n|]; [|done]. case_match; [done|]. case_match; [done|]. case_match; [done|].
    exists n. cbn [TelegramAuth.verify secret_field] in *.
    destruct (TelegramAuth.verify_telegram_code _ _ _ _ _) as [ [r|e] db1] eqn:Er.
    + case_decide as Hp; [done|]. injection Hv as <-. exists r. split_and!; [done..|]. by apply (Hst _ r Er).
    + injection Hv as Hf _. by destruct e.
  - case_match; [done|]. destruct (py_int _) as [n|]; [|done]. case_match; [done|]. case_match; [done|].
    exists n. cbn [TelegramAuth.verify secret_field] in *.
    destruct (TelegramAuth.verify_telegram_password _ _ _ _ _) as [ [r|e] db1] eqn:Er.
    + injection Hv as <-. exists r. split_and!; [done..|]. by apply (Hst _ r Er).
    + injection Hv as Hf _. by destruct e.
Qed.

(** The wizard's last page. It is shown only when there was no account, the secret was
    unlocked, and Telegram signed in a live login session in the status the step waits for;
    then an account of the session's phone number is stored that opens, under the key every
    later call derives, to the submitted API hash and the session of the client. From then on
    every page of the wizard only redirects to the shell, whatever is submitted, and changes
    neither the database nor the unlock state. *)
Theorem setup_completes rt env answer saved form db db' :
  TelegramAuth.random_ok env → TelegramAuth.settled env →
  verify_page rt env answer saved form db = (Ok complete, db') →
  accounts db = ∅ ∧
  (∃ n, py_int (field form (u "api_id")) = Some n ∧
     TelegramAuth.signed_in rt env (TelegramAuth.MkVerify (field form (u "session_id")) n
       (field form (u "api_hash")) (field form (secret_field rt))) answer saved db db') ∧
  get_setup_wizard db' = to_shell ∧
  (∀ form st, post_setup_unlock form st db' = (Ok to_shell, st)) ∧
  (∀ env sid answer form, post_setup_start_auth env sid answer form db' = (Ok to_shell, db')) ∧
  ∀ rt env answer saved form, verify_page rt env answer saved form db' = (Ok to_shell, db').
Proof.
  intros Hrnd Hset Hv.
  destruct (verify_page_complete _ _ _ _ _ _ _ Hrnd Hset Hv) as (Hno&n&r&Hn&Hr&Hst).
  pose proof (TelegramAuth.verify_signed_in _ _ _ _ _ _ _ _ Hrnd Hset Hr Hst) as Hsigned.
  assert (_has_persisted_account db' = true) as Hacc.
  { apply not_false_iff_true. rewrite no_account_spec. intros He.
    destruct Hsigned as (_&_&(_&_&_&_&_&_&_&_&(i&a&Ha&_)&_)&_). by rewrite He, lookup_empty in Ha. }
  split_and!; [by apply no_account_spec|by exists n| | | |].
  - unfold get_setup_wizard. by rewrite Hacc.
  - intros. unfold post_setup_unlock. by rewrite Hacc.
  - intros. unfold post_setup_start_auth. by rewrite Hacc.
  - intros rt'. destruct rt'; intros; cbn [verify_page];
      unfold post_setup_verify_code, post_setup_verify_password; by rewrite Hacc.
Qed.

End wizard.

(** The pages before the login: "auth-start" answers 200 only once the secret is unlocked,
    and "verify-code" only when it was and Telegram accepted the request, with the session
    the page carries created by the call. An API id below one is not reported on the page:
    the request model raises. *)
Theorem setup_steps `{DecimalDigits} :
  (∀ form st db st' , post_setup_unlock form st db =
     (Ok (_render_setup_step (u "auth-start") 200 None None), st') →
     accounts db = ∅ ∧ Unlock.is_unlocked st' = true ∧ (Unlock.is_unlocked st = true → st' = st)) ∧
  (∀ env sid answer form db context db', post_setup_start_auth env sid answer form db =
     (Ok (_render_setup_step (u "verify-code") 200 None (Some context)), db') →
     accounts db = ∅ ∧ Unlock.is_unlocked (TelegramAuth.unlock_at_check env) = true ∧ answer = inr true ∧
     is_Some (auth_sessions db' !! session_id context) ∧ api_hash context = field form (u "api_hash") ∧
     py_int (field form (u "api_id")) = Some (api_id context)) ∧
  (∀ env sid answer form db n, accounts db = ∅ →
     py_int (field form (u "api_id")) = Some n → n <= 0 → field form (u "api_id") ≠ [] →
     field form (u "api_hash") ≠ [] → field form (u "phone_number") ≠ [] →
     Unlock.is_unlocked (TelegramAuth.unlock_at_check env) = true →
     post_setup_start_auth env sid answer form db = (Err ValidationError, db)).
Proof.
  split_and!.
  - intros form st db st'. unfold post_setup_unlock.
    destruct (_has_persisted_account db) eqn:Ha; [done|]. apply no_account_spec in Ha.
    destruct (str_truthy (field form (u "passphrase"))) eqn:Ec; cbn [negb]; [|done].
    unfold Unlock.require_unlocked, Unlock.unlock_with_passphrase, Unlock.is_unlocked. rewrite Ec.
    destruct (Unlock.unlock_secret st) as [s|] eqn:Es; intros [= <-]; (split_and!; [done| |]).
    + rewrite Es. by apply bool_decide_eq_true_2.
    + done.
    + by apply bool_decide_eq_true_2.
    + done.
  - intros env sid answer form db context db'. unfold post_setup_start_auth.
    destruct (_has_persisted_account db) eqn:Ha; [done|]. apply no_account_spec in Ha.
    case_match; [done|]. destruct (py_int _) as [n|]; [|done].
    unfold Unlock.require_unlocked, Unlock.is_unlocked.
    destruct (Unlock.unlock_secret _) as [s|]; [|done]. case_match; [done|].
    unfold TelegramAuth.start_telegram_auth, AuthSessions.create_session.
    destruct answer as [ [error seconds|e]|[] ].
    + destruct (TelegramAuth.login_failure _ _ _ _ _) as [e db1]. by destruct e.
    + by destruct e.
    + destruct (auth_sessions _ !! sid) eqn:E; [done|]. intros [= <- <-].
      split_and!; [done|by apply bool_decide_eq_true_2|done| |done..].
      cbn [auth_sessions set_auth_sessions session_id AuthSessions.session_id AuthSessions._decode_row].
      rewrite lookup_insert_eq. by eexists.
    + done.
  - intros env sid answer form db n Ha Hn Hle H1 H2 H3. unfold Unlock.is_unlocked, post_setup_start_auth.
    intros [s Hs]%bool_decide_eq_true. rewrite (proj2 (no_account_spec db) Ha).
    unfold Unlock.require_unlocked, TelegramAuth.valid_start. rewrite Hn, Hs.
    cbn [TelegramAuth.start_api_id TelegramAuth.start_api_hash TelegramAuth.start_phone_number].
    rewrite (proj2 (Z.ltb_ge 0 n)) by done.
    by destruct (field form (u "api_id")), (field form (u "api_hash")), (field form (u "phone_number")).
Qed.

(** ** Instance *)

Definition sample_body : list Z := u "session_id=s1&api_id=5&api_hash=hash&code=12345".

Lemma setup_completes_witness :
  let form := _parse_urlencoded_form sample_body in
  ∃ db', verify_page TelegramAuth.Code TelegramAuth.sample_env (inr tt) (Some (u "string")) form
           TelegramAuth.sample_login_db = (Ok complete, db') ∧
    get_setup_wizard TelegramAuth.sample_login_db = _render_setup_step (u "unlock") 200 None None ∧
    get_setup_wizard db' = to_shell.
Proof.
  intros form.
  assert (∃ db', verify_page TelegramAuth.Code TelegramAuth.sample_env (inr tt) (Some (u "string")) form
    TelegramAuth.sample_login_db = (Ok complete, db')) as (db'&Hv) by (eexists; vm_compute; reflexivity).
  exists db'. split; [exact Hv|]. split; [by vm_compute|].
  by destruct (setup_completes TelegramAuth.Code TelegramAuth.sample_env (inr tt) (Some (u "string")) form
    TelegramAuth.sample_login_db db' TelegramAuth.sample_random_ok
    (conj (λ _, conj eq_refl eq_refl) (λ _, eq_refl)) Hv) as (_&_&Hw&_).
Defined.

End Setup.
