(* ===== verification/Config.v ===== *)
(** Static configuration: the environment variables (src/tca/config/settings.py), the records
    of the log (src/tca/config/logging.py) and who may reach which router and from which
    origin (create_app in src/tca/api/app.py). *)

From S2P Require Import Prelude PyValue PyTime PyText PyCodec PyJson Schema Access.
Local Open Scope Z_scope.

(** * Environment variables *)
Module StaticSettings.

Definition ENV_DB_PATH : pystr := u "TCA_DB_PATH".
Definition ENV_BIND : pystr := u "TCA_BIND".
Definition ENV_MODE : pystr := u "TCA_MODE".
Definition ENV_LOG_LEVEL : pystr := u "TCA_LOG_LEVEL".
Definition ENV_SECRET_FILE : pystr := u "TCA_SECRET_FILE".
Definition ENV_CORS_ALLOW_ORIGINS : pystr := u "TCA_CORS_ALLOW_ORIGINS".

Definition DEFAULT_BIND : pystr := u "127.0.0.1".
Definition DEFAULT_MODE : pystr := u "secure-interactive".
Definition DEFAULT_LOG_LEVEL : pystr := u "INFO".
Definition VALID_MODES : list pystr := [u "auto-unlock"; u "secure-interactive"].
Definition VALID_LOG_LEVELS : list pystr :=
  [u "CRITICAL"; u "DEBUG"; u "ERROR"; u "INFO"; u "WARNING"].

(** [SettingsValidationError], by what its message names, or what [expanduser] raises. *)
Inductive config_error :=
  | for_empty_value (env_var : pystr)
  | for_invalid_choice (env_var value allowed_values : pystr)
  | Raised (e : exn).

Section settings.
(** Paths, [Path(text)] and [expanduser], and [str.upper]. *)
Context {path : Type} (Path : pystr → path) (expanduser : path → result exn path)
  (upper : pystr → pystr).

Definition DEFAULT_DB_PATH : path := Path (u "/data/tca.db").

Record AppSettings := MkSettings {
  db_path : path;
  bind : pystr;
  mode : pystr;
  log_level : pystr;
  secret_file : option path;
  cors_allow_origins : list pystr;
}.

Definition environment : Type := gmap pystr pystr.
Implicit Type env : environment.

Definition expanded (value : pystr) : result config_error path :=
  match expanduser (Path value) with Ok p => Ok p | Err e => Err (Raised e) end.

Definition _read_db_path env : result config_error path :=
  match env !! ENV_DB_PATH with
  | None => Ok DEFAULT_DB_PATH
  | Some raw =>
      if str_truthy (strip raw) then expanded (strip raw) else Err (for_empty_value ENV_DB_PATH)
  end.

Definition _read_bind env : result config_error pystr :=
  match env !! ENV_BIND with
  | None => Ok DEFAULT_BIND
  | Some raw => if str_truthy (strip raw) then Ok (strip raw) else Err (for_empty_value ENV_BIND)
  end.

(** The allowed values are listed in order. *)
Definition allowed (values : list pystr) : pystr := join (u ", ") values.

Definition _read_mode env : result config_error pystr :=
  match env !! ENV_MODE with
  | None => Ok DEFAULT_MODE
  | Some raw =>
      if bool_decide (strip raw ∈ VALID_MODES) then Ok (strip raw)
      else Err (for_invalid_choice ENV_MODE (strip raw) (allowed VALID_MODES))
  end.

Definition _read_log_level env : result config_error pystr :=
  match env !! ENV_LOG_LEVEL with
  | None => Ok DEFAULT_LOG_LEVEL
  | Some raw =>
      let value := upper (strip raw) in
      if bool_decide (value ∈ VALID_LOG_LEVELS) then Ok value
      else Err (for_invalid_choice ENV_LOG_LEVEL raw (allowed VALID_LOG_LEVELS))
  end.

Definition _read_secret_file env : result config_error (option path) :=
  match env !! ENV_SECRET_FILE with
  | None => Ok None
  | Some raw =>
      if str_truthy (strip raw) then p ← expanded (strip raw); mret (Some p) else Ok None
  end.

(** Without a piece that is not blank the result is the empty default. *)
Definition _read_cors_allow_origins env : list pystr :=
  match env !! ENV_CORS_ALLOW_ORIGINS with
  | None => []
  | Some raw => filter (λ v, str_truthy v = true) (strip <$> split_on 44 raw)
  end.

Definition load_settings env : result config_error AppSettings :=
  db_path ← _read_db_path env;
  bind ← _read_bind env;
  mode ← _read_mode env;
  log_level ← _read_log_level env;
  secret_file ← _read_secret_file env;
  mret (MkSettings db_path bind mode log_level secret_file (_read_cors_allow_origins env)).

(** What a loaded configuration satisfies. *)
Definition valid (s : AppSettings) : Prop :=
  bind s ≠ [] ∧ strip (bind s) = bind s ∧ mode s ∈ VALID_MODES ∧ log_level s ∈ VALID_LOG_LEVELS ∧
  Forall (λ o, o ≠ [] ∧ strip o = o ∧ 44 ∉ o) (cors_allow_origins s).

Lemma origins_valid env :
  Forall (λ o, o ≠ [] ∧ strip o = o ∧ 44 ∉ o) (_read_cors_allow_origins env).
Proof.
  unfold _read_cors_allow_origins. destruct (env !! _) as [raw|]; [|constructor].
  apply Forall_forall. intros o [Hne (v&->&Hv)%list_elem_of_fmap]%list_elem_of_filter.
  split_and!; [by destruct (strip v)|apply strip_idem|]. intros H%elem_of_strip.
  pose proof (split_on_pieces 44 raw) as Hs. rewrite Forall_forall in Hs. by apply (Hs v).
Qed.

Lemma truthy_nonempty s : str_truthy s = true → s ≠ [].
Proof. by destruct s. Qed.

(** Why loading fails. *)
Definition explains env (e : config_error) : Prop :=
  match e with
  | for_empty_value var => (var = ENV_DB_PATH ∨ var = ENV_BIND) ∧ strip <$> env !! var = Some []
  | for_invalid_choice var value values =>
      var = ENV_MODE ∧ values = u "auto-unlock, secure-interactive" ∧
        strip <$> env !! var = Some value ∧ value ∉ VALID_MODES ∨
      var = ENV_LOG_LEVEL ∧ values = u "CRITICAL, DEBUG, ERROR, INFO, WARNING" ∧
        env !! var = Some value ∧ upper (strip value) ∉ VALID_LOG_LEVELS
  | Raised e =>
      ∃ var text, (var = ENV_DB_PATH ∨ var = ENV_SECRET_FILE) ∧
        strip <$> env !! var = Some text ∧ text ≠ [] ∧ expanduser (Path text) = Err e
  end.

Lemma read_db_path_spec env :
  match _read_db_path env with
  | Ok p => env !! ENV_DB_PATH = None → p = DEFAULT_DB_PATH
  | Err e => explains env e
  end.
Proof.
  unfold _read_db_path, expanded. destruct (env !! ENV_DB_PATH) as [raw|] eqn:E; [|done].
  destruct (strip raw) as [|c t] eqn:Es; cbn [str_truthy].
  - split; [by left|]. by rewrite E; cbn [fmap option_fmap option_map]; rewrite Es.
  - destruct (expanduser _) eqn:Ee; [done|]. exists ENV_DB_PATH, (c :: t).
    rewrite E. cbn [fmap option_fmap option_map]. rewrite Es. split_and!; [by left|done..].
Qed.
Lemma read_bind_spec env :
  match _read_bind env with
  | Ok b => b ≠ [] ∧ strip b = b ∧ (env !! ENV_BIND = None → b = DEFAULT_BIND)
  | Err e => explains env e
  end.
Proof.
  unfold _read_bind. destruct (env !! ENV_BIND) as [raw|] eqn:E; [|done].
  destruct (strip raw) as [|c t] eqn:Es; cbn [str_truthy].
  - split; [by right|]. by rewrite E; cbn [fmap option_fmap option_map]; rewrite Es.
  - split_and!; [done| |done]. by rewrite <-Es, strip_idem.
Qed.
Lemma read_mode_spec env :
  match _read_mode env with
  | Ok m => m ∈ VALID_MODES ∧ (env !! ENV_MODE = None → m = DEFAULT_MODE)
  | Err e => explains env e
  end.
Proof.
  unfold _read_mode. destruct (env !! ENV_MODE) as [raw|] eqn:E.
  - case_bool_decide; [done|]. left. by rewrite E.
  - split; [by_eval|done].
Qed.
Lemma read_log_level_spec env :
  match _read_log_level env with
  | Ok l => l ∈ VALID_LOG_LEVELS ∧ (env !! ENV_LOG_LEVEL = None → l = DEFAULT_LOG_LEVEL)
  | Err e => explains env e
  end.
Proof.
  unfold _read_log_level. destruct (env !! ENV_LOG_LEVEL) as [raw|] eqn:E.
  - cbv zeta. case_bool_decide; [done|]. by right.
  - split; [by_eval|done].
Qed.
Lemma read_secret_file_spec env :
  match _read_secret_file env with
  | Ok f => env !! ENV_SECRET_FILE = None → f = None
  | Err e => explains env e
  end.
Proof.
  unfold _read_secret_file, expanded. destruct (env !! ENV_SECRET_FILE) as [raw|] eqn:E; [|done].
  destruct (strip raw) as [|c t] eqn:Es; cbn [str_truthy]; [done|].
  destruct (expanduser _) eqn:Ee; [done|]. exists ENV_SECRET_FILE, (c :: t).
  rewrite E. cbn [fmap option_fmap option_map]. rewrite Es. split_and!; [by right|done..].
Qed.

(** The static configuration. What loads is valid: a non-empty address without blanks around
    it, one of the two modes and of the five levels, and only non-blank single origins; a
    variable that is not set has its default. Loading fails only where a set variable is
    blank (path, address) or not among the allowed values (mode, level), or where a path
    cannot be expanded. *)
Theorem load_settings_spec env :
  match load_settings env with
  | Ok s =>
      valid s ∧
      (env !! ENV_DB_PATH = None → db_path s = DEFAULT_DB_PATH) ∧
      (env !! ENV_BIND = None → bind s = DEFAULT_BIND) ∧
      (env !! ENV_MODE = None → mode s = DEFAULT_MODE) ∧
      (env !! ENV_LOG_LEVEL = None → log_level s = DEFAULT_LOG_LEVEL) ∧
      (env !! ENV_SECRET_FILE = None → secret_file s = None) ∧
      (env !! ENV_CORS_ALLOW_ORIGINS = None → cors_allow_origins s = [])
  | Err e => explains env e
  end.
Proof.
  pose proof (read_db_path_spec env) as H1. pose proof (read_bind_spec env) as H2.
  pose proof (read_mode_spec env) as H3. pose proof (read_log_level_spec env) as H4.
  pose proof (read_secret_file_spec env) as H5. pose proof (origins_valid env) as H6.
  unfold load_settings.
  destruct (_read_db_path env); [|exact H1]. destruct (_read_bind env); [|exact H2].
  destruct (_read_mode env); [|exact H3]. destruct (_read_log_level env); [|exact H4].
  destruct (_read_secret_file env); [|exact H5].
  cbn -[ENV_DB_PATH ENV_BIND ENV_MODE ENV_LOG_LEVEL ENV_SECRET_FILE ENV_CORS_ALLOW_ORIGINS].
  split; [by split_and!; [apply H2|apply H2|apply H3|apply H4|]|].
  split_and!; [done|apply H2|apply H3|apply H4|done|].
  intros E. unfold _read_cors_allow_origins. by rewrite E.
Qed.

End settings.
End StaticSettings.

(** * Log records *)
Module Logging.

(** [exc_info] is the formatted exception and [attributes] the record's [__dict__]. *)
Record LogRecord := MkRecord {
  created : datetime;
  levelname : pystr;
  message : pystr;
  name : pystr;
  exc_info : option pystr;
  stack_info : pystr;
  attributes : list (pystr * JSONValue);
}.

Definition standard_attrs : list pystr := u <$>
  ["name"; "msg"; "args"; "levelname"; "levelno"; "pathname"; "filename"; "module"; "exc_info";
   "exc_text"; "stack_info"; "lineno"; "funcName"; "created"; "msecs"; "relativeCreated"; "thread";
   "threadName"; "processName"; "process"; "taskName"]%string.

(** [d[k] = v] of a dict: in place, or at the end. *)
Fixpoint dict_set (d : list (pystr * JSONValue)) (k : pystr) (v : JSONValue) : list (pystr * JSONValue) :=
  match d with
  | [] => [(k, v)]
  | (k', v') :: d => if bool_decide (k = k') then (k, v) :: d else (k', v') :: dict_set d k v
  end.

Definition fields (correlation_id : option pystr) (record : LogRecord) : list (pystr * JSONValue) :=
  [(u "timestamp", JStr (isoformat (u "T") (created record)));
   (u "level", JStr (levelname record));
   (u "message", JStr (message record));
   (u "logger", JStr (name record));
   (u "correlation_id", match correlation_id with Some c => JStr c | None => JNull end)] ++
  (match exc_info record with Some text => [(u "exception", JStr text)] | None => [] end) ++
  (if str_truthy (stack_info record) then [(u "stack_trace", JStr (stack_info record))] else []).

Definition hidden (key : pystr) : bool :=
  bool_decide (key ∈ standard_attrs) || startswith key (u "_").
(** The name an attribute gets in the output. *)
Definition shown (protected_attrs : list pystr) (key : pystr) : pystr :=
  if bool_decide (key ∈ protected_attrs) then u "extra_" ++ key else key.

Definition add_extra (protected_attrs : list pystr) (log_data : list (pystr * JSONValue))
    (attribute : pystr * JSONValue) : list (pystr * JSONValue) :=
  if hidden attribute.1 then log_data
  else dict_set log_data (shown protected_attrs attribute.1) attribute.2.

(** The object that [json.dumps] writes on one line. *)
Definition format (correlation_id : option pystr) (record : LogRecord) : list (pystr * JSONValue) :=
  let log_data := fields correlation_id record in
  foldl (add_extra log_data.*1) log_data (attributes record).

Lemma dict_get_set d k v k' :
  dict_get (dict_set d k v) k' = if bool_decide (k' = k) then Some v else dict_get d k'.
Proof.
  induction d as [|[k0 v0] d IH]; cbn [dict_set dict_get]; [done|].
  destruct (bool_decide_reflect (k = k0)) as [->|Hk]; cbn [dict_get].
  - by repeat case_bool_decide.
  - rewrite IH. repeat case_bool_decide; congruence.
Qed.

Lemma fields_names c r k :
  k ∈ (fields c r).*1 →
  k ∈ (u <$> ["timestamp"; "level"; "message"; "logger"; "correlation_id"; "exception"; "stack_trace"]%string).
Proof.
  intros H. unfold fields in H. rewrite !fmap_app, !elem_of_app in H.
  destruct H as [H|[H|H]]; [| |].
  - csimpl in H. set_solver.
  - destruct (exc_info r); csimpl in *; set_solver.
  - destruct (str_truthy _); csimpl in *; set_solver.
Qed.

(** An attribute never takes the name of a field. *)
Lemma shown_not_field c r k : shown (fields c r).*1 k ∉ (fields c r).*1.
Proof.
  unfold shown. case_bool_decide as Hk; [|done]. apply fields_names in Hk.
  intros H%fields_names. csimpl in Hk. rewrite !elem_of_cons, elem_of_nil in Hk.
  destruct_or? Hk; subst; try done; revert H; by_eval.
Qed.

Lemma extras_get c r attrs d k :
  dict_get (foldl (add_extra (fields c r).*1) d attrs) k =
    match list_find (λ a, hidden a.1 = false ∧ shown (fields c r).*1 a.1 = k) (reverse attrs) with
    | Some (_, a) => Some a.2
    | None => dict_get d k
    end.
Proof.
  induction attrs as [|a attrs IH] using rev_ind; [done|].
  rewrite foldl_snoc, reverse_snoc. cbn [list_find]. unfold add_extra at 1.
  destruct (hidden a.1) eqn:Eh; cbn [negb].
  - rewrite decide_False by naive_solver. rewrite IH. by destruct (list_find _ (reverse attrs)) as [[]|].
  - rewrite dict_get_set. case_bool_decide as Hk.
    + by rewrite decide_True by done.
    + rewrite decide_False by naive_solver. rewrite IH. by destruct (list_find _ (reverse attrs)) as [[]|].
Qed.

(** A log line keeps its fields: whatever attributes a record carries, the time, level,
    message, logger, correlation id, exception and stack read as the record has them. Every
    other attribute is there too, under its own name or, when a field has that name, under
    the name with [extra_] before it, unless a later attribute has the same name there. *)
Theorem format_keeps c r :
  (∀ k v, (k, v) ∈ fields c r → dict_get (format c r) k = dict_get (fields c r) k) ∧
  (∀ k v before after, attributes r = before ++ (k, v) :: after → hidden k = false →
     (∀ k' v', (k', v') ∈ after → hidden k' = false → shown (fields c r).*1 k' ≠ shown (fields c r).*1 k) →
     dict_get (format c r) (shown (fields c r).*1 k) = Some v).
Proof.
  unfold format. split.
  - intros k v Hin. rewrite extras_get.
    destruct (list_find _ _) as [[i a]|] eqn:E; [|done].
    apply list_find_Some in E as (_&[_ Hs]&_). exfalso. apply (shown_not_field c r a.1).
    rewrite Hs. apply list_elem_of_fmap. by exists (k, v).
  - intros k v before after -> Hh Ha. rewrite foldl_app. cbn [foldl]. rewrite extras_get.
    destruct (list_find _ _) as [[i a]|] eqn:E.
    + apply list_find_Some in E as (Hi&[Hh' Hs]&_). apply list_elem_of_lookup_2 in Hi.
      rewrite elem_of_reverse in Hi. destruct a as [k' v']. by destruct (Ha k' v' Hi Hh').
    + unfold add_extra. cbn [fst snd]. rewrite Hh, dict_get_set. by rewrite bool_decide_true.
Qed.

End Logging.

(** * Routers and their guards *)
Module Routing.

(** What [create_app] includes, in its order, with the static files and the schema. *)
Inductive router :=
  | health | channels | channel_groups | settings | jobs | notifications | telegram_auth
  | thread | dedupe_decisions | bot_config | ui | login | static | openapi.
Inductive guard := Open | Bearer | Browser.

Definition guard_of (r : router) : guard :=
  match r with
  | health | login | static => Open
  | ui => Browser
  | _ => Bearer
  end.

(** What the guards read of a request: the bearer credentials and the session cookie. *)
Record Request := MkRequest { credentials : option pystr; cookie : option pystr; now : Z }.

Section guards.
Context `{DecimalDigits} (signing_key : option (list Z)).

Definition admitted (r : router) (q : Request) (db : Db) : result exn unit :=
  match guard_of r with
  | Open => Ok tt
  | Bearer => Access.require_bearer_auth (credentials q) db
  | Browser => Access.require_ui_auth (credentials q) signing_key (cookie q) (now q) db
  end.

(** [_handle_ui_auth_redirect] *)
Inductive answer {A} :=
  | Answered (r : result exn A)
  | RedirectToLogin
  | Refused (e : exn).
Arguments answer : clear implicits.

Definition handle {A} (r : router) (q : Request) (handler : Db → result exn A * Db) (db : Db)
    : answer A * Db :=
  match admitted r q db with
  | Ok _ => let '(a, db) := handler db in (Answered a, db)
  | Err e => ((if decide (e = Access.UIAuthRedirectError) then RedirectToLogin else Refused e), db)
  end.

(** Everything but the health check, the login form and the static files needs the bearer
    token or, for the pages, a signed cookie: otherwise no handler runs and nothing is
    written. *)
Theorem guarded_routers {A} r q (handler : Db → result exn A * Db) db :
  r ∉ [health; login; static] →
  Access.require_bearer_auth (credentials q) db ≠ Ok tt →
  (r = ui → ∀ key value, signing_key = Some key → cookie q = Some value →
     Access.verify_signed_cookie_value key value Access.SESSION_COOKIE_MAX_AGE_SECONDS (now q) ≠ Ok true) →
  (handle r q handler db).2 = db ∧ ∀ a, (handle r q handler db).1 ≠ Answered a.
Proof.
  intros Hr Hb Hc. unfold handle.
  destruct (admitted r q db) as [ []|e] eqn:E; [exfalso|cbn; by case_decide].
  unfold admitted in E. destruct (guard_of r) eqn:Eg; [|done|].
  - destruct r; try done; set_solver.
  - destruct r; try done. unfold Access.require_ui_auth in E.
    destruct (Access.require_bearer_auth (credentials q) db) as [ []|[] ]; try done.
    destruct signing_key as [key|] eqn:Ek; [|done]. destruct (cookie q) as [value|] eqn:Ec; [|done].
    specialize (Hc eq_refl key value eq_refl eq_refl).
    destruct (Access.verify_signed_cookie_value _ _ _ _) as [ []|]; cbn in E; [by apply Hc|done|done].
Qed.

End guards.

(** ** Cross-origin requests

    [allows] and [preflight] are the middleware's own origin check and its answer. *)
Section cors.
Context {response : Type} (allows : list pystr → pystr → bool) (preflight : option pystr → response)
  (PlainTextResponse : pystr → Z → response).

Definition preflight_response (allow_origins : list pystr) (origin : option pystr) : response :=
  match origin with
  | Some o =>
      if negb (allows allow_origins o) then PlainTextResponse (u "Disallowed CORS origin") 400
      else preflight origin
  | None => preflight origin
  end.

(** Without an allowed origin the middleware is not installed. *)
Definition _configure_cors (allow_origins : list pystr) : option (option pystr → response) :=
  match allow_origins with [] => None | _ => Some (preflight_response allow_origins) end.

End cors.
End Routing.
