(* ===== verification/Storage.v ===== *)
(** The connection to the database file: POSIX paths as [pathlib] has them, the engines of the
    application (src/tca/storage/db.py) and the migrations run at start-up
    (src/tca/storage/migrations.py, src/alembic/env.py). *)

From S2P Require Import Prelude PyValue PyText Config.
Local Open Scope Z_scope.

(** * Paths *)
Module Paths.

Definition slash : Z := 47.
Definition dot : pystr := [46].
(** [root] is the empty text, one slash or two; [parts] are the names after it. *)
Record PurePath := MkPath { root : pystr; parts : list pystr }.

Definition root_of (text : pystr) : pystr :=
  if startswith text [slash; slash] && negb (startswith text [slash; slash; slash]) then [slash; slash]
  else if startswith text [slash] then [slash] else [].
Definition named (part : pystr) : bool := str_truthy part && negb (bool_decide (part = dot)).
(** [Path(text)] *)
Definition Path (text : pystr) : PurePath :=
  MkPath (root_of text) (filter (λ part, named part = true) (split_on slash text)).
(** [path.as_posix()] *)
Definition as_posix (p : PurePath) : pystr :=
  match root p ++ join [slash] (parts p) with [] => dot | text => text end.
Definition parent (p : PurePath) : PurePath :=
  MkPath (root p) (take (length (parts p) - 1) (parts p)).

(** [path.expanduser()], with [os.path.expanduser] on the first part. *)
Definition expanduser (home : pystr → pystr) (p : PurePath) : result exn PurePath :=
  match root p, parts p with
  | [], first :: rest =>
      if startswith first (u "~") then
        let homedir := home first in
        if startswith homedir (u "~") then Err (AppError "RuntimeError")
        else Ok (MkPath (root (Path homedir)) (parts (Path homedir) ++ rest))
      else Ok p
  | _, _ => Ok p
  end.

(** What parsing yields: parts are names, a root one of the three. *)
Definition parsed (p : PurePath) : Prop :=
  (root p = [] ∨ root p = [slash] ∨ root p = [slash; slash]) ∧
  Forall (λ part, named part = true ∧ slash ∉ part) (parts p).

Lemma Path_parsed text : parsed (Path text).
Proof.
  split.
  - cbn. unfold root_of. repeat case_match; auto.
  - cbn. apply Forall_forall. intros part [Hn Hp]%list_elem_of_filter. split; [done|].
    pose proof (split_on_pieces slash text) as H. rewrite Forall_forall in H. by apply H.
Qed.

Lemma named_filter parts :
  Forall (λ part, named part = true ∧ slash ∉ part) parts →
  filter (λ part, named part = true) (split_on slash (join [slash] parts)) = parts.
Proof.
  intros H. destruct parts as [|part parts]; [done|]. rewrite split_on_join; [|done|].
  - induction H as [|q qs [Hq _] _ IH]; [done|]. by rewrite filter_cons_True, IH.
  - eapply Forall_impl; [exact H|]. naive_solver.
Qed.
Lemma join_starts parts :
  Forall (λ part, named part = true ∧ slash ∉ part) parts →
  match join [slash] parts with [] => True | c :: _ => c ≠ slash end.
Proof.
  intros H. destruct H as [|part parts [Hn Hp] _]; [done|]. destruct part as [|c part]; [done|].
  assert (c ≠ slash) by (intros ->; apply Hp; left). by destruct parts.
Qed.
Lemma root_of_other c text : c ≠ slash → root_of (c :: text) = [].
Proof. intros Hc. unfold root_of. cbn [startswith]. by rewrite (proj2 (Z.eqb_neq slash c) (not_eq_sym Hc)). Qed.
Lemma root_of_slashes text :
  match text with [] => True | c :: _ => c ≠ slash end →
  root_of (slash :: text) = [slash] ∧ root_of (slash :: slash :: text) = [slash; slash].
Proof.
  intros Ht. unfold root_of. destruct text as [|c text]; [done|]. cbn [startswith].
  by rewrite ?(proj2 (Z.eqb_neq slash c) (not_eq_sym Ht)), ?andb_false_r.
Qed.
(** The text of a path denotes the path. *)
Lemma Path_as_posix p : parsed p → Path (as_posix p) = p.
Proof.
  destruct p as [r ps]. intros [Hr Hp]. unfold as_posix. cbn [root parts] in *.
  pose proof (named_filter ps Hp) as Hf. pose proof (join_starts ps Hp) as Hj.
  destruct (root_of_slashes _ Hj) as [H1 H2]. unfold Path. destruct Hr as [->|[->| ->] ]; cbn [app].
  - destruct (join [slash] ps) as [|c text] eqn:E.
    + f_equal. by rewrite <-Hf.
    + f_equal; [|done]. by apply root_of_other.
  - f_equal; [done|by cbn].
  - f_equal; [done|by cbn].
Qed.

(** A home directory is given by an absolute path, or not at all. *)
Definition absolute_home (home : pystr → pystr) : Prop :=
  ∀ first, startswith (home first) (u "~") = true ∨ startswith (home first) [slash] = true.
Lemma root_of_absolute text : startswith text [slash] = true → root_of text ≠ [].
Proof. intros H. unfold root_of. rewrite H. by destruct (_ && _). Qed.

Lemma expanduser_parsed home p q : parsed p → expanduser home p = Ok q → parsed q.
Proof.
  unfold expanduser. intros Hp H. destruct (root p) eqn:Er; [|by injection H as <-].
  destruct (parts p) as [|first rest] eqn:Eps; [by injection H as <-|].
  destruct (startswith first (u "~")); [|by injection H as <-].
  destruct (startswith (home first) (u "~")); [done|]. injection H as <-.
  destruct (Path_parsed (home first)) as [H1 H2]. split; [done|]. apply Forall_app. split; [done|].
  destruct Hp as [_ Hp]. rewrite Eps in Hp. by inversion_clear Hp.
Qed.
Lemma expanduser_idem home p q :
  absolute_home home → expanduser home p = Ok q → expanduser home q = Ok q.
Proof.
  intros Hh H. unfold expanduser in H. destruct (root p) eqn:Er.
  2: { injection H as <-. unfold expanduser. by rewrite Er. }
  destruct (parts p) as [|first rest] eqn:Eps.
  { injection H as <-. unfold expanduser. by rewrite Er, Eps. }
  destruct (startswith first (u "~")) eqn:Es.
  - destruct (startswith (home first) (u "~")) eqn:Eh; [done|]. injection H as <-.
    destruct (Hh first) as [Hh'|Hh']; [congruence|]. apply root_of_absolute in Hh'.
    unfold expanduser. cbn [root Path]. by destruct (root_of (home first)).
  - injection H as <-. unfold expanduser. by rewrite Er, Eps, Es.
Qed.
End Paths.

(** * Engines *)
Module Engine.
Import Paths.

Definition SQLITE_PRAGMA_STATEMENTS : list pystr :=
  [u "PRAGMA journal_mode=WAL;"; u "PRAGMA synchronous=NORMAL;"; u "PRAGMA foreign_keys=ON;";
   u "PRAGMA busy_timeout=5000;"].
Definition BEGIN_IMMEDIATE : pystr := u "BEGIN IMMEDIATE".

Section engine.
(** The home directories; making a directory with its parents, or the text of the [OSError]. *)
Context (home : pystr → pystr) (mkdir : PurePath → option pystr).

Definition build_sqlite_url (db_path : PurePath) : result exn pystr :=
  normalized_path ← expanduser home db_path;
  mret (u "sqlite+aiosqlite:///" ++ as_posix normalized_path).

(** An engine: its URL, and what its event handlers send on each fresh connection and at the
    start of each transaction. *)
Record AsyncEngine := MkEngine { url : pystr; on_connect : list pystr; on_begin : list pystr }.

Definition _create_engine (db_path : PurePath) (begin_immediate : bool) : result exn AsyncEngine :=
  db_path ← expanduser home db_path;
  match mkdir (parent db_path) with
  | Some _ => Err (AppError "OSError")
  | None =>
      sqlite_url ← build_sqlite_url db_path;
      mret (MkEngine sqlite_url SQLITE_PRAGMA_STATEMENTS
              (if begin_immediate then [BEGIN_IMMEDIATE] else []))
  end.
Definition create_read_engine (db_path : PurePath) : result exn AsyncEngine := _create_engine db_path false.
Definition create_write_engine (db_path : PurePath) : result exn AsyncEngine := _create_engine db_path true.

Record StorageRuntime := MkRuntime { read_engine : AsyncEngine; write_engine : AsyncEngine }.
Definition create_storage_runtime (db_path : PurePath) : result exn StorageRuntime :=
  read_engine ← create_read_engine db_path;
  write_engine ← create_write_engine db_path;
  mret (MkRuntime read_engine write_engine).

(** [dispose_storage_runtime], with the outcome of disposing each engine: whether each was
    reached, and how the call ends. *)
Definition dispose_storage_runtime (read write : result exn unit) : bool * bool * result exn unit :=
  match read with
  | Err e => (true, false, Err e)
  | Ok _ => (true, true, write)
  end.

(** [_set_sqlite_pragmas]: the statements on a cursor of the connection [c], which is closed
    whatever happens. *)
Section connection.
Context {connection : Type} (execute : pystr → connection → result exn connection).
Fixpoint execute_all (statements : list pystr) (c : connection) : result exn unit * connection :=
  match statements with
  | [] => (Ok tt, c)
  | s :: statements =>
      match execute s c with
      | Ok c => execute_all statements c
      | Err e => (Err e, c)
      end
  end.
Definition _set_sqlite_pragmas (close : connection → connection) (c : connection) : result exn unit * connection :=
  let '(r, c) := execute_all SQLITE_PRAGMA_STATEMENTS c in (r, close c).
End connection.

(** Both engines open the same file, enforce foreign keys on every connection, and only the
    writer takes its lock when a transaction begins. *)
Theorem create_storage_runtime_spec db_path :
  absolute_home home →
  match create_storage_runtime db_path with
  | Ok rt => ∃ p, expanduser home db_path = Ok p ∧ mkdir (parent p) = None ∧
      url (read_engine rt) = u "sqlite+aiosqlite:///" ++ as_posix p ∧
      url (write_engine rt) = url (read_engine rt) ∧
      u "PRAGMA foreign_keys=ON;" ∈ on_connect (read_engine rt) ∧
      on_connect (write_engine rt) = on_connect (read_engine rt) ∧
      on_begin (read_engine rt) = [] ∧ on_begin (write_engine rt) = [BEGIN_IMMEDIATE]
  | Err e => expanduser home db_path = Err e ∨
      e = AppError "OSError" ∧ ∃ p, expanduser home db_path = Ok p ∧ is_Some (mkdir (parent p))
  end.
Proof.
  intros Hh. unfold create_storage_runtime, create_read_engine, create_write_engine, _create_engine, build_sqlite_url.
  destruct (expanduser home db_path) as [p|e] eqn:E; cbn [mbind result_bind]; [|by left].
  rewrite (expanduser_idem home _ p Hh E). destruct (mkdir (parent p)) eqn:Em; cbn [mbind result_bind].
  - right. split; [done|]. exists p. by rewrite Em.
  - exists p. split_and!; try done. by right; right; left.
Qed.
End engine.
End Engine.

(** * Migrations at start-up *)
Module Migrations.
Import Paths StaticSettings.

(** Why an upgrade fails: the settings its environment loads, the directory, an option that
    [ConfigParser] refuses, or the migrations themselves. *)
Inductive failure :=
  | BadSettings (e : config_error)
  | NoDirectory (details : pystr)
  | BadOption (value : pystr)
  | Failed (details : pystr).
(** [MigrationStartupError], or what loading the settings raises. *)
Inductive startup_error :=
  | SettingsError (e : config_error)
  | for_db_path_prepare_failure (db_path : PurePath) (details : pystr)
  | for_upgrade_failure (db_path : PurePath) (cause : failure).

Section migrations.
Context (home upper : pystr → pystr) (mkdir : PurePath → option pystr).
(** Setting an option of Alembic's [ConfigParser] and reading it back. *)
Context (option_value : pystr → option pystr).
(** The directory of the migrations; connecting to a URL and migrating the database. *)
Context (script_location : pystr) {D : Type} (migrate : pystr → D → result pystr unit * D).

Definition load (environ : environment) : result config_error AppSettings :=
  load_settings Path (expanduser home) upper environ.
Definition sync_url (db_path : PurePath) : pystr := u "sqlite:///" ++ as_posix db_path.

(** src/alembic/env.py, which the upgrade runs: the settings are loaded again. *)
Definition _configure_sqlalchemy_url_from_settings (environ : environment) : result failure pystr :=
  match load environ with
  | Err e => Err (BadSettings e)
  | Ok settings =>
      match expanduser home (db_path settings) with
      | Err e => Err (BadSettings (Raised e))
      | Ok db_path =>
          match mkdir (parent db_path) with
          | Some details => Err (NoDirectory details)
          | None =>
              match option_value (sync_url db_path) with
              | None => Err (BadOption (sync_url db_path))
              | Some url => Ok url
              end
          end
      end
  end.
Definition run_migrations_online (environ : environment) (d : D) : result failure unit * D :=
  match _configure_sqlalchemy_url_from_settings environ with
  | Err cause => (Err cause, d)
  | Ok url =>
      let '(r, d) := migrate url d in
      (match r with Ok _ => Ok tt | Err details => Err (Failed details) end, d)
  end.
Definition upgrade (environ : environment) (d : D) : result failure unit * D :=
  match option_value script_location with
  | None => (Err (BadOption script_location), d)
  | Some _ => run_migrations_online environ d
  end.

(** The path is handed over in the process environment, which is put back at the end. *)
Definition run_startup_migrations (environ : environment) (d : D)
    : result startup_error unit * environment * D :=
  match load environ with
  | Err e => (Err (SettingsError e), environ, d)
  | Ok settings =>
      match expanduser home (db_path settings) with
      | Err e => (Err (SettingsError (Raised e)), environ, d)
      | Ok db_path =>
          match mkdir (parent db_path) with
          | Some details => (Err (for_db_path_prepare_failure db_path details), environ, d)
          | None =>
              let orig_db_path := environ !! ENV_DB_PATH in
              let environ := <[ENV_DB_PATH := as_posix db_path]> environ in
              let '(r, d) := upgrade environ d in
              (match r with Ok _ => Ok tt | Err cause => Err (for_upgrade_failure db_path cause) end,
               match orig_db_path with
               | Some value => <[ENV_DB_PATH := value]> environ
               | None => delete ENV_DB_PATH environ
               end, d)
          end
      end
  end.

(** The process environment is what it was, however the migrations end. *)
Lemma environment_restored environ d : (run_startup_migrations environ d).1.2 = environ.
Proof.
  unfold run_startup_migrations. destruct (load environ) as [s|e]; [|done].
  destruct (expanduser home (db_path s)) as [p|e]; [|done]. destruct (mkdir (parent p)); [done|].
  destruct (upgrade _ d) as [r d']. cbn [fst snd]. destruct (environ !! ENV_DB_PATH) as [v|] eqn:E.
  - unfold environment in *. by rewrite insert_insert_eq, insert_id.
  - unfold environment in *. by rewrite delete_insert_eq, delete_id.
Qed.

Lemma load_parsed environ s : load environ = Ok s → parsed (db_path s).
Proof.
  unfold load, load_settings. intros (p&Hp&H)%bind_Ok_inv.
  assert (db_path s = p) as ->.
  { apply bind_Ok_inv in H as (?&_&H). apply bind_Ok_inv in H as (?&_&H). apply bind_Ok_inv in H as (?&_&H).
    apply bind_Ok_inv in H as (?&_&H). by injection H as <-. }
  unfold _read_db_path in Hp. destruct (environ !! ENV_DB_PATH) as [raw|].
  - destruct (str_truthy (strip raw)); [|done]. unfold expanded in Hp.
    destruct (expanduser home (Path (strip raw))) as [q|e] eqn:Eq; [|done]. injection Hp as <-.
    by eapply expanduser_parsed; [apply Path_parsed|].
  - injection Hp as <-. apply Path_parsed.
Qed.

Lemma as_posix_truthy p : str_truthy (as_posix p) = true.
Proof. unfold as_posix. by destruct (root p ++ _). Qed.

(** Reading the settings again finds the path that was handed over. *)
Lemma load_handed_over environ s p :
  absolute_home home → load environ = Ok s → expanduser home (db_path s) = Ok p →
  strip (as_posix p) = as_posix p →
  ∃ s', load (<[ENV_DB_PATH := as_posix p]> environ) = Ok s' ∧ db_path s' = p.
Proof.
  intros Hh Hl Hp Hs. assert (parsed p) as Hpp by by eapply expanduser_parsed; [eapply load_parsed|].
  assert (_read_db_path Path (expanduser home) (<[ENV_DB_PATH := as_posix p]> environ) = Ok p) as Hr.
  { unfold _read_db_path, expanded, environment in *. rewrite lookup_insert_eq, Hs, as_posix_truthy.
    rewrite Path_as_posix by done.
    by rewrite (expanduser_idem home _ p Hh Hp). }
  unfold load, load_settings in *. rewrite Hr. cbn [mbind result_bind].
  apply bind_Ok_inv in Hl as (p0&_&Hl).
  unfold _read_bind, _read_mode, _read_log_level, _read_secret_file, _read_cors_allow_origins in *.
  unfold environment in *. rewrite !lookup_insert_ne by done.
  apply bind_Ok_inv in Hl as (b&->&Hl). apply bind_Ok_inv in Hl as (m&->&Hl).
  apply bind_Ok_inv in Hl as (l&->&Hl). apply bind_Ok_inv in Hl as (f&->&_).
  cbn [mbind result_bind]. by eexists.
Qed.

(** With a path that [ConfigParser] takes as it is and that ends in no white space, the
    migrations run on the file that the application's engines open; nothing else fails. *)
Theorem migrations_on_engine_file environ d s p :
  absolute_home home → (∀ text, 37 ∉ text → option_value text = Some text) → 37 ∉ script_location →
  load environ = Ok s → expanduser home (db_path s) = Ok p → mkdir (parent p) = None →
  strip (as_posix p) = as_posix p → 37 ∉ as_posix p →
  let '(r, d') := migrate (u "sqlite:///" ++ as_posix p) d in
  run_startup_migrations environ d =
    (match r with Ok _ => Ok tt | Err details => Err (for_upgrade_failure p (Failed details)) end, environ, d') ∧
  ∃ rt, Engine.create_storage_runtime home mkdir (db_path s) = Ok rt ∧
    Engine.url (Engine.write_engine rt) = u "sqlite+aiosqlite:///" ++ as_posix p.
Proof.
  intros Hh Ho Hsl Hl Hp Hm Hs H37. destruct (load_handed_over environ s p Hh Hl Hp Hs) as (s'&Hl'&Hs').
  pose proof (environment_restored environ d) as He. unfold run_startup_migrations, upgrade, run_migrations_online,
    _configure_sqlalchemy_url_from_settings in *.
  rewrite Hl, Hp, Hm, (Ho _ Hsl), Hl', Hs', (expanduser_idem home _ p Hh Hp), Hm in *.
  assert (37 ∉ sync_url p) as Hu.
  { unfold sync_url. rewrite elem_of_app. intros [H|H]; [|done]. revert H. by_eval. }
  rewrite (Ho _ Hu) in *. unfold sync_url in *. destruct (migrate _ d) as [r d']. cbn [fst snd] in He. split.
  - rewrite He. by destruct r.
  - pose proof (Engine.create_storage_runtime_spec home mkdir (db_path s) Hh) as Hr.
    destruct (Engine.create_storage_runtime home mkdir (db_path s)) as [rt|e].
    + destruct Hr as (p'&Hp'&_&Hu1&Hu2&_). exists rt. split; [done|]. rewrite Hu2, Hu1. congruence.
    + destruct Hr as [?|(_&p'&?&[? ?])]; congruence.
Qed.
End migrations.

(** The provisos matter: the text of a path that ends in a space is stripped when it is read
    again, and another file is migrated. *)
Definition spaced : environment := {[ ENV_DB_PATH := u "/data/a /." ]}.
Example other_file_migrated :
  let run := run_startup_migrations id id (λ _, None) Some [] (λ url d, (Ok tt, url :: d)) spaced [] in
  run.2 = [u "sqlite:////data/a"] ∧
  (s ← load id id spaced; match Engine._create_engine id (λ _, None) (db_path s) true with
                          | Ok e => Ok (Engine.url e) | Err x => Err (Raised x) end) =
    Ok (u "sqlite+aiosqlite:////data/a ").
Proof. split; by_eval. Qed.
Lemma migrations_on_engine_file_witness :
  run_startup_migrations id id (λ _, None) Some (u "/app/alembic") (λ url d, (Ok tt, url :: d)) ∅ [] =
    (Ok tt, ∅, [u "sqlite:////data/tca.db"]).
Proof.
  assert (absolute_home (λ _, u "/root")) as Hh by (intros first; by right).
  refine (proj1 (migrations_on_engine_file (λ _, u "/root") id (λ _, None) Some (u "/app/alembic")
    (λ url d, (Ok tt, url :: d)) ∅ [] (MkSettings _ _ _ _ None []) _ Hh (λ _ _, eq_refl) _
    eq_refl eq_refl eq_refl eq_refl _)); by_eval.
Defined.
End Migrations.
