(* ===== verification/Lifecycle.v ===== *)
(** The application's assembly (src/tca/api/app.py): the start-up of the six dependencies,
    serving, and the ordered shutdown, whatever fails on the way; then the concrete wiring of
    the components. *)

From S2P Require Import Prelude PyValue PyTime PyIso PyText Schema Settings.
From S2P Require Import PyCodec Access Vault Accounts Scheduler BotService.
Local Open Scope Z_scope.

Definition CancelledError : exn := AppError "CancelledError".
Definition TimeoutError : exn := AppError "TimeoutError".

(** * The lifespan of any application *)
Module Lifespan.

(** The fields of [StartupDependencies]. *)
Inductive slot := db | settings | auth | telethon_manager | scheduler | bot_delivery.
#[export] Instance slot_eq_dec : EqDecision slot.
Proof. solve_decision. Defined.

Definition startup_order : list slot := [db; settings; auth; telethon_manager; scheduler; bot_delivery].

Definition missing_container : exn := AppError "StartupDependencyError".
Definition missing_named_dependency (name : slot) : exn := AppError "StartupDependencyError".
Definition invalid_dependency (name : slot) : exn := AppError "StartupDependencyTypeError".

(** The container on the application state: for each name nothing, or an object that has
    or lacks the hooks. *)
Fixpoint check_dependencies (container : slot → option bool) (names : list slot) : result exn unit :=
  match names with
  | [] => Ok tt
  | name :: names =>
      match container name with
      | None => Err (missing_named_dependency name)
      | Some false => Err (invalid_dependency name)
      | Some true => check_dependencies container names
      end
  end.
Definition _resolve_startup_dependencies (container : option (slot → option bool)) : result exn unit :=
  match container with
  | None => Err missing_container
  | Some container => check_dependencies container startup_order
  end.

Inductive action :=
  | Start (d : slot)
  | Serve
  | Shut (d : slot)
  | CloseQueue
  | Dispose.
Definition event : Type := action * option exn.

Section lifespan.
(** [S] is the state of everything the application is made of. *)
Context {S : Type}.

Definition hook : Type := S → result exn unit * S.

(** [cut_off]: the state a shutdown leaves that is cancelled because it did not end within
    [SCHEDULER_SHUTDOWN_TIMEOUT_SECONDS]; [None] when it ends in time. *)
Record LifecycleDependency := MkDependency {
  startup : hook;
  shutdown : hook;
  cut_off : S → option S;
}.

Record Application := MkApplication {
  dependencies : slot → LifecycleDependency;
  create_storage_runtime : hook;
  build_writer_queue : hook;
  resolve_cookie_signing_key : hook;
  serve : hook;
  close_writer_queue : hook;
  dispose_storage_runtime : hook;
  clear_runtime_state : S → S;
}.

(** The log of what was called, in order, each with the exception it raised. *)
Definition world : Type := S * list event.
Definition error_of {A} (r : result exn A) : option exn := match r with Ok _ => None | Err e => Some e end.
Definition call (a : action) (h : hook) (w : world) : result exn unit * world :=
  let '(r, s) := h w.1 in (r, (s, w.2 ++ [(a, error_of r)])).
(** A call that is not logged. *)
Definition silently (h : hook) (w : world) : result exn unit * world :=
  let '(r, s) := h w.1 in (r, (s, w.2)).

Context (app : Application).
Implicit Types (errors : list exn) (w : world).

(** ** Shutdown

    A step returns the errors collected so far, or the exception that ends the whole
    shutdown. *)

(** A [TimeoutError] of the shutdown itself is taken for the expiry of the time limit, and
    raised again when the finished task is awaited. *)
Definition _shutdown_scheduler_with_timeout (d : slot) errors w : result exn (list exn) * world :=
  match cut_off (dependencies app d) w.1 with
  | Some s => (Ok errors, (s, w.2 ++ [(Shut d, None)]))
  | None =>
      match call (Shut d) (shutdown (dependencies app d)) w with
      | (Ok _, w) => (Ok errors, w)
      | (Err e, w) =>
          if decide (e = CancelledError ∨ e = TimeoutError) then (Err e, w) else (Ok (errors ++ [e]), w)
      end
  end.

(** [try: ... except Exception as exc: shutdown_errors.append(exc)] *)
Definition collecting (r : result exn unit * world) errors : result exn (list exn) * world :=
  match r with
  | (Ok _, w) => (Ok errors, w)
  | (Err e, w) => if decide (e = CancelledError) then (Err e, w) else (Ok (errors ++ [e]), w)
  end.

Definition _close_writer_queue (present : bool) errors w : result exn (list exn) * world :=
  if present then collecting (call CloseQueue (close_writer_queue app) w) errors else (Ok errors, w).
Definition _dispose_runtime (present : bool) errors w : result exn (list exn) * world :=
  if present then collecting (call Dispose (dispose_storage_runtime app) w) errors else (Ok errors, w).

Fixpoint _shutdown_dependencies (started names : list slot) errors w : result exn (list exn) * world :=
  match names with
  | [] => (Ok errors, w)
  | d :: names =>
      if decide (d ∈ started) then
        match collecting (call (Shut d) (shutdown (dependencies app d)) w) errors with
        | (Ok errors, w) => _shutdown_dependencies started names errors w
        | (Err e, w) => (Err e, w)
        end
      else _shutdown_dependencies started names errors w
  end.

Definition and_then (r : result exn (list exn) * world)
    (k : list exn → world → result exn (list exn) * world) : result exn (list exn) * world :=
  match r with (Ok errors, w) => k errors w | (Err e, w) => (Err e, w) end.

Definition if_started (d : slot) (started : list slot)
    (k : list exn → world → result exn (list exn) * world) errors w : result exn (list exn) * world :=
  if decide (d ∈ started) then k errors w else (Ok errors, w).

(** Which of the dependencies, the queue and the runtime there are. *)
Definition _shutdown_in_order (started : list slot) (writer_queue storage_runtime : bool) w
    : result exn unit * world :=
  let r :=
    and_then (if_started bot_delivery started (_shutdown_scheduler_with_timeout bot_delivery) [] w) (λ errors w,
    and_then (if_started scheduler started (_shutdown_scheduler_with_timeout scheduler) errors w) (λ errors w,
    and_then (_close_writer_queue writer_queue errors w) (λ errors w,
    and_then (_shutdown_dependencies started [telethon_manager; auth; settings; db] errors w) (λ errors w,
    _dispose_runtime storage_runtime errors w)))) in
  match r with
  | (Ok [], w) => (Ok tt, w)
  | (Ok (e :: _), w) => (Err e, w)
  | (Err e, w) => (Err e, w)
  end.

(** ** Start-up *)

(** The dependencies that started, up to the first failure. *)
Fixpoint start_all (names : list slot) (started : list slot) w : result exn unit * list slot * world :=
  match names with
  | [] => (Ok tt, started, w)
  | d :: names =>
      match call (Start d) (startup (dependencies app d)) w with
      | (Ok _, w) => start_all names (started ++ [d]) w
      | (Err e, w) => (Err e, started, w)
      end
  end.

(** The [try] block: its result, what was started, and whether queue and runtime exist. *)
Definition body w : result exn unit * list slot * bool * bool * world :=
  match silently (create_storage_runtime app) w with
  | (Err e, w) => (Err e, [], false, false, w)
  | (Ok _, w) =>
      match silently (build_writer_queue app) w with
      | (Err e, w) => (Err e, [], false, true, w)
      | (Ok _, w) =>
          match start_all startup_order [] w with
          | (Err e, started, w) => (Err e, started, true, true, w)
          | (Ok _, started, w) =>
              match silently (resolve_cookie_signing_key app) w with
              | (Err e, w) => (Err e, started, true, true, w)
              | (Ok _, w) => let '(r, w) := call Serve (serve app) w in (r, started, true, true, w)
              end
          end
      end
  end.

(** An error of the shutdown takes the place of an earlier one and leaves the runtime
    objects on the application state. *)
Definition lifespan w : result exn unit * world :=
  let '(r, started, writer_queue, storage_runtime, w) := body w in
  match _shutdown_in_order started writer_queue storage_runtime w with
  | (Err e, w) => (Err e, w)
  | (Ok _, w) => (r, (clear_runtime_state app w.1, w.2))
  end.

(** ** The shutdown, step by step *)

(** What ends the shutdown early. *)
Definition fatal (e : exn) : Prop := e = CancelledError ∨ e = TimeoutError.

(** [f] logs the actions [l], and collects what they raise; or it stops at an action that
    raises a fatal exception, which it passes on. *)
Definition performs (l : list action) (f : list exn → world → result exn (list exn) * world) : Prop :=
  ∀ errors w, let '(r, w') := f errors w in
    ∃ log, w'.2 = w.2 ++ log ∧
      match r with
      | Ok errors' => log.*1 = l ∧ errors' = errors ++ omap snd log
      | Err e => fatal e ∧ log.*1 `prefix_of` l ∧ ∃ a before, log = before ++ [(a, Some e)]
      end.

Lemma performs_nil : performs [] (λ errors w, (Ok errors, w)).
Proof. intros errors w. exists []. by rewrite !app_nil_r. Qed.

Lemma performs_seq l1 l2 f g :
  performs l1 f → performs l2 g → performs (l1 ++ l2) (λ errors w, and_then (f errors w) g).
Proof.
  intros Hf Hg errors w. specialize (Hf errors w). destruct (f errors w) as [ [errors1|e] w1]; cbn [and_then].
  - destruct Hf as (log1&Hw1&Hl1&He1). specialize (Hg errors1 w1). destruct (g errors1 w1) as [ [errors2|e] w2];
      destruct Hg as (log2&Hw2&Hg); exists (log1 ++ log2); (split; [by rewrite Hw2, Hw1, app_assoc|]);
      rewrite fmap_app.
    + destruct Hg as [Hl2 He2]. rewrite omap_app, Hl1, Hl2, He2, He1. by rewrite app_assoc.
    + destruct Hg as (Hfat&Hl2&a&before&->). split_and!; [done| |exists a, (log1 ++ before); by rewrite app_assoc].
      rewrite Hl1. by apply prefix_app.
  - destruct Hf as (log&Hw&Hfat&Hl&Hlast). exists log. split_and!; [done..| |done]. by apply prefix_app_r.
Qed.

Lemma performs_call a h errors w :
  let '(r, w') := collecting (call a h w) errors in
  ∃ log, w'.2 = w.2 ++ log ∧
    match r with
    | Ok errors' => log.*1 = [a] ∧ errors' = errors ++ omap snd log
    | Err e => fatal e ∧ log.*1 `prefix_of` [a] ∧ ∃ a before, log = before ++ [(a, Some e)]
    end.
Proof.
  unfold collecting, call. destruct (h w.1) as [ [ []|e] s']; cbn [error_of].
  - exists [(a, None)]. cbn. by rewrite app_nil_r.
  - case_decide as Hc; exists [(a, Some e)]; cbn; split_and!; try done.
    + by left.
    + by exists a, [].
Qed.

Lemma performs_timed d : performs [Shut d] (_shutdown_scheduler_with_timeout d).
Proof.
  intros errors w. unfold _shutdown_scheduler_with_timeout.
  destruct (cut_off _ _) as [s'|]; [exists [(Shut d, None)]; cbn; by rewrite app_nil_r|].
  unfold call. destruct (shutdown _ _) as [ [ []|e] s']; cbn [error_of].
  - exists [(Shut d, None)]. cbn. by rewrite app_nil_r.
  - case_decide as Hc; exists [(Shut d, Some e)]; cbn; split_and!; try done. by exists (Shut d), [].
Qed.

Lemma performs_if_started d started l f :
  performs l f → performs (if decide (d ∈ started) then l else []) (if_started d started f).
Proof. intros Hf. unfold if_started. case_decide; [done|]. apply performs_nil. Qed.

Lemma performs_present (present : bool) a h :
  performs (if present then [a] else [])
    (λ errors w, if present then collecting (call a h w) errors else (Ok errors, w)).
Proof. destruct present; [|apply performs_nil]. intros errors w. apply performs_call. Qed.

Lemma performs_dependencies started names :
  performs (Shut <$> filter (λ d, d ∈ started) names) (_shutdown_dependencies started names).
Proof.
  induction names as [|d names IH]; [apply performs_nil|]. rewrite filter_cons.
  cbn [_shutdown_dependencies]. destruct (decide (d ∈ started)); [|exact IH].
  change (Shut <$> d :: ?l) with ([Shut d] ++ (Shut <$> l)).
  apply (performs_seq [Shut d] _ (λ errors w, collecting (call (Shut d) (shutdown (dependencies app d)) w) errors));
    [|exact IH].
  intros errors w. apply performs_call.
Qed.

(** The shutdown of what was started, in reverse order, with the queue closed between the
    two services and the rest and the runtime disposed last. *)
Definition service (d : slot) : Prop := d ∈ [bot_delivery; scheduler].
Definition teardown (started : list slot) (writer_queue storage_runtime : bool) : list action :=
  (Shut <$> filter service (reverse started)) ++
  (if writer_queue then [CloseQueue] else []) ++
  (Shut <$> filter (λ d, ¬ service d) (reverse started)) ++
  (if storage_runtime then [Dispose] else []).

Lemma teardown_spec started (writer_queue storage_runtime : bool) :
  started `prefix_of` startup_order →
  (if decide (bot_delivery ∈ started) then [Shut bot_delivery] else []) ++
  (if decide (scheduler ∈ started) then [Shut scheduler] else []) ++
  (if writer_queue then [CloseQueue] else []) ++
  (Shut <$> filter (λ d, d ∈ started) [telethon_manager; auth; settings; db]) ++
  (if storage_runtime then [Dispose] else []) = teardown started writer_queue storage_runtime.
Proof.
  intros Hp. assert (∃ n, (n <= 6)%nat ∧ started = take n startup_order) as (n&Hn&->).
  { exists (length started). destruct Hp as [k Hk]. rewrite Hk, take_app_length. split; [|done].
    apply (f_equal length) in Hk. rewrite length_app in Hk. cbn in Hk. lia. }
  do 7 (destruct n as [|n]; [by destruct writer_queue, storage_runtime|]). lia.
Qed.

(** The shutdown runs every step, in order, unless one is cancelled or times out by itself;
    then it ends there. It raises the first error. *)
Lemma shutdown_spec started writer_queue storage_runtime w :
  started `prefix_of` startup_order →
  let '(r, w') := _shutdown_in_order started writer_queue storage_runtime w in
  ∃ log, w'.2 = w.2 ++ log ∧
    ((log.*1 = teardown started writer_queue storage_runtime ∧
      r = match omap snd log with [] => Ok tt | e :: _ => Err e end) ∨
     (log.*1 `prefix_of` teardown started writer_queue storage_runtime ∧
      ∃ a before e, log = before ++ [(a, Some e)] ∧ fatal e ∧ r = Err e)).
Proof.
  intros Hp. rewrite <-teardown_spec by done.
  set (l := ((if decide (bot_delivery ∈ started) then [Shut bot_delivery] else []) ++ _)). unfold _shutdown_in_order. set (steps := and_then _ _).
  assert (performs l (λ errors w,
    and_then (if_started bot_delivery started (_shutdown_scheduler_with_timeout bot_delivery) errors w) (λ errors w,
    and_then (if_started scheduler started (_shutdown_scheduler_with_timeout scheduler) errors w) (λ errors w,
    and_then (_close_writer_queue writer_queue errors w) (λ errors w,
    and_then (_shutdown_dependencies started [telethon_manager; auth; settings; db] errors w) (λ errors w,
    _dispose_runtime storage_runtime errors w)))))) as H.
  { repeat apply performs_seq; [apply performs_if_started, performs_timed..| | |].
    - apply performs_present.
    - apply performs_dependencies.
    - apply performs_present. }
  specialize (H [] w). cbv beta in H. fold steps in H. destruct steps as [ [errors|e] w1];
    destruct H as (log&Hw&H).
  - destruct H as [Hl ->]. rewrite app_nil_l. destruct (omap snd log) as [|e errors] eqn:E;
      exists log; (split; [done|]); left; by rewrite E.
  - destruct H as (Hfat&Hl&a&before&->). eexists. split; [done|]. right. split; [done|].
    by exists a, before, e.
Qed.

Lemma start_all_spec names started w :
  let '(r, started', w') := start_all names started w in
  ∃ new, started' = started ++ new ∧ new `prefix_of` names ∧
    match r with
    | Ok _ => new = names ∧ w'.2 = w.2 ++ ((λ d, (Start d, None)) <$> new)
    | Err e => ∃ d, new ++ [d] `prefix_of` names ∧
        w'.2 = w.2 ++ ((λ d, (Start d, None)) <$> new) ++ [(Start d, Some e)]
    end.
Proof.
  revert started w. induction names as [|d names IH]; intros started w; cbn [start_all].
  - exists []. by rewrite !app_nil_r.
  - unfold call. destruct (startup _ w.1) as [ [ []|e] s'] eqn:Es; cbn [error_of].
    + specialize (IH (started ++ [d]) (s', w.2 ++ [(Start d, None)])).
      destruct (start_all names _ _) as [ [r started'] w']. destruct IH as (new&->&Hnew&IH).
      exists (d :: new). split; [by rewrite <-app_assoc|]. split; [by apply prefix_cons|].
      destruct r as [ []|e].
      * destruct IH as [-> ->]. split; [done|]. csimpl. by rewrite <-app_assoc.
      * destruct IH as (d'&Hd&->). exists d'. split; [by apply prefix_cons|]. csimpl. by rewrite <-app_assoc.
    + exists []. rewrite app_nil_r. split_and!; [done|apply prefix_nil|]. exists d. by split; [exists names|].
Qed.

(** The log of the [try] block and its result: a failure before the first start, a start-up
    that fails at one dependency, a failure to resolve the key, or serving. *)
Inductive attempt (started : list slot) : list event → result exn unit → Prop :=
  | attempt_setup e : started = [] → attempt started [] (Err e)
  | attempt_start d e : started ++ [d] `prefix_of` startup_order →
      attempt started [(Start d, Some e)] (Err e)
  | attempt_key e : started = startup_order → attempt started [] (Err e)
  | attempt_serve r : started = startup_order → attempt started [(Serve, error_of r)] r.

Lemma body_spec s :
  let '(r, started, writer_queue, storage_runtime, w) := body (s, []) in
  ∃ tail, w.2 = ((λ d, (Start d, None)) <$> started) ++ tail ∧ attempt started tail r ∧
    started `prefix_of` startup_order ∧ (started ≠ [] → writer_queue = true ∧ storage_runtime = true).
Proof.
  unfold body, silently. cbn [fst snd].
  destruct (create_storage_runtime app s) as [ [ []|e] s1];
    [|exists []; split_and!; [done|by constructor|apply prefix_nil|done] ]. cbn [fst snd].
  destruct (build_writer_queue app s1) as [ [ []|e] s2];
    [|exists []; split_and!; [done|by constructor|apply prefix_nil|done] ].
  pose proof (start_all_spec startup_order [] (s2, [])) as H.
  destruct (start_all startup_order [] (s2, [])) as [ [r started] w]. destruct H as (new&->&Hp&H). rewrite app_nil_l.
  destruct r as [ []|e].
  - destruct H as [-> Hw]. destruct w as [s3 log]. cbn [fst snd] in *. rewrite app_nil_l in Hw. subst log.
    destruct (resolve_cookie_signing_key app s3) as [ [ []|e] s4]; cbn [fst snd].
    + unfold call. cbn [fst snd]. destruct (serve app s4) as [r s5].
      exists [(Serve, error_of r)]. split_and!; [done|by constructor|done..].
    + exists []. rewrite app_nil_r. split_and!; [done|by apply attempt_key|done..].
  - destruct H as (d&Hd&Hw). exists [(Start d, Some e)]. split_and!; [done|by constructor|done..].
Qed.

(** C35. The life of the application. Dependencies start in their order up to the first
    failure, and requests are served only after all of them started. However the block ends,
    the shutdown then takes down exactly what was started, each once, in the reverse order,
    closes the writer queue after the two services and before the rest, and disposes the
    storage runtime last, going on past errors; only a cancellation, or a [TimeoutError]
    that a service's own shutdown raises, cuts it short. The lifespan raises the first error
    of the shutdown, or else what the block raised, and clears the application state only
    when the shutdown raised nothing. *)
Theorem lifespan_spec s :
  let '(r, started, writer_queue, storage_runtime, w) := body (s, []) in
  let '(r', w') := lifespan (s, []) in
  ∃ tail log, w'.2 = ((λ d, (Start d, None)) <$> started) ++ tail ++ log ∧
    attempt started tail r ∧ started `prefix_of` startup_order ∧ NoDup started ∧
    (started ≠ [] → writer_queue = true ∧ storage_runtime = true) ∧
    ((log.*1 = teardown started writer_queue storage_runtime ∧
      r' = match omap snd log with [] => r | e :: _ => Err e end ∧
      (omap snd log = [] → ∃ s', w'.1 = clear_runtime_state app s')) ∨
     (log.*1 `prefix_of` teardown started writer_queue storage_runtime ∧
      ∃ a before e, log = before ++ [(a, Some e)] ∧ fatal e ∧ r' = Err e)).
Proof.
  unfold lifespan. pose proof (body_spec s) as Hb.
  destruct (body (s, [])) as [ [ [ [r started] writer_queue] storage_runtime] w].
  destruct Hb as (tail&Hw&Hatt&Hp&Hq).
  pose proof (shutdown_spec started writer_queue storage_runtime w Hp) as Hs.
  destruct (_shutdown_in_order _ _ _ w) as [r2 w2]. destruct Hs as (log&Hw2&Hs).
  assert (NoDup started) as Hnd.
  { destruct Hp as [k Hk]. assert (NoDup startup_order) as Hall by (apply (bool_decide_eq_true_1 (NoDup startup_order)); by vm_compute).
    rewrite Hk in Hall. by apply NoDup_app in Hall as [? _]. }
  destruct Hs as [ [Hl ->]|(Hl&a&before&e&->&Hfat&->)].
  - destruct (omap snd log) as [|e errors] eqn:E; exists tail, log; cbn [fst snd];
      (split_and!; [by rewrite Hw2, Hw, app_assoc|done..|]); left; rewrite E; split_and!; try done.
    by exists w2.1.
  - exists tail, (before ++ [(a, Some e)]). cbn [fst snd]. split_and!; [by rewrite Hw2, Hw, <-app_assoc|done..|]. right. split; [done|].
    by exists a, before, e.
Qed.

End lifespan.
Arguments LifecycleDependency : clear implicits.
Arguments Application : clear implicits.

End Lifespan.

(** * The wiring of the components ([create_app], [_default_dependencies]) *)
Module Wiring.
Import Lifespan.

Record State := MkState {
  database : Db;
  unlock : Unlock.UnlockState;
  token_file : option pystr;
  scheduler_service : Scheduler.SchedulerService;
  bot_service : DeliveryService.BotDeliveryService;
  cookie_signing_key : option (list Z);
}.

(** What the process finds: static settings and environment, random material, the outcome of
    the calls into the libraries, and what serving requests does to the state. *)
Record Environment := MkEnvironment {
  mode : pystr;
  secret_file : option Unlock.file;
  plain_token : pystr;
  write_token : Access.file_write;
  env_key : option pystr;
  fresh_key : list Z;
  migrate : Db → result exn unit * Db;
  create_engines : result exn unit;
  dispose_seed_engines : result exn unit;
  stop_bootstrap : result exn unit;
  drain_queue : result exn unit;
  dispose_engines : result exn unit;
  scheduler_hangs : bool;
  bot_hangs : bool;
  requests : State → result exn unit * State;
}.

Definition set_database (d : Db) (s : State) : State :=
  MkState d (unlock s) (token_file s) (scheduler_service s) (bot_service s) (cookie_signing_key s).
Definition set_unlock (x : Unlock.UnlockState) (s : State) : State :=
  MkState (database s) x (token_file s) (scheduler_service s) (bot_service s) (cookie_signing_key s).
Definition set_scheduler (x : Scheduler.SchedulerService) (s : State) : State :=
  MkState (database s) (unlock s) (token_file s) x (bot_service s) (cookie_signing_key s).
Definition set_bot (x : DeliveryService.BotDeliveryService) (s : State) : State :=
  MkState (database s) (unlock s) (token_file s) (scheduler_service s) x (cookie_signing_key s).

Section wiring.
Context (env : Environment).

Definition constant (r : result exn unit) : @hook State := λ s, (r, s).

(** Migrations, the seeding of dynamic settings, authentication, the client manager, which
    the application gives neither an account loader nor a client factory, and the services. *)
Definition start_migrations : hook := λ s,
  let '(r, d) := migrate env (database s) in (r, set_database d s).
Definition start_settings : hook := λ s,
  let '(r, d) := Settings.seed_default_dynamic_settings (database s) in
  (match r with Ok _ => Ok tt | Err e => Err e end, set_database d s).
Definition start_auth : hook := λ s,
  let '(r, file, st, d) := AuthStartup.startup (mode env) (secret_file env) (plain_token env)
                             (write_token env) id (unlock s) (database s) in
  (r, MkState d st (match file with Some f => Some f | None => token_file s end)
        (scheduler_service s) (bot_service s) (cookie_signing_key s)).
Definition start_clients : hook :=
  constant (Clients.startup (C:=unit) (λ _, Err (AppError "TelethonClientManagerError")) (λ _, true)
              Ok (Ok []) []).1.
Definition start_scheduler : hook := λ s,
  match Scheduler.startup (database s) Scheduler.DEFAULT_POLL_INTERVAL_SECONDS (scheduler_service s) with
  | Ok (_, x) => (Ok tt, set_scheduler x s)
  | Err e => (Err e, s)
  end.
Definition start_bot : hook := λ s,
  match DeliveryService.startup (database s) (bot_service s) with
  | Ok x => (Ok tt, set_bot x s)
  | Err e => (Err e, s)
  end.

(** A service that is cut off keeps its task and its event. *)
Definition _default_dependencies (d : slot) : LifecycleDependency State :=
  match d with
  | db => MkDependency start_migrations (constant (Ok tt)) (λ _, None)
  | settings => MkDependency start_settings (constant (dispose_seed_engines env)) (λ _, None)
  | auth => MkDependency start_auth (λ s, (stop_bootstrap env, set_unlock (Unlock.shutdown (unlock s)) s)) (λ _, None)
  | telethon_manager => MkDependency start_clients (constant (Ok tt)) (λ _, None)
  | scheduler =>
      MkDependency start_scheduler
        (λ s, (Ok tt, set_scheduler (Scheduler.shutdown (scheduler_service s)) s))
        (λ s, if scheduler_hangs env then Some s else None)
  | bot_delivery =>
      MkDependency start_bot (λ s, (Ok tt, set_bot (DeliveryService.shutdown (bot_service s)) s))
        (λ s, if bot_hangs env then Some s else None)
  end.

(** The signing key the application was built with is a random one of its own. *)
Definition resolve_key : hook := λ s,
  let '(r, d) := Access._resolve_persistent_cookie_signing_key (env_key env)
                   (default [] (cookie_signing_key s)) (fresh_key env) (database s) in
  match r with
  | Ok key => (Ok tt, MkState d (unlock s) (token_file s) (scheduler_service s) (bot_service s) (Some key))
  | Err e => (Err e, set_database d s)
  end.

Definition create_app : Application State :=
  MkApplication _default_dependencies (constant (create_engines env)) (constant (Ok tt)) resolve_key
    (requests env) (constant (drain_queue env)) (constant (dispose_engines env))
    (λ s, MkState (database s) (unlock s) (token_file s) (scheduler_service s) (bot_service s) None).

(** ** What a started application has *)

Definition keeps_settings (d d' : Db) : Prop :=
  ∀ k v, Schema.settings d !! k = Some v → Schema.settings d' !! k = Some v.

Lemma bootstrap_stored token write b file d d' :
  Access.ensure_bootstrap_bearer_token token write id d = (Ok b, file, d') →
  is_Some (Schema.settings d' !! Access.BOOTSTRAP_BEARER_TOKEN_DIGEST_KEY) ∧ keeps_settings d d'.
Proof.
  unfold Access.ensure_bootstrap_bearer_token.
  destruct (Schema.settings d !! Access.BOOTSTRAP_BEARER_TOKEN_DIGEST_KEY) as [v|] eqn:Ev.
  - assert (Settings.get_by_key Access.BOOTSTRAP_BEARER_TOKEN_DIGEST_KEY d ≠ Ok None) as Hn.
    { unfold Settings.get_by_key. rewrite Ev. by destruct (Settings._decode_row _ v). }
    destruct (Settings.get_by_key _ d) as [ [r|]|e]; [|done|done]. intros [= _ _ <-].
    split; [rewrite Ev; by eexists|by intros k w].
  - rewrite (Settings.get_missing _ _ Ev).
    destruct (Access.compute_token_sha256_digest token) as [digest|]; [|done].
    rewrite Settings.create_spec by done. rewrite Ev.
    destruct write; [|by destruct (Settings.delete_if_value_matches _ _ _) as [ [?|?] ?] ]. intros [= _ _ <-].
    cbn [Schema.settings set_settings]. rewrite lookup_insert_eq. split; [by eexists|].
    intros k v Hk. cbn [Schema.settings set_settings]. rewrite lookup_insert_ne by congruence. done.
Qed.

Lemma auth_startup_Ok m file token write st d token_file st' d' :
  AuthStartup.startup m file token write id st d = (Ok tt, token_file, st', d') →
  is_Some (Schema.settings d' !! Access.BOOTSTRAP_BEARER_TOKEN_DIGEST_KEY) ∧ keeps_settings d d' ∧
  (Unlock.is_unlocked st' = true ↔ m = u "auto-unlock").
Proof.
  unfold AuthStartup.startup. intros H.
  assert (∀ st1, Unlock.initialize_startup_unlock_mode m file st = (Ok tt, st1) →
    (Unlock.is_unlocked st1 = true ↔ m = u "auto-unlock")) as Hmode.
  { intros st1. unfold Unlock.initialize_startup_unlock_mode, Unlock.lock.
    case_decide as Hm; [intros [= <-]; rewrite Hm; by split|]. case_decide as Ha; [|done].
    destruct file as [f|]; [|done]. destruct (Unlock._read_auto_unlock_secret_file f) as [secret|]; [|done].
    unfold Unlock.unlock_with_passphrase. destruct (str_truthy secret); [|done]. by intros [= <-]. }
  destruct (Unlock.initialize_startup_unlock_mode m file st) as [ [ []|e] st1]; [|done].
  destruct (Access.ensure_bootstrap_bearer_token token write id d) as [ [ [b|e] f] d1] eqn:E; [|done].
  injection H as <- <- <-. apply bootstrap_stored in E as [? ?]. split_and!; [done..|by apply Hmode].
Qed.

Lemma key_keeps_settings key current fresh d r d' :
  Access._resolve_persistent_cookie_signing_key key current fresh d = (r, d') → keeps_settings d d'.
Proof.
  unfold Access._resolve_persistent_cookie_signing_key.
  assert (∀ r d', match Access.stored_signing_key d with
    | Ok (Some k) => (Ok k, d)
    | _ =>
        match Settings.create Access.COOKIE_SIGNING_KEY (JStr (hex_of_bytes fresh)) d with
        | (Ok _, d) => (Ok fresh, d)
        | (Err e, d) =>
            if decide (e = Settings.SettingAlreadyExistsError) then
              match Access.stored_signing_key d with
              | Ok (Some k) => (Ok k, d)
              | Ok None => (Ok current, d)
              | Err e => (Err e, d)
              end
            else (Ok current, d)
        end
    end = (r, d') → keeps_settings d d') as H.
  { intros r1 d1. rewrite Settings.create_spec by done.
    destruct (Schema.settings d !! Access.COOKIE_SIGNING_KEY) eqn:Ek;
      destruct (Access.stored_signing_key d) as [ [k|]|]; rewrite ?decide_True by done;
      intros [= <- <-]; try (by intros k' v).
    all: intros k' v Hk'; cbn [Schema.settings set_settings]; rewrite lookup_insert_ne by congruence; done. }
  destruct key as [ [|c key]|]; [apply H| |apply H]. intros [= _ <-]. by intros k v.
Qed.

Lemma start_all_inv {S} (app : Application S) d names started s log started1 w :
  start_all app (d :: names) started (s, log) = (Ok tt, started1, w) →
  ∃ s1 log1, startup (dependencies app d) s = (Ok tt, s1) ∧
    start_all app names (started ++ [d]) (s1, log1) = (Ok tt, started1, w).
Proof.
  cbn [start_all]. unfold call. cbn [fst snd].
  destruct (startup (dependencies app d) s) as [ [ []|e] s1]; [|done]. intros Hall. by eexists _, _.
Qed.

(** What the components have come to when the whole start-up succeeded on idle services:
    every dynamic setting is stored, and so is the digest of a bearer token; every setting
    the migrated database had is kept; sensitive operations are unlocked exactly in
    auto-unlock mode, with the secret of the file; both services run, the delivery loop with
    a positive interval. *)
Theorem startup_ready s s' started log :
  Scheduler.is_running (scheduler_service s) = false →
  DeliveryService.is_running (bot_service s) = false →
  0 < DeliveryService.delivery_interval_seconds (bot_service s) →
  start_all create_app startup_order [] (s, []) = (Ok tt, started, (s', log)) →
  (∀ k, k ∈ Settings.DYNAMIC_SETTINGS_DEFAULTS.*1 → is_Some (Schema.settings (database s') !! k)) ∧
  is_Some (Schema.settings (database s') !! Access.BOOTSTRAP_BEARER_TOKEN_DIGEST_KEY) ∧
  keeps_settings (migrate env (database s)).2 (database s') ∧
  (Unlock.is_unlocked (unlock s') = true ↔ mode env = u "auto-unlock") ∧
  Scheduler.is_running (scheduler_service s') = true ∧
  DeliveryService.is_running (bot_service s') = true ∧
  0 < DeliveryService.delivery_interval_seconds (bot_service s').
Proof.
  intros Hsch Hbot Hpos Hall. unfold startup_order in Hall.
  apply start_all_inv in Hall as (s1&log1&H1&Hall). apply start_all_inv in Hall as (s2&log2&H2&Hall).
  apply start_all_inv in Hall as (s3&log3&H3&Hall). apply start_all_inv in Hall as (s4&log4&H4&Hall).
  apply start_all_inv in Hall as (s5&log5&H5&Hall). apply start_all_inv in Hall as (s6&log6&H6&Hall).
  injection Hall as _ <- _. cbn [create_app dependencies _default_dependencies startup] in *.
  unfold start_migrations in H1. destruct (migrate env (database s)) as [r d]. injection H1 as -> <-.
  unfold start_settings in H2. cbn [database set_database] in H2.
  destruct (Settings.seed_default_dynamic_settings d) as [ [n|e] d2] eqn:Eseed; [|done]. injection H2 as <-.
  assert (NoDup Settings.DYNAMIC_SETTINGS_DEFAULTS.*1) as Hnd by by_eval.
  destruct (Settings.seed_keys_spec Settings.DYNAMIC_SETTINGS_DEFAULTS _ _ _ eq_refl Hnd Eseed) as (_&Hseed&_).
  unfold start_auth in H3. cbn [database unlock set_database] in H3.
  destruct (AuthStartup.startup _ _ _ _ _ _ _) as [ [ [r file] st] d3] eqn:Eauth. injection H3 as -> <-.
  unfold start_clients, constant in H4. injection H4 as <-.
  unfold start_scheduler, Scheduler.startup in H5. cbn [database scheduler_service set_database] in H5.
  rewrite Hsch in H5. destruct (Scheduler._resolve_poll_interval_seconds _ _) as [i|]; [|done].
  cbn [mbind result_bind mret result_ret] in H5. injection H5 as <-.
  unfold start_bot, DeliveryService.startup in H6. cbn [database bot_service set_scheduler set_database] in H6.
  rewrite Hbot in H6. destruct (Settings.get_by_key _ d3) as [rec|]; [|done].
  cbn [mbind result_bind mret result_ret] in H6. injection H6 as <-.
  cbn [database unlock scheduler_service bot_service set_bot set_scheduler].
  assert (keeps_settings d d2) as Hk1 by (intros k v Hk; by rewrite Hseed, Hk).
  apply auth_startup_Ok in Eauth as (Hdig&Hk2&Hunl).
  split_and!; [|done| |done|done|done|].
  - intros k Hk. apply list_elem_of_fmap in Hk as ([k' v]&->&Hin). cbn [fst].
    assert (is_Some (Schema.settings d2 !! k')) as [w Hw].
    { rewrite Hseed. destruct (Schema.settings d !! k'); [by eexists|]. exists v.
      by apply elem_of_list_to_map_1. }
    exists w. by apply Hk2.
  - intros k v Hk. by apply Hk2, Hk1.
  - cbn [DeliveryService.delivery_interval_seconds]. by apply DeliveryService.resolved_interval_pos.
Qed.

(** ** What a stopped application has *)

Definition locked (w : world) : Prop := Unlock.is_unlocked (unlock w.1) = false.

(** Whether a step of the shutdown goes on, and what it makes of the unlock state: if [X]
    implied that it was locked before, then [Y] does after. *)
Definition goes (X Y : Prop) (f : list exn → world → result exn (list exn) * world) : Prop :=
  ∀ errors w, (X → locked w) → let '(r, w') := f errors w in is_ok r = true ∧ (Y → locked w').

Lemma goes_seq X Y Z f g : goes X Y f → goes Y Z g → goes X Z (λ errors w, and_then (f errors w) g).
Proof.
  intros Hf Hg errors w Hw. specialize (Hf errors w Hw). destruct (f errors w) as [ [errors1|e] w1]; [|by destruct Hf].
  destruct Hf as [_ Hw1]. by apply Hg.
Qed.
Lemma goes_on X : goes X X (λ errors w, (Ok errors, w)).
Proof. done. Qed.
Lemma goes_service X d started :
  service d → goes X X (if_started d started (_shutdown_scheduler_with_timeout create_app d)).
Proof.
  intros Hd errors w Hw. unfold if_started. case_decide; [|done].
  unfold service in Hd. rewrite !elem_of_cons in Hd.
  destruct Hd as [->|[->|?%elem_of_nil] ]; [| |done]; unfold _shutdown_scheduler_with_timeout;
    cbn [create_app dependencies _default_dependencies cut_off shutdown];
    [destruct (bot_hangs env)|destruct (scheduler_hangs env)]; done.
Qed.
Lemma goes_constant X a r :
  r ≠ Err CancelledError → goes X X (λ errors w, collecting (call a (constant r) w) errors).
Proof.
  intros Hr errors w Hw. unfold collecting, call, constant. destruct r as [ []|e]; [done|].
  by rewrite decide_False by congruence.
Qed.
Lemma goes_if X (b : bool) f : goes X X f → goes X X (λ errors w, if b then f errors w else (Ok errors, w)).
Proof. intros Hf. by destruct b. Qed.
Lemma goes_dependency X Y Z d started names :
  (d ∈ started → goes X Y (λ errors w, collecting (call (Shut d) (shutdown (dependencies create_app d)) w) errors)) →
  (d ∉ started → goes X Y (λ errors w, (Ok errors, w))) →
  goes Y Z (_shutdown_dependencies create_app started names) →
  goes X Z (_shutdown_dependencies create_app started (d :: names)).
Proof.
  intros Hin Hout Hn errors w. cbn [_shutdown_dependencies].
  case_decide as Hd; [exact (goes_seq _ _ _ _ _ (Hin Hd) Hn errors w)|].
  exact (goes_seq _ _ _ _ _ (Hout Hd) Hn errors w).
Qed.

(** No call of the shutdown is cancelled. *)
Definition uncancelled : Prop :=
  dispose_seed_engines env ≠ Err CancelledError ∧ stop_bootstrap env ≠ Err CancelledError ∧
  drain_queue env ≠ Err CancelledError ∧ dispose_engines env ≠ Err CancelledError.

Lemma shutdown_locks started writer_queue storage_runtime w :
  uncancelled → (auth ∉ started → locked w) →
  locked (_shutdown_in_order create_app started writer_queue storage_runtime w).2.
Proof.
  intros (Hseed&Hboot&Hdrain&Hdispose) Hw. set (X := auth ∉ started) in *.
  assert (goes X X (λ errors w, (Ok errors, w))) as Hskip by apply goes_on.
  assert (goes X True (_shutdown_dependencies create_app started [telethon_manager; auth; settings; db])) as Hdeps.
  { apply (goes_dependency X X); [intros _; by apply goes_constant|done|].
    apply (goes_dependency X True).
    - intros _ errors w1 _. unfold collecting, call.
      cbn [create_app dependencies _default_dependencies shutdown].
      destruct (stop_bootstrap env) as [ []|e]; [done|]. by rewrite decide_False by congruence.
    - intros Ha errors w1 Hw1. split; [done|]. intros _. by apply Hw1.
    - apply (goes_dependency True True); [intros _; by apply goes_constant|done|].
      apply (goes_dependency True True); [intros _; by apply goes_constant|done|]. apply goes_on. }
  pose proof (goes_seq X X True _ _ (goes_service X bot_delivery started ltac:(by left))
    (goes_seq X X True _ _ (goes_service X scheduler started ltac:(right; by left))
      (goes_seq X X True _ _ (goes_if X writer_queue _ (goes_constant X CloseQueue _ Hdrain))
        (goes_seq X True True _ _ Hdeps
          (goes_if True storage_runtime _ (goes_constant True Dispose _ Hdispose)))))) as H.
  specialize (H [] w Hw). unfold _shutdown_in_order.
  match type of H with let '(_, _) := ?r in _ => change (locked (match r with
    | (Ok [], w) => (Ok tt, w) | (Ok (e :: _), w) => (Err e, w) | (Err e, w) => (Err e, w) end).2); destruct r as [ [ [|e errors]|e] w1] end; destruct H as [_ H]; by apply H.
Qed.

Lemma auth_startup_Err m file token write st d e token_file st' d' :
  AuthStartup.startup m file token write id st d = (Err e, token_file, st', d') →
  Unlock.is_unlocked st' = false.
Proof.
  unfold AuthStartup.startup, Unlock.initialize_startup_unlock_mode, Unlock.lock, Unlock.unlock_with_passphrase.
  intros H. case_decide; [|case_decide; [|by injection H as _ _ <- _] ].
  - by destruct (Access.ensure_bootstrap_bearer_token _ _ _ _) as [ [ [b|?] f] d1]; injection H as _ _ <- _.
  - destruct file as [f|]; [|by injection H as _ _ <- _].
    destruct (Unlock._read_auto_unlock_secret_file f) as [secret|]; [|by injection H as _ _ <- _].
    destruct (str_truthy secret); [|by injection H as _ _ <- _].
    destruct (Access.ensure_bootstrap_bearer_token _ _ _ _) as [ [ [b|?] f1] d1]; [done|].
    by injection H as _ _ <- _.
Qed.

Lemma body_locks s :
  Unlock.is_unlocked (unlock s) = false →
  let '(r, started, _, _, w) := body create_app (s, []) in auth ∉ started → locked w.
Proof.
  intros Hs. unfold body, silently. cbn [fst snd create_app create_storage_runtime build_writer_queue constant].
  destruct (create_engines env) as [ []|e]; [|done].
  unfold startup_order. cbn [start_all create_app dependencies _default_dependencies startup].
  unfold call at 1. cbn [fst snd]. unfold start_migrations at 1.
  destruct (migrate env (database s)) as [ [ []|e] d0]; [|done].
  unfold call at 1. cbn [fst snd]. unfold start_settings at 1.
  destruct (Settings.seed_default_dynamic_settings _) as [ [n|e] d1]; [|done].
  unfold call at 1. cbn [fst snd]. unfold start_auth at 1.
  destruct (AuthStartup.startup _ _ _ _ _ _ _) as [ [ [ [ []|e] file] st] d2] eqn:E;
    [|intros _; by eapply auth_startup_Err].
  repeat case_match; simplify_eq; intros Hno; exfalso; apply Hno; set_solver.
Qed.

(** C36. Secrets do not outlive the application. Whatever fails during start-up, while serving
    or in the shutdown, and whatever the requests did to the unlock state, sensitive
    operations are locked once the lifespan has ended, as long as the shutdown is not
    cancelled. *)
Theorem secrets_locked s :
  Unlock.is_unlocked (unlock s) = false → uncancelled →
  Unlock.is_unlocked (unlock (lifespan create_app (s, [])).2.1) = false.
Proof.
  intros Hs Hun. pose proof (body_locks s Hs) as Hb. unfold lifespan.
  destruct (body create_app (s, [])) as [ [ [ [r started] q] rt] w].
  pose proof (shutdown_locks started q rt w Hun Hb) as Hl.
  by destruct (_shutdown_in_order _ _ _ _ w) as [ [ []|e] w'].
Qed.

End wiring.

(** ** Instances *)

Definition sample_state : State :=
  MkState empty_db Unlock.initial None (Scheduler.MkService Scheduler.Idle None) DeliveryService.initial None.
Definition sample_environment : Environment :=
  MkEnvironment (u "auto-unlock") (Some (Unlock.Content (u "secret"))) (u "token") Access.Written None
    (seqZ 0 32) (λ d, (Ok tt, d)) (Ok tt) (Ok tt) (Ok tt) (Ok tt) (Err (AppError "DisposeError")) true false
    (λ s, (Err (AppError "RequestError"), s)).

Lemma startup_ready_witness :
  ∃ started s' log,
    start_all (create_app sample_environment) startup_order [] (sample_state, []) = (Ok tt, started, (s', log)) ∧
    is_Some (Schema.settings (database s') !! u "scheduler.default_poll_interval_seconds") ∧
    Unlock.is_unlocked (unlock s') = true ∧ Scheduler.is_running (scheduler_service s') = true.
Proof.
  destruct (start_all (create_app sample_environment) startup_order [] (sample_state, []))
    as [ [r started] [s' log] ] eqn:E.
  assert (r = Ok tt) as -> by (apply (f_equal (λ x, x.1.1)) in E; vm_compute in E; congruence).
  exists started, s', log. split; [reflexivity|].
  destruct (startup_ready sample_environment sample_state s' started log eq_refl eq_refl eq_refl E)
    as (Hk&_&_&Hu&Hs&_).
  split_and!; [|by apply Hu|exact Hs]. apply Hk. by_eval.
Defined.

(** The request fails, the scheduler hangs and the disposal fails: the secret is locked, and
    the error is the disposal's. *)
Lemma secrets_locked_witness :
  let '(r, w) := lifespan (create_app sample_environment) (sample_state, []) in
  Unlock.is_unlocked (unlock w.1) = false ∧ r = Err (AppError "DisposeError") ∧
  w.2.*1 = (Start <$> startup_order) ++
    [Serve; Shut bot_delivery; Shut scheduler; CloseQueue; Shut telethon_manager; Shut auth;
     Shut settings; Shut db; Dispose].
Proof.
  pose proof (secrets_locked sample_environment sample_state eq_refl
    ltac:(split_and!; discriminate)) as H.
  destruct (lifespan _ _) as [r w] eqn:E. split_and!; [exact H| |].
  - apply (f_equal fst) in E. vm_compute in E. congruence.
  - apply (f_equal (λ x, x.2.2.*1)) in E. vm_compute in E. by symmetry.
Defined.

(** A [TimeoutError] raised by a service's own shutdown ends the whole shutdown: the queue
    stays open and nothing else is taken down. *)
Example timeout_cuts_short :
  let hooks d := MkDependency (λ s : unit, (Ok tt, s))
    (λ s, (if decide (d = scheduler) then Err TimeoutError else Ok tt, s)) (λ _, None) in
  let app := MkApplication hooks (λ s, (Ok tt, s)) (λ s, (Ok tt, s)) (λ s, (Ok tt, s)) (λ s, (Ok tt, s))
               (λ s, (Ok tt, s)) (λ s, (Ok tt, s)) id in
  let '(r, w) := lifespan app (tt, []) in
  r = Err TimeoutError ∧
  w.2.*1 = (Start <$> startup_order) ++ [Serve; Shut bot_delivery; Shut scheduler].
Proof. vm_compute. done. Qed.

End Wiring.
