(* ===== verification/System.v ===== *)
(** The whole store: every modelled write of the program as a step of one transition
    relation, and the integrity of every state it reaches. *)

From S2P Require Import Prelude PyValue PyTime PyIso Schema Notifications Settings.
From S2P Require Import Clusters Prune Channels Groups Ingest Contents Auth Timeline Bot.
From S2P Require Import Scheduler Strategy Decisions PyText PyCodec PyJson Vault Accounts.
Local Open Scope Z_scope.

Create HintDb wf discriminated.

Module System.

(** One committed call. The queue that orders the writers is the subject of
    WriterQueue.v; reads are not steps. *)
Inductive step (db : Db) : Db → Prop :=
  (* channels and their state *)
  | create_channel account tid nm user :
      step db (Channels.create_channel account tid nm user db).2
  | update_channel i nm user enabled : step db (Channels.update_channel i nm user enabled db).2
  | disable_channel i : step db (Channels.disable_channel i db).2
  | enable_channel i : step db (Channels.enable_channel i db).2
  | purge_channel now i : step db (Channels.purge_channel now i db).2
  | upsert_state i pause success : step db (ChannelStates.upsert_state i pause success db).2
  | update_pause i pause : step db (ChannelStates.update_pause i pause db).2
  | update_cursor i c : step db (ChannelStates.update_cursor i c db).2
  | pause_account now i reason pause : step db (AccountPause.pause_account now i reason pause db).2
  | resume_account i : step db (AccountPause.resume_account i db).2
  (* channel groups *)
  | create_group nm desc horizon : step db (Groups.create_group nm desc horizon db).2
  | patch_group g payload : step db (Groups.patch_channel_group g payload db).2
  | delete_group g : step db (Groups.delete_channel_group g db).2
  | put_membership g c : step db (Groups.put_channel_group_membership g c db).2
  | delete_membership g c : step db (Groups.delete_channel_group_membership g c db).2
  | update_group g nm desc horizon : step db (Groups.update_group g nm desc horizon db).2
  | remove_group g : step db (Groups.delete_group g db).2
  | add_membership g c : step db (Groups.add_channel_membership g c db).2
  | remove_membership g c : step db (Groups.remove_channel_membership g c db).2
  (* content and dedupe *)
  | upsert_raw_message now c m p : step db (RawMessages.upsert_raw_message now c m p db).2
  | upsert_item now c m raw x : step db (Items.upsert_item now c m raw x db).2
  | assign_item uuid item matched :
      step db (Clusters.assign_item_to_cluster uuid item matched db).2
  | merge_clusters now matched : step db (Clusters.merge_clusters now matched db).2
  | persist_attempts now item cluster candidate attempts metadata :
      step db (Decisions.persist_attempts now item cluster candidate attempts metadata db).2
  (* scheduling, ingest and retention *)
  | scheduler_tick interval jitter corr now :
      step db (Scheduler.run_once interval jitter corr now db).2
  | enqueue_poll_job i corr : step db (Scheduler.enqueue_poll_job i corr db).2
  | flood_wait ts clock later c seconds account :
      step db (FloodWait.handle_flood_wait ts clock later c seconds account db).2
  | risk_breach ts clock account reason :
      step db (AccountRisk.record_account_risk_breach ts clock account reason db).2
  | ingest_error ts channel stage code message payload :
      step db (ErrorCapture.capture_ingest_error ts channel stage code message payload db).2
  | prune now : step db (Prune.run_once now db).2
  (* settings and notifications *)
  | seed_settings : step db (Settings.seed_default_dynamic_settings db).2
  | create_setting k v : step db (Settings.create k v db).2
  | update_setting k v : step db (Settings.update k v db).2
  | upsert_setting k v : step db (Settings.upsert k v db).2
  | delete_setting_if k v : step db (Settings.delete_if_value_matches k v db).2
  | delete_setting k : step db (Settings.delete k db)
  | create_notification now ty sv ms p : step db (Notifications.create now ty sv ms p db).2
  | acknowledge now i : step db (Notifications.acknowledge now i db).2
  (* authentication *)
  | upsert_account (C : Crypto) (F : FloatText) e api_id api_hash phone kek :
      step db (AccountStorage.upsert_account e api_id api_hash phone kek db).2
  | persist_session (C : Crypto) (F : FloatText) e i text kek :
      step db (SessionStorage.persist_session e i text kek db).2
  | begin_rotation target : step db (KeyRotation.begin_rotation id target db).2
  | mark_rotated i : step db (KeyRotation.mark_account_rotated id i db).2
  | complete_rotation now : step db (KeyRotation.complete_if_finished now id db).2
  | create_session now sid phone st ts expires ttl :
      step db (AuthSessions.create_session now sid phone st ts expires ttl db).2
  | session_request sid now q : step db (AuthSessions.handle sid now q db).2
  (* the bot *)
  | record_delivery now c m : step db (BotDeliveries.record_delivery now c m db).2
  | bot_run repr formatter post exc_text clock notify failures :
      (∀ c, in_range (clock c) = true) →
      step db (Delivery.db (Delivery.run_once repr formatter post exc_text clock notify failures db).2).

Definition steps : relation Db := rtc step.

(** ** Integrity of each operation *)

Lemma cursor_wf i c db : wf_db db → wf_db (ChannelStates.update_cursor i c db).2.
Proof.
  intros W. unfold ChannelStates.update_cursor. destruct (ChannelStates.stored_cursor c); [|done].
  by apply ChannelStates.upsert_wf.
Qed.

Lemma setting_write_wf k v db :
  wf_db db → wf_db (Settings.create k v db).2 ∧ wf_db (Settings.update k v db).2 ∧
  wf_db (Settings.upsert k v db).2 ∧ wf_db (Settings.delete_if_value_matches k v db).2.
Proof.
  intros W. unfold Settings.create, Settings.update, Settings.upsert,
    Settings.delete_if_value_matches, Settings.insert_setting.
  destruct (Settings._encode_value_json v); [|done].
  split_and!; repeat case_match; simplify_eq/=; try done; by apply Settings.set_settings_wf.
Qed.

Lemma seed_wf ds db : wf_db db → wf_db (Settings.seed_keys ds db).2.
Proof.
  revert db. induction ds as [|[k v] ds IH]; intros db W; [done|]. cbn [Settings.seed_keys].
  destruct (setting_write_wf k v db W) as [W1 _]. destruct (Settings.create k v db) as [[r|e] db1].
  - specialize (IH db1 W1). by destruct (Settings.seed_keys ds db1).
  - case_decide; [by apply IH|done].
Qed.

Lemma acknowledge_wf now i db : wf_db db → wf_db (Notifications.acknowledge now i db).2.
Proof.
  intros W. unfold Notifications.acknowledge. destruct (notifications db !! i) as [n|]; [|done].
  generalize (Notifications.acknowledge_row now n). intros n'. cbn [snd]. revert W. wf_fields.
Qed.

Lemma update_group_wf i nm desc horizon db :
  wf_db db → wf_db (Groups.update_group i nm desc horizon db).2.
Proof.
  intros W. unfold Groups.update_group. destruct (groups db !! i); [|done].
  apply Groups.set_groups_wf; [done|]. intros j. by apply is_Some_insert.
Qed.

Lemma create_group_wf nm desc horizon db :
  wf_db db → wf_db (Groups.create_group nm desc horizon db).2.
Proof. intros W. apply Groups.set_groups_wf; [done|]. intros j. by apply is_Some_insert. Qed.

Lemma patch_group_wf g payload db : wf_db db → wf_db (Groups.patch_channel_group g payload db).2.
Proof.
  intros W. unfold Groups.patch_channel_group. destruct (Groups.get_group_by_id g db) as [cur|]; [|done].
  destruct (Groups.p_name payload) as [[n|]|]; try done; cbv zeta;
    match goal with |- context [Groups.update_group ?i ?a ?b ?c db] =>
      pose proof (update_group_wf i a b c db W) as W';
      destruct (Groups.update_group i a b c db) as [[r|] db'] end; done.
Qed.

Lemma remove_group_wf g db : wf_db db → wf_db (Groups.delete_group g db).2.
Proof.
  intros W. unfold Groups.delete_group. destruct (groups db !! g); [by apply delete_groups_wf|done].
Qed.
Lemma delete_group_wf g db : wf_db db → wf_db (Groups.delete_channel_group g db).2.
Proof.
  intros W. pose proof (remove_group_wf g db W). unfold Groups.delete_channel_group.
  by destruct (Groups.delete_group g db) as [[] ?].
Qed.

Lemma add_membership_wf g c db : wf_db db → wf_db (Groups.add_channel_membership g c db).2.
Proof.
  intros W. unfold Groups.add_channel_membership.
  destruct (Groups.insert_group_member g c db) as [db'|e] eqn:E; [|done].
  by eapply Groups.insert_group_member_wf.
Qed.
Lemma remove_membership_wf g c db : wf_db db → wf_db (Groups.remove_channel_membership g c db).2.
Proof.
  intros W. unfold Groups.remove_channel_membership. case_decide; [|done].
  apply Groups.set_group_members_wf; [done| |].
  - intros x y [Hin _]%elem_of_difference. by apply (fk_group_members _ W).
  - intros x x' y [H1 _]%elem_of_difference [H2 _]%elem_of_difference.
    by apply (uq_group_members _ W x x' y).
Qed.

Lemma put_membership_wf g c db : wf_db db → wf_db (Groups.put_channel_group_membership g c db).2.
Proof.
  intros W. unfold Groups.put_channel_group_membership.
  destruct (Groups.get_group_by_id g db); [|done].
  destruct (Channels.get_channel_by_id c db); [|done].
  destruct (Groups.get_membership_by_channel_id c db) as [[m|]|]; [by destruct (Z.eqb _ _)| |done].
  pose proof (add_membership_wf g c db W) as W'.
  destruct (Groups.add_channel_membership g c db) as [[r|e] db']; [done|].
  case_decide; [|done]. by destruct (Groups.get_membership_by_channel_id c db').
Qed.

Lemma delete_membership_wf g c db :
  wf_db db → wf_db (Groups.delete_channel_group_membership g c db).2.
Proof.
  intros W. unfold Groups.delete_channel_group_membership.
  destruct (Groups.get_group_by_id g db); [|done].
  destruct (Groups.get_membership_by_channel_id c db) as [[m|]|]; [|done|done].
  destruct (negb _); [done|]. pose proof (remove_membership_wf g c db W) as W'.
  by destruct (Groups.remove_channel_membership g c db) as [[] db'].
Qed.

Lemma upsert_account_wf (C : Crypto) (F : FloatText) e api_id api_hash phone kek db :
  wf_db db → wf_db (AccountStorage.upsert_account e api_id api_hash phone kek db).2.
Proof.
  intros W. unfold AccountStorage.upsert_account, AccountStorage.insert_account.
  destruct (encrypt_text _ _ _) as [sealed|]; [|done]. destruct (bindable api_id); [|done].
  destruct (match phone with Some p => _ | None => [] end) as [|i [|j l]]; [| |done]; cbn [snd];
    (apply set_accounts_wf; [done|]); intros k.
  - by apply is_Some_insert.
  - intros [a Ha]. apply lookup_alter_is_Some. by exists a.
Qed.
Lemma persist_session_wf (C : Crypto) (F : FloatText) e i text kek db :
  wf_db db → wf_db (SessionStorage.persist_session e i text kek db).2.
Proof.
  intros W. unfold SessionStorage.persist_session. destruct (encrypt_text _ _ _); [|done].
  destruct (accounts db !! i); [|done]. apply set_accounts_wf; [done|].
  intros j. by apply is_Some_insert.
Qed.

Lemma breach_wf ts clock i reason db :
  wf_db db → wf_db (AccountRisk.record_account_risk_breach ts clock i reason db).2.
Proof.
  intros W. unfold AccountRisk.record_account_risk_breach.
  destruct (AccountPause.get_pause_state i db) as [p|]; [|done].
  destruct (AccountPause.paused_at p); [done|].
  destruct (Settings.get_by_key _ db) as [s|]; [|done].
  destruct (AccountRisk._filter_recent _ _) as [recent|]; [|done]. cbv zeta.
  destruct (Z.ltb _ _).
  - match goal with |- context [Settings.upsert ?k ?v db] =>
      destruct (setting_write_wf k v db W) as (_&_&W1&_); by destruct (Settings.upsert k v db) as [[]] end.
  - match goal with |- context [AccountPause.pause_account ?n i ?r ?p db] =>
      pose proof (AccountPause.pause_row_wf (AccountPause.set_pause (Some (default n p)) (Some r)) i db W)
        as W1; fold (AccountPause.pause_account n i r p) in W1;
      change (AccountPause.update_row (AccountPause.set_pause (Some (default n p)) (Some r)) i db)
        with (AccountPause.pause_account n i r p db) in W1;
      destruct (AccountPause.pause_account n i r p db) as [paused db1] end.
    match goal with |- context [Settings.upsert ?k ?v db1] =>
      destruct (setting_write_wf k v db1 W1) as (_&_&W2&_);
      destruct (Settings.upsert k v db1) as [[r|e] db2] end; [|done].
    destruct paused as [x|]; [|done].
    match goal with |- context [Notifications.create ?a ?b ?c ?d ?e db2] =>
      pose proof (Notifications.create_notification_wf a b c d e db2 W2) as W3;
      by destruct (Notifications.create a b c d e db2) end.
Qed.

Lemma flood_wait_wf ts clock later c seconds account db :
  wf_db db → wf_db (FloodWait.handle_flood_wait ts clock later c seconds account db).2.
Proof.
  intros W. unfold FloodWait.handle_flood_wait, FloodWait._persist.
  destruct (FloodWait._extract_wait_seconds seconds) as [w|]; [|done].
  destruct (dt_add _ _) as [resume|]; [|done].
  assert (wf_db (ChannelStates.update_pause c (Some resume) db).2) as W1
    by (by apply ChannelStates.upsert_wf).
  destruct (ChannelStates.update_pause c (Some resume) db) as [[record|e] db1]; [|done].
  assert (wf_db (FloodWait.notify ts c w resume db1)) as W2.
  { unfold FloodWait.notify. destruct (Z.leb _ _); [by apply Notifications.create_notification_wf|done]. }
  destruct account as [i|]; [|done].
  pose proof (breach_wf ts later i (u "flood-wait") _ W2) as W3.
  by destruct (AccountRisk.record_account_risk_breach _ _ _ _ _).
Qed.

Lemma capture_wf ts channel stage code message payload db :
  wf_db db → wf_db (ErrorCapture.capture_ingest_error ts channel stage code message payload db).2.
Proof.
  intros W. unfold ErrorCapture.capture_ingest_error.
  destruct (ErrorCapture.normalize_ingest_error_stage stage); [|done].
  by apply IngestErrors.create_error_wf.
Qed.

Lemma prune_wf now db : wf_db db → wf_db (Prune.run_once now db).2.
Proof.
  intros W. rewrite Prune.run_once_eq by done.
  destruct (Prune.cutoffs now db) as [[[a b] c]|]; [by apply Prune.pruned_wf|done].
Qed.

Lemma begin_rotation_wf target db : wf_db db → wf_db (KeyRotation.begin_rotation id target db).2.
Proof.
  intros W. unfold KeyRotation.begin_rotation, KeyRotation.update_rotation, id.
  repeat case_match; try done; by apply set_rotation_wf.
Qed.

Lemma mark_rotated_wf i db : wf_db db → wf_db (KeyRotation.mark_account_rotated id i db).2.
Proof.
  intros W. unfold KeyRotation.mark_account_rotated, KeyRotation.update_rotation, id.
  destruct (KeyRotation.get_state db) as [s|]; [|done].
  destruct (accounts db !! i) as [a|]; [|done]. cbn [snd].
  assert (∀ a', wf_db (set_accounts (<[i := a']> (accounts db)) db)) as Wa.
  { intros a'. apply set_accounts_wf; [done|]. intros j. by apply is_Some_insert. }
  destruct (_ <? _), (_ =? _); try apply set_rotation_wf; auto.
Qed.

Lemma complete_rotation_wf now db : wf_db db → wf_db (KeyRotation.complete_if_finished now id db).2.
Proof.
  intros W. unfold KeyRotation.complete_if_finished, KeyRotation.update_rotation, id.
  repeat case_match; try done; by apply set_rotation_wf.
Qed.

Lemma create_session_wf now sid phone st ts expires ttl db :
  wf_db db → wf_db (AuthSessions.create_session now sid phone st ts expires ttl db).2.
Proof.
  intros W. unfold AuthSessions.create_session.
  destruct expires, ttl, (auth_sessions db !! sid); try done; by apply set_auth_sessions_wf.
Qed.

Lemma session_request_wf now sid q db : wf_db db → wf_db (AuthSessions.handle sid now q db).2.
Proof.
  intros W. rewrite AuthSessions.handle_step. destruct (AuthSessions.step_cell _ _ _ _) as [r c].
  by apply set_auth_sessions_wf.
Qed.

Lemma record_delivery_wf now c m db : wf_db db → wf_db (BotDeliveries.record_delivery now c m db).2.
Proof.
  intros W. unfold BotDeliveries.record_delivery.
  destruct (BotDeliveries.insert_delivery _ db) as [[i db']|e] eqn:E; [|done].
  by eapply BotDeliveries.insert_delivery_wf.
Qed.

#[local] Hint Resolve Channels.create_channel_wf Channels.purge_wf ChannelStates.upsert_wf
  AccountPause.pause_row_wf cursor_wf create_group_wf patch_group_wf delete_group_wf
  put_membership_wf delete_membership_wf update_group_wf remove_group_wf add_membership_wf
  remove_membership_wf Scheduler.enqueue_wf upsert_account_wf persist_session_wf RawMessages.upsert_raw_message_wf Items.upsert_item_wf
  Clusters.assign_wf Clusters.merge_clusters_wf Decisions.persist_attempts_wf
  Scheduler.run_once_wf flood_wait_wf breach_wf capture_wf prune_wf seed_wf
  Settings.set_settings_wf Notifications.create_notification_wf acknowledge_wf
  record_delivery_wf begin_rotation_wf mark_rotated_wf complete_rotation_wf create_session_wf
  session_request_wf : wf.

(** Every operation preserves integrity. *)
Lemma step_wf db db' : step db db' → wf_db db → wf_db db'.
Proof.
  intros H W. destruct H;
    first [ solve [auto with wf nocore]
          | by apply setting_write_wf
          | by apply Channels.update_row_wf | by apply ChannelStates.upsert_wf
          | by apply AccountPause.pause_row_wf | by apply seed_wf | by apply Settings.set_settings_wf
          | by apply Delivery.delivery_run_wf ].
Qed.

(** C2. Integrity is an invariant of the whole program. From a database that satisfies
    its constraints (the empty one does), any interleaving of the modelled operations,
    whatever their arguments, outcomes and errors, only reaches databases that satisfy
    every FOREIGN KEY and UNIQUE constraint of the schema; so in every reachable state a
    channel has one group at most, a cluster one delivery at most, a channel message one
    item at most, and every cluster with a representative is on the timeline. *)
Theorem reachable_wf db db' :
  wf_db db → steps db db' →
  wf_db db' ∧
  (∀ g g' c, (g, c) ∈ group_members db' → (g', c) ∈ group_members db' → g = g') ∧
  (∀ i j d e, deliveries db' !! i = Some d → deliveries db' !! j = Some e →
     dl_cluster_id d = dl_cluster_id e → i = j) ∧
  (∀ i j x y, items db' !! i = Some x → items db' !! j = Some y →
     it_channel_id x = it_channel_id y → it_message_id x = it_message_id y → i = j) ∧
  (∀ c row, clusters db' !! c = Some row → is_Some (cl_representative row) →
     c ∈ j_cluster_id <$> Thread.thread db').
Proof.
  intros W H. assert (wf_db db') as W'.
  { induction H as [|x y z Hs _ IH]; [done|]. apply IH. by eapply step_wf. }
  split; [done|]. split_and!; [by apply (uq_group_members _ W')|by apply (uq_deliveries _ W')
    |by apply (uq_items _ W')|].
  intros c row Hc Hr. destruct (join_row_total _ _ _ W' Hc Hr) as [j Hj].
  pose proof (join_row_id _ _ _ _ Hj) as <-. apply list_elem_of_fmap_2.
  unfold Thread.thread. apply elem_of_sort_by, elem_of_join_rows. eauto.
Qed.

(** ** Instance: the bot delivers, then a channel is purged *)
Lemma reachable_wf_witness :
  ∃ db', steps sample_db db' ∧ wf_db db' ∧ channels db' !! 1 = None ∧
    BotDeliveries.has_been_delivered 2 db' = true.
Proof.
  exists (Channels.purge_channel (u "t") 1
    (BotDeliveries.record_delivery (u "t") 1 None sample_db).2).2.
  match goal with |- steps sample_db ?d ∧ _ => set (db' := d) end.
  assert (steps sample_db db') as Hs.
  { eapply rtc_l; [apply record_delivery|]. eapply rtc_l; [apply purge_channel|]. apply rtc_refl. }
  split; [done|]. destruct (reachable_wf _ _ sample_db_wf Hs) as [W _]. split; [done|].
  clear. split; by vm_compute.
Defined.

End System.
