(* ===== verification/Requests.v ===== *)
(** What a request, the start-up or a job does to the store: each handler is a sequence of
    the committed calls of System.v, with the commits of other tasks in between; and what a
    change of a channel over the API means for the two ways to a poll job, the request and
    the scheduler. *)

From S2P Require Import Prelude PyValue PyTime PyText PyCodec PyJson PyUrl Schema Notifications.
From S2P Require Import Settings Access Vault Accounts Channels Groups Ingest Auth Login Timeline Bot.
From S2P Require Import Scheduler BotService Backup Api Ui Wizard System.
Local Open Scope Z_scope.

Module Requests.
Import System.

Implicit Types db : Db.

(** Other tasks commit whatever they commit as steps. *)
Definition follows (f : Db → Db) : Prop := ∀ db, steps db (f db).
Definition considerate (env : TelegramAuth.Env) : Prop := ∀ g, follows (TelegramAuth.others env g).

(** One request or job, from the database it finds to the one it leaves. *)
Inductive request (db : Db) : Db → Prop :=
  (* the API *)
  | api_create_channel payload : request db (ChannelsApi.create_channel payload db).2
  | api_patch_channel i payload : request db (ChannelsApi.patch_channel i payload db).2
  | api_delete_channel now purge i : request db (ChannelsApi.delete_channel now purge i db).2
  | api_poll_now now uuid i : request db (JobsApi.poll_now now uuid i db).2
  | api_put_setting k v : request db (SettingsApi.put_setting k v db).2
  | api_acknowledge now i : request db (ReadApi.acknowledge_notification now i db).2
  | api_configure_bot exc_text token chat reply :
      request db (BotConfigApi.configure_bot exc_text token chat reply db).2
  | api_delete_bot : request db (BotConfigApi.delete_bot_config db).2
  | api_start_login env sid payload answer :
      considerate env → request db (TelegramAuth.start_telegram_auth env sid payload answer db).2
  | api_verify_login (C : Crypto) (F : FloatText) rt env payload answer saved :
      considerate env → request db (TelegramAuth.verify rt env payload answer saved db).2
  (* the browser pages *)
  | ui_acknowledge now i : request db (NotificationsView.post_acknowledge_notification now i db).2
  | ui_create_channel (D : DecimalDigits) form : request db (GroupsView.post_create_channel form db).2
  | ui_edit_channel i form : request db (GroupsView.post_edit_channel i form db).2
  | ui_disable_channel i : request db (GroupsView.post_disable_channel i db).2
  | ui_create_group (D : DecimalDigits) meanwhile form :
      follows meanwhile → request db (GroupsView.post_create_group meanwhile form db).2
  | ui_edit_group (D : DecimalDigits) g form : request db (GroupsView.post_edit_group g form db).2
  | ui_assign_channel (D : DecimalDigits) meanwhile g form :
      follows meanwhile → request db (GroupsView.post_assign_group_channel meanwhile g form db).2
  | ui_setup_start (D : DecimalDigits) env sid answer form :
      considerate env → request db (Setup.post_setup_start_auth env sid answer form db).2
  | ui_setup_code (D : DecimalDigits) (C : Crypto) (F : FloatText) env answer saved form :
      considerate env → request db (Setup.post_setup_verify_code env answer saved form db).2
  | ui_setup_password (D : DecimalDigits) (C : Crypto) (F : FloatText) env answer saved form :
      considerate env → request db (Setup.post_setup_verify_password env answer saved form db).2
  (* start-up and jobs *)
  | start_auth m secret_file token write meanwhile st :
      follows meanwhile →
      request db (AuthStartup.startup m secret_file token write meanwhile st db).2
  | cookie_key env_key current fresh :
      request db (Access._resolve_persistent_cookie_signing_key env_key current fresh db).2
  | backup (U : UnicodeData) content (os : Backup.Platform (content := content)) exc_class exc_text as_posix ts
      clock cancel_copy cancel_cleanup unreadable source w :
      request db (Backup.run_once os exc_class exc_text as_posix ts clock cancel_copy cancel_cleanup
                    unreadable source (w, db)).2.2
  | bot_loop repr formatter exc_text interval last failures ticks :
      Forall (λ t, follows (DeliveryService.others t) ∧
        ∀ c, in_range (DeliveryService.clock t c) = true) ticks →
      request db (DeliveryService._run_loop repr formatter exc_text interval last failures ticks db).2.

Lemma once db db' : step db db' → steps db db'.
Proof. apply rtc_once. Qed.
Lemma steps_trans db1 db2 db3 : steps db1 db2 → steps db2 db3 → steps db1 db3.
Proof. apply (rtc_trans (R:=step)). Qed.

Create HintDb steps discriminated.
#[local] Hint Constructors step : steps.
#[local] Hint Resolve once : steps.

(** When [x] is read off what others have committed by then, wait for them. *)
Ltac catch_up x :=
  match goal with
  | H : follows ?f |- steps ?d _ =>
      match x with context [f d] =>
        refine (steps_trans _ _ _ (H d) _); generalize (f d); intros ? end
  | H : considerate ?env |- steps ?d _ =>
      match x with context [TelegramAuth.others env ?g d] =>
        refine (steps_trans _ _ _ (H g d) _); generalize (TelegramAuth.others env g d); intros ? end
  end.
(** The first call the goal waits for, past the matches on other values. *)
Ltac next_call x :=
  lazymatch x with
  | match ?y with _ => _ end => next_call y
  | _ =>
      lazymatch type of x with
      | (_ * Db)%type =>
          let E := fresh "E" in
          match goal with |- steps ?d _ => assert (steps d (snd x)) as E by auto with steps nocore end;
          destruct x as [? ?]; cbn [fst snd] in E; refine (steps_trans _ _ _ E _); clear E
      | _ => destruct x; cbn [fst snd]
      end
  end.
Ltac scrutinee x := lazymatch x with match ?y with _ => _ end => scrutinee y | _ => x end.
(** Follow a handler call by call, in every branch. *)
Ltac advance :=
  cbv zeta; cbn [fst snd];
  repeat match goal with
    | |- steps ?d ?d => apply rtc_refl
    | |- steps _ (snd (_, _)) => cbn [snd]
    | |- steps _ _ => solve [auto with steps nocore]
    | |- steps _ (snd ?x) => let y := scrutinee x in catch_up y
    | H : follows ?f |- steps ?d (?f ?d) => apply H
    | H : considerate ?env |- steps ?d (TelegramAuth.others ?env _ ?d) => apply H
    | |- steps _ (snd (match ?x with _ => _ end)) => next_call x
    end.

(** ** The API *)

Lemma create_channel_steps payload db : steps db (ChannelsApi.create_channel payload db).2.
Proof. unfold ChannelsApi.create_channel. advance. Qed.

Lemma patch_state_steps i payload db : steps db (ChannelsApi.patch_state i payload db).2.
Proof. unfold ChannelsApi.patch_state. advance. Qed.
#[local] Hint Resolve patch_state_steps : steps.

Lemma patch_channel_steps i payload db : steps db (ChannelsApi.patch_channel i payload db).2.
Proof. unfold ChannelsApi.patch_channel. advance. Qed.

Lemma delete_channel_steps now purge i db : steps db (ChannelsApi.delete_channel now purge i db).2.
Proof. unfold ChannelsApi.delete_channel. advance. Qed.

Lemma poll_now_steps now uuid i db : steps db (JobsApi.poll_now now uuid i db).2.
Proof. unfold JobsApi.poll_now. advance. Qed.

Lemma write_setting_steps k v db : steps db (SettingsApi.write_setting k v db).2.
Proof. unfold SettingsApi.write_setting. advance. Qed.
#[local] Hint Resolve write_setting_steps : steps.

Lemma put_setting_steps k v db : steps db (SettingsApi.put_setting k v db).2.
Proof. unfold SettingsApi.put_setting. advance. Qed.

Lemma write_all_steps entries db : steps db (BotConfigApi.write_all entries db).2.
Proof.
  revert db. induction entries as [|[k v] entries IH]; intros db; cbn [BotConfigApi.write_all]; advance.
Qed.
#[local] Hint Resolve write_all_steps : steps.

Lemma configure_bot_steps exc_text token chat reply db :
  steps db (BotConfigApi.configure_bot exc_text token chat reply db).2.
Proof. unfold BotConfigApi.configure_bot. advance. Qed.

Lemma delete_bot_steps db : steps db (BotConfigApi.delete_bot_config db).2.
Proof.
  unfold BotConfigApi.delete_bot_config. cbv zeta.
  refine (steps_trans _ _ _ (once _ _ (delete_setting db _)) _).
  refine (steps_trans _ _ _ (once _ _ (delete_setting _ _)) _). advance.
Qed.

Lemma acknowledge_steps now i db : steps db (ReadApi.acknowledge_notification now i db).2.
Proof. unfold ReadApi.acknowledge_notification. advance. Qed.

(** ** The login routes *)

Lemma get_session_steps now sid db : steps db (AuthSessions.get_session now sid db).2.
Proof.
  pose proof (once _ _ (session_request db sid now AuthSessions.Get)) as H. unfold AuthSessions.handle in H.
  by destruct (AuthSessions.get_session now sid db).
Qed.
Lemma delete_session_steps sid db : steps db (AuthSessions.delete_session sid db).2.
Proof.
  pose proof (once _ _ (session_request db sid 0 AuthSessions.Delete)) as H. unfold AuthSessions.handle in H.
  by destruct (AuthSessions.delete_session sid db).
Qed.
Lemma update_status_steps now sid st ts us db : steps db (AuthSessions.update_status now sid st ts us db).2.
Proof.
  pose proof (once _ _ (session_request db sid now (AuthSessions.Update st ts us))) as H.
  unfold AuthSessions.handle in H. by destruct (AuthSessions.update_status now sid st ts us db).
Qed.
#[local] Hint Resolve get_session_steps delete_session_steps update_status_steps : steps.

Lemma salt_steps new_salt before after db :
  follows before → follows after →
  steps db (KeyMaterial._get_or_create_kek_salt new_salt before after db).2.
Proof. intros Hb Ha. unfold KeyMaterial._get_or_create_kek_salt. advance. Qed.

Section login.
Context (env : TelegramAuth.Env) (Henv : considerate env).

Lemma login_failure_steps error seconds phone db :
  steps db (TelegramAuth.login_failure env error seconds phone db).2.
Proof.
  unfold TelegramAuth.login_failure, TelegramAuth.phone_failure,
    TelegramAuth._record_auth_failure_notification, TelegramAuth._record_auth_failure_risk_breach.
  destruct (TelegramAuth._map_auth_error_notification error seconds) as [ [ [ty sv] ms] p]. advance.
Qed.
#[local] Hint Resolve login_failure_steps : steps.

Lemma start_login_steps sid payload answer db :
  steps db (TelegramAuth.start_telegram_auth env sid payload answer db).2.
Proof. unfold TelegramAuth.start_telegram_auth. advance. Qed.

Context `{Crypto, FloatText}.

Lemma persist_steps api_id api_hash phone text db :
  steps db (TelegramAuth._persist_authenticated_session env api_id api_hash phone text db).2.
Proof.
  unfold TelegramAuth._persist_authenticated_session, KeyMaterial.resolve_key_encryption_key,
    TelegramAuth._persist.
  pose proof (λ n db, salt_steps n _ _ db (Henv TelegramAuth.BeforeSaltInsert) (Henv TelegramAuth.AfterSaltInsert)).
  advance.
Qed.
#[local] Hint Resolve persist_steps : steps.

Lemma update_auth_steps sid st ts us db :
  steps db (TelegramAuth._update_auth_session_status env sid st ts us db).2.
Proof. unfold TelegramAuth._update_auth_session_status. advance. Qed.
#[local] Hint Resolve update_auth_steps : steps.

Lemma complete_login_steps payload phone text clear db :
  steps db (TelegramAuth.complete_login env payload phone text clear db).2.
Proof. unfold TelegramAuth.complete_login. advance. Qed.
#[local] Hint Resolve complete_login_steps : steps.

Lemma verify_steps rt payload answer saved db :
  steps db (TelegramAuth.verify rt env payload answer saved db).2.
Proof.
  destruct rt; cbn [TelegramAuth.verify];
    unfold TelegramAuth.verify_telegram_code, TelegramAuth.verify_telegram_password; advance.
Qed.
End login.

(** ** The pages *)

Lemma ui_acknowledge_steps now i db : steps db (NotificationsView.post_acknowledge_notification now i db).2.
Proof. unfold NotificationsView.post_acknowledge_notification. advance. Qed.

Lemma ui_edit_channel_steps i form db : steps db (GroupsView.post_edit_channel i form db).2.
Proof. unfold GroupsView.post_edit_channel. advance. Qed.

Lemma ui_disable_channel_steps i db : steps db (GroupsView.post_disable_channel i db).2.
Proof. unfold GroupsView.post_disable_channel. advance. Qed.

Lemma create_group_form_steps meanwhile values db :
  follows meanwhile → steps db (GroupsView._create_group_from_form_values meanwhile values db).2.
Proof.
  intros Hm. unfold GroupsView._create_group_from_form_values.
  destruct (Forms.channel_id values) as [c|]; advance.
Qed.

Lemma replace_steps meanwhile g current c db :
  follows meanwhile → steps db (GroupsView.replace_membership meanwhile g current c db).2.
Proof.
  intros Hm. unfold GroupsView.replace_membership. destruct current as [old|]; [|advance].
  refine (steps_trans _ _ _ (once _ _ (remove_membership db g old)) _).
  generalize (Groups.remove_channel_membership g old db).2. intros d. advance.
Qed.
#[local] Hint Resolve create_group_form_steps replace_steps : steps.

Lemma assign_steps meanwhile g desired db :
  follows meanwhile → steps db (GroupsView._assign_group_channel_membership meanwhile g desired db).2.
Proof.
  intros Hm. unfold GroupsView._assign_group_channel_membership. advance.
  match goal with |- context [match ?a with _ => _ end] => destruct a end; advance.
Qed.
#[local] Hint Resolve assign_steps : steps.

Section forms.
Context `{DecimalDigits}.

Lemma ui_create_channel_steps form db : steps db (GroupsView.post_create_channel form db).2.
Proof. unfold GroupsView.post_create_channel. advance. Qed.
Lemma ui_create_group_steps meanwhile form db :
  follows meanwhile → steps db (GroupsView.post_create_group meanwhile form db).2.
Proof. intros Hm. unfold GroupsView.post_create_group. advance. Qed.
Lemma ui_edit_group_steps g form db : steps db (GroupsView.post_edit_group g form db).2.
Proof. unfold GroupsView.post_edit_group. advance. Qed.
Lemma ui_assign_steps meanwhile g form db :
  follows meanwhile → steps db (GroupsView.post_assign_group_channel meanwhile g form db).2.
Proof. intros Hm. unfold GroupsView.post_assign_group_channel. advance. Qed.

Context (env : TelegramAuth.Env) (Henv : considerate env).

Lemma setup_start_steps sid answer form db :
  steps db (Setup.post_setup_start_auth env sid answer form db).2.
Proof.
  pose proof (start_login_steps env Henv). unfold Setup.post_setup_start_auth. advance.
Qed.

Context `{Crypto, FloatText}.

Lemma setup_code_steps answer saved form db :
  steps db (Setup.post_setup_verify_code env answer saved form db).2.
Proof.
  pose proof (verify_steps env Henv TelegramAuth.Code) as Hv. cbn [TelegramAuth.verify] in Hv. unfold Setup.post_setup_verify_code. advance.
Qed.
Lemma setup_password_steps answer saved form db :
  steps db (Setup.post_setup_verify_password env answer saved form db).2.
Proof.
  pose proof (verify_steps env Henv TelegramAuth.Password) as Hv. cbn [TelegramAuth.verify] in Hv. unfold Setup.post_setup_verify_password. advance.
Qed.
End forms.

(** ** Start-up and jobs *)

Lemma bootstrap_steps token write meanwhile db :
  follows meanwhile → steps db (Access.ensure_bootstrap_bearer_token token write meanwhile db).2.
Proof. intros Hm. unfold Access.ensure_bootstrap_bearer_token. advance. Qed.
#[local] Hint Resolve bootstrap_steps : steps.

Lemma start_auth_steps m secret_file token write meanwhile st db :
  follows meanwhile → steps db (AuthStartup.startup m secret_file token write meanwhile st db).2.
Proof. intros Hm. unfold AuthStartup.startup. advance. Qed.

Lemma cookie_key_steps env_key current fresh db :
  steps db (Access._resolve_persistent_cookie_signing_key env_key current fresh db).2.
Proof. unfold Access._resolve_persistent_cookie_signing_key. advance. Qed.

Section jobs.
Context `{UnicodeData} {content : Type} (os : Backup.Platform (content := content)).
Context (exc_class exc_text : exn → pystr) (as_posix : pystr → pystr).

Lemma guarded_steps {A} ts path run_at (m : Backup.io A) w db :
  steps db (Backup.guarded (content:=content) exc_class exc_text as_posix ts path run_at m (w, db)).2.2.
Proof.
  unfold Backup.guarded. cbn [fst snd]. destruct (m w) as [ [x|e] w']; [apply rtc_refl|].
  case_decide; [apply rtc_refl|]. apply once, create_notification.
Qed.

Lemma backup_steps ts clock cancel_copy cancel_cleanup unreadable source w db :
  steps db (Backup.run_once os exc_class exc_text as_posix ts clock cancel_copy cancel_cleanup
              unreadable source (w, db)).2.2.
Proof.
  unfold Backup.run_once. cbv zeta.
  match goal with |- context [Backup.guarded ?a ?b ?c ts ?p ?r ?m (w, db)] =>
    pose proof (guarded_steps ts p r m w db) as H1;
    destruct (Backup.guarded a b c ts p r m (w, db)) as [ [v|e] [w1 db1] ] end; [|done].
  cbn [fst snd] in *. destruct (Backup._resolve_retain_count unreadable db1) as [k|]; [|done].
  match goal with |- context [Backup.guarded ?a ?b ?c ts ?p ?r ?m (w1, db1)] =>
    pose proof (guarded_steps ts p r m w1 db1) as H2;
    destruct (Backup.guarded a b c ts p r m (w1, db1)) as [ [x|e] [w2 db2] ] end; cbn [fst snd] in *;
    by eapply steps_trans.
Qed.
End jobs.

Lemma bot_loop_steps repr formatter exc_text interval last failures ticks db :
  Forall (λ t, follows (DeliveryService.others t) ∧
    ∀ c, in_range (DeliveryService.clock t c) = true) ticks →
  steps db (DeliveryService._run_loop repr formatter exc_text interval last failures ticks db).2.
Proof.
  intros Ht. revert last failures db.
  induction Ht as [|t ticks [Ho Hc] _ IH]; intros last failures db; cbn [DeliveryService._run_loop];
    [apply rtc_refl|].
  refine (steps_trans _ _ _ (Ho db) _). generalize (DeliveryService.others t db). clear db. intros db.
  destruct (_ <=? _); [|apply IH].
  pose proof (once _ _ (bot_run db repr formatter (DeliveryService.post t) exc_text
    (DeliveryService.clock t) true failures Hc)) as H1.
  destruct (Delivery.run_once _ _ _ _ _ _ _ db) as [r st]. cbn [snd] in H1.
  match goal with |- context [DeliveryService._run_loop repr formatter exc_text interval ?l ?f ticks ?d] =>
    pose proof (IH l f d) as H2;
    destruct (DeliveryService._run_loop repr formatter exc_text interval l f ticks d) end.
  by eapply steps_trans.
Qed.

(** Requests, pages, start-up and jobs refine the store's transition relation: whatever
    they are given, whatever Telegram, the Bot API, the file system and the cryptography
    answer, and whatever other tasks commit while they wait (as long as these commit steps
    too), each gets from the database it finds to the one it leaves by committed calls of
    the repositories only, in every branch. So what holds in every state the calls reach,
    such as the integrity of the schema, holds before, between and after any interleaving of
    them. *)
Theorem requests_refine_steps db db' :
  request db db' → steps db db' ∧ (wf_db db → wf_db db').
Proof.
  intros H. assert (steps db db') as Hs; [|split; [done|]].
  - destruct H; eauto using create_channel_steps, patch_channel_steps, delete_channel_steps,
      poll_now_steps, put_setting_steps, acknowledge_steps, configure_bot_steps, delete_bot_steps,
      start_login_steps, verify_steps, ui_acknowledge_steps, ui_create_channel_steps,
      ui_edit_channel_steps, ui_disable_channel_steps, ui_create_group_steps, ui_edit_group_steps,
      ui_assign_steps, setup_start_steps, setup_code_steps, setup_password_steps, start_auth_steps,
      cookie_key_steps, backup_steps, bot_loop_steps.
  - clear H. induction Hs; [done|]. intros W. eauto using step_wf.
Qed.

(** The group's channel is replaced from the form while another task disables it. *)
Lemma requests_refine_steps_witness :
  let meanwhile db := (Channels.disable_channel 1 db).2 in
  let form : gmap pystr pystr := {[u "channel_id" := u "1"]} in
  let db' := (GroupsView.post_assign_group_channel meanwhile 1 form sample_db).2 in
  follows meanwhile ∧ steps sample_db db' ∧ wf_db db'.
Proof.
  intros meanwhile form db'.
  assert (follows meanwhile) as Hm by (intros db; apply once, disable_channel).
  split; [done|].
  destruct (requests_refine_steps sample_db db' (ui_assign_channel sample_db _ meanwhile 1 form Hm)) as [Hs Hw].
  split; [exact Hs|apply Hw, sample_db_wf].
Defined.

(** ** What a change of a channel means for polling *)

(** A channel may be polled at a time: it is enabled and no pause of it lasts beyond. *)
Definition open_for_polling (resp : ChannelsApi.ChannelResponse) (now : datetime) : Prop :=
  ChannelsApi.is_enabled resp = true ∧
  ∀ p, ChannelsApi.paused_until resp = Some p → instant p ≤ instant now.

(** Why polling on request is refused. *)
Definition refusal (i : Z) (uuid : pystr) (resp : ChannelsApi.ChannelResponse) (now : datetime)
    (jobs : gmap Z PollJob) (e : exn) : Prop :=
  ChannelsApi.is_enabled resp = false ∧ e = JobsApi._channel_disabled i ∨
  (∃ p, ChannelsApi.is_enabled resp = true ∧ ChannelsApi.paused_until resp = Some p ∧
        instant now < instant p ∧ e = JobsApi._channel_paused i p) ∨
  (∃ k j, jobs !! k = Some j ∧ pj_correlation_id j = uuid) ∧
    e = IntegrityError (UniqueFailed "poll_jobs.correlation_id").

(** Polling on request, on a channel whose row and pause are known. *)
Lemma poll_now_spec now uuid i db row :
  channels db !! i = Some row →
  match JobsApi.poll_now now uuid i db with
  | (Ok r, db') =>
      ch_is_enabled row = true ∧
      (∀ p, Scheduler.at_instant (Scheduler.pause_of db i) = Some p → p ≤ instant now) ∧
      r = JobsApi.MkPollNow i uuid ∧
      db' = set_poll_jobs (<[next_id (poll_jobs db) := MkPollJob i uuid]> (poll_jobs db)) db
  | (Err e, db') =>
      db' = db ∧
      (ch_is_enabled row = false ∧ e = JobsApi._channel_disabled i ∨
       (∃ p, ChannelStates.get_state i db ≫= ChannelStates.paused_until = Some p ∧
             instant now < instant p ∧ ch_is_enabled row = true ∧ e = JobsApi._channel_paused i p) ∨
       (∃ k j, poll_jobs db !! k = Some j ∧ pj_correlation_id j = uuid) ∧
         e = IntegrityError (UniqueFailed "poll_jobs.correlation_id"))
  end.
Proof.
  intros Hrow. unfold JobsApi.poll_now, Channels.get_channel_by_id. rewrite Hrow.
  cbn [fmap option_fmap option_map Channels.is_enabled Channels._decode_channel_row].
  destruct (ch_is_enabled row) eqn:Ee; cbn [negb]; [|by eauto].
  assert (match Scheduler.enqueue_poll_job i uuid db with
    | (Ok job, db') => job = Scheduler.MkPollJobRecord (next_id (poll_jobs db)) i uuid ∧
        db' = set_poll_jobs (<[next_id (poll_jobs db) := MkPollJob i uuid]> (poll_jobs db)) db
    | (Err e, db') => db' = db ∧ (∃ k j, poll_jobs db !! k = Some j ∧ pj_correlation_id j = uuid) ∧
        e = IntegrityError (UniqueFailed "poll_jobs.correlation_id")
    end) as Hq.
  { unfold Scheduler.enqueue_poll_job. destruct (any_row _ _) eqn:Ea.
    - split; [done|]. split; [|done]. apply any_row_true in Ea as (k&j&Hj&E).
      apply bool_decide_eq_true in E. eauto.
    - rewrite decide_True by (rewrite Hrow; by eexists). done. }
  pose proof (Scheduler.is_paused_spec db i now) as Hp. unfold Scheduler._is_paused in Hp.
  assert (∀ p, ChannelStates.get_state i db ≫= ChannelStates.paused_until = Some p →
    Scheduler.at_instant (Scheduler.pause_of db i) = Some (instant p) ∧ _normalize_datetime p = p) as Hat.
  { unfold ChannelStates.get_state, Scheduler.pause_of, Scheduler.at_instant.
    destruct (channel_states db !! i) as [st|]; simpl; [|done].
    destruct (cs_paused_until st) as [q|]; simpl; [|done]. intros p [= <-].
    by rewrite normalize_idem. }
  destruct (ChannelStates.get_state i db ≫= ChannelStates.paused_until) as [p|] eqn:Epause.
  - destruct (Hat p eq_refl) as [Hi Hn]. rewrite Hn in Hp. destruct (dt_lt now p) eqn:El.
    + split; [done|]. right. left. exists p. split_and!; [done| |done..].
      by apply Z.ltb_lt in El.
    + destruct (Scheduler.enqueue_poll_job i uuid db) as [[job|e] db'].
      * destruct Hq as [-> ->]. split_and!; [done| |done..]. by apply Hp.
      * destruct Hq as [-> ?]. eauto.
  - destruct (Scheduler.enqueue_poll_job i uuid db) as [[job|e] db'].
    + destruct Hq as [-> ->]. split_and!; [done| |done..]. by apply Hp.
    + destruct Hq as [-> ?]. eauto.
Qed.

(** A tick selects only channels that may be polled. *)
Lemma selected_open interval jitter now db l i row :
  Scheduler._select_eligible_channels interval jitter now db = Ok l → i ∈ l →
  channels db !! i = Some row →
  ch_is_enabled row = true ∧
  ∀ p, Scheduler.at_instant (Scheduler.pause_of db i) = Some p → p ≤ instant now.
Proof.
  unfold Scheduler._select_eligible_channels. intros Hsel Hin Hrow.
  apply Scheduler.select_eligible_spec in Hsel as [Hl _]; [|done].
  apply Hl in Hin as (Hs&Hp&_). split; [|done].
  apply Channels.elem_of_schedulable in Hs as (c&a&Hc&He&_). congruence.
Qed.

(** What an answer built from the stored row and state says of polling. *)
Lemma open_stored db i c now :
  open_for_polling (ChannelsApi._to_channel_response c (ChannelStates.get_state i db)) now ↔
  Channels.is_enabled c = true ∧
  ∀ p, Scheduler.at_instant (Scheduler.pause_of db i) = Some p → p ≤ instant now.
Proof.
  unfold open_for_polling, ChannelsApi._to_channel_response, Scheduler.at_instant,
    Scheduler.pause_of, ChannelStates.get_state. cbn [ChannelsApi.is_enabled ChannelsApi.paused_until].
  apply and_iff_compat_l. destruct (channel_states db !! i) as [st|]; simpl; [|naive_solver].
  destruct (cs_paused_until st); simpl; naive_solver.
Qed.

(** Both ways to a poll job, against an answer that shows what is stored. *)
Lemma polling_obeys db i row resp :
  channels db !! i = Some row →
  resp = ChannelsApi._to_channel_response (Channels._decode_channel_row i row)
           (ChannelStates.get_state i db) →
  (∀ now uuid,
     match JobsApi.poll_now now uuid i db with
     | (Ok r, db') => open_for_polling resp now ∧ r = JobsApi.MkPollNow i uuid ∧
         db' = set_poll_jobs (<[next_id (poll_jobs db) := MkPollJob i uuid]> (poll_jobs db)) db
     | (Err e, db') => db' = db ∧ refusal i uuid resp now (poll_jobs db) e
     end) ∧
  (∀ interval jitter now l,
     Scheduler._select_eligible_channels interval jitter now db = Ok l → i ∈ l →
     open_for_polling resp now).
Proof.
  intros Hrow ->. split.
  - intros now uuid. pose proof (poll_now_spec now uuid i db row Hrow) as H.
    destruct (JobsApi.poll_now now uuid i db) as [[r|e] db']; [rewrite open_stored; tauto|].
    destruct H as [-> H]. split; [done|]. unfold refusal.
    cbn [ChannelsApi.is_enabled ChannelsApi.paused_until ChannelsApi._to_channel_response
      Channels.is_enabled Channels._decode_channel_row].
    destruct H as [?|[(p&Hp&Hl&He&->)|?]]; [by left|right; left; by exists p|by right; right].
  - intros interval jitter now l Hsel Hin. apply open_stored. by eapply selected_open.
Qed.

(** The times of the polling state after a patch. *)
Lemma patched_times i payload db db' :
  channel_states db' !! i = patched_state payload (channel_states db !! i) →
  Scheduler.at_instant (Scheduler.pause_of db' i) =
    Scheduler.at_instant (default (Scheduler.pause_of db i) (ChannelsApi.p_paused_until payload)) ∧
  Scheduler.at_instant (Scheduler.success_of db' i) =
    Scheduler.at_instant (default (Scheduler.success_of db i) (ChannelsApi.p_last_success_at payload)) ∧
  (channel_states db' !! i ≫= cs_cursor) = (channel_states db !! i ≫= cs_cursor).
Proof.
  unfold Scheduler.pause_of, Scheduler.success_of, Scheduler.at_instant, patched_state. intros ->.
  destruct (ChannelsApi.p_paused_until payload) as [pause|],
    (ChannelsApi.p_last_success_at payload) as [success|]; simpl;
    destruct (channel_states db !! i) as [ [c [p|] [q|] ]|]; simpl; by rewrite ?normalize_idem.
Qed.

(** C3. What a change of a channel does, and what it means for polling. PATCH fails, and then
    changes nothing, exactly for a channel that does not exist (404) and for a null name or
    enabled flag (400). Otherwise exactly the fields it sets are replaced, the others, the
    cursor, every other channel and every other table stay, and the answer shows what is
    stored. From then on both ways to a poll job obey the answer: at any time, polling on
    request adds exactly one job with its correlation id if the channel is enabled and its
    pause has run out, refuses it as disabled or as paused otherwise, and can fail besides
    only for a correlation id in use; and a tick of the scheduler never selects the channel
    while it is disabled or paused. Likewise DELETE without purge disables the channel, so
    that it is refused and not selected at any time. *)
Theorem channel_changes_polling i payload now_text db :
  match ChannelsApi.patch_channel i payload db with
  | (Err e, db') =>
      db' = db ∧
      (e = _channel_not_found i ∧ channels db !! i = None ∨
       is_Some (channels db !! i) ∧ (∃ msg, e = HTTPException 400 msg) ∧
         (ChannelsApi.p_name payload = Some None ∨ ChannelsApi.p_is_enabled payload = Some None))
  | (Ok resp, db') =>
      ∃ row row', channels db !! i = Some row ∧ channels db' = <[i := row']> (channels db) ∧
      ch_account_id row' = ch_account_id row ∧
      ch_telegram_channel_id row' = ch_telegram_channel_id row ∧
      Some (ch_name row') = default (Some (ch_name row)) (ChannelsApi.p_name payload) ∧
      ch_username row' = default (ch_username row) (ChannelsApi.p_username payload) ∧
      Some (ch_is_enabled row') =
        default (Some (ch_is_enabled row)) (ChannelsApi.p_is_enabled payload) ∧
      Scheduler.at_instant (Scheduler.pause_of db' i) =
        Scheduler.at_instant (default (Scheduler.pause_of db i) (ChannelsApi.p_paused_until payload)) ∧
      Scheduler.at_instant (Scheduler.success_of db' i) =
        Scheduler.at_instant
          (default (Scheduler.success_of db i) (ChannelsApi.p_last_success_at payload)) ∧
      (channel_states db' !! i ≫= cs_cursor) = (channel_states db !! i ≫= cs_cursor) ∧
      (∀ j, j ≠ i → channel_states db' !! j = channel_states db !! j) ∧
      set_channels (channels db) (set_channel_states (channel_states db) db') = db ∧
      resp = ChannelsApi._to_channel_response (Channels._decode_channel_row i row')
               (ChannelStates.get_state i db') ∧
      (∀ now uuid,
         match JobsApi.poll_now now uuid i db' with
         | (Ok r, db'') => open_for_polling resp now ∧ r = JobsApi.MkPollNow i uuid ∧
             db'' = set_poll_jobs (<[next_id (poll_jobs db') := MkPollJob i uuid]> (poll_jobs db')) db'
         | (Err e, db'') => db'' = db' ∧ refusal i uuid resp now (poll_jobs db') e
         end) ∧
      (∀ interval jitter now l,
         Scheduler._select_eligible_channels interval jitter now db' = Ok l → i ∈ l →
         open_for_polling resp now)
  end ∧
  match ChannelsApi.delete_channel now_text false i db with
  | (Err e, db') => db' = db ∧ channels db !! i = None ∧ e = _channel_not_found i
  | (Ok resp, db') =>
      ∃ row, channels db !! i = Some row ∧
      db' = set_channels (<[i := MkChannel (ch_account_id row) (ch_telegram_channel_id row)
                                   (ch_name row) (ch_username row) false]> (channels db)) db ∧
      ChannelsApi.is_enabled resp = false ∧
      (∀ now uuid, JobsApi.poll_now now uuid i db' = (Err (JobsApi._channel_disabled i), db')) ∧
      (∀ interval jitter now l,
         Scheduler._select_eligible_channels interval jitter now db' = Ok l → i ∉ l)
  end.
Proof.
  split.
  - pose proof (patch_channel_spec i payload db) as H.
    destruct (ChannelsApi.patch_channel i payload db) as [[resp|e] db']; [|exact H].
    destruct H as (row&row'&Hrow&Hch&Ha&Ht&Hn&Hu&He&Hs&Ho&Hdb&->).
    destruct (patched_times i payload db db' Hs) as (Hpause&Hsuccess&Hcursor).
    assert (channels db' !! i = Some row') as Hrow' by (by rewrite Hch, lookup_insert_eq).
    destruct (polling_obeys db' i row' _ Hrow' eq_refl) as [Hpoll Hsel].
    exists row, row'. by split_and!.
  - unfold ChannelsApi.delete_channel, Channels.disable_channel, Channels._set_enabled_state,
      Channels.update_row.
    destruct (channels db !! i) as [row|] eqn:Hrow; [|done]. exists row.
    set (row' := MkChannel _ _ _ _ false). set (db' := set_channels _ _).
    assert (channels db' !! i = Some row') as Hrow' by apply lookup_insert_eq.
    split_and!; try done.
    + intros now uuid. unfold JobsApi.poll_now, Channels.get_channel_by_id. by rewrite Hrow'.
    + intros interval jitter now l Hsel Hin.
      by destruct (selected_open _ _ _ _ _ _ _ Hsel Hin Hrow') as [? _].
Qed.

(** Pausing channel 1 of the sample database until noon of the next day, and polling it
    before and after. *)
Lemma channel_changes_polling_at_work :
  let pause := utc_day 738948 43200 in
  let db' := (ChannelsApi.patch_channel 1
    (ChannelsApi.MkPatch None None None (Some (Some pause)) None) sample_db).2 in
  (JobsApi.poll_now (utc_day 738948 43199) (u "c-9") 1 db').1 =
    Err (JobsApi._channel_paused 1 pause) ∧
  (JobsApi.poll_now pause (u "c-9") 1 db').1 = Ok (JobsApi.MkPollNow 1 (u "c-9")).
Proof. vm_compute. by split. Qed.





End Requests.
