(* ===== verification/WriterQueue.v ===== *)
(** The writer queue (src/tca/storage/writer_queue.py): one worker task that runs the
    submitted write operations one at a time, as a step relation over the interleavings
    of callers, the worker and shutdown. *)

From S2P Require Import Prelude.

Module WriterQueue.

(** * State

    A job is named by the order in which it is created. The completion future of a job
    is absent from [completions] while pending. [accepted] and [started] record the
    history: the jobs put on the queue and those whose operation was run. *)

Inductive outcome :=
  | Result        (** [set_result] *)
  | Raised        (** [set_exception] with the operation's exception *)
  | Rejected      (** [set_exception] with [WriterQueueClosedError] *)
  | Cancelled.    (** the caller's await was cancelled *)

Inductive worker :=
  | NoWorker
  | Waiting
  | Executing (j : nat)
  | Stopped.

Record state := MkState {
  closed : bool;
  worker_task : worker;
  queue : list (option nat);
  completions : gmap nat outcome;
  accepted : list nat;
  started : list nat;
}.

Definition init : state := MkState false NoWorker [] ∅ [] [].

(** [_ensure_worker_locked]: a worker that has not started or is done is replaced. *)
Definition _ensure_worker_locked (w : worker) : worker :=
  match w with NoWorker | Stopped => Waiting | w => w end.

(** Complete a future that is still pending. *)
Definition complete (j : nat) (o : outcome) (m : gmap nat outcome) : gmap nat outcome :=
  match m !! j with Some _ => m | None => <[j := o]> m end.

(** The drain in the worker's [finally]: reject what is left on the queue. *)
Fixpoint reject_all (q : list (option nat)) (m : gmap nat outcome) : gmap nat outcome :=
  match q with
  | [] => m
  | Some j :: q => reject_all q (complete j Rejected m)
  | None :: q => reject_all q m
  end.

(** * Steps

    [submit] and [close] hold the lifecycle lock over their whole effect on the queue,
    so each is one step; the awaits that follow change nothing. *)

Inductive step : state → state → Prop :=
  | step_submit w q m acc st j :
      j ∉ acc →
      step (MkState false w q m acc st)
           (MkState false (_ensure_worker_locked w) (q ++ [Some j]) m (acc ++ [j]) st)
  | step_close_idle q m acc st :
      step (MkState false NoWorker q m acc st) (MkState true NoWorker q m acc st)
  | step_close w q m acc st :
      w ≠ NoWorker →
      step (MkState false w q m acc st) (MkState true w (q ++ [None]) m acc st)
  | step_take c j q m acc st :
      step (MkState c Waiting (Some j :: q) m acc st)
           (MkState c (Executing j) q m acc (st ++ [j]))
  | step_stop c q m acc st :
      step (MkState c Waiting (None :: q) m acc st)
           (MkState c Stopped [] (reject_all q m) acc st)
  | step_finish c j o q m acc st :
      o = Result ∨ o = Raised →
      step (MkState c (Executing j) q m acc st)
           (MkState c Waiting q (complete j o m) acc st)
  | step_crash_executing c j q m acc st :
      step (MkState c (Executing j) q m acc st)
           (MkState c Stopped [] (reject_all q (complete j Rejected m)) acc st)
  | step_crash_waiting c q m acc st :
      step (MkState c Waiting q m acc st)
           (MkState c Stopped [] (reject_all q m) acc st)
  | step_cancel c w q m acc st j :
      j ∈ acc →
      step (MkState c w q m acc st) (MkState c w q (complete j Cancelled m) acc st).

(** [submit] on a closed queue raises and enqueues nothing. *)
Definition submit_raises (s : state) : bool := closed s.

Definition steps : state → state → Prop := rtc step.
Definition reachable (s : state) : Prop := steps init s.

(** The worker left to itself, with the outcome each operation has: it runs until it
    meets the sentinel ([true]) or an empty queue ([false]). *)
Fixpoint run_queue (exec : nat → outcome) (q : list (option nat)) (m : gmap nat outcome)
    (st : list nat) : bool * list (option nat) * gmap nat outcome * list nat :=
  match q with
  | [] => (false, [], m, st)
  | None :: q => (true, [], reject_all q m, st)
  | Some j :: q => run_queue exec q (complete j (exec j) m) (st ++ [j])
  end.

Definition run_worker (exec : nat → outcome) (s : state) : state :=
  let '(stopped, q, m, st) := run_queue exec (queue s) (completions s) (started s) in
  MkState (closed s) (if stopped : bool then Stopped else Waiting) q m (accepted s) st.

(** * Invariant *)

(** The jobs waiting on a queue. *)
Definition jobs (q : list (option nat)) : list nat := omap id q.

Record invariant (s : state) : Prop := {
  inv_nodup : NoDup (accepted s);
  inv_fifo : started s ++ jobs (queue s) `sublist_of` accepted s;
  inv_resolved j : j ∈ accepted s →
    is_Some (completions s !! j) ∨ j ∈ jobs (queue s) ∨ worker_task s = Executing j;
  inv_started j : worker_task s = Executing j → j ∈ started s;
  inv_known j : is_Some (completions s !! j) → j ∈ accepted s;
  inv_open : closed s = false → None ∉ queue s;
  inv_closed : closed s = true → worker_task s ≠ NoWorker →
    worker_task s = Stopped ∨ ∃ q, queue s = q ++ [None] ∧ None ∉ q;
  inv_idle : worker_task s = NoWorker → accepted s = [] ∧ queue s = [];
  inv_stopped : worker_task s = Stopped → jobs (queue s) = [];
}.

Lemma jobs_app q r : jobs (q ++ r) = jobs q ++ jobs r.
Proof. apply omap_app. Qed.

Lemma elem_of_jobs j q : j ∈ jobs q ↔ Some j ∈ q.
Proof.
  unfold jobs. rewrite list_elem_of_omap. split; [|naive_solver].
  by intros (o&Ho&E); simpl in E; subst o.
Qed.

Lemma complete_Some j o m k :
  is_Some (complete j o m !! k) ↔ is_Some (m !! k) ∨ k = j.
Proof.
  unfold complete. destruct (m !! j) as [x|] eqn:E.
  - split; [tauto|]. intros [?| ->]; [done|by eexists].
  - rewrite lookup_insert. case_decide; subst; [|naive_solver].
    split; [naive_solver|]. intros _. by eexists.
Qed.

Lemma reject_all_Some q m k :
  is_Some (reject_all q m !! k) ↔ is_Some (m !! k) ∨ k ∈ jobs q.
Proof.
  revert m. induction q as [|[j|] q IH]; intros m; simpl.
  - set_solver.
  - rewrite IH, complete_Some, elem_of_cons. tauto.
  - apply IH.
Qed.

Lemma complete_keeps j o m k x : m !! k = Some x → complete j o m !! k = Some x.
Proof.
  intros H. unfold complete. destruct (m !! j) eqn:E; [done|].
  rewrite lookup_insert_ne; [done|]. congruence.
Qed.

Lemma sublist_drop_r (l k m : list nat) : l ++ k `sublist_of` m → l `sublist_of` m.
Proof. intros H. etransitivity; [|exact H]. by apply sublist_inserts_r. Qed.

Lemma invariant_init : invariant init.
Proof.
  split; simpl; try done; [apply NoDup_nil_2|intros j Hj; by apply elem_of_nil in Hj| |].
  - intros j [x Hx]. by rewrite lookup_empty in Hx.
  - intros _. apply not_elem_of_nil.
Qed.

Lemma invariant_submit w q m acc st j :
  j ∉ acc → invariant (MkState false w q m acc st) →
  invariant (MkState false (_ensure_worker_locked w) (q ++ [Some j]) m (acc ++ [j]) st).
Proof.
  intros Hj [Hn Hf Hr Hs Hk Ho Hc Hi Ht]. simpl in *. split; simpl.
  - apply NoDup_app. split_and!; [done|set_solver|apply NoDup_singleton].
  - rewrite jobs_app, app_assoc. by apply sublist_app.
  - intros k. rewrite jobs_app, !elem_of_app. simpl. intros [H|H%list_elem_of_singleton].
    + destruct (Hr k H) as [?|[?|E]]; [tauto|tauto|]. right. right. by rewrite E.
    + subst. right. left. right. by left.
  - intros k. destruct w; simpl; try done. apply Hs.
  - intros k H. apply elem_of_app. left. by apply Hk.
  - intros _. specialize (Ho eq_refl). set_solver.
  - done.
  - by destruct w.
  - by destruct w.
Qed.

Lemma invariant_close w q m acc st :
  w ≠ NoWorker → invariant (MkState false w q m acc st) →
  invariant (MkState true w (q ++ [None]) m acc st).
Proof.
  intros Hw [Hn Hf Hr Hs Hk Ho Hc Hi Ht]. simpl in *.
  assert (jobs (q ++ [None]) = jobs q) as Ej by (rewrite jobs_app; simpl; apply app_nil_r).
  split; simpl; rewrite ?Ej; try done. intros _ _. right. exists q. split; [done|by apply Ho].
Qed.

Lemma invariant_take c j q m acc st :
  invariant (MkState c Waiting (Some j :: q) m acc st) →
  invariant (MkState c (Executing j) q m acc (st ++ [j])).
Proof.
  intros [Hn Hf Hr Hs Hk Ho Hc Hi Ht]. simpl in *. split; simpl; try done.
  - by rewrite <-app_assoc.
  - intros k H. destruct (Hr k H) as [?|[Hin|?]]; [tauto| |done].
    simpl in Hin. apply elem_of_cons in Hin as [->|?]; tauto.
  - intros k [= <-]. apply elem_of_app. right. by left.
  - intros H Hin. apply (Ho H). by right.
  - intros H _. right. destruct (Hc H) as [?|(q'&Eq&Hq')]; [done..|].
    destruct q' as [|o q']; [done|]. injection Eq as <- ->. exists q'. split; [done|].
    intros Hin. apply Hq'. by right.
Qed.

(** The worker ends, for whatever reason, with the queue drained. *)
Lemma invariant_drained c w q m m' acc st :
  (∀ k, is_Some (m' !! k) ↔ is_Some (m !! k) ∨ w = Executing k) →
  w ≠ NoWorker → invariant (MkState c w q m acc st) →
  invariant (MkState c Stopped [] (reject_all q m') acc st).
Proof.
  intros Hm Hw [Hn Hf Hr Hs Hk Ho Hc Hi Ht]. simpl in *. split; simpl; try done.
  - rewrite app_nil_r. by eapply sublist_drop_r.
  - intros k H. left. rewrite reject_all_Some, Hm. destruct (Hr k H) as [?|[?|?]]; tauto.
  - intros k. rewrite reject_all_Some, Hm. intros [[H|H]|H]; [by apply Hk| |].
    + eapply elem_of_sublist; [by apply Hs|]. by eapply sublist_drop_r.
    + eapply elem_of_sublist; [|exact Hf]. apply elem_of_app. by right.
  - set_solver.
  - tauto.
Qed.

Lemma invariant_finish c j o q m acc st :
  invariant (MkState c (Executing j) q m acc st) →
  invariant (MkState c Waiting q (complete j o m) acc st).
Proof.
  intros [Hn Hf Hr Hs Hk Ho Hc Hi Ht]. simpl in *. split; simpl; try done.
  - intros k H. rewrite complete_Some. destruct (Hr k H) as [?|[?|[= ->]]]; tauto.
  - intros k. rewrite complete_Some. intros [H|E]; [by apply Hk|subst k].
    eapply elem_of_sublist; [by apply Hs|]. by eapply sublist_drop_r.
  - intros H _. destruct (Hc H) as [?|?]; [done|done|by right].
Qed.

Lemma invariant_step s s' : step s s' → invariant s → invariant s'.
Proof.
  destruct 1; intros I.
  - by apply invariant_submit.
  - destruct I as [Hn Hf Hr Hs Hk Ho Hc Hi Ht]. simpl in *. by split.
  - by apply invariant_close.
  - by apply invariant_take.
  - eapply (invariant_drained c Waiting (None :: q) m m); [naive_solver|done|done].
  - by apply invariant_finish.
  - eapply (invariant_drained c (Executing j) q m); [|done|done].
    intros k. rewrite complete_Some. naive_solver.
  - eapply (invariant_drained c Waiting q m m); [naive_solver|done|done].
  - destruct I as [Hn Hf Hr Hs Hk Ho Hc Hi Ht]. simpl in *. split; simpl; try done.
    + intros k Hin. rewrite complete_Some. destruct (Hr k Hin) as [?|[?|?]]; tauto.
    + intros k. rewrite complete_Some. intros [Hin|E]; [by apply Hk|by subst k].
Qed.

Lemma invariant_steps s s' : steps s s' → invariant s → invariant s'.
Proof. induction 1; eauto using invariant_step. Qed.

(** C14. Under every interleaving of submissions, worker turns, cancellations, worker
    crashes and shutdown: operations are started in the order in which they were
    submitted and each at most once; at most one runs at a time; and no accepted job is
    lost: it is still queued, is the one being executed, or its caller has its outcome. *)
Theorem fifo_at_most_once s :
  reachable s →
  started s `sublist_of` accepted s ∧ NoDup (started s) ∧
  ∀ j, j ∈ accepted s →
    is_Some (completions s !! j) ∨ Some j ∈ queue s ∨ worker_task s = Executing j.
Proof.
  intros H. pose proof (invariant_steps _ _ H invariant_init) as [Hn Hf Hr Hs Hk Ho Hc Hi Ht].
  assert (started s `sublist_of` accepted s) as Hsub by (by eapply sublist_drop_r).
  split_and!; [done|by eapply sublist_NoDup|].
  intros j Hj. rewrite <-elem_of_jobs. by apply Hr.
Qed.

(** A completed future never changes: whatever happens later, the caller of a job
    keeps the first outcome it got. *)
Theorem outcomes_are_final s s' j o :
  steps s s' → completions s !! j = Some o → completions s' !! j = Some o.
Proof.
  assert (∀ q m k x, m !! k = Some x → reject_all q m !! k = Some x) as Hrej.
  { induction q as [|[i|] q IH]; intros m k x H; simpl; [done| |by apply IH].
    apply IH. by apply complete_keeps. }
  induction 1 as [|s s1 s2 H _ IH]; [done|]. intros Hj. apply IH. clear IH.
  destruct H; simpl in *; eauto using complete_keeps.
Qed.

(** ** Shutdown *)

Lemma closed_accepts_nothing s s' :
  steps s s' → closed s = true → closed s' = true ∧ accepted s' = accepted s.
Proof.
  induction 1 as [|s s1 s2 H _ IH]; [done|]. intros Hc.
  assert (closed s1 = true ∧ accepted s1 = accepted s) as [H1 H2] by (by destruct H).
  destruct (IH H1) as [-> ->]. done.
Qed.

Lemma run_queue_spec exec q m st :
  None ∉ q →
  run_queue exec (q ++ [None]) m st =
    (true, [], foldl (λ m j, complete j (exec j) m) m (jobs q), st ++ jobs q).
Proof.
  revert m st. induction q as [|[j|] q IH]; intros m st Hq; simpl.
  - by rewrite app_nil_r.
  - rewrite IH by set_solver. by rewrite <-app_assoc.
  - destruct Hq. by left.
Qed.

Lemma foldl_complete exec js m j :
  is_Some (foldl (λ m j, complete j (exec j) m) m js !! j) ↔ is_Some (m !! j) ∨ j ∈ js.
Proof.
  revert m. induction js as [|i js IH]; intros m; simpl; [set_solver|].
  rewrite IH, complete_Some, elem_of_cons. tauto.
Qed.

Lemma foldl_complete_exec exec js m j :
  j ∈ js → m !! j = None → foldl (λ m j, complete j (exec j) m) m js !! j = Some (exec j).
Proof.
  revert m. induction js as [|i js IH]; intros m Hj Hm; [by apply elem_of_nil in Hj|].
  simpl. destruct (decide (j = i)) as [->|Hne].
  - assert (∀ js m, m !! i = Some (exec i) →
      foldl (λ m j, complete j (exec j) m) m js !! i = Some (exec i)) as Hkeep.
    { clear. induction js as [|k js IH]; intros m H; simpl; [done|].
      apply IH. by apply complete_keeps. }
    apply Hkeep. unfold complete. rewrite Hm. apply lookup_insert_eq.
  - apply IH; [set_solver|]. unfold complete. destruct (m !! i); [done|].
    by rewrite lookup_insert_ne.
Qed.

(** The worker's own turns are steps of the relation. *)
Lemma run_worker_steps exec c q m acc st :
  (∀ j, exec j = Result ∨ exec j = Raised) →
  steps (MkState c Waiting q m acc st) (run_worker exec (MkState c Waiting q m acc st)).
Proof.
  intros He. unfold run_worker. simpl. revert m st.
  induction q as [|[j|] q IH]; intros m st; simpl.
  - constructor.
  - eapply rtc_l; [apply step_take|]. eapply rtc_l; [apply step_finish, He|]. apply IH.
  - apply rtc_once. constructor.
Qed.

(** C15. Close drains: from any reachable closed state whose worker waits for work, the
    worker's own turns reach the stopped state with an empty queue; every job accepted
    before the close is then resolved, the ones still queued having been run in order
    with their own outcome (unless their caller had given up); and after a close no
    further job is accepted. *)
Theorem close_drains s exec :
  reachable s → closed s = true → worker_task s = Waiting →
  (∀ j, exec j = Result ∨ exec j = Raised) →
  let s' := run_worker exec s in
  steps s s' ∧ worker_task s' = Stopped ∧ queue s' = [] ∧
  started s' = started s ++ jobs (queue s) ∧
  (∀ j, j ∈ accepted s → is_Some (completions s' !! j)) ∧
  (∀ j, j ∈ jobs (queue s) → completions s !! j = None → completions s' !! j = Some (exec j)) ∧
  ∀ s'', steps s s'' → submit_raises s'' = true ∧ accepted s'' = accepted s.
Proof.
  intros H Hcl Hw He. pose proof (invariant_steps _ _ H invariant_init) as I.
  cbv zeta. split.
  { destruct s; simpl in *; subst. by apply run_worker_steps. }
  destruct (inv_closed _ I Hcl) as [E|(q&Eq&Hq)]; [by rewrite Hw| |]; [congruence|].
  unfold run_worker. rewrite Eq, run_queue_spec by done. simpl.
  assert (jobs (q ++ [None]) = jobs q) as -> by (rewrite jobs_app; simpl; apply app_nil_r).
  split_and!; try done.
  - intros j Hj. apply foldl_complete. destruct (inv_resolved _ I j Hj) as [?|[Hin|?]].
    + by left.
    + right. rewrite Eq, jobs_app, elem_of_app in Hin. destruct Hin as [?|Hin]; [done|].
      simpl in Hin. set_solver.
    + congruence.
  - intros j Hj Hm. by apply foldl_complete_exec.
  - intros s'' Hs. unfold submit_raises. by apply closed_accepts_nothing.
Qed.

(** ** Instance: two jobs submitted, then close *)

Definition sample_closed : state :=
  MkState true Waiting [Some 0%nat; Some 1%nat; None] ∅ [0%nat; 1%nat] [].

Lemma sample_closed_reachable : reachable sample_closed.
Proof.
  eapply rtc_l; [apply (step_submit _ _ _ _ _ 0%nat); set_solver|].
  eapply rtc_l; [apply (step_submit _ _ _ _ _ 1%nat); set_solver|].
  apply rtc_once. by apply (step_close Waiting [Some 0%nat; Some 1%nat]).
Qed.

Lemma fifo_at_most_once_witness :
  reachable sample_closed ∧ Some 1%nat ∈ queue sample_closed ∧ NoDup (started sample_closed).
Proof.
  destruct (fifo_at_most_once sample_closed sample_closed_reachable) as (_&Hn&_).
  split_and!; [exact sample_closed_reachable|set_solver|exact Hn].
Defined.

Lemma outcomes_are_final_witness :
  completions (MkState true Stopped [] {[0%nat := Result]} [0%nat] [0%nat]) !! 0%nat = Some Result.
Proof.
  apply (outcomes_are_final (MkState true Waiting [None] {[0%nat := Result]} [0%nat] [0%nat])
    _ 0%nat Result); [|done].
  apply rtc_once. exact (step_stop true [] {[0%nat := Result]} [0%nat] [0%nat]).
Defined.

Lemma close_drains_witness :
  completions (run_worker (λ _, Result) sample_closed) !! 1%nat = Some Result.
Proof.
  destruct (close_drains sample_closed (λ _, Result) sample_closed_reachable eq_refl eq_refl
    ltac:(by left)) as (_&_&_&_&_&H&_).
  apply H; [set_solver|done].
Defined.
End WriterQueue.
