(* ===== verification/Plan.v ===== *)
(** The implementation plan of scripts/codex_plan_cycle_runner.py: its items and criteria, the
    progress, the next item, and the upkeep of the recorded commit. *)

From S2P Require Import Prelude PyValue PyText PyCodec PyRe.
Local Open Scope Z_scope.

Module Plan.
Import PyRe.

Record PlanCriterion := MkCriterion { line_number : Z; checked : bool; text : pystr }.
Record PlanItem := MkItem {
  identifier : pystr;
  title : pystr;
  header_line : Z;
  criteria : list PlanCriterion;
  verification_commands : list pystr;
}.
Record PlanStats := MkStats {
  total_items : Z;
  complete_items : Z;
  total_criteria : Z;
  checked_criteria : Z;
}.

Definition unchecked_criteria (i : PlanItem) : list PlanCriterion :=
  filter (λ c, checked c = false) (criteria i).
Definition is_complete (i : PlanItem) : bool :=
  match criteria i with [] => false | cs => forallb checked cs end.

(** ** The patterns *)
Section patterns.
Context `{UD : UnicodeData, DD : DecimalDigits}.

(** [\w] and [\d] *)
Definition word (c : Z) : bool := isalnum c || (c =? 95).
Definition digit : regex := Class (λ c, if c <? 128 then is_digit c else bool_decide (is_Some (decimal c))).
Definition upper_letter : regex := Class (λ c, (65 <=? c) && (c <=? 90)).
Definition spaces : regex := Star true space.
Definition backtick : Z := 96.
Definition no_backtick : regex := Class (λ c, negb (c =? backtick)).

Definition ITEM_HEADER_RE : regex :=
  seq [Begin; lit (u "###"); plus true space;
       Group (u "1") (seq [char 67; plus true digit; opt upper_letter]);
       spaces; char 45; spaces; Group (u "2") (plus false dot); spaces; End_].
Definition CRITERION_RE : regex :=
  seq [Begin; spaces; char 45; spaces; char 91;
       Group (u "mark") (Class (λ c, (c =? 120) || (c =? 88) || (c =? 32))); char 93;
       plus true space; Group (u "text") (plus false dot); spaces; End_].
Definition VERIFICATION_HEADER_RE : regex :=
  seq [Begin; spaces; char 45; spaces; lit (u "Verification:"); spaces; End_].
Definition VERIFICATION_COMMAND_RE : regex :=
  seq [Begin; spaces; char 45; spaces; char backtick; Group (u "command") (plus true no_backtick);
       char backtick; spaces; End_].

Definition matching (r : regex) (line : pystr) : option captures := match_ word r line.
Definition matches (r : regex) (line : pystr) : bool := bool_decide (is_Some (matching r line)).

(** ** Parsing *)

Record parser := MkParser {
  items : list PlanItem;
  current_id : option pystr;
  current_title : pystr;
  current_header_line : Z;
  current_criteria : list PlanCriterion;
  current_verification_commands : list pystr;
  in_verification_block : bool;
}.
Definition start : parser := MkParser [] None [] 0 [] [] false.

Definition flush_current (p : parser) : list PlanItem :=
  match current_id p with
  | None => items p
  | Some i => items p ++ [MkItem i (current_title p) (current_header_line p) (current_criteria p)
                            (current_verification_commands p)]
  end.

Definition add_criterion (p : parser) (c : PlanCriterion) : parser :=
  MkParser (items p) (current_id p) (current_title p) (current_header_line p)
    (current_criteria p ++ [c]) (current_verification_commands p) (in_verification_block p).
Definition add_command (p : parser) (c : pystr) : parser :=
  MkParser (items p) (current_id p) (current_title p) (current_header_line p)
    (current_criteria p) (current_verification_commands p ++ [c]) (in_verification_block p).
Definition set_block (p : parser) (b : bool) : parser :=
  MkParser (items p) (current_id p) (current_title p) (current_header_line p)
    (current_criteria p) (current_verification_commands p) b.

Definition parse_line (p : parser) (line_number : Z) (line : pystr) : parser :=
  match matching ITEM_HEADER_RE line with
  | Some m => MkParser (flush_current p) (Some (group m (u "1"))) (group m (u "2")) line_number [] [] false
  | None =>
      match current_id p with
      | None => p
      | Some _ =>
          let p :=
            match matching CRITERION_RE line with
            | Some m =>
                let mark := lower (group m (u "mark")) in
                add_criterion p (MkCriterion line_number (bool_decide (mark = u "x")) (group m (u "text")))
            | None => p
            end in
          if matches VERIFICATION_HEADER_RE line then set_block p true
          else if in_verification_block p then
            match matching VERIFICATION_COMMAND_RE line with
            | Some m => add_command p (group m (u "command"))
            | None =>
                if startswith (strip line) (u "- ") && negb (contains line (u "Verification"))
                then set_block p false else p
            end
          else p
      end
  end.

Fixpoint parse_lines (p : parser) (line_number : Z) (lines : list pystr) : parser :=
  match lines with
  | [] => p
  | line :: lines => parse_lines (parse_line p line_number line) (line_number + 1) lines
  end.

(** [content] is the text of the plan file. *)
Definition parse_plan (content : pystr) : list PlanItem :=
  flush_current (parse_lines start 1 (splitlines content)).

Definition compute_stats (items : list PlanItem) : PlanStats :=
  MkStats (Z.of_nat (length items))
    (Z.of_nat (length (filter (λ i, is_complete i = true) items)))
    (Z.of_nat (length (items ≫= criteria)))
    (Z.of_nat (length (filter (λ c, checked c = true) (items ≫= criteria)))).

Fixpoint next_pending_item (items : list PlanItem) : option PlanItem :=
  match items with
  | [] => None
  | i :: items => match unchecked_criteria i with [] => next_pending_item items | _ => Some i end
  end.

(** ** The recorded commit *)

(** The source writes [item_id] into the expression as it is. It is the identifier of a parsed
    item, whose characters stand for themselves there (PlanParse.parse_plan_identifiers); other
    texts are outside this model. *)
Definition item_header_pattern (item_id : pystr) : regex :=
  seq [Begin; lit (u "###"); plus true space; lit item_id; spaces; char 45; spaces; plus true dot; End_].
Definition execution_record_header_pattern : regex :=
  seq [Begin; spaces; char 45; spaces; lit (u "Execution record:"); spaces; End_].
Definition commit_key : regex :=
  seq [plus true space; char 45; plus true space; lit (u "Commit:"); plus true space; char backtick].
Definition commit_line_pattern : regex :=
  seq [Begin; Group (u "1") commit_key;
       Group (u "2") (plus true no_backtick); Group (u "3") (seq [char backtick; Star true dot]); End_].

Definition is_item_header (item_id : pystr) : pystr → bool := matches (item_header_pattern item_id).
Definition is_record_header : pystr → bool := matches execution_record_header_pattern.

Definition short_sha (actual_sha : pystr) : pystr := take 7 actual_sha.

(** The rest of the loop from the current line on, with its two flags. *)
Fixpoint update_lines (item_id actual_sha : pystr) (in_target_item in_execution_record : bool)
    (lines : list pystr) : list pystr :=
  match lines with
  | [] => []
  | line :: lines =>
      if is_item_header item_id line
      then line :: update_lines item_id actual_sha true false lines
      else if in_target_item && startswith line (u "### ") then line :: lines
      else if in_target_item && is_record_header line
      then line :: update_lines item_id actual_sha in_target_item true lines
      else if in_execution_record then
        match matching commit_line_pattern line with
        | Some m =>
            (if bool_decide (group m (u "2") ∈ [short_sha actual_sha; actual_sha]) then line
             else group m (u "1") ++ short_sha actual_sha ++ group m (u "3")) :: lines
        | None => line :: update_lines item_id actual_sha in_target_item in_execution_record lines
        end
      else line :: update_lines item_id actual_sha in_target_item in_execution_record lines
  end.
Definition _update_item_sha (lines : list pystr) (item_id actual_sha : pystr) : list pystr :=
  update_lines item_id actual_sha false false lines.

(** The result tells whether the file is written; [None]: there is no plan file. *)
Definition sync_traceability_sha (plan : option pystr) (item_id actual_sha : pystr)
    : bool * option pystr :=
  match plan with
  | None => (false, None)
  | Some content =>
      let lines := splitlines content in
      let new_lines := _update_item_sha lines item_id actual_sha in
      if decide (new_lines = lines) then (false, Some content)
      else (true, Some (join [10] new_lines ++ [10]))
  end.


(** ** What the upkeep of the recorded commit does *)

(** A commit line: blanks, a dash, blanks, the key, blanks, a backtick, the commit, a backtick. *)
Definition blanks (ws : pystr) : Prop := Forall (λ c, is_space c = true) ws.
Definition commit_prefix (g1 : pystr) : Prop :=
  ∃ ws1 ws2 ws3, (ws1 ≠ [] ∧ blanks ws1) ∧ (ws2 ≠ [] ∧ blanks ws2) ∧ (ws3 ≠ [] ∧ blanks ws3) ∧
    g1 = ws1 ++ [45] ++ ws2 ++ u "Commit:" ++ ws3 ++ [backtick].

Lemma commit_key_parses before s rest caps caps' :
  parses word commit_key before s rest caps caps' ↔ commit_prefix s ∧ caps' = caps.
Proof.
  unfold commit_key, space. split.
  - intros Hm. parse_shape. split; [|done]. match goal with |- commit_prefix (?a ++ _ ++ ?b ++ _ ++ ?c ++ _) => exists a, b, c end.
    by rewrite app_nil_r.
  - intros [(ws1&ws2&ws3&[]&[]&[]&->) ->].
    rewrite <-(app_nil_r [backtick]).
    repeat (eapply parses_seq_intro; [by first [rewrite parses_plus|rewrite parses_char|rewrite parses_lit]|]).
    by apply parses_seq_nil.
Qed.

Lemma blanks_not c ws : blanks ws → is_space c = false → c ∉ ws.
Proof. intros Hw Hc Hin. unfold blanks in Hw. rewrite Forall_forall in Hw. specialize (Hw _ Hin). congruence. Qed.
Lemma commit_prefix_backtick g1 : commit_prefix g1 → ∃ g, g1 = g ++ [backtick] ∧ backtick ∉ g.
Proof.
  intros (ws1&ws2&ws3&[_ H1]&[_ H2]&[_ H3]&->). exists (ws1 ++ [45] ++ ws2 ++ u "Commit:" ++ ws3).
  split; [by rewrite <-!app_assoc|].
  rewrite !not_elem_of_app. split_and!; try by apply blanks_not. all: by apply (bool_decide_unpack _).
Qed.

Lemma no_backtick_forall s : Forall (λ c, negb (c =? backtick) = true) s ↔ backtick ∉ s.
Proof.
  rewrite Forall_forall. split.
  - intros H Hin. by specialize (H _ Hin).
  - intros H c Hc. apply negb_true_iff, Z.eqb_neq. congruence.
Qed.
Lemma dot_forall s : plain s → Forall (λ c, negb (c =? 10) = true) s.
Proof.
  intros H. eapply Forall_impl; [done|]. intros c Hc. apply negb_true_iff, Z.eqb_neq. by intros ->.
Qed.

(** The captures of a commit line are the only way to read it. *)
Definition commit_reading (line g1 sha tail : pystr) : Prop :=
  line = g1 ++ sha ++ (backtick :: tail) ∧ commit_prefix g1 ∧ sha ≠ [] ∧ backtick ∉ sha.
Lemma commit_reading_unique line g1 sha tail g1' sha' tail' :
  commit_reading line g1 sha tail → commit_reading line g1' sha' tail' →
  g1 = g1' ∧ sha = sha' ∧ tail = tail'.
Proof.
  intros (->&(g&->&Hg)%commit_prefix_backtick&_&Hs) (E&(g'&->&Hg')%commit_prefix_backtick&_&Hs').
  rewrite <-!app_assoc in E. cbn [app] in E.
  assert (∀ a t a' t', backtick ∉ a → backtick ∉ a' → a ++ (backtick :: t) = a' ++ (backtick :: t') → a = a' ∧ t = t') as Hu.
  { intros a t a' t' Ha Ha' Et. assert (partition backtick (a ++ backtick :: t) = (a, Some t)) as H1 by by apply partition_app.
    rewrite Et, partition_app in H1 by done. by injection H1 as -> ->. }
  apply Hu in E as [-> E]; [|done..]. apply Hu in E as [-> ->]; done.
Qed.

Lemma commit_line_sound line m :
  plain line → matching commit_line_pattern line = Some m →
  ∃ g1 sha tail, commit_reading line g1 sha tail ∧ m = [(u "3", backtick :: tail); (u "2", sha); (u "1", g1)].
Proof.
  intros Hp (t&q&->&Hm)%match_sound. unfold commit_line_pattern, space, no_backtick, dot in Hm.
  parse_shape. match goal with H : parses _ commit_key _ _ _ _ _ |- _ => apply commit_key_parses in H as [Hk ->] end.
  rewrite (plain_end _ _ Hp) by done.
  match goal with |- context [ (_, ?g) :: (_, ?sha) :: (_, ?g1) :: _ ] => exists g1, sha, (tail g) end.
  split; [|by cbn; rewrite app_nil_r]. split_and!; [|done..|by apply no_backtick_forall].
  by rewrite !app_nil_r.
Qed.
Lemma commit_line_matches line g1 sha tail :
  plain line → commit_reading line g1 sha tail →
  matching commit_line_pattern line = Some [(u "3", backtick :: tail); (u "2", sha); (u "1", g1)].
Proof.
  intros Hp Hr. assert (is_Some (matching commit_line_pattern line)) as [m Hm].
  { destruct Hr as (->&Hg&Hne&Hs). unfold matching. rewrite <-(app_nil_r (g1 ++ _)).
    apply (match_complete word commit_line_pattern _ _ [(u "3", backtick :: tail); (u "2", sha); (u "1", g1)]).
    unfold commit_line_pattern, no_backtick, dot.
    rewrite <-(app_nil_l (g1 ++ _)). eapply parses_seq_intro; [by apply parses_begin|].
    eapply parses_seq_intro; [by apply parses_group; eexists; split; [done|by apply commit_key_parses]|].
    eapply parses_seq_intro; [apply parses_group; eexists; split; [done|]; apply parses_plus; by rewrite no_backtick_forall|].
    apply parses_seq_end, parses_group. eexists. split; [done|]. change (backtick :: tail) with ([backtick] ++ tail).
    eapply parses_seq_intro; [by apply parses_char|]. apply parses_seq_one, parses_star. split; [|done].
    apply dot_forall. rewrite !app_assoc in Hp. by apply Forall_app in Hp as [_ [_ Hp]%Forall_cons]. }
  rewrite Hm. apply commit_line_sound in Hm as (g1'&sha'&tail'&Hr'&->); [|done].
  by destruct (commit_reading_unique _ _ _ _ _ _ _ Hr Hr') as (->&->&->).
Qed.
(** A commit line is none of the lines that delimit items and records. *)
Lemma blanks_prefix a b c d t t' :
  blanks a → blanks b → is_space c = false → is_space d = false →
  a ++ c :: t = b ++ d :: t' → a = b ∧ c = d ∧ t = t'.
Proof.
  intros Ha Hb Hc Hd. revert b Hb. induction Ha as [|x a Hx _ IH]; intros b Hb; destruct Hb as [|y b Hy Hb];
    cbn [app]; intros E; injection E; intros; subst; try congruence.
  - done.
  - destruct (IH b Hb) as (->&->&->); done.
Qed.
Lemma commit_not_heading line g1 sha tail w :
  commit_reading line g1 sha tail → startswith line (u "###" ++ w) = false.
Proof.
  intros (->&([|c ws1]&ws2&ws3&[Hne Hws]&_&_&->)&_); [done|]. inversion Hws as [|x y Hc Hws']; subst.
  change (u "###" ++ w) with (35 :: (u "##" ++ w)). cbn [app startswith].
  destruct (Z.eqb_spec 35 c) as [<-|]; [by vm_compute in Hc|done].
Qed.
Lemma commit_not_header item_id line g1 sha tail :
  commit_reading line g1 sha tail → is_item_header item_id line = false.
Proof.
  intros Hr. apply bool_decide_eq_false. intros [m (t&q&->&Hm)%match_sound].
  unfold item_header_pattern in Hm. parse_shape.
  pose proof (commit_not_heading _ _ _ _ [] Hr) as H'. rewrite app_nil_r in H'. apply not_true_iff_false in H'.
  apply H', startswith_iff. eexists. by rewrite app_nil_l, <-app_assoc.
Qed.
Lemma commit_not_record line g1 sha tail : commit_reading line g1 sha tail → is_record_header line = false.
Proof.
  intros (->&(ws1&ws2&ws3&[_ H1]&[_ H2]&_&->)&_). apply bool_decide_eq_false.
  intros [m (t&q&E&Hm)%match_sound].
  unfold execution_record_header_pattern, spaces, space in Hm. parse_shape.
  rewrite <-!app_assoc in E. cbn [app] in E. apply blanks_prefix in E as (_&_&E); [|done..].
  change (u "Commit:") with (67 :: u "ommit:") in E.
  change (u "Execution record:") with (69 :: u "xecution record:") in E.
  rewrite <-!app_comm_cons in E. by apply blanks_prefix in E as (_&?&_).
Qed.
(** A commit to record: its short form is a non-empty text of one line without backticks. *)
Definition recordable (sha : pystr) : Prop :=
  short_sha sha ≠ [] ∧ (backtick ∉ short_sha sha) ∧ plain (short_sha sha).
Definition replaced (g1 sha tail : pystr) : pystr := g1 ++ short_sha sha ++ (backtick :: tail).

Lemma replaced_reading line g1 old tail sha :
  recordable sha → plain line → commit_reading line g1 old tail →
  plain (replaced g1 sha tail) ∧ commit_reading (replaced g1 sha tail) g1 (short_sha sha) tail.
Proof.
  unfold plain. intros (H1&H2&H3) Hp (->&Hg&_&_). rewrite !Forall_app in Hp. destruct Hp as (?&_&?).
  unfold replaced. split; [by rewrite !Forall_app|done].
Qed.

(** The lines up to the commit line of the item's record, from a state of the loop on. *)
Definition quiet (item_id line : pystr) : Prop :=
  is_item_header item_id line = false ∧ startswith line (u "### ") = false.
Definition no_commit (line : pystr) : Prop := matching commit_line_pattern line = None.
Inductive reaches_record (item_id : pystr) : bool → bool → list pystr → Prop :=
  | reached : reaches_record item_id true true []
  | reaches_header in_item in_record line lines :
      is_item_header item_id line = true → reaches_record item_id true false lines →
      reaches_record item_id in_item in_record (line :: lines)
  | reaches_outside line lines :
      is_item_header item_id line = false → reaches_record item_id false false lines →
      reaches_record item_id false false (line :: lines)
  | reaches_start in_record line lines :
      quiet item_id line → is_record_header line = true → reaches_record item_id true true lines →
      reaches_record item_id true in_record (line :: lines)
  | reaches_inside line lines :
      quiet item_id line → is_record_header line = false → reaches_record item_id true false lines →
      reaches_record item_id true false (line :: lines)
  | reaches_next line lines :
      quiet item_id line → is_record_header line = false → no_commit line →
      reaches_record item_id true true lines → reaches_record item_id true true (line :: lines).

Lemma update_lines_at item_id sha in_item in_record pre line g1 old tail post :
  reaches_record item_id in_item in_record pre → plain line → commit_reading line g1 old tail →
  update_lines item_id sha in_item in_record (pre ++ line :: post) =
  pre ++ (if bool_decide (old ∈ [short_sha sha; sha]) then line else replaced g1 sha tail) :: post.
Proof.
  intros Hr Hp Hc. induction Hr; cbn [app update_lines].
  - pose proof (commit_not_heading _ _ _ _ [32] Hc) as Hn. change (u "###" ++ [32]) with (u "### ") in Hn.
    rewrite (commit_not_header _ _ _ _ _ Hc), Hn, (commit_not_record _ _ _ _ Hc).
    cbn [andb]. rewrite (commit_line_matches _ _ _ _ Hp Hc). unfold replaced.
    by rewrite !group_there, !group_here by done.
  - match goal with H : is_item_header _ _ = true |- _ => rewrite H end. by f_equal.
  - match goal with H : is_item_header _ _ = false |- _ => rewrite H end. cbn [andb]. by f_equal.
  - match goal with H : quiet _ _ |- _ => destruct H as [-> ->] end. cbn [andb].
    match goal with H : is_record_header _ = true |- _ => rewrite H end. by f_equal.
  - match goal with H : quiet _ _ |- _ => destruct H as [-> ->] end. cbn [andb].
    match goal with H : is_record_header _ = _ |- _ => rewrite H end. by f_equal.
  - match goal with H : quiet _ _ |- _ => destruct H as [-> ->] end. cbn [andb].
    match goal with H : is_record_header _ = _ |- _ => rewrite H end.
    match goal with H : no_commit _ |- _ => rewrite H end. by f_equal.
Qed.

(** Every run of the loop ends at that line or leaves the lines alone. *)
Lemma update_lines_cases item_id sha in_item in_record lines :
  (in_record = true → in_item = true) → Forall plain lines →
  update_lines item_id sha in_item in_record lines = lines ∨
  ∃ pre line g1 old tail post, lines = pre ++ line :: post ∧ plain line ∧
    commit_reading line g1 old tail ∧ reaches_record item_id in_item in_record pre.
Proof.
  intros Hio Hp. revert in_item in_record Hio. induction Hp as [|line lines Hl Hp IH]; intros ti te Hio; [by left|].
  cbn [update_lines].
  assert (∀ ti' te' (rest : list pystr), (te' = true → ti' = true) →
    (∀ pre, reaches_record item_id ti' te' pre → reaches_record item_id ti te (line :: pre)) →
    line :: update_lines item_id sha ti' te' lines = line :: lines ∨
    ∃ pre line' g1 old tail post, line :: lines = pre ++ line' :: post ∧ plain line' ∧
      commit_reading line' g1 old tail ∧ reaches_record item_id ti te pre) as Hnext.
  { intros ti' te' _ Hio' Hpre. destruct (IH ti' te' Hio') as [->|(pre&line'&g1&old&tail&post&->&?&?&?)]; [by left|].
    right. exists (line :: pre), line', g1, old, tail, post. split_and!; auto. }
  destruct (is_item_header item_id line) eqn:Eh; [apply Hnext; [done..|by constructor]|].
  destruct ti; cbn [andb].
  - destruct (startswith line (u "### ")) eqn:En; [by left|].
    destruct (is_record_header line) eqn:Er; [apply Hnext; [done..|by constructor]|].
    destruct te; [|apply Hnext; [done..|by constructor]].
    destruct (matching commit_line_pattern line) as [m|] eqn:Em; [|apply Hnext; [done..|by constructor]].
    apply commit_line_sound in Em as (g1&old&tail&Hr&->); [|done]. right.
    exists [], line, g1, old, tail, lines. split_and!; [done..|constructor].
  - destruct te; [by specialize (Hio eq_refl)|]. apply Hnext; [done..|by constructor].
Qed.
(** Where that line is: in the item's section, after its record header, before the next
    heading, with no other commit line in between. *)
Definition in_record_of (item_id : pystr) (pre : list pystr) : Prop :=
  ∃ a h b r c, pre = a ++ h :: b ++ r :: c ∧ is_item_header item_id h = true ∧
    is_record_header r = true ∧ Forall (quiet item_id) (b ++ r :: c) ∧
    Forall (λ l, is_record_header l = false → no_commit l) c.

Lemma reaches_located item_id pre : reaches_record item_id false false pre → in_record_of item_id pre.
Proof.
  assert (∀ ti te, reaches_record item_id ti te pre →
    in_record_of item_id pre ∨
    ti = true ∧ Forall (quiet item_id) pre ∧
      ((∃ b r c, pre = b ++ r :: c ∧ is_record_header r = true ∧
          Forall (λ l, is_record_header l = false → no_commit l) c) ∨
       te = true ∧ Forall (λ l, is_record_header l = false → no_commit l) pre)) as H.
  2:{ intros [?|[? _] ]%H; done. }
  assert (∀ line lines, in_record_of item_id lines → in_record_of item_id (line :: lines)) as Hcons.
  { intros line lines (a&h&b&r&c&->&?). by exists (line :: a), h, b, r, c. }
  induction 1 as [|? ? ? ? Hh _ IH|? ? Hh _ IH|? ? ? Hq Hr _ IH|? ? Hq Hr _ IH|? ? Hq Hr Hn _ IH].
  - right. split_and!; [done|constructor|]. right. split; [done|constructor].
  - left. destruct IH as [?|(_&Hq&[(b&r&c&->&Hr&Hc)|[? _] ])]; [by apply Hcons| |done].
    by exists [], line, b, r, c.
  - left. destruct IH as [?|[? _] ]; [by apply Hcons|done].
  - destruct IH as [?|(_&Hqs&H)]; [left; by apply Hcons|right]. split_and!; [done|by constructor|].
    left. destruct H as [(b&r&c&->&Hr'&Hc)|[_ Hc] ]; [by exists (line :: b), r, c|by exists [], line, lines].
  - destruct IH as [?|(_&Hqs&H)]; [left; by apply Hcons|right]. split_and!; [done|by constructor|].
    left. destruct H as [(b&r&c&->&Hr'&Hc)|[? _] ]; [by exists (line :: b), r, c|done].
  - destruct IH as [?|(_&Hqs&H)]; [left; by apply Hcons|right]. split_and!; [done|by constructor|].
    destruct H as [(b&r&c&->&Hr'&Hc)|[_ Hc] ]; [left; by exists (line :: b), r, c|right].
    split; [done|by constructor].
Qed.

(** The lines before the commit line in a plan with one heading for the item. *)
Definition before_commit (item_id : pystr) (pre : list pystr) : Prop :=
  ∃ a h b r c, pre = a ++ h :: b ++ r :: c ∧
    Forall (λ l, is_item_header item_id l = false) a ∧ is_item_header item_id h = true ∧
    is_record_header r = true ∧ Forall (quiet item_id) (b ++ r :: c) ∧
    Forall (λ l, is_record_header l = false) b ∧ Forall (λ l, is_record_header l = false ∧ no_commit l) c.
Lemma before_commit_reaches item_id pre : before_commit item_id pre → reaches_record item_id false false pre.
Proof.
  intros (a&h&b&r&c&->&Ha&Hh&Hr&[Hqb [Hqr Hqc]%Forall_cons]%Forall_app&Hb&Hc).
  assert (reaches_record item_id true true c) as H0.
  { clear -Hqc Hc. induction Hc as [|line lines [] _ IH]; [constructor|]. inversion Hqc; subst.
    apply reaches_next; auto. }
  assert (reaches_record item_id true false (b ++ r :: c)) as H1.
  { clear -Hqb Hb H0 Hqr Hr. induction Hb as [|line lines Hl _ IH]; [by apply reaches_start|].
    inversion Hqb; subst. apply reaches_inside; auto. }
  clear -Ha Hh H1. induction Ha as [|line lines Hl _ IH]; [by apply reaches_header|].
  by apply reaches_outside.
Qed.

Lemma update_item_sha_cases lines item_id sha :
  Forall plain lines →
  _update_item_sha lines item_id sha = lines ∨
  ∃ pre g1 old tail post, lines = pre ++ (g1 ++ old ++ (backtick :: tail)) :: post ∧
    _update_item_sha lines item_id sha = pre ++ replaced g1 sha tail :: post ∧
    commit_reading (g1 ++ old ++ (backtick :: tail)) g1 old tail ∧ plain (g1 ++ old ++ (backtick :: tail)) ∧
    reaches_record item_id false false pre.
Proof.
  intros Hp. destruct (update_lines_cases item_id sha false false lines) as [?|(pre&line&g1&old&tail&post&E&Hl&Hr&Hpre)];
    [done..|by left|].
  pose proof Hr as (El&_). subst line lines.
  pose proof (update_lines_at _ sha _ _ _ _ _ _ _ post Hpre Hl Hr) as Hu.
  destruct (bool_decide _); [by left|right]. by exists pre, g1, old, tail, post.
Qed.

Lemma update_item_sha_idem lines item_id sha :
  Forall plain lines → recordable sha →
  _update_item_sha (_update_item_sha lines item_id sha) item_id sha = _update_item_sha lines item_id sha.
Proof.
  intros Hp Hs.
  destruct (update_item_sha_cases lines item_id sha Hp) as [E|(pre&g1&old&tail&post&_&->&Hr&Hl&Hpre)]; [by rewrite !E|].
  destruct (replaced_reading _ _ _ _ _ Hs Hl Hr) as [Hp' Hr'].
  unfold _update_item_sha. rewrite (update_lines_at _ sha _ _ _ _ _ _ _ post Hpre Hp' Hr').
  by rewrite bool_decide_true by (left; done).
Qed.

Lemma update_item_sha_plain lines item_id sha :
  Forall plain lines → recordable sha → Forall plain (_update_item_sha lines item_id sha).
Proof.
  intros Hp Hs.
  destruct (update_item_sha_cases lines item_id sha Hp) as [->|(pre&g1&old&tail&post&->&->&Hr&Hl&_)]; [done|].
  destruct (replaced_reading _ _ _ _ _ Hs Hl Hr) as [Hp' _]. rewrite !Forall_app, !Forall_cons in *. by destruct Hp as (?&_&?).
Qed.

(** The file after the synchronisation: its lines, and a second one has nothing to do. *)
Lemma sync_lines content item_id sha :
  recordable sha →
  ∃ text, (sync_traceability_sha (Some content) item_id sha).2 = Some text ∧
    splitlines text = _update_item_sha (splitlines content) item_id sha ∧
    ((sync_traceability_sha (Some content) item_id sha).1 = false → text = content).
Proof.
  intros Hs. unfold sync_traceability_sha. pose proof (splitlines_plain content) as Hp.
  destruct (decide _) as [E|E]; [by exists content|]. eexists. split_and!; [done| |done].
  apply splitlines_join; [|by apply update_item_sha_plain].
  intros En. apply E. rewrite En. by destruct (splitlines content) eqn:Ec; [|cbn in En; repeat case_match].
Qed.

Lemma sync_traceability_sha_spec content item_id sha :
  recordable sha →
  ∃ text, (sync_traceability_sha (Some content) item_id sha).2 = Some text ∧
    ((sync_traceability_sha (Some content) item_id sha).1 = false → text = content) ∧
    sync_traceability_sha (Some text) item_id sha = (false, Some text) ∧
    (∀ pre line g1 old tail post, splitlines content = pre ++ line :: post → before_commit item_id pre →
       commit_reading line g1 old tail → old ∉ [short_sha sha; sha] →
       splitlines text = pre ++ (g1 ++ short_sha sha ++ (backtick :: tail)) :: post) ∧
    (splitlines text = splitlines content ∨
     ∃ pre g1 old tail post, in_record_of item_id pre ∧ commit_prefix g1 ∧
       splitlines content = pre ++ (g1 ++ old ++ (backtick :: tail)) :: post ∧
       splitlines text = pre ++ (g1 ++ short_sha sha ++ (backtick :: tail)) :: post).
Proof.
  intros Hs. destruct (sync_lines content item_id sha Hs) as (text&E&El&En). exists text.
  split_and!; [done|done| | |].
  - unfold sync_traceability_sha. by rewrite El, update_item_sha_idem, decide_True by (done || apply splitlines_plain).
  - intros pre line g1 old tail post Ec Hpre%before_commit_reaches Hr Ho. rewrite El, Ec.
    assert (plain line) as Hl.
    { pose proof (splitlines_plain content) as Hp. rewrite Ec in Hp. by apply Forall_app in Hp as [_ [? _]%Forall_cons]. }
    unfold _update_item_sha. rewrite (update_lines_at _ sha _ _ _ _ _ _ _ post Hpre Hl Hr).
    by rewrite bool_decide_false.
  - rewrite El. destruct (update_item_sha_cases (splitlines content) item_id sha) as [?|H]; [apply splitlines_plain|by left|].
    right. destruct H as (pre&g1&old&tail&post&E1&E2&(_&Hg&_)&_&Hpre). exists pre, g1, old, tail, post.
    split_and!; [by apply reaches_located|done..].
Qed.
End patterns.

End Plan.
