(* ===== verification/PlanParse.v ===== *)
(** Writing a plan and reading it back: a plan in the layout of docs/implementation-plan.md is
    parsed to the items that were written (scripts/codex_plan_cycle_runner.py). The layout
    has the sections of an item and the free text in and between them. *)

From S2P Require Import Prelude PyValue PyText PyCodec PyRe Plan.
Local Open Scope Z_scope.

Module PlanParse.
Import PyRe Plan.

(** ** Plans as they are written *)

(** An item of the document: what becomes part of it, and the lines that do not: those under
    [- Change:], the notes after the commands, and its execution record. *)
Record draft := MkDraft {
  d_identifier : pystr;
  d_title : pystr;
  d_changes : list pystr;
  d_criteria : list (bool * pystr);
  d_commands : list pystr;
  d_notes : list pystr;
  d_record : option (list pystr);
}.

Definition header_text (d : draft) : pystr := u "### " ++ d_identifier d ++ u " - " ++ d_title d.
Definition change_text : pystr := u "- Change:".
Definition acceptance_text : pystr := u "- Acceptance criteria:".
Definition criterion_text (c : bool * pystr) : pystr :=
  u "  - [" ++ [if c.1 then 120 else 32] ++ u "] " ++ c.2.
Definition verification_text : pystr := u "- Verification:".
Definition command_text (c : pystr) : pystr := u "  - `" ++ c ++ u "`".
Definition record_text : pystr := u "- Execution record:".
(** The lines above the criteria, and those below the commands. *)
Definition opening_lines (d : draft) : list pystr :=
  [] :: change_text :: d_changes d ++ [acceptance_text].
Definition record_lines (d : draft) : list pystr :=
  match d_record d with Some lines => record_text :: lines | None => [] end.
Definition item_lines (d : draft) : list pystr :=
  header_text d :: opening_lines d ++ (criterion_text <$> d_criteria d) ++
  verification_text :: (command_text <$> d_commands d) ++ d_notes d ++ record_lines d.
Definition render (preamble : list pystr) (drafts : list draft) : pystr :=
  join [10] (preamble ++ (drafts ≫= item_lines)) ++ [10].

(** The items, with the numbers of their lines. *)
Fixpoint place_criteria (n : Z) (cs : list (bool * pystr)) : list PlanCriterion :=
  match cs with [] => [] | c :: cs => MkCriterion n c.1 c.2 :: place_criteria (n + 1) cs end.
Definition place_item (n : Z) (d : draft) : PlanItem :=
  MkItem (d_identifier d) (d_title d) n
    (place_criteria (n + 4 + Z.of_nat (length (d_changes d))) (d_criteria d)) (d_commands d).
Fixpoint place (n : Z) (drafts : list draft) : list PlanItem :=
  match drafts with
  | [] => []
  | d :: drafts => place_item n d :: place (n + Z.of_nat (length (item_lines d))) drafts
  end.

(** Lines that are no part of an item. A remark is no heading of the third level and no
    bullet. *)
Definition remark (line : pystr) : Prop :=
  startswith line (u "###") = false ∧ head (lstrip line) ≠ Some 45.
(** A bullet with the text [t]. *)
Definition bullet_line (t line : pystr) : Prop :=
  (∃ c r, t = c :: r ∧ is_space c = false) ∧
  ∃ ws ws', blanks ws ∧ blanks ws' ∧ line = ws ++ 45 :: ws' ++ t.
(** Free text: remarks, and bullets other than a checkbox and a verification header. *)
Definition prose (line : pystr) : Prop :=
  plain line ∧
  (remark line ∨ ∃ t, bullet_line t line ∧ head t ≠ Some 91 ∧ ¬ ∃ ws, t = u "Verification:" ++ ws ∧ blanks ws).
(** Below the commands: remarks and rules leave the list of commands open. *)
Definition aside (line : pystr) : Prop := plain line ∧ (remark line ∨ line = u "---").
(** A further bullet, which is no command, closes it. *)
Definition closing (line : pystr) : Prop :=
  plain line ∧ contains line (u "Verification") = false ∧
  ∃ ws c t, blanks ws ∧ line = ws ++ u "- " ++ c :: t ∧ is_space c = false ∧ c ≠ 91 ∧ c ≠ backtick.
Fixpoint notes_ok (lines : list pystr) : Prop :=
  match lines with
  | [] => True
  | line :: lines => (aside line ∧ notes_ok lines) ∨ (closing line ∧ Forall prose lines)
  end.

(** Titles and criteria: one line, with no blanks around. *)
Definition phrase (t : pystr) : Prop :=
  plain t ∧ (∃ c r, t = c :: r ∧ is_space c = false) ∧ (∃ r c, t = r ++ [c] ∧ is_space c = false).
(** [C], digits, perhaps an upper-case letter. *)
Definition identifier_ok (i : pystr) : Prop :=
  ∃ ds l, i = 67 :: ds ++ l ∧ ds ≠ [] ∧ Forall (λ c, is_digit c = true) ds ∧
    (l = [] ∨ ∃ c, l = [c] ∧ (65 <=? c) && (c <=? 90) = true).
Definition command_ok (c : pystr) : Prop := plain c ∧ c ≠ [] ∧ backtick ∉ c.
Definition draft_ok (d : draft) : Prop :=
  identifier_ok (d_identifier d) ∧ phrase (d_title d) ∧
  Forall prose (d_changes d) ∧
  Forall (λ c : bool * pystr, phrase c.2) (d_criteria d) ∧ Forall command_ok (d_commands d) ∧
  notes_ok (d_notes d) ∧ Forall prose (from_option id [] (d_record d)).
(** Before the first item. *)
Definition preamble_ok : list pystr → Prop := Forall (λ l, plain l ∧ startswith l (u "###") = false).

Section parsing.
Context `{UD : UnicodeData, UL : !UnicodeLaws, DD : DecimalDigits}.

(** ** The written lines are read *)

Definition done_ : pystr → pystr → captures → option captures := λ _ _ caps, Some caps.

Lemma run_phrase n before t caps :
  phrase t →
  run word (seq [Group n (plus false dot); spaces; End_]) before t caps done_ = Some ((n, t) :: caps).
Proof.
  intros (Hp&(c&r&Et&_)&(r'&d&Et'&Hd)). rewrite run_seq. cbn [run].
  match goal with |- run _ _ _ _ _ ?k = _ =>
    pose proof (plus_shortest word (λ c, negb (c =? 10)) t [] k caps before ((n, t) :: caps)) as H end.
  rewrite app_nil_r in H. apply H; clear H.
  - by subst t.
  - by apply dot_forall.
  - intros a b E _ Hb. destruct b as [|e b _] using rev_ind; [done|].
    rewrite app_nil_r. apply (run_trailer_none word b e). rewrite app_assoc, Et' in E.
    by apply app_inj_tail in E as [_ <-].
  - cbn [length]. rewrite Nat.sub_0_r, firstn_all. by apply (run_trailer word).
Qed.

Lemma digit_class c : is_digit c = true →
  (if c <? 128 then is_digit c else bool_decide (is_Some (decimal c))) = true.
Proof.
  intros H. pose proof H as H'. unfold is_digit in H'. rewrite andb_true_iff, !Z.leb_le in H'.
  by rewrite (proj2 (Z.ltb_lt c 128)) by lia.
Qed.

Lemma run_identifier i before t caps k x :
  identifier_ok i → k (reverse i ++ before) (32 :: t) caps = Some x →
  run word (seq [char 67; plus true digit; opt upper_letter]) before (i ++ 32 :: t) caps k = Some x.
Proof.
  intros (ds&l&->&Hne&Hds&Hl) Hk. rewrite <-app_comm_cons, <-app_assoc, run_seq, run_char, run_seq.
  apply plus_longest; [done|eapply Forall_impl; [done|apply digit_class]| |].
  - destruct Hl as [->|(c&->&Hc)]; [done|]. cbn [app]. rewrite andb_true_iff, !Z.leb_le in Hc.
    unfold is_digit. rewrite (proj2 (Z.ltb_lt c 128)) by lia. apply andb_false_iff. right. apply Z.leb_gt. lia.
  - rewrite reverse_cons, reverse_app, <-!app_assoc in Hk. rewrite run_seq. unfold opt. cbn [run].
    destruct Hl as [->|(c&->&Hc)]; cbn [app run upper_letter].
    + by rewrite run_nil.
    + rewrite Hc, run_nil. cbn [app] in Hk. by rewrite reverse_singleton in Hk; cbn [app] in Hk; rewrite Hk.
Qed.

Lemma matching_header d :
  identifier_ok (d_identifier d) → phrase (d_title d) →
  matching ITEM_HEADER_RE (header_text d) = Some [(u "2", d_title d); (u "1", d_identifier d)].
Proof.
  intros Hi Ht. pose proof Ht as (_&(c&r&Et&Hc)&_).
  pose proof Hi as (ds&l&Ei&_).
  unfold matching, match_, ITEM_HEADER_RE, header_text. rewrite run_seq. cbn [run].
  change (u "### ") with (u "###" ++ [32]). rewrite <-!app_assoc, run_seq, run_lit, run_seq.
  apply plus_longest; [done|by repeat constructor|by rewrite Ei|]. rewrite run_seq. cbn [run].
  change (u " - " ++ d_title d) with (32 :: 45 :: 32 :: d_title d). apply run_identifier; [done|].
  rewrite length_app, Nat.add_sub, take_app_length, run_seq.
  apply (star_longest word is_space [32]); [by repeat constructor|done|]. rewrite run_seq, run_char, run_seq.
  apply (star_longest word is_space [32]); [by repeat constructor|by rewrite Et|].
  by apply run_phrase.
Qed.

Lemma matching_criterion c :
  phrase c.2 →
  matching CRITERION_RE (criterion_text c) = Some [(u "text", c.2); (u "mark", [if c.1 then 120 else 32])].
Proof.
  destruct c as [b t]. cbn [fst snd]. intros Ht. pose proof Ht as (_&(d&r&Et&Hd)&_).
  unfold matching, match_, CRITERION_RE, criterion_text. cbn [fst snd]. rewrite run_seq. cbn [run]. rewrite run_seq.
  change (u "  - [" ++ ?x) with ([32; 32] ++ 45 :: 32 :: 91 :: x).
  apply (star_longest word is_space [32; 32]); [by repeat constructor|done|]. rewrite run_seq, run_char, run_seq.
  apply (star_longest word is_space [32]); [by repeat constructor|done|]. rewrite run_seq, run_char, run_seq.
  cbn [run app]. assert (((if b then 120 else 32) =? 120) || ((if b then 120 else 32) =? 88) || ((if b then 120 else 32) =? 32) = true)
    as -> by by destruct b.
  cbn [length]. rewrite Nat.sub_succ_l, Nat.sub_diag by done. cbn [take]. 
  change (u "] " ++ t) with (93 :: [32] ++ t). rewrite run_seq, run_char, run_seq.
  apply plus_longest; [done|by repeat constructor|by rewrite Et|]. by apply run_phrase.
Qed.

Lemma matching_command c :
  command_ok c → matching VERIFICATION_COMMAND_RE (command_text c) = Some [(u "command", c)].
Proof.
  intros (Hp&Hne&Hc). unfold matching, match_, VERIFICATION_COMMAND_RE, command_text. rewrite run_seq. cbn [run].
  rewrite run_seq. change (u "  - `" ++ ?x) with ([32; 32] ++ 45 :: [32] ++ backtick :: x).
  apply (star_longest word is_space [32; 32]); [by repeat constructor|done|]. rewrite run_seq, run_char, run_seq.
  apply (star_longest word is_space [32]); [by repeat constructor|done|]. rewrite run_seq, run_char, run_seq.
  cbn [run]. change (u "`") with [backtick].
  apply plus_longest; [done|by apply no_backtick_forall|done|].
  rewrite length_app, Nat.add_sub, take_app_length, run_seq, run_char. by apply run_trailer.
Qed.
(** ** And read as nothing else *)

Lemma header_none line : startswith line (u "###") = false → matching ITEM_HEADER_RE line = None.
Proof.
  intros H'. destruct (matching ITEM_HEADER_RE line) as [m|] eqn:E; [exfalso|done].
  apply match_sound in E as (t&q&->&Hm). unfold ITEM_HEADER_RE in Hm. parse_shape.
  apply not_true_iff_false in H'. apply H', startswith_iff. eexists. by rewrite app_nil_l, <-app_assoc.
Qed.

(** A bullet whose text starts with [c]. *)
Definition bullet (c : Z) (line : pystr) : Prop :=
  is_space c = false ∧ ∃ ws ws' t, blanks ws ∧ blanks ws' ∧ line = ws ++ 45 :: ws' ++ c :: t.
Lemma bullet_first c d line ws ws' t :
  bullet c line → line = ws ++ 45 :: ws' ++ d :: t → blanks ws → blanks ws' → is_space d = false → c = d.
Proof.
  intros (Hc&v&v'&t'&Hv&Hv'&->) E Hw Hw' Hd.
  apply blanks_prefix in E as (_&_&E); [|done..]. by apply blanks_prefix in E as (_&->&_).
Qed.
Lemma criterion_none c line : bullet c line → c ≠ 91 → matching CRITERION_RE line = None.
Proof.
  intros Hb Hc. destruct (matching CRITERION_RE line) as [m|] eqn:E; [exfalso|done].
  apply match_sound in E as (t&q&->&Hm). unfold CRITERION_RE, spaces, space, dot in Hm. parse_shape.
  rewrite app_nil_l, <-!app_assoc in Hb. cbn [app] in Hb.
  apply Hc. eapply (bullet_first c 91); [exact Hb|reflexivity|assumption..|done].
Qed.
Lemma verification_none c line : bullet c line → c ≠ 86 → matches VERIFICATION_HEADER_RE line = false.
Proof.
  intros Hb Hc. apply bool_decide_eq_false. intros [m (t&q&->&Hm)%match_sound].
  unfold VERIFICATION_HEADER_RE, spaces, space in Hm. parse_shape.
  change (u "Verification:") with (86 :: u "erification:") in Hb.
  rewrite app_nil_l, <-!app_assoc in Hb. cbn [app] in Hb.
  apply Hc. eapply (bullet_first c 86); [exact Hb|reflexivity|assumption..|done].
Qed.

Lemma criterion_bullet c : bullet 91 (criterion_text c).
Proof. split; [done|]. exists [32; 32], [32]. eexists. split_and!; [by repeat constructor..|reflexivity]. Qed.
Lemma command_bullet c : bullet backtick (command_text c).
Proof. split; [done|]. exists [32; 32], [32]. eexists. split_and!; [by repeat constructor..|reflexivity]. Qed.
Lemma bullet_not_header c line : bullet c line → matching ITEM_HEADER_RE line = None.
Proof.
  intros (Hc&[|w ws]&ws'&t&Hw&_&->); apply header_none; [done|]. inversion Hw as [|x y Hx]; subst.
  change (u "###") with (35 :: u "##"). cbn [app startswith]. destruct (Z.eqb_spec 35 w) as [<-|]; [by vm_compute in Hx|done].
Qed.

(** ** Free text is read as nothing *)

Definition ignored (line : pystr) : Prop :=
  matching ITEM_HEADER_RE line = None ∧ matching CRITERION_RE line = None ∧
  matches VERIFICATION_HEADER_RE line = false.

Lemma lstrip_blanks ws c t : blanks ws → is_space c = false → lstrip (ws ++ c :: t) = c :: t.
Proof. intros Hw Hc. induction Hw as [|w ws Hw _ IH]; cbn [app lstrip]; [by rewrite Hc|by rewrite Hw]. Qed.
Lemma lstrip_keeps c s t : is_space c = false → ∃ p, lstrip (s ++ c :: t) = p ++ c :: t.
Proof.
  intros Hc. induction s as [|d s IH]; cbn [app lstrip]; [rewrite Hc; by exists []|].
  destruct (is_space d); [done|by exists (d :: s)].
Qed.
Lemma strip_prefix s : ∃ r, lstrip s = strip s ++ r.
Proof.
  unfold strip. destruct (lstrip_suffix (reverse (lstrip s))) as [p Hp]. exists (reverse p).
  apply (f_equal reverse) in Hp. by rewrite reverse_app, reverse_involutive in Hp.
Qed.

(** A line that starts with blanks and a dash is no heading and no remark. *)
Lemma dash_not_header ws t : blanks ws → startswith (ws ++ 45 :: t) (u "###") = false.
Proof.
  intros [|w ws' Hw _]; [done|]. change (u "###") with (35 :: u "##"). cbn [app startswith].
  destruct (Z.eqb_spec 35 w) as [<-|]; [by vm_compute in Hw|done].
Qed.
Lemma remark_no_dash line ws t : remark line → blanks ws → line ≠ ws ++ 45 :: t.
Proof. intros [_ Hr] Hw ->. by rewrite lstrip_blanks in Hr. Qed.

(** What the patterns of the document's bullets accept. *)
Lemma criterion_dash line :
  is_Some (matching CRITERION_RE line) →
  ∃ ws ws' t, blanks ws ∧ blanks ws' ∧ line = ws ++ 45 :: ws' ++ 91 :: t.
Proof.
  intros [m (t&q&->&Hm)%match_sound]. unfold CRITERION_RE, spaces, space, dot in Hm. parse_shape.
  rewrite app_nil_l, <-!app_assoc. cbn [app]. eexists _, _, _. by split_and!; [| |reflexivity].
Qed.
Lemma verification_dash line :
  plain line → matches VERIFICATION_HEADER_RE line = true →
  ∃ ws ws' ws'', blanks ws ∧ blanks ws' ∧ blanks ws'' ∧ line = ws ++ 45 :: ws' ++ u "Verification:" ++ ws''.
Proof.
  intros Hp Hm. apply bool_decide_eq_true in Hm as [m (t&q&->&Hm)%match_sound].
  unfold VERIFICATION_HEADER_RE, spaces, space in Hm. parse_shape.
  rewrite (plain_end _ _ Hp) by done.
  rewrite app_nil_l, !app_nil_r. cbn [app]. eexists _, _, _. by split_and!; [| | |reflexivity].
Qed.
Lemma command_dash line :
  is_Some (matching VERIFICATION_COMMAND_RE line) →
  ∃ ws ws' t, blanks ws ∧ blanks ws' ∧ line = ws ++ 45 :: ws' ++ backtick :: t.
Proof.
  intros [m (t&q&->&Hm)%match_sound]. unfold VERIFICATION_COMMAND_RE, spaces, space in Hm. parse_shape.
  rewrite app_nil_l, <-!app_assoc. cbn [app]. eexists _, _, _. by split_and!; [| |reflexivity].
Qed.

Lemma remark_ignored line :
  plain line → remark line → ignored line ∧ matching VERIFICATION_COMMAND_RE line = None.
Proof.
  intros Hp Hr. assert (∀ ws t, blanks ws → line ≠ ws ++ 45 :: t) as Hd by (intros; by apply remark_no_dash).
  split; [split_and!|]; [by apply header_none, Hr| | |]; apply dec_stable; intros Hn.
  - apply not_eq_None_Some, criterion_dash in Hn as (?&?&?&?&_&?). by eapply Hd.
  - apply not_false_iff_true, verification_dash in Hn as (?&?&?&?&_&_&?); [|done]. by eapply Hd.
  - apply not_eq_None_Some, command_dash in Hn as (?&?&?&?&_&?). by eapply Hd.
Qed.
Lemma bullet_ignored t line :
  plain line → bullet_line t line → head t ≠ Some 91 →
  (¬ ∃ ws, t = u "Verification:" ++ ws ∧ blanks ws) → ignored line.
Proof.
  intros Hp ((c&r&->&Hc)&ws&ws'&Hw&Hw'&->) Hh Hv. split_and!; [by apply header_none, dash_not_header| |];
    apply dec_stable; intros Hn.
  - apply not_eq_None_Some, criterion_dash in Hn as (v&v'&t&Hv1&Hv2&E).
    apply blanks_prefix in E as (_&_&E); [|done..]. by apply blanks_prefix in E as (_&->&_).
  - apply not_false_iff_true, verification_dash in Hn as (v&v'&v''&Hv1&Hv2&Hv3&E); [|done].
    apply blanks_prefix in E as (_&_&E); [|done..]. change (u "Verification:") with (86 :: u "erification:") in E.
    rewrite <-app_comm_cons in E. apply blanks_prefix in E as (_&->&->); [|done..]. apply Hv. by exists v''.
Qed.
Lemma prose_ignored line : prose line → ignored line.
Proof. intros [Hp [Hr|(t&Hb&Hh&Hv)]]; [by apply remark_ignored|by eapply bullet_ignored]. Qed.

Lemma contains_part a w b : contains (a ++ w ++ b) w = true.
Proof.
  assert (startswith (w ++ b) w = true) as Hs by by (apply startswith_iff; exists b).
  induction a as [|c a IH]; cbn [app].
  - destruct (w ++ b); cbn [contains]; by rewrite Hs.
  - cbn [contains]. by rewrite IH, orb_true_r.
Qed.
Lemma closing_ignored line : closing line → ignored line.
Proof.
  intros (Hp&Hv&ws&c&t&Hw&->&Hc&Hc1&Hc2). apply (bullet_ignored (c :: t)); [done| |by intros [= ->]|].
  - split; [by exists c, t|]. exists ws, [32]. split_and!; [done|by repeat constructor|done].
  - intros (v&E&_). change (u "Verification:") with (u "Verification" ++ [58]) in E.
    rewrite E, <-app_assoc, app_assoc in Hv. by rewrite contains_part in Hv.
Qed.

(** ** A plan is read back *)

Lemma parse_ignored p n line :
  ignored line → in_verification_block p = false → parse_line p n line = p.
Proof.
  intros (H1&H2&H3) Hb. unfold parse_line. rewrite H1. destruct (current_id p); [|done].
  by rewrite H2, H3, Hb.
Qed.
Lemma parse_prose p n lines rest :
  Forall ignored lines → in_verification_block p = false →
  parse_lines p n (lines ++ rest) = parse_lines p (n + Z.of_nat (length lines)) rest.
Proof.
  intros Hl Hb. revert n. induction Hl as [|line lines Hl _ IH]; intros n; cbn [app parse_lines length].
  - by rewrite Z.add_0_r.
  - rewrite (parse_ignored _ _ _ Hl Hb), IH. f_equal. lia.
Qed.
Lemma parse_aside p n line :
  aside line → in_verification_block p = true → parse_line p n line = p.
Proof.
  intros [Hp Ha] Hb.
  assert (ignored line ∧ matching VERIFICATION_COMMAND_RE line = None ∧
    startswith (strip line) (u "- ") = false) as ((H1&H2&H3)&H4&H5).
  { destruct Ha as [Hr| ->].
    - destruct (remark_ignored _ Hp Hr). split_and!; [done..|]. apply not_true_iff_false.
      intros [r Hs]%startswith_iff. destruct Hr as [_ Hr]. destruct (strip_prefix line) as [r' Hl].
      by rewrite Hl, Hs in Hr.
    - split; [|by vm_compute]. split_and!; by vm_compute. }
  unfold parse_line. rewrite H1. destruct (current_id p); [|done]. by rewrite H2, H3, Hb, H4, H5.
Qed.
Lemma parse_closing p n line :
  current_id p ≠ None → closing line → in_verification_block p = true →
  parse_line p n line = set_block p false.
Proof.
  intros Hid Hl Hb. destruct (closing_ignored _ Hl) as (H1&H2&H3).
  destruct Hl as (_&Hv&ws&c&t&Hw&->&Hc&_&Hc2).
  assert (matching VERIFICATION_COMMAND_RE (ws ++ u "- " ++ c :: t) = None) as H4.
  { apply dec_stable. intros Hn. apply not_eq_None_Some, command_dash in Hn as (v&v'&t'&Hv1&Hv2&E).
    change (u "- " ++ c :: t) with (45 :: [32] ++ c :: t) in E.
    apply blanks_prefix in E as (_&_&E); [|done..]. by apply blanks_prefix in E as (_&?&_); [|by repeat constructor|..]. }
  assert (startswith (strip (ws ++ u "- " ++ c :: t)) (u "- ") = true) as H5.
  { unfold strip. change (u "- " ++ c :: t) with (45 :: [32; c] ++ t). rewrite lstrip_blanks by done.
    rewrite reverse_cons, reverse_app, <-app_assoc. change (reverse [32; c]) with [c; 32]. cbn [app].
    destruct (lstrip_keeps c (reverse t) [32; 45] Hc) as [q ->]. by rewrite reverse_app. }
  unfold parse_line. rewrite H1. destruct (current_id p); [|done]. by rewrite H2, H3, Hb, H4, H5, Hv.
Qed.
Lemma set_block_same p b : in_verification_block p = b → set_block p b = p.
Proof. intros <-. by destruct p. Qed.
Lemma parse_notes p n notes rest :
  current_id p ≠ None → in_verification_block p = true → notes_ok notes →
  ∃ b, parse_lines p n (notes ++ rest) =
    parse_lines (set_block p b) (n + Z.of_nat (length notes)) rest.
Proof.
  intros Hid Hb. revert n. induction notes as [|line notes IH]; intros n Hn; cbn [app parse_lines length].
  - exists true. by rewrite Z.add_0_r, set_block_same.
  - destruct Hn as [[Ha Hn]|[Hc Hn]].
    + rewrite (parse_aside p n line Ha Hb). destruct (IH (n + 1) Hn) as [b ->]. exists b. f_equal. lia.
    + exists false. rewrite (parse_closing p n line Hid Hc Hb), parse_prose; [f_equal; lia| |done].
      eapply Forall_impl; [done|apply prose_ignored].
Qed.
Lemma record_closing : closing record_text.
Proof.
  split_and!; [by apply (bool_decide_unpack (Forall _ _))|done|].
  by exists [], 69, (u "xecution record:"); split_and!; [constructor|..].
Qed.
Lemma parse_record p n d rest :
  current_id p ≠ None → Forall prose (from_option id [] (d_record d)) →
  ∃ b, parse_lines p n (record_lines d ++ rest) =
    parse_lines (set_block p b) (n + Z.of_nat (length (record_lines d))) rest.
Proof.
  intros Hid Hr. unfold record_lines. destruct (d_record d) as [lines|].
  - cbn [from_option id] in Hr. exists false. cbn [app parse_lines length].
    assert (parse_line p n record_text = set_block p false) as ->.
    { destruct (in_verification_block p) eqn:Eb; [by apply parse_closing, Eb; [|apply record_closing]|].
      rewrite set_block_same by done. apply parse_ignored; [apply closing_ignored, record_closing|done]. }
    rewrite parse_prose; [f_equal; lia| |done]. eapply Forall_impl; [done|apply prose_ignored].
  - exists (in_verification_block p). cbn [app length]. by rewrite set_block_same, Z.add_0_r.
Qed.
Lemma parse_preamble n lines rest :
  preamble_ok lines →
  parse_lines start n (lines ++ rest) = parse_lines start (n + Z.of_nat (length lines)) rest.
Proof.
  intros Hl. revert n. induction Hl as [|line lines [_ Hl] _ IH]; intros n; cbn [app parse_lines length].
  - by rewrite Z.add_0_r.
  - assert (parse_line start n line = start) as ->.
    { unfold parse_line. by rewrite (header_none _ Hl). }
    rewrite IH. f_equal. lia.
Qed.

Lemma parse_criteria p n cs lines :
  current_id p ≠ None → in_verification_block p = false → Forall (λ c : bool * pystr, phrase c.2) cs →
  parse_lines p n ((criterion_text <$> cs) ++ lines) =
  parse_lines (MkParser (items p) (current_id p) (current_title p) (current_header_line p)
      (current_criteria p ++ place_criteria n cs) (current_verification_commands p) false)
    (n + Z.of_nat (length cs)) lines.
Proof.
  intros Hid Hb Hcs. revert p n Hid Hb. induction Hcs as [|c cs Hc _ IH]; intros p n Hid Hb.
  - cbn [fmap list_fmap app place_criteria length]. rewrite app_nil_r, Z.add_0_r, <-Hb. by destruct p.
  - cbn [fmap list_fmap app parse_lines]. 
    assert (parse_line p n (criterion_text c) = add_criterion p (MkCriterion n c.1 c.2)) as ->.
    { unfold parse_line. rewrite (bullet_not_header _ _ (criterion_bullet c)).
      destruct (current_id p); [|done]. rewrite (matching_criterion c Hc).
      rewrite (verification_none _ _ (criterion_bullet c)) by done.
      cbn [in_verification_block add_criterion]. rewrite Hb. unfold add_criterion.
      rewrite group_here, group_there, group_here by done. do 4 f_equal.
      rewrite lower_ascii by by destruct (c.1). by destruct (c.1). }
    rewrite IH by done. cbn [items current_id current_title current_header_line current_criteria add_criterion
      current_verification_commands place_criteria length].
    rewrite <-app_assoc. f_equal. lia.
Qed.
Lemma parse_commands p n cs lines :
  current_id p ≠ None → in_verification_block p = true → Forall command_ok cs →
  parse_lines p n ((command_text <$> cs) ++ lines) =
  parse_lines (MkParser (items p) (current_id p) (current_title p) (current_header_line p)
      (current_criteria p) (current_verification_commands p ++ cs) true)
    (n + Z.of_nat (length cs)) lines.
Proof.
  intros Hid Hb Hcs. revert p n Hid Hb. induction Hcs as [|c cs Hc _ IH]; intros p n Hid Hb.
  - cbn [fmap list_fmap app length]. rewrite app_nil_r, Z.add_0_r, <-Hb. by destruct p.
  - cbn [fmap list_fmap app parse_lines].
    assert (parse_line p n (command_text c) = add_command p c) as ->.
    { unfold parse_line. rewrite (bullet_not_header _ _ (command_bullet c)).
      destruct (current_id p); [|done]. rewrite (criterion_none _ _ (command_bullet c)) by done.
      rewrite (verification_none _ _ (command_bullet c)), Hb, (matching_command c Hc) by done.
      by rewrite group_here. }
    rewrite IH by done. cbn [items current_id current_title current_header_line current_criteria add_command
      current_verification_commands length]. rewrite <-app_assoc. f_equal. lia.
Qed.
Lemma opening_ignored d : Forall prose (d_changes d) → Forall ignored (opening_lines d).
Proof.
  intros Hc. unfold opening_lines. rewrite !Forall_cons, Forall_app, Forall_singleton.
  split_and!; [by vm_compute..| |by vm_compute]. eapply Forall_impl; [done|apply prose_ignored].
Qed.
Lemma parse_verification p n :
  current_id p ≠ None → parse_line p n verification_text = set_block p true.
Proof.
  intros Hid. unfold parse_line.
  assert (matching ITEM_HEADER_RE verification_text = None) as -> by by apply header_none.
  destruct (current_id p); [|done]. assert (bullet 86 verification_text) as Hb.
  { split; [done|]. exists [], [32], (u "erification:"). by repeat constructor. }
  rewrite (criterion_none _ _ Hb) by done.
  by assert (matches VERIFICATION_HEADER_RE verification_text = true) as -> by by vm_compute.
Qed.
Lemma parse_item p n d lines :
  draft_ok d →
  ∃ p', flush_current p' = flush_current p ++ [place_item n d] ∧
    parse_lines p n (item_lines d ++ lines) = parse_lines p' (n + Z.of_nat (length (item_lines d))) lines.
Proof.
  intros (Hi&Ht&Hch&Hcs&Hcmds&Hn&Hr). unfold item_lines. rewrite <-app_comm_cons. cbn [parse_lines].
  assert (parse_line p n (header_text d) =
    MkParser (flush_current p) (Some (d_identifier d)) (d_title d) n [] [] false) as ->.
  { unfold parse_line. by rewrite (matching_header d Hi Ht), group_here, group_there, group_here. }
  rewrite <-app_assoc, parse_prose by (try done; by apply opening_ignored).
  rewrite <-app_assoc, parse_criteria by done.
  cbn [items current_id current_title current_header_line current_criteria current_verification_commands].
  rewrite <-app_comm_cons. cbn [parse_lines].
  rewrite parse_verification, <-!app_assoc, parse_commands by done.
  match goal with |- context [parse_lines ?q ?m (d_notes d ++ ?l)] =>
    destruct (parse_notes q m (d_notes d) l) as [b1 ->]; [done..|] end.
  match goal with |- context [parse_lines ?q ?m (record_lines d ++ ?l)] =>
    destruct (parse_record q m d l) as [b2 ->]; [done..|] end.
  eexists. split; [|f_equal].
  - unfold flush_current at 1, place_item. cbn. unfold opening_lines. cbn [length]. rewrite length_app.
    cbn [length]. do 4 f_equal. lia.
  - cbn [length]. rewrite !length_app, length_fmap. cbn [length]. rewrite !length_app, length_fmap. lia.
Qed.

Lemma parse_items p n drafts :
  Forall draft_ok drafts →
  flush_current (parse_lines p n (drafts ≫= item_lines)) = flush_current p ++ place n drafts.
Proof.
  intros Hd. revert p n. induction Hd as [|d drafts Hd _ IH]; intros p n; [cbn; by rewrite app_nil_r|].
  rewrite bind_cons. destruct (parse_item p n d (drafts ≫= item_lines) Hd) as (p'&Hf&->).
  rewrite IH, Hf, <-app_assoc. done.
Qed.

Lemma plain_app s t : plain (s ++ t) ↔ plain s ∧ plain t.
Proof. apply Forall_app. Qed.
Lemma identifier_plain i : identifier_ok i → plain i.
Proof.
  intros (ds&l&->&_&Hds&Hl). constructor; [done|]. apply plain_app. split.
  - eapply Forall_impl; [done|]. intros c Hc. unfold is_digit in Hc. rewrite andb_true_iff, !Z.leb_le in Hc.
    apply bool_decide_eq_false. rewrite !elem_of_cons, elem_of_nil. lia.
  - destruct Hl as [->|(c&->&Hc)]; constructor; [|done]. rewrite andb_true_iff, !Z.leb_le in Hc.
    apply bool_decide_eq_false. rewrite !elem_of_cons, elem_of_nil. lia.
Qed.
Lemma prose_plain lines : Forall prose lines → Forall plain lines.
Proof. intros H. eapply Forall_impl; [done|]. by intros line [? _]. Qed.
Lemma notes_plain notes : notes_ok notes → Forall plain notes.
Proof.
  induction notes as [|line notes IH]; [done|]. intros [[[? _] ?]|[[? _] ?]]; constructor; auto using prose_plain.
Qed.
Lemma literal_plain s : forallb (λ c, negb (line_break c)) s = true → plain s.
Proof.
  intros H. apply Forall_forall. intros c Hc. rewrite forallb_forall in H.
  apply negb_true_iff, H. by apply list_elem_of_In.
Qed.
Lemma item_lines_plain d : draft_ok d → Forall plain (item_lines d).
Proof.
  intros (Hi&Ht&Hch&Hcs&Hcmds&Hn&Hr). unfold item_lines, opening_lines.
  rewrite <-!app_comm_cons, !Forall_cons, !Forall_app, !Forall_cons, !Forall_app, !Forall_fmap. split_and!.
  - unfold header_text. rewrite !plain_app.
    split_and!; [by apply literal_plain|by apply identifier_plain|by apply literal_plain|by destruct Ht].
  - by apply literal_plain.
  - by apply literal_plain.
  - by apply prose_plain.
  - by apply literal_plain.
  - done.
  - eapply Forall_impl; [done|]. intros c [Hc _]. unfold compose, criterion_text. rewrite !plain_app.
    split_and!; [by apply literal_plain|apply literal_plain; by destruct (c.1)|by apply literal_plain|done].
  - by apply literal_plain.
  - eapply Forall_impl; [done|]. intros c [Hc _]. unfold compose, command_text. rewrite !plain_app.
    split_and!; [by apply literal_plain|done|by apply literal_plain].
  - by apply notes_plain.
  - unfold record_lines. destruct (d_record d); [|done]. constructor; [by apply literal_plain|by apply prose_plain].
Qed.

(** ** The identifiers of a parsed plan stand for themselves in an expression *)

Definition metacharacters : pystr := u ".^$*+?{}[]\|()".
Definition literal_text (i : pystr) : Prop := Forall (λ c, c ∉ metacharacters) i.

Lemma header_identifier line m :
  matching ITEM_HEADER_RE line = Some m → literal_text (group m (u "1")).
Proof.
  intros (t&q&->&Hm)%match_sound. unfold ITEM_HEADER_RE, spaces, space, digit, upper_letter, dot in Hm.
  parse_shape. match goal with H : parses _ (opt _) _ ?s _ _ _ |- _ =>
    apply parses_opt in H; assert (literal_text s) as Hl end.
  { match goal with H : _ ∨ _ |- _ => destruct H as [H|[-> _] ]; [parse_shape|constructor] end.
    constructor; [|constructor]. intros Hin.
    assert (Forall (λ c, (65 <=? c) && (c <=? 90) = false) metacharacters) as Hf by by apply (bool_decide_unpack _).
    rewrite Forall_forall in Hf. specialize (Hf _ Hin). cbn beta in *. congruence. }
  match goal with H : _ ∨ _ |- _ =>
    destruct H as [H|[-> ->] ]; [parse_shape|] end; rewrite group_there, group_here by done;
    (constructor; [by apply (bool_decide_unpack _)|]); (apply Forall_app; split; [|by rewrite ?app_nil_r]);
    (eapply Forall_impl; [done|]); intros c Hc Hin; cbn beta in Hc.
  1, 2: assert (Forall (λ c, c < 128 ∧ is_digit c = false) metacharacters) as Hf by (by apply (bool_decide_unpack _));
    rewrite Forall_forall in Hf; destruct (Hf _ Hin) as [Hlt Hd];
    by rewrite (proj2 (Z.ltb_lt c 128) Hlt), Hd in Hc.
Qed.
Lemma parse_lines_identifiers p n lines :
  Forall (λ i, literal_text (identifier i)) (items p) → from_option literal_text True (current_id p) →
  Forall (λ i, literal_text (identifier i)) (flush_current (parse_lines p n lines)).
Proof.
  assert (∀ p, Forall (λ i, literal_text (identifier i)) (items p) →
    from_option literal_text True (current_id p) →
    Forall (λ i, literal_text (identifier i)) (flush_current p)) as Hflush.
  { intros q Hi Hc. unfold flush_current. destruct (current_id q); [|done].
    apply Forall_app. split; [done|]. by constructor. }
  revert p n. induction lines as [|line lines IH]; intros p n Hi Hc; cbn [parse_lines]; [by apply Hflush|].
  apply IH; unfold parse_line; destruct (matching ITEM_HEADER_RE line) as [m|] eqn:Em; cbn [items current_id from_option].
  - by apply Hflush.
  - destruct (current_id p) eqn:Ep; [|done]. repeat case_match; done.
  - by eapply header_identifier.
  - destruct (current_id p) eqn:Ep; [|by rewrite Ep].
    repeat case_match; cbn [current_id set_block add_command add_criterion]; by rewrite Ep.
Qed.
Lemma parse_plan_identifiers content : Forall (λ i, literal_text (identifier i)) (parse_plan content).
Proof. apply parse_lines_identifiers; [constructor|done]. Qed.

(** C37. A plan written in the layout of docs/implementation-plan.md - a preamble, then items
    with their [Change], [Acceptance criteria], [Verification] and [Execution record] sections,
    blank lines, rules and notes between them - is parsed to exactly the items that were
    written: their identifiers, titles, criteria with their state and line numbers, and
    verification commands, in order. Nothing of the free text becomes a criterion or a
    command: a bullet of an execution record is no command, even when it is one in backticks. *)
Theorem parse_render preamble drafts :
  preamble_ok preamble → Forall draft_ok drafts →
  parse_plan (render preamble drafts) = place (1 + Z.of_nat (length preamble)) drafts.
Proof.
  intros Hpre Hd. unfold parse_plan, render.
  assert (Forall plain (preamble ++ (drafts ≫= item_lines))) as Hplain.
  { apply Forall_app. split; [eapply Forall_impl; [exact Hpre|by intros ? [? _]]|].
    apply Forall_bind. eapply Forall_impl; [done|]. apply item_lines_plain. }
  destruct (decide (preamble ++ (drafts ≫= item_lines) = [])) as [E|Hne].
  - apply app_nil in E as [-> E]. destruct drafts; [done|by rewrite bind_cons in E].
  - rewrite splitlines_join, parse_preamble by done. by apply parse_items.
Qed.
End parsing.
(** Two items of a plan: the first is done and has its record, with a command of its own; the
    second has a note instead of a command. *)
Definition sample_preamble : list pystr := [u "# Plan"; []; u "- Rules"; u "## Phase 0"; []].
Definition sample_drafts : list draft :=
  [MkDraft (u "C001") (u "Create the package") [u "  - Add `tca/api`."]
     [(true, u "it imports"); (false, u "it runs")] [u "uv run pytest"] [[]]
     (Some [u "  - Commit: `2b144a7`"; u "  - Verification summary:"; u "    - `uv lock`"; []; u "---"]);
   MkDraft (u "C002A") (u "Second") [] [] [] [u "  - Manual review in `tests`"; []] None].

Lemma phrase_text a m b :
  is_space a = false → is_space b = false → forallb (λ c, negb (line_break c)) (a :: m ++ [b]) = true →
  phrase (a :: m ++ [b]).
Proof. intros Ha Hb Hm. split_and!; [by apply literal_plain|by eexists _, _|by exists (a :: m), b]. Qed.
Lemma prose_bullet ws c t :
  forallb is_space ws = true → is_space c = false → c ≠ 91 → c ≠ 86 →
  forallb (λ c, negb (line_break c)) (ws ++ 45 :: 32 :: c :: t) = true → prose (ws ++ 45 :: 32 :: c :: t).
Proof.
  intros Hw Hc H1 H2 Hp. split; [by apply literal_plain|right]. exists (c :: t). split_and!.
  - split; [by exists c, t|]. exists ws, [32]. split_and!; [|by repeat constructor|done].
    apply Forall_forall. intros d Hd. rewrite forallb_forall in Hw. by apply Hw, list_elem_of_In.
  - by intros [= ->].
  - intros (v&E&_). change (u "Verification:") with (86 :: u "erification:") in E. by injection E as -> _.
Qed.
Lemma sample_drafts_ok : Forall draft_ok sample_drafts.
Proof.
  unfold sample_drafts. repeat (apply Forall_cons; split); [| |done]; split_and!;
    cbn [d_identifier d_title d_changes d_criteria d_commands d_notes d_record from_option id].
  - exists (u "001"), []. split_and!; [done..|by repeat constructor|by left].
  - by apply (phrase_text 67 (u "reate the packag") 101).
  - constructor; [by apply (prose_bullet (u "  ") 65 (u "dd `tca/api`."))|done].
  - constructor; [by apply (phrase_text 105 (u "t import") 115)|constructor; [|done]].
    by apply (phrase_text 105 (u "t run") 115).
  - constructor; [|done]. split_and!; [by apply literal_plain|done|by apply (bool_decide_unpack _)].
  - left. split; [|done]. split; [by apply literal_plain|by left].
  - repeat (apply Forall_cons; split); [by apply (prose_bullet (u "  ") 67 (u "ommit: `2b144a7`"))| | | | |done].
    + split; [by apply literal_plain|right]. exists (u "Verification summary:"). split_and!; [|done|].
      * split; [by eexists _, _|]. exists (u "  "), [32]. by repeat constructor.
      * intros (v&E&_). change (u "Verification summary:") with (u "Verification" ++ 32 :: u "summary:") in E.
        change (u "Verification:") with (u "Verification" ++ [58]) in E. rewrite <-app_assoc in E.
        by apply app_inv_head in E.
    + by apply (prose_bullet (u "    ") 96 (u "uv lock`")).
    + split; [by apply literal_plain|by left].
    + split; [by apply literal_plain|right]. exists (u "--"). split_and!; [|done|by intros (v&E&_)].
      split; [by eexists _, _|]. exists [], []. by repeat constructor.
  - exists (u "002"), [65]. split_and!; [done..|by repeat constructor|right; by exists 65].
  - by apply (phrase_text 83 (u "econ") 100).
  - done.
  - done.
  - done.
  - right. split; [|constructor; [|done]; split; [by apply literal_plain|by left]].
    split_and!; [by apply literal_plain|done|]. exists (u "  "), 77, (u "anual review in `tests`").
    split_and!; [by repeat constructor|done..].
  - done.
Qed.
Lemma sample_preamble_ok : preamble_ok sample_preamble.
Proof. repeat (apply Forall_cons; split); try (split; [by apply literal_plain|done]). done. Qed.

(** The plan as it is written, and the items it is parsed to: the record's command is none of
    the item's. *)
Example sample_rendered :
  take 9 (splitlines (render sample_preamble sample_drafts)) =
    sample_preamble ++ [u "### C001 - Create the package"; []; u "- Change:"; u "  - Add `tca/api`."] ∧
  place 6 sample_drafts =
    [MkItem (u "C001") (u "Create the package") 6
       [MkCriterion 11 true (u "it imports"); MkCriterion 12 false (u "it runs")] [u "uv run pytest"];
     MkItem (u "C002A") (u "Second") 22 [] []].
Proof. split; by vm_compute. Qed.
Lemma parse_render_witness :
  preamble_ok sample_preamble ∧ Forall draft_ok sample_drafts ∧
  parse_plan (render sample_preamble sample_drafts) = place 6 sample_drafts.
Proof.
  split; [exact sample_preamble_ok|split; [exact sample_drafts_ok|] ].
  exact (parse_render sample_preamble sample_drafts sample_preamble_ok sample_drafts_ok).
Defined.

End PlanParse.
