(* ===== verification/PlanChecks.v ===== *)
(** The checks on the implementation plan: the recorded commits
    (scripts/check_execution_record_shas.py) and the mapping of completed criteria to tests
    (scripts/validate_plan_criteria.py). *)

From S2P Require Import Prelude PyValue PyText PyCodec PyRe Plan.
Local Open Scope Z_scope.

Definition PLAN_PATH : pystr := u "docs/implementation-plan.md".
(** The prefix of a complaint about a line. *)
Definition at_line (n : Z) : pystr := PLAN_PATH ++ u ":" ++ str_of_int n ++ u ": ".
Definition newline : pystr := [10].

(** What a run writes, and its exit status or the exception it ends with. *)
Record run_result := MkRun { stdout : pystr; stderr : pystr; status : result exn Z }.

(** [enumerate(lines, start)] *)
Fixpoint enumerate {A} (start : Z) (lines : list A) : list (Z * A) :=
  match lines with [] => [] | line :: lines => (start, line) :: enumerate (start + 1) lines end.

Lemma enumerate_app {A} n (l k : list A) :
  enumerate n (l ++ k) = enumerate n l ++ enumerate (n + Z.of_nat (length l)) k.
Proof.
  revert n. induction l as [|x l IH]; intros n; cbn [app enumerate length].
  - by rewrite Z.add_0_r.
  - rewrite IH. do 3 f_equal. lia.
Qed.
Lemma elem_of_enumerate {A} n (l : list A) i x :
  (i, x) ∈ enumerate n l ↔ ∃ k, l !! k = Some x ∧ i = n + Z.of_nat k.
Proof.
  revert n. induction l as [|y l IH]; intros n; cbn [enumerate].
  - split; [by intros ?%elem_of_nil|]. by intros (k&?&_).
  - rewrite elem_of_cons, IH. split.
    + intros [ [= -> ->]|(k&Hk&->)]; [exists O; split; [done|lia]|exists (S k); split; [done|lia] ].
    + intros ([|k]&Hk&->); [left; injection Hk as ->; f_equal; lia|right]. exists k. split; [done|lia].
Qed.

Lemma bind_nil {A B} (f : A → list B) l : l ≫= f = [] ↔ ∀ x, x ∈ l → f x = [].
Proof.
  induction l as [|x l IH]; [split; [by intros _ x ?%elem_of_nil|done]|]. rewrite bind_cons. split.
  - intros [Hx Hl]%app_nil y [->|Hy]%elem_of_cons; [done|]. by apply IH.
  - intros H. rewrite H, (proj2 IH); [done| |left]. intros y Hy. apply H. by right.
Qed.

Lemma filter_false_nil {A} (f : A → bool) l :
  filter (λ i, f i = false) l = [] ↔ Forall (λ i, f i = true) l.
Proof.
  rewrite Forall_forall. split.
  - intros H i Hi. apply not_false_iff_true. intros Hf.
    assert (i ∈ filter (λ i, f i = false) l) as Hin by by apply list_elem_of_filter.
    rewrite H in Hin. by apply elem_of_nil in Hin.
  - intros H. destruct (filter _ l) as [|i k] eqn:E; [done|].
    assert (i ∈ filter (λ i, f i = false) l) as [Hf Hi]%list_elem_of_filter by (rewrite E; left).
    rewrite (H i Hi) in Hf. done.
Qed.

(** A bounded greedy repetition, [{low,low+more}]. *)
Fixpoint at_most (n : nat) (r : PyRe.regex) : PyRe.regex :=
  match n with O => PyRe.Empty | S n => PyRe.opt (PyRe.Seq r (at_most n r)) end.
Fixpoint at_least (n more : nat) (r : PyRe.regex) : PyRe.regex :=
  match n with O => at_most more r | S n => PyRe.Seq r (at_least n more r) end.

(** ** Recorded commits *)
Module Shas.
Import PyRe.

Section shas.
Context `{UD : UnicodeData}.

Definition COMMIT_LINE_RE : regex :=
  seq [Begin; plus true space; char 45; plus true space; lit (u "Commit:"); plus true space;
       char Plan.backtick; Group (u "sha") (plus true Plan.no_backtick); char Plan.backtick].
Definition hex_lower : regex := Class (λ c, is_digit c || ((97 <=? c) && (c <=? 102))).
Definition VALID_SHA_RE : regex := seq [Begin; at_least 7 33 hex_lower; End_].

Definition error_of (line : Z * pystr) : list pystr :=
  match match_ Plan.word COMMIT_LINE_RE line.2 with
  | None => []
  | Some m =>
      let sha := group m (u "sha") in
      match match_ Plan.word VALID_SHA_RE sha with
      | Some _ => []
      | None => [at_line line.1 ++ u "invalid execution-record SHA '" ++ sha ++
                 u "'. Expected a 7-40 char lowercase hex SHA."]
      end
  end.
Definition errors (lines : list pystr) : list pystr := enumerate 1 lines ≫= error_of.

(** [plan]: the text of the plan file, if it exists. *)
Definition main (plan : option pystr) : run_result :=
  match plan with
  | None => MkRun [] (PLAN_PATH ++ u " does not exist; skipping check." ++ newline) (Ok 0)
  | Some content =>
      let lines := splitlines content in
      match errors lines with
      | [] =>
          let commit_line_count :=
            length (filter (λ ln, is_Some (match_ Plan.word COMMIT_LINE_RE ln)) lines) in
          MkRun (u "Validated execution-record SHAs: " ++ str_of_int (Z.of_nat commit_line_count) ++
                 u " commit lines checked." ++ newline) [] (Ok 0)
      | es => MkRun [] (es ≫= λ e, e ++ newline) (Ok 1)
      end
  end.

(** *** The patterns, read *)

Lemma parses_at_most n p before s rest caps caps' :
  parses Plan.word (at_most n (Class p)) before s rest caps caps' ↔
  (length s <= n)%nat ∧ Forall (λ c, p c = true) s ∧ caps' = caps.
Proof.
  revert before s caps. induction n as [|n IH]; intros before s caps; cbn [at_most].
  - split; [intros H; by inversion H|]. intros (H&_&->). destruct s; [constructor|cbn in H; lia].
  - rewrite parses_opt. split.
    + intros [H|[-> ->] ]; [|split_and!; [cbn; lia|constructor|done] ].
      inversion H as [| |??????? c1 ? H1 H2| | | | | | | |]; subst.
      apply parses_class in H1 as (c&->&Hc&->). apply IH in H2 as (?&?&->).
      split_and!; [cbn; lia|by constructor|done].
    + intros (Hn&Hs&->). destruct Hs as [|c s Hc Hs]; [by right|left].
      apply (parse_seq _ _ _ _ [c] s _ _ caps); [by constructor|]. apply IH. split_and!; [cbn in Hn; lia|done..].
Qed.
Lemma parses_at_least n more p before s rest caps caps' :
  parses Plan.word (at_least n more (Class p)) before s rest caps caps' ↔
  (n <= length s <= n + more)%nat ∧ Forall (λ c, p c = true) s ∧ caps' = caps.
Proof.
  revert before s caps. induction n as [|n IH]; intros before s caps; cbn [at_least].
  - rewrite parses_at_most. split; intros (?&?); split; (lia || done).
  - split.
    + intros H. inversion H as [| |??????? c1 ? H1 H2| | | | | | | |]; subst.
      apply parses_class in H1 as (c&->&Hc&->). apply IH in H2 as (?&?&->).
      split_and!; [cbn; lia..|by constructor|done].
    + intros ([Hn Hm]&Hs&->). destruct Hs as [|c s Hc Hs]; [cbn in Hn; lia|]. cbn in Hn, Hm.
      apply (parse_seq _ _ _ _ [c] s _ _ caps); [by constructor|]. apply IH. split_and!; (lia || done).
Qed.

(** Lowercase hexadecimal of 7 to 40 characters. *)
Definition valid_sha (sha : pystr) : Prop :=
  (7 <= length sha <= 40)%nat ∧ Forall (λ c, is_digit c || ((97 <=? c) && (c <=? 102)) = true) sha.
Lemma valid_sha_iff sha : plain sha → is_Some (match_ Plan.word VALID_SHA_RE sha) ↔ valid_sha sha.
Proof.
  intros Hp. split.
  - intros [m (t&q&->&Hm)%match_sound]. unfold VALID_SHA_RE in Hm. parse_shape.
    match goal with H : parses _ (at_least _ _ _) _ _ _ _ _ |- _ => apply parses_at_least in H as (?&?&->) end.
    rewrite (plain_end _ _ Hp), !app_nil_r by done. by split.
  - intros [Hl Hs]. rewrite <-(app_nil_r sha). eapply match_complete. rewrite <-(app_nil_l sha).
    eapply parses_seq_intro; [by apply parses_begin|]. apply parses_seq_end, parses_at_least. split_and!; (lia || done).
Qed.

Definition sha_part : list regex :=
  [Group (u "sha") (plus true Plan.no_backtick); char Plan.backtick].
Lemma commit_line_parses s rest caps' :
  parses Plan.word COMMIT_LINE_RE [] s rest [] caps' ↔
  ∃ g1 sha, s = g1 ++ sha ++ [Plan.backtick] ∧ Plan.commit_prefix g1 ∧ sha ≠ [] ∧ (Plan.backtick ∉ sha) ∧
    caps' = [(u "sha", sha)].
Proof.
  change COMMIT_LINE_RE with (seq ([Begin] ++ ([plus true space; char 45; plus true space; lit (u "Commit:");
    plus true space; char Plan.backtick] ++ sha_part))).
  rewrite parses_seq_app. setoid_rewrite parses_seq_app. setoid_rewrite Plan.commit_key_parses.
  unfold sha_part, Plan.no_backtick. split.
  - intros (b&s2&c1&->&Hb&g1&s3&c2&->&[Hg ->]&Hm). parse_shape.
    eexists g1, _. rewrite app_nil_l, app_nil_r. split_and!; [done..|by apply Plan.no_backtick_forall|done].
  - intros (g1&sha&->&Hg&Hne&Hs&->). exists [], (g1 ++ sha ++ [Plan.backtick]), [].
    split_and!; [done|by apply parses_seq_one, parses_begin|].
    exists g1, (sha ++ [Plan.backtick]), []. split_and!; [done..|].
    eapply parses_seq_intro; [apply parses_group; eexists; split; [done|]; apply parses_plus|].
    { by rewrite Plan.no_backtick_forall. }
    by apply parses_seq_one, parses_char.
Qed.

Lemma commit_line_sha line : plain line →
  (∃ g1 sha tail, Plan.commit_reading line g1 sha tail ∧
     match_ Plan.word COMMIT_LINE_RE line = Some [(u "sha", sha)]) ∨
  (∀ g1 sha tail, ¬ Plan.commit_reading line g1 sha tail) ∧ match_ Plan.word COMMIT_LINE_RE line = None.
Proof.
  intros Hp. destruct (match_ Plan.word COMMIT_LINE_RE line) as [m|] eqn:Em.
  - left. apply match_sound in Em as (t&q&->&(g1&sha&->&?&?&?&->)%commit_line_parses).
    exists g1, sha, q. split; [|done]. split_and!; [|done..]. by rewrite <-!app_assoc.
  - right. split; [|done]. intros g1 sha tail (->&?&?&?).
    eapply (match_None _ _ _ (g1 ++ sha ++ [Plan.backtick]) tail); [exact Em|by rewrite <-!app_assoc|].
    apply commit_line_parses. eauto 10.
Qed.
(** *** What the check says *)

Lemma error_of_nil n line :
  plain line →
  error_of (n, line) = [] ↔ ∀ g1 sha tail, Plan.commit_reading line g1 sha tail → valid_sha sha.
Proof.
  intros Hp. unfold error_of. cbn [fst snd].
  destruct (commit_line_sha line Hp) as [(g1&sha&tail&Hr&->)|[Hn ->] ].
  - rewrite group_here. assert (plain sha) as Hs.
    { destruct Hr as (->&_). unfold plain in Hp. rewrite !Forall_app in Hp. tauto. }
    pose proof (valid_sha_iff sha Hs) as Hv. destruct (match_ _ VALID_SHA_RE sha) as [m|].
    + split; [|done]. intros _ g1' sha' tail' Hr'.
      destruct (Plan.commit_reading_unique _ _ _ _ _ _ _ Hr Hr') as (_&<-&_). by apply Hv.
    + split; [done|]. intros H. destruct Hv as [_ Hv]. destruct Hv as [? [=] ]. by eapply H.
  - split; [|done]. intros _ g1 sha tail H. by destruct (Hn g1 sha tail).
Qed.

(** The check passes exactly when every commit line of the plan records a valid commit. *)
Lemma main_spec plan :
  status (main plan) = Ok 0 ↔
  ∀ content line g1 sha tail, plan = Some content → line ∈ splitlines content →
    Plan.commit_reading line g1 sha tail → valid_sha sha.
Proof.
  destruct plan as [content|]; [|split; [done|by intros _]].
  pose proof (splitlines_plain content) as Hp. unfold main.
  assert (errors (splitlines content) = [] ↔
    ∀ line g1 sha tail, line ∈ splitlines content → Plan.commit_reading line g1 sha tail → valid_sha sha) as He.
  { unfold errors. rewrite Forall_forall in Hp. rewrite bind_nil. split.
    - intros He line g1 sha tail Hin. apply list_elem_of_lookup in Hin as [k Hk].
      apply (error_of_nil (1 + Z.of_nat k)); [apply Hp; by eapply list_elem_of_lookup_2|].
      apply He, elem_of_enumerate. eauto.
    - intros H [n line] (k&Hk%list_elem_of_lookup_2&->)%elem_of_enumerate.
      apply error_of_nil; [by apply Hp|eauto]. }
  destruct (errors (splitlines content)); cbn [status].
  - split; [|done]. intros _ c line g1 sha tail [= <-]. eauto. by apply He.
  - split; [done|]. intros H. destruct He as [_ He]. discriminate He. intros. by eapply H.
Qed.
(** *** The runner's synchronisation and this check *)

Lemma valid_sha_chars sha c :
  valid_sha sha → c ∈ sha → line_break c = false ∧ c ≠ Plan.backtick.
Proof.
  intros [_ Hs] Hc. rewrite Forall_forall in Hs. specialize (Hs c Hc).
  unfold is_digit in Hs. rewrite orb_true_iff, !andb_true_iff, !Z.leb_le in Hs.
  split; [|unfold Plan.backtick; lia]. apply bool_decide_eq_false. rewrite !elem_of_cons, elem_of_nil. lia.
Qed.
Lemma short_sha_valid sha : valid_sha sha → valid_sha (Plan.short_sha sha).
Proof.
  intros [Hl Hs]. split; [|by apply Forall_take]. unfold Plan.short_sha. rewrite length_take. lia.
Qed.
Lemma valid_sha_recordable sha : valid_sha sha → Plan.recordable sha.
Proof.
  intros H%short_sha_valid. unfold Plan.recordable. split_and!.
  - intros E. destruct H as [Hl _]. rewrite E in Hl. cbn in Hl. lia.
  - intros Hin. by apply (valid_sha_chars _ _ H) in Hin as [].
  - apply Forall_forall. intros c Hc. by apply (valid_sha_chars _ _ H).
Qed.

Lemma errors_cons pre line post :
  errors (pre ++ line :: post) =
  errors pre ++ error_of (1 + Z.of_nat (length pre), line) ++
  (enumerate (1 + Z.of_nat (length pre) + 1) post ≫= error_of).
Proof. unfold errors. rewrite enumerate_app, bind_app. cbn [enumerate]. by rewrite bind_cons. Qed.

Lemma sync_errors `{DD : DecimalDigits} lines item_id sha :
  Forall plain lines → valid_sha sha →
  errors (Plan._update_item_sha lines item_id sha) `sublist_of` errors lines.
Proof.
  intros Hp Hs.
  destruct (Plan.update_item_sha_cases lines item_id sha Hp) as [->|(pre&g1&old&tail&post&->&->&Hr&Hl&_)]; [done|].
  rewrite !errors_cons. apply sublist_app; [done|].
  destruct (Plan.replaced_reading _ _ _ _ _ (valid_sha_recordable _ Hs) Hl Hr) as [Hp' Hr'].
  rewrite (proj2 (error_of_nil _ _ Hp')); [by apply sublist_inserts_l|].
  intros g1' sha' tail' Hr''. destruct (Plan.commit_reading_unique _ _ _ _ _ _ _ Hr' Hr'') as (_&<-&_).
  by apply short_sha_valid.
Qed.
(** C38. After the runner has synchronised an item's recorded commit with a valid one, the plan
    differs at most in the commit of the item's own execution record, which is the new one
    when the plan has the record; doing it again changes nothing; and the check complains of
    nothing it did not complain of before. *)
Theorem sync_then_check `{DD : DecimalDigits} content item_id sha :
  valid_sha sha →
  ∃ text, (Plan.sync_traceability_sha (Some content) item_id sha).2 = Some text ∧
    Plan.sync_traceability_sha (Some text) item_id sha = (false, Some text) ∧
    (∀ pre line g1 old tail post, splitlines content = pre ++ line :: post →
       Plan.before_commit item_id pre → Plan.commit_reading line g1 old tail →
       old ∉ [Plan.short_sha sha; sha] →
       splitlines text = pre ++ (g1 ++ Plan.short_sha sha ++ (Plan.backtick :: tail)) :: post) ∧
    (splitlines text = splitlines content ∨
     ∃ pre g1 old tail post, Plan.in_record_of item_id pre ∧ Plan.commit_prefix g1 ∧
       splitlines content = pre ++ (g1 ++ old ++ (Plan.backtick :: tail)) :: post ∧
       splitlines text = pre ++ (g1 ++ Plan.short_sha sha ++ (Plan.backtick :: tail)) :: post) ∧
    errors (splitlines text) `sublist_of` errors (splitlines content).
Proof.
  intros Hs. apply valid_sha_recordable in Hs as Hr.
  destruct (Plan.sync_traceability_sha_spec content item_id sha Hr) as (text&E&_&Ha&Hh&Hc).
  exists text. split_and!; [done..|].
  destruct (Plan.sync_lines content item_id sha Hr) as (text'&E'&El&_).
  assert (text' = text) as -> by congruence. rewrite El. by apply sync_errors; [apply splitlines_plain|].
Qed.
End shas.

Definition sample_content : pystr := join [10]
  [u "### C001 - First"; u "- [x] done"; u "- Execution record:"; u "  - Commit: `PENDING`"; u "### C001A - Second";
   u "- Execution record:"; u "  - Commit: `NONE`"].
Definition sample_sha : pystr := u "0123456789abcdef0123456789abcdef01234567".
Lemma sample_sha_valid : valid_sha sample_sha.
Proof. split; [by vm_compute; lia|]. apply Forall_forall. intros c Hc. revert c Hc. apply Forall_forall. by repeat constructor. Qed.
Example sample_errors : length (errors (splitlines sample_content)) = 2%nat.
Proof. by_eval. Qed.
Lemma sync_then_check_witness :
  ∃ text, (Plan.sync_traceability_sha (Some sample_content) (u "C001") sample_sha).2 = Some text ∧
    Plan.sync_traceability_sha (Some text) (u "C001") sample_sha = (false, Some text) ∧
    errors (splitlines text) `sublist_of` errors (splitlines sample_content).
Proof.
  destruct (sync_then_check sample_content (u "C001") sample_sha sample_sha_valid) as (text&E&H1&_&_&H2).
  exists text. split; [exact E|]. split; [exact H1|exact H2].
Defined.
End Shas.

(** ** Completed criteria *)
Module Criteria.
Import PyRe.

Section criteria.
Context `{UD : UnicodeData}.

Definition COMPLETED_CRITERION_RE : regex :=
  seq [Begin; Star true space; char 45; Star true space; lit (u "[x]"); plus true space].
Definition TESTS_BLOCK_RE : regex :=
  seq [lit (u "[Tests:"); Star true space; Group (u "1") (plus true (Class (λ c, negb (c =? 93)))); char 93].

(** [line.rstrip("\n")] *)
Definition rstrip_newlines (line : pystr) : pystr :=
  reverse ((fix drop (s : pystr) := match s with c :: s' => if c =? 10 then drop s' else s | [] => [] end)
             (reverse line)).

Definition _collect_completed_criteria (lines : list pystr) : list (Z * pystr) :=
  (λ l, (l.1, rstrip_newlines l.2)) <$>
    filter (λ l, is_Some (search Plan.word COMPLETED_CRITERION_RE l.2)) (enumerate 1 lines).

Definition valid_id (item : pystr) : bool := startswith item (u "tests/") && contains item (u "::").
Definition invalid_id_error (n : Z) (item : pystr) : pystr :=
  at_line n ++ u "invalid test id '" ++ item ++ u "'. Expected tests/...::test_name.".
(** The items of one criterion, or the complaint that there are none. *)
Definition test_items (n : Z) (criterion : pystr) : pystr + list pystr :=
  match search Plan.word TESTS_BLOCK_RE criterion with
  | None => inl (at_line n ++ u "completed criterion missing [Tests: tests/...::test_...] mapping.")
  | Some m =>
      match filter (λ item, str_truthy item = true) (strip <$> split_on 44 (group m (u "1"))) with
      | [] => inl (at_line n ++ u "[Tests:] list is empty.")
      | parsed_items => inr parsed_items
      end
  end.
Fixpoint _parse_test_ids (criteria : list (Z * pystr)) : list pystr * list pystr :=
  match criteria with
  | [] => ([], [])
  | (n, criterion) :: criteria =>
      let '(nodeids, errors) := _parse_test_ids criteria in
      match test_items n criterion with
      | inl error => (nodeids, error :: errors)
      | inr items =>
          (filter (λ i, valid_id i = true) items ++ nodeids,
           (invalid_id_error n <$> filter (λ i, valid_id i = false) items) ++ errors)
      end
  end.

(** A finished subprocess. *)
Record completed := MkCompleted { returncode : Z; out : pystr; err : pystr }.

Definition _collect_pytest_nodeids (stdout : pystr) : list pystr :=
  filter (λ s, startswith s (u "tests/") = true) (strip <$> splitlines stdout).
Definition _nodeid_exists (expected : pystr) (collected : list pystr) : bool :=
  bool_decide (expected ∈ collected) ||
  existsb (λ nodeid, startswith nodeid (expected ++ u "[")) collected.

Definition sorted_set (l : list pystr) : list pystr := sort_by text_cmp (remove_dups l).

(** [pytest_collect]: the collection run. [pytest_run]: the exit status of a run of the
    given tests. *)
Definition main (run_tests : bool) (pytest_collect : completed) (pytest_run : list pystr → Z)
    (plan : option pystr) : run_result :=
  match plan with
  | None => MkRun [] (PLAN_PATH ++ u " does not exist." ++ newline) (Ok 1)
  | Some content =>
      match _collect_completed_criteria (splitlines_ true content) with
      | [] => MkRun (u "No completed criteria found; nothing to validate." ++ newline) [] (Ok 0)
      | completed_criteria =>
          let '(nodeids, errors) := _parse_test_ids completed_criteria in
          match errors with
          | _ :: _ => MkRun [] (errors ≫= λ e, e ++ newline) (Ok 1)
          | [] =>
              if negb (returncode pytest_collect =? 0)
              then MkRun (out pytest_collect) (err pytest_collect) (Err (AppError "RuntimeError"))
              else
                let collected := _collect_pytest_nodeids (out pytest_collect) in
                match filter (λ nodeid, _nodeid_exists nodeid collected = false) (sorted_set nodeids) with
                | _ :: _ as missing =>
                    MkRun [] (missing ≫= λ nodeid, u "Missing mapped test nodeid: " ++ nodeid ++ newline) (Ok 1)
                | [] =>
                    if run_tests then
                      MkRun [] [] (Ok (match sorted_set nodeids with [] => 0 | ids => pytest_run ids end))
                    else
                      MkRun (u "Validated " ++ str_of_int (Z.of_nat (length completed_criteria)) ++
                             u " completed criteria with " ++
                             str_of_int (Z.of_nat (length (remove_dups nodeids))) ++
                             u " mapped test ids." ++ newline) [] (Ok 0)
                end
          end
      end
  end.

(** *** What the check accepts *)

Lemma parse_test_ids_errors criteria :
  (_parse_test_ids criteria).2 = [] ↔
  ∀ l, l ∈ criteria → ∃ items, test_items l.1 l.2 = inr items ∧ Forall (λ i, valid_id i = true) items.
Proof.
  induction criteria as [|[n criterion] criteria IH]; cbn [_parse_test_ids].
  - split; [by intros _ l ?%elem_of_nil|done].
  - destruct (_parse_test_ids criteria) as [ids errors]. cbn [snd] in IH.
    assert ((∃ items, test_items n criterion = inr items ∧ Forall (λ i, valid_id i = true) items) ∧ errors = [] ↔
      ∀ l, l ∈ (n, criterion) :: criteria →
        ∃ items, test_items l.1 l.2 = inr items ∧ Forall (λ i, valid_id i = true) items) as <-.
    { rewrite IH. split.
      - intros [H1 H2] l [->|Hl]%elem_of_cons; [done|by apply H2].
      - intros H. split; [apply (H (n, criterion)); left|]. intros l Hl. apply H. by right. }
    destruct (test_items n criterion) as [e|items]; cbn [snd].
    + split; [done|]. by intros [(?&?&_) _].
    + split.
      * intros [He%fmap_nil_inv ->]%app_nil. split; [|done]. exists items. split; [done|].
        by apply filter_false_nil.
      * intros [(?&[= <-]&Hv%filter_false_nil) ->]. by rewrite Hv.
Qed.
Lemma elem_of_parse_test_ids criteria i :
  i ∈ (_parse_test_ids criteria).1 ↔
  ∃ l items, l ∈ criteria ∧ test_items l.1 l.2 = inr items ∧ i ∈ items ∧ valid_id i = true.
Proof.
  induction criteria as [|[n criterion] criteria IH]; cbn [_parse_test_ids].
  - split; [by intros ?%elem_of_nil|]. by intros (?&?&?%elem_of_nil&_).
  - destruct (_parse_test_ids criteria) as [ids errors]. cbn [fst] in IH.
    destruct (test_items n criterion) as [e|items] eqn:Ei; cbn [fst].
    + rewrite IH. split; [intros (l&items&Hl&?); exists l, items; by split; [right|]|].
      intros (l&items&[->|Hl]%elem_of_cons&E&?); [by cbn in E; congruence|eauto].
    + rewrite elem_of_app, list_elem_of_filter, IH. split.
      * intros [[? ?]|(l&items'&Hl&?)]; [exists (n, criterion), items|exists l, items'];
          (split; [by constructor|done]).
      * intros (l&items'&[->|Hl]%elem_of_cons&E&?&?); [left|right; eauto 10].
        cbn in E. by replace items with items' by congruence.
Qed.

Lemma test_items_nonempty n criterion items : test_items n criterion = inr items → items ≠ [].
Proof. unfold test_items. repeat case_match; try done. by intros [= <-]. Qed.
Lemma elem_of_sorted_set l i : i ∈ sorted_set l ↔ i ∈ l.
Proof. unfold sorted_set. by rewrite elem_of_sort_by, elem_of_remove_dups. Qed.

(** Every criterion is mapped to tests that were collected. *)
Definition all_mapped (collected : list pystr) (criteria : list (Z * pystr)) : Prop :=
  ∀ l, l ∈ criteria → ∃ items, test_items l.1 l.2 = inr items ∧ items ≠ [] ∧
    ∀ i, i ∈ items → valid_id i = true ∧ _nodeid_exists i collected = true.
Lemma all_mapped_iff collected criteria :
  all_mapped collected criteria ↔
  (_parse_test_ids criteria).2 = [] ∧
  filter (λ i, _nodeid_exists i collected = false) (sorted_set (_parse_test_ids criteria).1) = [].
Proof.
  rewrite filter_false_nil, parse_test_ids_errors, Forall_forall.
  setoid_rewrite elem_of_sorted_set. setoid_rewrite elem_of_parse_test_ids. unfold all_mapped. split.
  - intros H. split.
    + intros l (items&E&_&Hv)%H. exists items. split; [done|]. apply Forall_forall. intros i Hi. by apply Hv.
    + intros i (l&items&Hl&E&Hi&_). apply H in Hl as (items'&E'&_&Hv). apply Hv.
      by replace items' with items by congruence.
  - intros [H1 H2] l Hl. destruct (H1 l Hl) as (items&E&Hv). rewrite Forall_forall in Hv. exists items.
    split_and!; [done|by eapply test_items_nonempty|]. intros i Hi. split; [by apply Hv|].
    apply H2. exists l, items. split_and!; auto.
Qed.
Lemma mapped_some criteria :
  criteria ≠ [] → (_parse_test_ids criteria).2 = [] → sorted_set (_parse_test_ids criteria).1 ≠ [].
Proof.
  intros Hne He E. destruct criteria as [|l ls]; [done|].
  destruct (proj1 (parse_test_ids_errors (l :: ls)) He l ltac:(left)) as (items&Ei&Hv).
  destruct items as [|i items]; [by eapply (test_items_nonempty _ _ _ Ei)|].
  assert (i ∈ sorted_set (_parse_test_ids (l :: ls)).1) as Hin; [|rewrite E in Hin; by apply elem_of_nil in Hin].
  apply elem_of_sorted_set, elem_of_parse_test_ids. exists l, (i :: items). inversion Hv; subst.
  split_and!; [left|done|left|done].
Qed.

(** The validation succeeds exactly when there is no completed criterion, or the tests can be
    collected, every completed criterion names at least one test, every name is a test id that
    was collected (with or without parameters), and, when they are to be run, they pass. *)
Theorem validation_spec run_tests collect run content :
  let criteria := _collect_completed_criteria (splitlines_ true content) in
  status (main run_tests collect run (Some content)) = Ok 0 ↔
  criteria = [] ∨
  returncode collect = 0 ∧ all_mapped (_collect_pytest_nodeids (out collect)) criteria ∧
  (run_tests = true → run (sorted_set (_parse_test_ids criteria).1) = 0).
Proof.
  intros criteria. unfold main. fold criteria. rewrite all_mapped_iff.
  destruct criteria as [|l ls] eqn:Ec; [split; [by left|done]|]. rewrite <-Ec in *.
  assert (criteria ≠ []) as Hne by (by rewrite Ec). pose proof (mapped_some criteria Hne) as Hs.
  destruct (_parse_test_ids criteria) as [nodeids errors]. cbn [fst snd] in *.
  assert (∀ P, (criteria = [] ∨ P) ↔ P) as -> by tauto.
  destruct errors as [|e es]; [|split; [done|by intros (_&[? ?]&_)] ].
  destruct (Z.eqb_spec (returncode collect) 0) as [Er|Er]; cbn [negb]; [|split; [done|by intros [? _] ] ].
  destruct (filter _ _) as [|m ms]; [|split; [done|by intros (_&[? ?]&_)] ].
  specialize (Hs eq_refl). destruct (sorted_set nodeids) as [|i ids]; [done|].
  destruct run_tests; cbn [status]; split; intros H; try done.
  - split_and!; [done..|]. intros _. by injection H.
  - destruct H as (_&_&H). by rewrite H.
Qed.
End criteria.
(** A criterion marked [X] counts as done for the runner and is not asked for its tests. *)
Example upper_mark_unmapped :
  (match Plan.parse_plan (u "### C001 - First" ++ [10] ++ u "- [X] a") with
   | [i] => Plan.is_complete i
   | _ => false
   end,
   status (main false (MkCompleted 0 [] []) (λ _, 0) (Some (u "### C001 - First" ++ [10] ++ u "- [X] a")))) =
  (true, Ok 0).
Proof. by_eval. Qed.

End Criteria.
