(* ===== verification/Lint.v ===== *)
(** The checks on the syntax of the repository's own code (src/scripts/check_*.py): the trees of
    Python's [ast] module, their traversal, and what each check accepts. *)

From S2P Require Import Prelude PyValue PyText PyRe PlanChecks.
Local Open Scope Z_scope.

(** * Syntax trees *)
Module Ast.

(** The value of a field of a node: a constant, a list, or a node with its identity, its
    class, its line and its fields in the order of [_fields]. A field without a value is
    [None]. *)
Inductive object :=
  | ONone
  | OBool (b : bool)
  | OInt (n : Z)
  | OStr (s : pystr)
  | OConst
  | OList (l : list object)
  | ONode (ident : Z) (cls : string) (lineno : Z) (fields : list (string * object)).

Definition is_node (o : object) : bool := match o with ONode _ _ _ _ => true | _ => false end.
(** [isinstance(o, ast.<cls>)] *)
Definition is_a (cls : string) (o : object) : bool :=
  match o with ONode _ c _ _ => bool_decide (c = cls) | _ => false end.
(** The identity [is] and the hash of a node compare. *)
Definition ident (o : object) : option Z := match o with ONode i _ _ _ => Some i | _ => None end.
Definition lineno (o : object) : Z := match o with ONode _ _ n _ => n | _ => 0 end.

Fixpoint field_of (fields : list (string * object)) (name : string) : object :=
  match fields with
  | [] => ONone
  | (k, v) :: fields => if bool_decide (k = name) then v else field_of fields name
  end.
Definition attr (name : string) (o : object) : object :=
  match o with ONode _ _ _ fields => field_of fields name | _ => ONone end.
Definition items (o : object) : list object := match o with OList l => l | _ => [] end.
(** [o == name] for a field that holds an identifier. *)
Definition named (name : pystr) (o : object) : bool :=
  match o with OStr s => bool_decide (s = name) | _ => false end.
Definition is_function (node : object) : bool := is_a "AsyncFunctionDef" node || is_a "FunctionDef" node.
Definition text_of (o : object) : pystr := match o with OStr s => s | _ => [] end.

(** [ast.iter_child_nodes] *)
Definition child_nodes (value : object) : list object :=
  match value with
  | ONode _ _ _ _ => [value]
  | OList l => filter (λ o, is_node o = true) l
  | _ => []
  end.
Definition children (o : object) : list object :=
  match o with ONode _ _ _ fields => fields ≫= λ f, child_nodes f.2 | _ => [] end.

Fixpoint size (o : object) : nat :=
  match o with
  | OList l => sum_list_with size l
  | ONode _ _ _ fields => S (sum_list_with (λ f, size f.2) fields)
  | _ => 1
  end.

(** [ast.walk]: breadth first, with a queue. *)
Fixpoint walk_from (fuel : nat) (todo : list object) : list object :=
  match fuel, todo with
  | S fuel, node :: todo => node :: walk_from fuel (todo ++ children node)
  | _, _ => []
  end.
Definition walk (root : object) : list object := walk_from (size root) [root].

(** [within root o]: [o] is [root] or below it. *)
Definition within : object → object → Prop := rtc (λ o c, c ∈ children o).

Lemma size_pos o : is_node o = true → (1 <= size o)%nat.
Proof. destruct o; cbn; [done..|lia]. Qed.
Lemma child_node_is_node v c : c ∈ child_nodes v → is_node c = true.
Proof.
  destruct v; cbn; try by intros ?%elem_of_nil.
  - by intros [? _]%list_elem_of_filter.
  - by intros ->%list_elem_of_singleton.
Qed.
Lemma children_nodes o c : c ∈ children o → is_node c = true.
Proof.
  destruct o; cbn; try by intros ?%elem_of_nil. intros (f&H&_)%list_elem_of_bind.
  by eapply child_node_is_node.
Qed.
Lemma child_nodes_size v : (sum_list_with size (child_nodes v) <= size v)%nat.
Proof.
  destruct v as [| | | | |l|]; cbn; try lia. induction l as [|o l IH]; [done|].
  rewrite filter_cons. destruct (decide _); cbn; lia.
Qed.
Lemma children_size o : is_node o = true → (sum_list_with size (children o) < size o)%nat.
Proof.
  destruct o as [| | | | | |i c n fields]; try done. intros _. cbn. induction fields as [|f fields IH]; [cbn; lia|].
  rewrite bind_cons, sum_list_with_app. cbn. pose proof (child_nodes_size f.2). lia.
Qed.

Lemma within_cases root o :
  within root o ↔ o = root ∨ ∃ c, c ∈ children root ∧ within c o.
Proof.
  split.
  - intros H. inversion H; subst; [by left|right]. eauto.
  - intros [->|(c&Hc&H)]; [by constructor|by econstructor].
Qed.

Lemma elem_of_walk_from fuel todo o :
  Forall (λ r, is_node r = true) todo → (sum_list_with size todo <= fuel)%nat →
  o ∈ walk_from fuel todo ↔ ∃ r, r ∈ todo ∧ within r o.
Proof.
  revert todo. induction fuel as [|fuel IH]; intros [|r todo] Hn Hf.
  - split; [by intros ?%elem_of_nil|]. by intros (?&?%elem_of_nil&_).
  - apply Forall_cons in Hn as [Hr%size_pos _]. cbn in Hf. lia.
  - split; [by intros ?%elem_of_nil|]. by intros (?&?%elem_of_nil&_).
  - apply Forall_cons in Hn as [Hr Hn]. cbn [walk_from]. pose proof (children_size r Hr) as Hs. cbn in Hf.
    rewrite elem_of_cons, IH.
    + setoid_rewrite elem_of_cons. setoid_rewrite elem_of_app. split.
      * intros [->|(r'&[Hr'|Hc]&Ho)]; [exists r; split; [by left|by constructor]|by exists r'; split; [right|]|].
        exists r. split; [by left|]. apply within_cases. eauto.
      * intros (r'&[->|Hr']&Ho); [|by right; exists r'; split; [left|]].
        apply within_cases in Ho as [->|(c&Hc&Ho)]; [by left|right]. exists c. by split; [right|].
    + apply Forall_app. split; [done|]. apply Forall_forall. intros c. apply children_nodes.
    + rewrite sum_list_with_app. lia.
Qed.
(** A walk yields the root and everything below it, and its queue empties. *)
Lemma elem_of_walk root o : is_node root = true → o ∈ walk root ↔ within root o.
Proof.
  intros Hr. unfold walk. rewrite elem_of_walk_from; [|by repeat constructor|cbn; lia].
  setoid_rewrite list_elem_of_singleton. split; [by intros (?&->&?)|eauto].
Qed.
Lemma within_node root o : is_node root = true → within root o → is_node o = true.
Proof. intros Hr H. induction H; [done|]. by eapply IHrtc, children_nodes. Qed.

Lemma field_child fields name v c :
  field_of fields name = v → c ∈ child_nodes v → ∃ f, c ∈ child_nodes f.2 ∧ f ∈ fields.
Proof.
  induction fields as [|[k w] fields IH]; cbn; [intros <- ?%elem_of_nil; done|].
  case_bool_decide.
  - intros <- Hc. exists (k, w). by split; [|left].
  - intros Hv Hc. destruct (IH Hv Hc) as (f&?&?). exists f. by split; [|right].
Qed.
Lemma attr_child o name c : c ∈ child_nodes (attr name o) → c ∈ children o.
Proof.
  destruct o; cbn; try by intros ?%elem_of_nil. intros H. apply list_elem_of_bind. by eapply field_child.
Qed.
Lemma is_a_node cls o : is_a cls o = true → is_node o = true.
Proof. by destruct o. Qed.
Lemma attr_within root o name :
  within root o → is_node (attr name o) = true → within root (attr name o).
Proof.
  intros H Hn. eapply rtc_r; [done|]. apply (attr_child _ name). destruct (attr name o); try done. by left.
Qed.
Lemma item_within root o name c :
  within root o → c ∈ items (attr name o) → is_node c = true → within root c.
Proof.
  intros H Hc Hn. eapply rtc_r; [done|]. apply (attr_child _ name). destruct (attr name o); cbn in Hc |- *;
    try by apply elem_of_nil in Hc. by apply list_elem_of_filter.
Qed.

(** Two nodes of one tree with one identity are one node. *)
Definition unambiguous (root : object) : Prop :=
  ∀ a b, within root a → within root b → ident a = ident b → a = b.
End Ast.

(** A source file: its path, its name, the parts of its path, and its text if it is UTF-8. *)
Record source_file := MkSource {
  path : pystr;
  name : pystr;
  parts : list pystr;
  read_text : result exn pystr;
}.

(** What [ast.parse] promises: the root is a node, and the nodes of a tree have identities. *)
Definition parser_ok (parse : pystr → pystr + Ast.object) : Prop :=
  ∀ text tree, parse text = inr tree → Ast.is_node tree = true ∧ Ast.unambiguous tree.
(** A file that is read and parsed, to a tree that satisfies [P]. *)
Definition parsed_as (parse : pystr → pystr + Ast.object) (f : source_file) (P : Ast.object → Prop) : Prop :=
  ∃ source tree, read_text f = Ok source ∧ parse source = inr tree ∧ P tree.

Lemma parsed_check (parse : pystr → pystr + Ast.object) (check : pystr + Ast.object → result exn (list pystr))
    (P : Ast.object → Prop) f :
  (∀ exc, check (inl exc) ≠ Ok []) →
  (∀ source tree, parse source = inr tree → check (inr tree) = Ok [] ↔ P tree) →
  (source ← read_text f; check (parse source)) = Ok [] ↔ parsed_as parse f P.
Proof.
  intros Hl Hr. unfold parsed_as. destruct (read_text f) as [source|e]; cbn.
  - destruct (parse source) as [exc|tree] eqn:Ep.
    + split; [by intros ?%Hl|]. intros (?&?&[= <-]&?&_). congruence.
    + rewrite (Hr source tree Ep). split; [by exists source, tree|].
      intros (?&?&[= <-]&?&?). by replace tree with x0 by congruence.
  - split; [done|]. by intros (?&?&?&_).
Qed.
Lemma Ok_nil {E} (l : list pystr) : (Ok l : result E _) = Ok [] ↔ l = [].
Proof. split; [by intros [= ?]|by intros ->]. Qed.

Definition messages (errors : list pystr) : pystr := errors ≫= λ e, e ++ newline.

(** [f"{path}:{lineno}: "] *)
Definition at_node (f : source_file) (o : Ast.object) : pystr :=
  path f ++ u ":" ++ str_of_int (Ast.lineno o) ++ u ": ".

(** The complaints about the files, in order; the first exception escapes. *)
Definition errors_of (check_file : source_file → result exn (list pystr)) (files : list source_file)
    : result exn (list pystr) :=
  errors ← traverse check_file files; Ok (concat errors).

Lemma errors_of_nil (check_file : source_file → result exn (list pystr)) files :
  errors_of check_file files = Ok [] ↔ ∀ f, f ∈ files → check_file f = Ok [].
Proof.
  unfold errors_of, traverse. induction files as [|f files IH]; csimpl; [by split; [intros _ f ?%elem_of_nil|]|].
  trans (check_file f = Ok [] ∧ (errors ← sequence (check_file <$> files); Ok (concat errors)) = Ok []).
  - destruct (check_file f) as [es|e]; csimpl; [|naive_solver].
    destruct (sequence _) as [ess|e]; csimpl; [|naive_solver]. split.
    + by intros [= [-> ->]%app_nil].
    + by intros [ [= ->] [= ->] ].
  - rewrite IH. split; [by intros [? ?] g [->|?]%elem_of_cons; auto|].
    intros H. split; [apply H; left|]. intros g Hg. apply H. by right.
Qed.

(** The files of several directories, those that do not exist left out. *)
Lemma dirs_clean (check_file : source_file → result exn (list pystr)) dirs :
  errors_of check_file (dirs ≫= default []) = Ok [] ↔
  ∀ files f, Some files ∈ dirs → f ∈ files → check_file f = Ok [].
Proof.
  rewrite errors_of_nil. setoid_rewrite list_elem_of_bind. split.
  - intros H files f Hd Hf. apply H. by exists (Some files).
  - intros H f ([files|]&Hf&Hd); [eauto|by apply elem_of_nil in Hf].
Qed.

Definition SyntaxError : exn := AppError "SyntaxError".

(** [f"{path}: syntax error during parse: {exc}"] *)
Definition syntax_error (f : source_file) (exc : pystr) : pystr :=
  path f ++ u ": syntax error during parse: " ++ exc.

(** ** check_testclient_context.py *)
Module TestClientContext.
Import Ast.

Section check.
(** Python's own parser: the text of a syntax error, or the tree. *)
Context (parse : pystr → pystr + object).

Definition _is_testclient_call (node : object) : bool :=
  let func := attr "func" node in
  if is_a "Name" func then named (u "TestClient") (attr "id" func)
  else if is_a "Attribute" func then named (u "TestClient") (attr "attr" func) else false.

Definition is_with (node : object) : bool := is_a "With" node || is_a "AsyncWith" node.
(** A set of nodes holds their identities. *)
Definition _with_context_call_nodes (tree : object) : list (option Z) :=
  filter (λ node, is_with node = true) (walk tree) ≫= λ node,
    ident <$> filter (λ e, is_a "Call" e && _is_testclient_call e = true)
                (attr "context_expr" <$> items (attr "items" node)).

Definition check_tree (f : source_file) (tree : object) : list pystr :=
  let allowed_calls := _with_context_call_nodes tree in
  filter (λ node, (is_a "Call" node && _is_testclient_call node) &&
                  negb (bool_decide (ident node ∈ allowed_calls)) = true) (walk tree) ≫= λ node,
    [at_node f node ++ u "TestClient must be used with 'with TestClient(app) as client:'."].
Definition _check_file (f : source_file) : result exn (list pystr) :=
  source ← read_text f;
  match parse source with
  | inl _ => Err SyntaxError
  | inr tree => Ok (check_tree f tree)
  end.

(** [dirs]: the files of each test directory in order, if it exists. *)
Definition main (dirs : list (option (list source_file))) : run_result :=
  let files := dirs ≫= default [] in
  match errors_of _check_file files with
  | Err e => MkRun [] [] (Err e)
  | Ok [] => MkRun (u "Validated TestClient context-manager usage in " ++
                    str_of_int (Z.of_nat (length files)) ++ u " test file(s)." ++ newline) [] (Ok 0)
  | Ok errors => MkRun (messages errors) [] (Ok 1)
  end.
(** *** What the check accepts *)

(** Every test client of the tree is the context expression of a [with]. *)
Definition all_in_context (tree : object) : Prop :=
  ∀ call, within tree call → is_a "Call" call = true → _is_testclient_call call = true →
    ∃ w item, within tree w ∧ is_with w = true ∧ item ∈ items (attr "items" w) ∧
      attr "context_expr" item = call.

Lemma elem_of_context_calls tree i :
  is_node tree = true →
  i ∈ _with_context_call_nodes tree ↔
  ∃ w item, within tree w ∧ is_with w = true ∧ item ∈ items (attr "items" w) ∧
    is_a "Call" (attr "context_expr" item) && _is_testclient_call (attr "context_expr" item) = true ∧
    i = ident (attr "context_expr" item).
Proof.
  intros Ht. unfold _with_context_call_nodes. rewrite list_elem_of_bind. split.
  - intros (w&(e&->&[He (item&->&Hi)%list_elem_of_fmap]%list_elem_of_filter)%list_elem_of_fmap&
      [Hw Hin]%list_elem_of_filter). exists w, item. by rewrite <-elem_of_walk.
  - intros (w&item&Hin&Hw&Hi&He&->). exists w. rewrite list_elem_of_filter, elem_of_walk by done.
    split; [|done]. apply list_elem_of_fmap. eexists. split; [done|]. apply list_elem_of_filter.
    split; [done|]. apply list_elem_of_fmap. eauto.
Qed.
Lemma context_expr_within tree w item :
  within tree w → item ∈ items (attr "items" w) → is_node (attr "context_expr" item) = true →
  within tree (attr "context_expr" item).
Proof.
  intros Hw Hi Hn. apply attr_within; [|done]. eapply item_within; [done..|].
  by destruct item.
Qed.

Lemma clients_tree_nil f tree :
  is_node tree = true → unambiguous tree → check_tree f tree = [] ↔ all_in_context tree.
Proof.
  intros Ht Hu. unfold check_tree. rewrite bind_nil. setoid_rewrite list_elem_of_filter.
  setoid_rewrite elem_of_walk; [|done]. split.
  - intros H call Hc H1 H2. destruct (bool_decide (ident call ∈ _with_context_call_nodes tree)) eqn:Ein.
    + apply bool_decide_eq_true in Ein. apply elem_of_context_calls in Ein as (w&item&?&?&?&[He _]%andb_true_iff&Ei); [|done].
      exists w, item. split_and!; [done..|]. symmetry. apply Hu; [done| |done].
      apply (context_expr_within tree w); [done..|]. by eapply is_a_node.
    + discriminate (H call). split; [|done]. by rewrite H1, H2, Ein.
  - intros H call [Hb Hc]. exfalso. rewrite !andb_true_iff in Hb. destruct Hb as [[H1 H2] Hb].
    destruct (H call Hc H1 H2) as (w&item&Hw&?&?&E). rewrite negb_true_iff, bool_decide_eq_false in Hb.
    apply Hb, elem_of_context_calls; [done|]. exists w, item. rewrite E, H1, H2. by split_and!.
Qed.

Lemma clients_file_nil f :
  parser_ok parse → _check_file f = Ok [] ↔ parsed_as parse f all_in_context.
Proof.
  intros Hok. unfold _check_file.
  apply (parsed_check parse (λ r, match r with inl _ => Err SyntaxError | inr tree => Ok (check_tree f tree) end));
    [done|]. intros source tree [Hn Hu]%Hok. rewrite Ok_nil. by apply clients_tree_nil.
Qed.

(** The check succeeds exactly when every file of the existing directories is read and parsed,
    and uses test clients as context managers only. *)
Theorem test_clients_pass dirs :
  parser_ok parse →
  status (main dirs) = Ok 0 ↔
  ∀ files f, Some files ∈ dirs → f ∈ files → parsed_as parse f all_in_context.
Proof.
  intros Hok. setoid_rewrite <-clients_file_nil; [|done]. rewrite <-dirs_clean. unfold main.
  destruct (errors_of _ _) as [[|]|]; cbn; naive_solver.
Qed.

End check.
End TestClientContext.

(** ** check_broad_exception_catch.py *)
Module BroadExceptions.
Import Ast.

Section check.
Context (parse : pystr → pystr + object).

Definition is_guard (node : object) : bool :=
  (is_a "Call" node && is_a "Name" (attr "func" node) && named (u "isinstance") (attr "id" (attr "func" node))) &&
  match items (attr "args" node) with
  | [_; arg] =>
      (is_a "Attribute" arg && named (u "CancelledError") (attr "attr" arg)) ||
      (is_a "Name" arg && named (u "CancelledError") (attr "id" arg))
  | _ => false
  end.
Definition _handler_has_reraise (handler : object) : bool :=
  existsb (λ stmt, existsb (λ node, is_a "Raise" node || is_guard node) (walk stmt))
    (items (attr "body" handler)).

Definition names_exception (typ : object) : bool :=
  is_a "Name" typ && named (u "Exception") (attr "id" typ).
Definition _catches_bare_exception (handler : object) : bool :=
  match attr "type" handler with
  | ONone => true
  | typ => if names_exception typ then true
           else if is_a "Tuple" typ then existsb names_exception (items (attr "elts" typ)) else false
  end.

Definition check_handler (f : source_file) (node handler : object) : list pystr :=
  if negb (_catches_bare_exception handler) then []
  else if _handler_has_reraise handler then []
  else [at_node f handler ++ u "async function '" ++ text_of (attr "name" node) ++
        u "' has 'except Exception' with no re-raise or CancelledError guard. " ++
        u "Add `raise` on error paths or explicitly guard CancelledError."].
Definition check_tree (f : source_file) (tree : object) : list pystr :=
  filter (λ node, is_a "AsyncFunctionDef" node = true) (walk tree) ≫= λ node,
  filter (λ child, is_a "Try" child = true) (walk node) ≫= λ child,
  items (attr "handlers" child) ≫= check_handler f node.
Definition _check_file (f : source_file) : result exn (list pystr) :=
  source ← read_text f;
  Ok (match parse source with inl exc => [syntax_error f exc] | inr tree => check_tree f tree end).

Definition checked_file (f : source_file) : bool :=
  negb (startswith (name f) (u "test_") || bool_decide (u "tests" ∈ parts f)).
Definition main (dirs : list (option (list source_file))) : run_result :=
  let files := filter (λ f, checked_file f = true) (dirs ≫= default []) in
  match errors_of _check_file files with
  | Err e => MkRun [] [] (Err e)
  | Ok [] => MkRun (u "Validated async exception handling: " ++ str_of_int (Z.of_nat (length files)) ++
                    u " source file(s) checked." ++ newline) [] (Ok 0)
  | Ok errors => MkRun [] (messages errors) (Ok 1)
  end.
(** *** What the check accepts *)

Definition reraises (handler : object) : Prop :=
  ∃ stmt node, stmt ∈ items (attr "body" handler) ∧ within stmt node ∧
    (is_a "Raise" node = true ∨ is_guard node = true).
(** Every handler inside an asynchronous function that catches everything raises, or tests for
    a cancellation, somewhere. *)
Definition handlers_guarded (tree : object) : Prop :=
  ∀ node child handler, within tree node → is_a "AsyncFunctionDef" node = true →
    within node child → is_a "Try" child = true → handler ∈ items (attr "handlers" child) →
    _catches_bare_exception handler = true → _handler_has_reraise handler = true.

Lemma handler_has_reraise_spec handler :
  Forall (λ stmt, is_node stmt = true) (items (attr "body" handler)) →
  _handler_has_reraise handler = true ↔ reraises handler.
Proof.
  intros Hb. unfold _handler_has_reraise, reraises. rewrite Forall_forall in Hb. rewrite existsb_exists. split.
  - intros (stmt&Hs%list_elem_of_In&(node&Hn%list_elem_of_In&H%orb_true_iff)%existsb_exists).
    exists stmt, node. by rewrite <-elem_of_walk by auto.
  - intros (stmt&node&Hs&Hn&H). exists stmt. split; [by apply list_elem_of_In|]. apply existsb_exists.
    exists node. split; [by apply list_elem_of_In, elem_of_walk; auto|]. by apply orb_true_iff.
Qed.

Lemma check_handler_nil f node handler :
  check_handler f node handler = [] ↔
  (_catches_bare_exception handler = true → _handler_has_reraise handler = true).
Proof.
  unfold check_handler. destruct (_catches_bare_exception handler), (_handler_has_reraise handler); cbn;
    split; try done. intros H. by specialize (H eq_refl).
Qed.
Lemma handlers_tree_nil f tree : is_node tree = true → check_tree f tree = [] ↔ handlers_guarded tree.
Proof.
  intros Ht. unfold check_tree, handlers_guarded. repeat setoid_rewrite bind_nil.
  repeat setoid_rewrite list_elem_of_filter. setoid_rewrite check_handler_nil.
  setoid_rewrite (λ o, elem_of_walk tree o Ht). split.
  - intros H node child handler Hn Ha Hc Hy. apply (H node (conj Ha Hn) child). split; [done|].
    apply elem_of_walk; [by eapply is_a_node|done].
  - intros H node [Ha Hn] child [Hy Hc] handler. apply (H node child); try done.
    apply elem_of_walk in Hc; [done|by eapply is_a_node].
Qed.
Lemma handlers_file_nil f :
  parser_ok parse → _check_file f = Ok [] ↔ parsed_as parse f handlers_guarded.
Proof.
  intros Hok. unfold _check_file.
  apply (parsed_check parse (λ r, Ok (match r with inl exc => [syntax_error f exc] | inr tree => check_tree f tree end)));
    [done|]. intros source tree [Hn _]%Hok. rewrite Ok_nil. by apply handlers_tree_nil.
Qed.
(** The check succeeds exactly when every source file that is not a test is read, parsed, and
    guards its broad handlers. *)
Theorem broad_passes dirs :
  parser_ok parse →
  status (main dirs) = Ok 0 ↔
  ∀ files f, Some files ∈ dirs → f ∈ files → checked_file f = true → parsed_as parse f handlers_guarded.
Proof.
  intros Hok. setoid_rewrite <-handlers_file_nil; [|done].
  trans (errors_of _check_file (filter (λ f, checked_file f = true) (dirs ≫= default [])) = Ok []).
  { unfold main. destruct (errors_of _ _) as [[|]|]; cbn; naive_solver. }
  rewrite errors_of_nil. setoid_rewrite list_elem_of_filter. setoid_rewrite list_elem_of_bind. split.
  - intros H files f Hd Hf Hc. apply H. split; [done|]. by exists (Some files).
  - intros H f [Hc ([files|]&Hf&Hd)]; [eauto|by apply elem_of_nil in Hf].
Qed.

End check.
End BroadExceptions.

(** ** check_hardcoded_test_dates.py *)
Module TestDates.
Import Ast.

Section check.
Context (parse : pystr → pystr + object).

Definition _FUTURE_YEAR_THRESHOLD : Z := 2024.
Definition date_name (o : object) : bool := named (u "datetime") o || named (u "date") o.

Definition _is_date_constructor (call : object) : bool :=
  let func := attr "func" call in
  (is_a "Name" func && date_name (attr "id" func)) || (is_a "Attribute" func && date_name (attr "attr" func)).
(** A [bool] is an [int], of value 0 or 1. *)
Definition _first_arg_is_large_year (call : object) : option Z :=
  match items (attr "args" call) with
  | [] => None
  | first :: _ =>
      if is_a "Constant" first then
        match attr "value" first with
        | OInt n => if _FUTURE_YEAR_THRESHOLD <=? n then Some n else None
        | _ => None
        end
      else None
  end.
Definition timedelta_call (right : object) : bool :=
  is_a "Call" right &&
  let func := attr "func" right in
  (is_a "Name" func && named (u "timedelta") (attr "id" func)) ||
  (is_a "Attribute" func && named (u "timedelta") (attr "attr" func)).
(** [node] adds a timedelta to, or subtracts one from, the object [call]. *)
Definition offsets (call node : object) : bool :=
  is_a "BinOp" node && (is_a "Add" (attr "op" node) || is_a "Sub" (attr "op" node)) &&
  bool_decide (ident (attr "left" node) = ident call) && timedelta_call (attr "right" node).
Definition _call_is_inside_binop_with_timedelta (call tree : object) : bool :=
  existsb (offsets call) (walk tree).

Definition check_node (f : source_file) (tree node : object) : list pystr :=
  if negb (is_a "Call" node) then []
  else if negb (_is_date_constructor node) then []
  else match _first_arg_is_large_year node with
  | None => []
  | Some year =>
      if _call_is_inside_binop_with_timedelta node tree then []
      else [at_node f node ++ u "hardcoded year " ++ str_of_int year ++ u " in datetime/date constructor. " ++
            u "Use `datetime.now(timezone.utc) + timedelta(...)` for future " ++
            u "references so the test does not become stale."]
  end.
Definition _check_file (f : source_file) : result exn (list pystr) :=
  source ← read_text f;
  Ok (match parse source with
      | inl exc => [syntax_error f exc]
      | inr tree => walk tree ≫= check_node f tree
      end).

Definition main (dirs : list (option (list source_file))) : run_result :=
  let files := dirs ≫= default [] in
  match errors_of _check_file files with
  | Err e => MkRun [] [] (Err e)
  | Ok [] => MkRun (u "Validated datetime literals: " ++ str_of_int (Z.of_nat (length files)) ++
                    u " test file(s) checked." ++ newline) [] (Ok 0)
  | Ok errors => MkRun [] (messages errors) (Ok 1)
  end.
(** *** What the check accepts *)

(** A date of a recent year is written only as the left operand of an offset. *)
Definition dates_relative (tree : object) : Prop :=
  ∀ call year, within tree call → is_a "Call" call = true → _is_date_constructor call = true →
    _first_arg_is_large_year call = Some year →
    ∃ sum, within tree sum ∧ is_a "BinOp" sum = true ∧
      (is_a "Add" (attr "op" sum) = true ∨ is_a "Sub" (attr "op" sum) = true) ∧
      attr "left" sum = call ∧ timedelta_call (attr "right" sum) = true.

Lemma large_year call year :
  _first_arg_is_large_year call = Some year →
  _FUTURE_YEAR_THRESHOLD <= year ∧
  ∃ first rest, items (attr "args" call) = first :: rest ∧ attr "value" first = OInt year.
Proof.
  unfold _first_arg_is_large_year. destruct (items _) as [|first rest]; [done|].
  destruct (is_a _ _); [|done]. destruct (attr "value" first) eqn:Ev; try done.
  destruct (Z.leb_spec _FUTURE_YEAR_THRESHOLD n); [|done]. intros [= <-]. split; [lia|]. eauto.
Qed.
Lemma inside_binop call tree :
  is_node tree = true → unambiguous tree → within tree call → is_a "Call" call = true →
  _call_is_inside_binop_with_timedelta call tree = true ↔
  ∃ sum, within tree sum ∧ is_a "BinOp" sum = true ∧
    (is_a "Add" (attr "op" sum) = true ∨ is_a "Sub" (attr "op" sum) = true) ∧
    attr "left" sum = call ∧ timedelta_call (attr "right" sum) = true.
Proof.
  intros Ht Hu Hin Hc. unfold _call_is_inside_binop_with_timedelta, offsets. rewrite existsb_exists. split.
  - intros (sum&Hs&H). apply list_elem_of_In, elem_of_walk in Hs; [|done].
    rewrite !andb_true_iff, orb_true_iff, bool_decide_eq_true in H. destruct H as [[[Hb Ho] Hl] Hr].
    exists sum. split_and!; [done..| |done]. apply Hu; [|done..]. apply attr_within; [done|].
    destruct call, (attr "left" sum); try discriminate Hc; try discriminate Hl; done.
  - intros (sum&Hs&Hb&Ho&Hl&Hr). exists sum. split; [by apply list_elem_of_In, elem_of_walk|].
    rewrite !andb_true_iff, orb_true_iff, bool_decide_eq_true. by rewrite Hl.
Qed.
Lemma dates_tree_nil f tree :
  is_node tree = true → unambiguous tree → walk tree ≫= check_node f tree = [] ↔ dates_relative tree.
Proof.
  intros Ht Hu. rewrite bind_nil. setoid_rewrite (λ o, elem_of_walk tree o Ht).
  apply forall_proper. intros call. unfold check_node. split.
  - intros H year Hin Hc Hd Hy. specialize (H Hin). rewrite Hc, Hd, Hy in H. cbn in H.
    apply inside_binop; [done..|]. by destruct (_call_is_inside_binop_with_timedelta call tree).
  - intros H Hin. destruct (is_a "Call" call) eqn:Hc; [|done]. destruct (_is_date_constructor call) eqn:Hd; [|done].
    cbn. destruct (_first_arg_is_large_year call) as [year|] eqn:Hy; [|done].
    by rewrite (proj2 (inside_binop call tree Ht Hu Hin Hc)) by eauto.
Qed.
Lemma dates_file_nil f :
  parser_ok parse → _check_file f = Ok [] ↔ parsed_as parse f dates_relative.
Proof.
  intros Hok. unfold _check_file.
  apply (parsed_check parse (λ r, Ok (match r with inl exc => [syntax_error f exc]
                                                | inr tree => walk tree ≫= check_node f tree end)));
    [done|]. intros source tree [Hn Hu]%Hok. rewrite Ok_nil. by apply dates_tree_nil.
Qed.
Theorem dates_pass dirs :
  parser_ok parse →
  status (main dirs) = Ok 0 ↔
  ∀ files f, Some files ∈ dirs → f ∈ files → parsed_as parse f dates_relative.
Proof.
  intros Hok. setoid_rewrite <-dates_file_nil; [|done]. rewrite <-dirs_clean. unfold main.
  destruct (errors_of _ _) as [[|]|]; cbn; naive_solver.
Qed.

End check.
End TestDates.

(** ** check_api_response_models.py *)
Module ResponseModels.
Import Ast.

Section check.
Context (parse : pystr → pystr + object).

Definition ROUTES_DIR : pystr := u "tca/api/routes".
Definition HTTP_METHODS : list pystr :=
  [u "get"; u "post"; u "put"; u "patch"; u "delete"; u "head"; u "options"].

Definition _decorator_target_name (decorator : object) : option pystr :=
  if negb (is_a "Call" decorator) then None
  else
    let func := attr "func" decorator in
    if negb (is_a "Attribute" func) then None
    else if negb (is_a "Name" (attr "value" func)) then None
    else if negb (named (u "router") (attr "id" (attr "value" func))) then None
    else Some (text_of (attr "attr" func)).
Definition none_constant (value : object) : bool :=
  is_a "Constant" value && match attr "value" value with ONone => true | _ => false end.
Fixpoint first_model (keywords : list object) : bool :=
  match keywords with
  | [] => false
  | keyword :: keywords =>
      if named (u "response_model") (attr "arg" keyword) then negb (none_constant (attr "value" keyword))
      else first_model keywords
  end.
Definition _has_explicit_response_model (decorator : object) : bool :=
  first_model (items (attr "keywords" decorator)).

Definition check_decorator (f : source_file) (node decorator : object) : list pystr :=
  match _decorator_target_name decorator with
  | None => []
  | Some target_name =>
      if negb (bool_decide (target_name ∈ HTTP_METHODS)) then []
      else if is_a "Call" decorator && _has_explicit_response_model decorator then []
      else [at_node f node ++ u "route '" ++ text_of (attr "name" node) ++ u "' uses @router." ++
            target_name ++ u "(...) without response_model=..."]
  end.
Definition check_tree (f : source_file) (tree : object) : list pystr :=
  filter (λ node, is_function node = true) (walk tree) ≫= λ node,
  items (attr "decorator_list" node) ≫= check_decorator f node.
Definition _check_file (f : source_file) : result exn (list pystr) :=
  source ← read_text f;
  match parse source with
  | inl _ => Err SyntaxError
  | inr tree => Ok (check_tree f tree)
  end.

Definition checked_file (f : source_file) : bool := negb (bool_decide (name f = u "__init__.py")).
Definition main (dir : option (list source_file)) : run_result :=
  match dir with
  | None => MkRun (ROUTES_DIR ++ u " not found; skipping check." ++ newline) [] (Ok 0)
  | Some route_files =>
      match errors_of _check_file (filter (λ f, checked_file f = true) route_files) with
      | Err e => MkRun [] [] (Err e)
      | Ok [] => MkRun (u "Validated response_model usage in " ++
                        str_of_int (Z.of_nat (length route_files)) ++ u " route file(s)." ++ newline) [] (Ok 0)
      | Ok errors => MkRun (messages errors) [] (Ok 1)
      end
  end.
(** *** What the check accepts *)

(** Every function that is a route of [router] declares a response model. *)
Definition models_declared (tree : object) : Prop :=
  ∀ node decorator target_name, within tree node → is_function node = true →
    decorator ∈ items (attr "decorator_list" node) →
    _decorator_target_name decorator = Some target_name → target_name ∈ HTTP_METHODS →
    _has_explicit_response_model decorator = true.

Lemma check_decorator_nil f node decorator :
  check_decorator f node decorator = [] ↔
  ∀ target_name, _decorator_target_name decorator = Some target_name → target_name ∈ HTTP_METHODS →
    _has_explicit_response_model decorator = true.
Proof.
  unfold check_decorator. destruct (_decorator_target_name decorator) as [t|] eqn:Et; [|done].
  assert (is_a "Call" decorator = true) as ->.
  { unfold _decorator_target_name in Et. by destruct (is_a "Call" decorator). }
  case_bool_decide; cbn; [|split; [by intros _ ? [= <-]|done] ].
  destruct (_has_explicit_response_model decorator); [done|]. split; [done|]. intros Hm. by specialize (Hm t eq_refl H).
Qed.
Lemma models_tree_nil f tree : is_node tree = true → check_tree f tree = [] ↔ models_declared tree.
Proof.
  intros Ht. unfold check_tree, models_declared. repeat setoid_rewrite bind_nil.
  setoid_rewrite list_elem_of_filter. setoid_rewrite (λ o, elem_of_walk tree o Ht).
  setoid_rewrite check_decorator_nil. naive_solver.
Qed.
Lemma models_file_nil f :
  parser_ok parse → _check_file f = Ok [] ↔ parsed_as parse f models_declared.
Proof.
  intros Hok. unfold _check_file.
  apply (parsed_check parse (λ r, match r with inl _ => Err SyntaxError | inr tree => Ok (check_tree f tree) end));
    [done|]. intros source tree [Hn _]%Hok. rewrite Ok_nil. by apply models_tree_nil.
Qed.
Theorem models_pass dir :
  parser_ok parse →
  status (main dir) = Ok 0 ↔
  ∀ files f, dir = Some files → f ∈ files → checked_file f = true → parsed_as parse f models_declared.
Proof.
  intros Hok. setoid_rewrite <-models_file_nil; [|done]. destruct dir as [files|]; [|done].
  trans (errors_of _check_file (filter (λ f, checked_file f = true) files) = Ok []).
  { unfold main. destruct (errors_of _ _) as [[|]|]; cbn; naive_solver. }
  rewrite errors_of_nil. setoid_rewrite list_elem_of_filter. naive_solver.
Qed.

End check.
End ResponseModels.

(** ** check_migration_downgrade_coverage.py *)
Module DowngradeCoverage.
Import Ast.

Section check.
Context (parse : pystr → pystr + object).

Definition MIGRATION_TESTS_DIR : pystr := u "tests/migrations".
Definition _INFRASTRUCTURE_TEST_FILES : list pystr := [u "test_alembic_setup.py"].

(** What is written to the error stream, and the names. *)
Definition _test_function_names (f : source_file) (source : pystr) : pystr * list pystr :=
  match parse source with
  | inl exc => (syntax_error f exc ++ newline, [])
  | inr tree =>
      ([], filter (λ s, startswith s (u "test_") = true)
             ((λ node, text_of (attr "name" node)) <$> filter (λ node, is_function node = true) (walk tree)))
  end.

(** What one file adds to the error stream, to the complaints and to the count. *)
Definition check_file (f : source_file) : result exn (pystr * list pystr * nat) :=
  if bool_decide (name f ∈ _INFRASTRUCTURE_TEST_FILES) then Ok ([], [], O)
  else
    source ← read_text f;
    if negb (contains source (u "upgrade")) then Ok ([], [], O)
    else
      let '(stderr, test_names) := _test_function_names f source in
      let has_downgrade := existsb (λ s, contains s (u "downgrad")) test_names in
      Ok (stderr,
          if negb has_downgrade
          then [path f ++ u ": file exercises 'upgrade' but contains no test function " ++
                u "with 'downgrad' in its name. Add a downgrade coverage test."]
          else [], 1%nat).
Fixpoint check_files (files : list source_file) (stderr : pystr) (errors : list pystr) (checked : nat)
    : pystr * result exn (list pystr * nat) :=
  match files with
  | [] => (stderr, Ok (errors, checked))
  | f :: files =>
      match check_file f with
      | Err e => (stderr, Err e)
      | Ok (text, es, n) => check_files files (stderr ++ text) (errors ++ es) (checked + n)
      end
  end.

Definition main (dir : option (list source_file)) : run_result :=
  match dir with
  | None => MkRun (MIGRATION_TESTS_DIR ++ u " not found; skipping check." ++ newline) [] (Ok 0)
  | Some test_files =>
      match check_files test_files [] [] 0 with
      | (stderr, Err e) => MkRun [] stderr (Err e)
      | (stderr, Ok ([], checked)) =>
          MkRun (u "Validated migration downgrade coverage: " ++ str_of_int (Z.of_nat checked) ++ u "/" ++
                 str_of_int (Z.of_nat (length test_files)) ++ u " migration test file(s) checked." ++ newline)
            stderr (Ok 0)
      | (stderr, Ok (errors, _)) => MkRun [] (stderr ++ messages errors) (Ok 1)
      end
  end.
(** *** What the check accepts *)

(** A file that mentions upgrades has a test function, wherever it is nested, that mentions
    downgrading. *)
Definition covered (f : source_file) : Prop :=
  ∃ source, read_text f = Ok source ∧
    (contains source (u "upgrade") = true →
     ∃ tree node, parse source = inr tree ∧ within tree node ∧ is_function node = true ∧
       startswith (text_of (attr "name" node)) (u "test_") = true ∧
       contains (text_of (attr "name" node)) (u "downgrad") = true).

Lemma has_downgrade f source :
  parser_ok parse →
  existsb (λ s, contains s (u "downgrad")) (_test_function_names f source).2 = true ↔
  ∃ tree node, parse source = inr tree ∧ within tree node ∧ is_function node = true ∧
    startswith (text_of (attr "name" node)) (u "test_") = true ∧
    contains (text_of (attr "name" node)) (u "downgrad") = true.
Proof.
  intros Hok. unfold _test_function_names. destruct (parse source) as [|tree] eqn:Ep; cbn [snd].
  { split; [done|]. by intros (?&?&?&_). }
  destruct (Hok _ _ Ep) as [Ht _]. rewrite existsb_exists. split.
  - intros (s&Hs%list_elem_of_In&Hc). apply list_elem_of_filter in Hs as [Hp (node&->&Hn)%list_elem_of_fmap].
    apply list_elem_of_filter in Hn as [Hf Hn]. exists tree, node. by rewrite <-elem_of_walk.
  - intros (tree'&node&[= <-]&Hn&Hf&Hp&Hc). eexists. split; [|exact Hc]. apply list_elem_of_In, list_elem_of_filter.
    split; [done|]. apply list_elem_of_fmap. eexists. split; [done|]. by apply list_elem_of_filter; rewrite elem_of_walk.
Qed.
Lemma check_file_ok f :
  parser_ok parse →
  (∃ text n, check_file f = Ok (text, [], n)) ↔ (name f ∉ _INFRASTRUCTURE_TEST_FILES → covered f).
Proof.
  intros Hok. unfold check_file, covered. case_bool_decide; [split; [done|eauto]|].
  destruct (read_text f) as [source|e]; cbn [mbind result_bind]; [|split; [by intros (?&?&?)|]; intros Hc; by destruct (Hc H) as (?&?&_)].
  destruct (contains source (u "upgrade")) eqn:Eu; cbn [negb].
  - destruct (_test_function_names f source) as [stderr names] eqn:En.
    pose proof (has_downgrade f source Hok) as Hd. rewrite En in Hd. cbn [snd] in Hd.
    destruct (existsb _ names); cbn [negb].
    + split; [|eauto]. intros _ _. exists source. split; [done|]. intros _. by apply Hd.
    + split; [by intros (?&?&?)|]. intros Hc. destruct (Hc H) as (?&[= <-]&Hx). by apply Hd in Hx.
  - split; [|eauto]. intros _ _. exists source. split; [done|]. congruence.
Qed.
Lemma check_files_ok files stderr errors checked :
  (∃ text n, check_files files stderr errors checked = (text, Ok ([], n))) ↔
  errors = [] ∧ ∀ f, f ∈ files → ∃ text n, check_file f = Ok (text, [], n).
Proof.
  revert stderr errors checked. induction files as [|f files IH]; intros stderr errors checked; cbn [check_files].
  - split; [intros (?&?&[= _ -> _]); split; [done|by intros f ?%elem_of_nil]|]. intros [-> _]. eauto.
  - destruct (check_file f) as [[[text es] n]|e] eqn:Ef.
    + rewrite IH. split.
      * intros [[-> ->]%app_nil H]. split; [done|]. intros g [->|Hg]%elem_of_cons; eauto.
      * intros [-> H]. destruct (H f ltac:(left)) as (?&?&E). rewrite Ef in E. injection E as -> -> ->.
        split; [done|]. intros g Hg. apply H. by right.
    + split; [by intros (?&?&?)|]. intros [_ H]. destruct (H f ltac:(left)) as (?&?&E). by rewrite Ef in E.
Qed.
Theorem downgrades_pass dir :
  parser_ok parse →
  status (main dir) = Ok 0 ↔
  ∀ files f, dir = Some files → f ∈ files → name f ∉ _INFRASTRUCTURE_TEST_FILES → covered f.
Proof.
  intros Hok. destruct dir as [files|]; [|done].
  trans (∃ text n, check_files files [] [] 0 = (text, Ok ([], n))).
  { unfold main. destruct (check_files files [] [] 0) as [text [[ [|] n]|e] ]; cbn; naive_solver. }
  rewrite check_files_ok. setoid_rewrite check_file_ok; [|done]. naive_solver.
Qed.

End check.
End DowngradeCoverage.

(** * Examples *)
Module Samples.
Import Ast.

Definition Name (i : Z) (id : string) : object := ONode i "Name" 1 [("id", OStr (u id))]%string.
Definition Call (i line : Z) (func : object) (args : list object) : object :=
  ONode i "Call" line [("func", func); ("args", OList args); ("keywords", OList [])]%string.
Definition Module_ (body : list object) : object := ONode 0 "Module" 0 [("body", OList body)]%string.
Definition here : source_file := MkSource (u "t.py") (u "t.py") [u "t.py"] (Ok []).

(** [with TestClient(app) as client: pass], and then [TestClient(app)] on line 3. *)
Definition clients : object :=
  let client i line := Call i line (Name (i + 1) "TestClient") [Name (i + 2) "app"] in
  Module_
    [ONode 1 "With" 1
       [("items", OList [ONode 2 "withitem" 0 [("context_expr", client 3 1); ("optional_vars", Name 6 "client")]]);
        ("body", OList [ONode 7 "Pass" 2 []])]%string;
     ONode 8 "Expr" 3 [("value", client 9 3)]%string].
Example clients_checked :
  TestClientContext._check_file (λ _, inr clients) here =
    Ok [u "t.py:3: TestClient must be used with 'with TestClient(app) as client:'."].
Proof. by_eval. Qed.
Example clients_walked : omap ident (walk clients) = [0; 1; 8; 2; 7; 9; 3; 6; 10; 11; 4; 5].
Proof. by_eval. Qed.

(** [try: pass] with [except Exception:] and the given body, in an asynchronous function. *)
Definition handler (body : list object) : object :=
  ONode 10 "ExceptHandler" 4 [("type", Name 11 "Exception"); ("body", OList body)]%string.
Definition async_def (i : Z) (body : list object) : object :=
  ONode i "AsyncFunctionDef" 1 [("name", OStr (u "f")); ("body", OList body)]%string.
Definition try_ (h : object) : object :=
  ONode 9 "Try" 2 [("body", OList [ONode 8 "Pass" 3 []]); ("handlers", OList [h])]%string.
Definition raise_ (exc : object) : object := ONode 12 "Raise" 5 [("exc", exc); ("cause", ONone)]%string.

Definition broad (tree : object) : nat :=
  match BroadExceptions._check_file (λ _, inr tree) here with Ok es => length es | Err _ => O end.
(** A handler without a raise is complained of, once for each enclosing asynchronous function;
    a [raise] of another exception is enough. *)
Example swallowed : broad (Module_ [async_def 1 [try_ (handler [ONode 13 "Pass" 5 []])]]) = 1%nat.
Proof. by_eval. Qed.
Example swallowed_twice :
  broad (Module_ [async_def 1 [async_def 2 [try_ (handler [ONode 13 "Pass" 5 []])]]]) = 2%nat.
Proof. by_eval. Qed.
Example raised_other : broad (Module_ [async_def 1 [try_ (handler [raise_ (Name 13 "other")])]]) = O.
Proof. by_eval. Qed.

(** [datetime(2026)] is complained of, [datetime(2026) + timedelta()] is not. *)
Definition year_2026 : object :=
  Call 5 1 (Name 6 "datetime") [ONode 7 "Constant" 1 [("value", OInt 2026)]%string].
Definition offset : object :=
  ONode 4 "BinOp" 1 [("left", year_2026); ("op", ONode 8 "Add" 0 []); ("right", Call 9 1 (Name 10 "timedelta") [])]%string.
Definition dates (tree : object) : nat :=
  match TestDates._check_file (λ _, inr tree) here with Ok es => length es | Err _ => O end.
Example absolute_date : dates (Module_ [ONode 1 "Expr" 1 [("value", year_2026)]%string]) = 1%nat.
Proof. by_eval. Qed.
Example relative_date : dates (Module_ [ONode 1 "Expr" 1 [("value", offset)]%string]) = O.
Proof. by_eval. Qed.
End Samples.
