(* ===== verification/Codex.v ===== *)
(** What scripts/codex_plan_cycle_runner.py makes of the Codex CLI: its version and options,
    the commands and the response schema, and the classification of its output. *)

From Stdlib Require Import SpecFloat Btauto.
From S2P Require Import Prelude PyValue PyText PyCodec PyJson PyRe Plan.
Local Open Scope Z_scope.

Module Codex.
Import PyRe.

(** ** Results *)

Record CommandResult := MkCommandResult { returncode : Z; output : pystr }.
Record CodexStepResult := MkStepResult {
  step_returncode : Z;
  step_output : pystr;
  last_message : pystr;
}.
Record RateLimitIssue := MkIssue { line : pystr; retryable : bool }.
Record CodexCliCapabilities := MkCapabilities {
  parsed_version : option (Z * Z * Z);
  supports_ask_for_approval_flag : bool;
  enable_option_5 : bool;
  option_5_warning : option pystr;
}.

(** The steps, by their names. *)
Inductive step := implement | review_fix_push | docs_review | precommit_repair.
#[export] Instance step_eq_dec : EqDecision step.
Proof. solve_decision. Defined.
#[export] Instance step_countable : Countable step.
Proof.
  refine (inj_countable' (λ s, match s with implement => 0 | review_fix_push => 1 | docs_review => 2 | precommit_repair => 3 end)
    (λ n, if n =? 0 then implement else if n =? 1 then review_fix_push else if n =? 2 then docs_review else precommit_repair) _).
  by intros [].
Defined.
Definition step_name (s : step) : pystr :=
  match s with
  | implement => u "implement"
  | review_fix_push => u "review_fix_push"
  | docs_review => u "docs_review"
  | precommit_repair => u "precommit_repair"
  end.

(** ** The patterns, all with [IGNORECASE] *)
Section patterns.
Context `{UD : UnicodeData}.

Definition word_ (s : string) : regex := lit_ci (u s).
Definition anything : regex := Star true dot.
Definition bounded (rs : list regex) : regex := seq ([WordBoundary] ++ rs ++ [WordBoundary]).
Definition class_of (cs : pystr) : regex := Class (λ c, bool_decide (c ∈ cs)).

Definition insufficient_quota : regex := bounded [word_ "insufficient"; class_of (u "_ "); word_ "quota"].
Definition rate_limit : regex :=
  bounded [word_ "rate"; opt (class_of (u " -")); word_ "limit"; opt (word_ "ed")].
Definition too_many_requests : regex := bounded [word_ "too many requests"].
Definition usage_limit : regex := bounded [word_ "usage limit"].
Definition quota_exceeded : regex := bounded [word_ "quota exceeded"].
Definition exceeded (what : regex) : regex :=
  seq [WordBoundary; word_ "exceeded"; WordBoundary; anything; WordBoundary; what; WordBoundary].
Definition reached_limit : regex :=
  bounded [word_ "you"; Alt (word_ "'ve") (word_ " have"); word_ " reached "; anything; word_ "limit"].
Definition out_of_credits : regex := bounded [word_ "out of credit"; opt (word_ "s")].
Definition code_429 : regex := bounded [word_ "429"].

Definition QUOTA_ERROR_PATTERNS : list regex :=
  [insufficient_quota; rate_limit; too_many_requests; usage_limit; quota_exceeded;
   exceeded (Group (u "1") (alt [word_ "rate"; word_ "quota"; word_ "usage"]));
   reached_limit; out_of_credits; code_429].
Definition RETRYABLE_RATE_LIMIT_PATTERNS : list regex :=
  [code_429; too_many_requests; rate_limit; exceeded (word_ "rate")].
Definition QUOTA_EXHAUSTION_PATTERNS : list regex :=
  [insufficient_quota; usage_limit; quota_exceeded;
   exceeded (Group (u "1") (alt [word_ "quota"; word_ "usage"])); reached_limit; out_of_credits].
Definition FORBIDDEN_GIT_NO_VERIFY_PATTERN : regex :=
  seq [WordBoundary; word_ "git"; WordBoundary; Star true (Class (λ c, negb ((c =? 10) || (c =? 13))));
       space; word_ "--no-verify"; Alt space End_].

Definition found (r : regex) (line : pystr) : bool := bool_decide (is_Some (search Plan.word r line)).
Definition any_found (rs : list regex) (line : pystr) : bool := existsb (λ r, found r line) rs.

(** ** The classification of output *)

Fixpoint first_line {A} (f : pystr → option A) (lines : list pystr) : option A :=
  match lines with
  | [] => None
  | line :: lines => match f line with Some a => Some a | None => first_line f lines end
  end.
(** The lines of several texts. *)
Definition lines_of (texts : list pystr) : list pystr := texts ≫= splitlines.

Definition detect_quota_issue (texts : list pystr) : option pystr :=
  first_line (λ line, if any_found QUOTA_ERROR_PATTERNS line then Some (strip line) else None) (lines_of texts).
Definition detect_rate_limit_issue (texts : list pystr) : option RateLimitIssue :=
  first_line (λ line,
    if any_found RETRYABLE_RATE_LIMIT_PATTERNS line then Some (MkIssue (strip line) true)
    else if any_found QUOTA_EXHAUSTION_PATTERNS line then Some (MkIssue (strip line) false)
    else None) (lines_of texts).
Definition detect_forbidden_no_verify_usage (texts : list pystr) : option pystr :=
  first_line (λ line, if found FORBIDDEN_GIT_NO_VERIFY_PATTERN line then Some (strip line) else None)
    (lines_of texts).
(** [True]: the step may go on. *)
Definition enforce_no_verify_policy_or_fail (output last_message : pystr) : bool :=
  match detect_forbidden_no_verify_usage [output; last_message] with None => true | Some _ => false end.

(** *** What the classification finds *)

Lemma first_line_None {A} (f : pystr → option A) lines :
  first_line f lines = None ↔ Forall (λ l, f l = None) lines.
Proof.
  induction lines as [|l lines IH]; cbn [first_line]; [split; [constructor|done]|].
  destruct (f l) eqn:E; [split; [done|by intros [? _]%Forall_cons; congruence]|].
  rewrite IH, Forall_cons. tauto.
Qed.

Lemma found_true r line :
  found r line = true ↔ ∃ p t q m, line = p ++ t ++ q ∧ parses Plan.word r (reverse p) t q [] m.
Proof. unfold found. by rewrite bool_decide_eq_true, search_spec. Qed.

(** The text after [exceeded], apart from what it names. *)
Definition exceeded_at (line before t rest : pystr) : Prop :=
  ∃ p s, line = p ++ s ++ t ++ rest ∧ before = reverse s ++ reverse p ∧
    parses Plan.word (seq [WordBoundary; word_ "exceeded"; WordBoundary; anything; WordBoundary])
      (reverse p) s (t ++ rest) [] [] ∧
    at_boundary Plan.word (reverse t ++ before) rest = true.
Lemma found_exceeded what line :
  found (exceeded what) line = true ↔
  ∃ before t rest m, exceeded_at line before t rest ∧ parses Plan.word what before t rest [] m.
Proof.
  rewrite found_true. change (exceeded what) with
    (seq ([WordBoundary; word_ "exceeded"; WordBoundary; anything; WordBoundary] ++ [what; WordBoundary])).
  setoid_rewrite parses_seq_app. split.
  - intros (p&t&q&m&->&s1&s2&c1&->&H1&H2).
    assert (c1 = []) as -> by by eapply parses_no_groups in H1.
    apply parses_seq_cons in H2 as (t1&t2&c2&->&H2&H3). apply parses_seq_cons in H3 as (t3&t4&c3&->&H3&H4).
    apply parses_boundary in H3 as (->&Hb&->). apply parses_seq_nil in H4 as [-> ->].
    rewrite !app_nil_r in *. eexists (reverse s1 ++ reverse p), t1, q, _. split; [|exact H2].
    exists p, s1. by rewrite <-app_assoc.
  - intros (before&t&rest&m&(p&s&->&->&H1&Hb)&H2). exists p, (s ++ t), rest, m.
    rewrite <-app_assoc. split; [done|]. exists s, t, []. split_and!; [done..|].
    rewrite <-(app_nil_r t). eapply parses_seq_intro; [exact H2|].
    by apply parses_seq_one, parses_boundary.
Qed.

Lemma any_found_quota line :
  any_found QUOTA_ERROR_PATTERNS line =
  any_found RETRYABLE_RATE_LIMIT_PATTERNS line || any_found QUOTA_EXHAUSTION_PATTERNS line.
Proof.
  assert (found (exceeded (Group (u "1") (alt [word_ "rate"; word_ "quota"; word_ "usage"]))) line =
    found (exceeded (word_ "rate")) line ||
    found (exceeded (Group (u "1") (alt [word_ "quota"; word_ "usage"]))) line) as E.
  { apply eq_true_iff_eq. rewrite orb_true_iff, !found_exceeded.
    setoid_rewrite parses_group. cbn [alt foldl]. setoid_rewrite parses_alt. setoid_rewrite parses_alt.
    split.
    - intros (b&t&r&m&Hc&m1&->&[ [H|H]|H]); [left|right|right]; exists b, t, r; eauto 10.
    - intros [(b&t&r&m&Hc&H)|(b&t&r&m&Hc&m1&->&[H|H])]; exists b, t, r; eauto 10. }
  unfold any_found, QUOTA_ERROR_PATTERNS, RETRYABLE_RATE_LIMIT_PATTERNS, QUOTA_EXHAUSTION_PATTERNS.
  cbn [existsb]. rewrite E. btauto.
Qed.

(** The quota probe and the classification of a failed step agree on what a limit is: the same
    line, retryable or not. *)
Lemma detect_quota_issue_spec texts :
  detect_quota_issue texts = line <$> detect_rate_limit_issue texts.
Proof.
  unfold detect_quota_issue, detect_rate_limit_issue. induction (lines_of texts) as [|l lines IH]; [done|].
  cbn [first_line]. rewrite any_found_quota.
  destruct (any_found RETRYABLE_RATE_LIMIT_PATTERNS l), (any_found QUOTA_EXHAUSTION_PATTERNS l); done.
Qed.

(** *** The bypassed hook

    A line on which [git] stands as a word, and later on [--no-verify] between blanks or at the
    end of the line, in any case: a git command that skips its hooks. *)
Definition bypasses (line : pystr) : Prop :=
  ∃ pre git mid c flag post, line = pre ++ git ++ mid ++ c :: flag ++ post ∧
    ascii_lower <$> git = u "git" ∧ ascii_lower <$> flag = u "--no-verify" ∧
    at_word Plan.word (reverse pre) = false ∧ at_word Plan.word (mid ++ [c]) = false ∧
    is_space c = true ∧ match post with [] => True | d :: _ => is_space d = true end.

Lemma parses_lit_ci w s before rest caps :
  ascii_lower <$> s = ascii_lower <$> w → parses Plan.word (lit_ci w) before s rest caps caps.
Proof.
  revert before s. induction w as [|c w IH]; intros before [|d s] E; try discriminate E; [by apply parses_seq_nil|].
  injection E as Ed E. change (lit_ci (c :: w)) with (seq (letter_ci c :: (letter_ci <$> w))).
  change (d :: s) with ([d] ++ s).
  eapply parses_seq_intro; [|by apply IH]. apply parses_class. exists d. by rewrite Ed, Z.eqb_refl.
Qed.
Lemma letter_word `{!UnicodeLaws} c l :
  97 <= l <= 122 → ascii_lower c = l → Plan.word c = true.
Proof.
  unfold ascii_lower, Plan.word. intros Hl Hc.
  destruct ((65 <=? c) && (c <=? 90)) eqn:E; rewrite isalnum_ascii by lia; unfold is_alpha; lia.
Qed.
(** The words of a line of its own around which the boundaries are. *)
Lemma git_boundaries `{!UnicodeLaws} pre git rest :
  ascii_lower <$> git = u "git" → at_word Plan.word (reverse pre) = false → at_word Plan.word rest = false →
  at_boundary Plan.word (reverse pre) (git ++ rest) = true ∧
  at_boundary Plan.word (reverse git ++ reverse pre) rest = true.
Proof.
  intros Hg Hp Hr. change (u "git") with [103; 105; 116] in Hg.
  destruct git as [|g [|i [|t [|? ?]]]]; try discriminate Hg.
  injection Hg as Hg Hi Ht. unfold at_boundary. change (reverse [g; i; t]) with [t; i; g]. rewrite Hp, Hr. cbn [app at_word].
  by rewrite (letter_word g 103), (letter_word t 116) by lia || done.
Qed.

(** Such a line is found. *)
Lemma bypasses_found `{!UnicodeLaws} line :
  plain line → bypasses line → found FORBIDDEN_GIT_NO_VERIFY_PATTERN line = true.
Proof.
  intros Hplain (pre&git&mid&c&flag&post&->&Hgit&Hflag&Hpre&Hmid&Hc&Hpost). apply found_true.
  assert (at_word Plan.word (mid ++ c :: flag ++ post) = false) as Hrest by by destruct mid.
  destruct (git_boundaries pre git _ Hgit Hpre Hrest) as [Hb1 Hb2].
  assert (∃ t q, post = t ++ q ∧ ∀ b, parses Plan.word (Alt space End_) b t q [] []) as (t&q&->&Ht).
  { destruct post as [|d post].
    - exists [], []. split; [done|]. intros b. apply parse_right. by constructor.
    - exists [d], post. split; [done|]. intros b. apply parse_left. by constructor. }
  exists pre, (git ++ mid ++ [c] ++ flag ++ t), q, [].
  split; [by rewrite <-!app_assoc|]. unfold FORBIDDEN_GIT_NO_VERIFY_PATTERN, space, word_.
  rewrite <-(app_nil_l (git ++ _)). eapply parses_seq_intro.
  { apply parses_boundary. split_and!; [done| |done]. rewrite <-!app_assoc. exact Hb1. }
  eapply parses_seq_intro; [by apply parses_lit_ci; rewrite Hgit|].
  rewrite <-(app_nil_l (mid ++ _)). eapply parses_seq_intro.
  { apply parses_boundary. split_and!; [done| |done]. rewrite <-!app_assoc. exact Hb2. }
  eapply parses_seq_intro.
  { apply parses_star. split; [|done]. unfold plain in Hplain. rewrite !Forall_app in Hplain.
    destruct Hplain as (_&_&Hm&_). eapply Forall_impl; [exact Hm|]. intros x Hx. cbn beta.
    apply negb_true_iff, orb_false_iff. rewrite !Z.eqb_neq. split; by intros ->. }
  eapply parses_seq_intro; [apply parses_class; eauto|].
  eapply parses_seq_intro; [by apply parses_lit_ci; rewrite Hflag|]. by apply parses_seq_one.
Qed.

(** A step that shows one in its output or its last message is refused. *)
Lemma bypass_refused `{!UnicodeLaws} output last_message line :
  line ∈ splitlines output ∨ line ∈ splitlines last_message → bypasses line →
  enforce_no_verify_policy_or_fail output last_message = false.
Proof.
  intros Hin Hb. unfold enforce_no_verify_policy_or_fail, detect_forbidden_no_verify_usage.
  assert (line ∈ lines_of [output; last_message]) as Hl.
  { unfold lines_of. cbn. rewrite app_nil_r. by apply elem_of_app. }
  destruct (first_line _ _) eqn:E; [done|exfalso].
  apply first_line_None in E. rewrite Forall_forall in E. apply E in Hl.
  rewrite bypasses_found in Hl; [done| |done].
  destruct Hin as [Hin|Hin]; [pose proof (splitlines_plain output) as Hp|pose proof (splitlines_plain last_message) as Hp];
    rewrite Forall_forall in Hp; by apply Hp.
Qed.

Context `{FT : FloatText}.

(** Raises what [json.loads] raises other than a [JSONDecodeError]. *)
Definition is_plan_done (last_message : pystr) : result exn bool :=
  payload ← match loads last_message with
            | Ok payload => Ok (Some payload)
            | Err e => if decide (e = JSONDecodeError) then Ok None else Err e
            end;
  mret (
    (match payload with
     | Some (JDict d) => bool_decide (dict_get d (u "STATUS") = Some (JStr (u "PLAN_IS_DONE")))
     | _ => false
     end) ||
    bool_decide (strip last_message = u "PLAN IS DONE") ||
    existsb (λ line, bool_decide (strip line = u "PLAN IS DONE")) (splitlines last_message)).

(** ** Versions and options *)
Context `{DD : DecimalDigits}.

Definition CODEX_OPTION_5_MIN_VERSION : Z * Z * Z := (0, 102, 0).
Definition ASK_FOR_APPROVAL_FLAG : pystr := u "--ask-for-approval".

Definition number (n : string) : regex := Group (u n) (plus true Plan.digit).
Definition version_pattern : regex :=
  seq [WordBoundary; lit (u "codex-cli"); plus true space; number "1"; char 46; number "2"; char 46;
       number "3"; WordBoundary].
(** [int] raises a [ValueError] on more than 4300 digits. *)
Definition parse_codex_version (version_output : pystr) : result exn (option (Z * Z * Z)) :=
  match search Plan.word version_pattern version_output with
  | None => Ok None
  | Some m =>
      let int (n : string) := match py_int (group m (u n)) with Some v => Ok v | None => Err too_many_digits end in
      major ← int "1"; minor ← int "2"; patch ← int "3";
      mret (Some (major, minor, patch))
  end.
Definition version_to_text (version : option (Z * Z * Z)) : pystr :=
  match version with
  | None => u "unknown"
  | Some (major, minor, patch) => join (u ".") [str_of_int major; str_of_int minor; str_of_int patch]
  end.
(** [a < b] on triples. *)
Definition version_ltb (a b : Z * Z * Z) : bool :=
  let '(a1, a2, a3) := a in let '(b1, b2, b3) := b in
  (a1 <? b1) || ((a1 =? b1) && ((a2 <? b2) || ((a2 =? b2) && (a3 <? b3)))).

(** From the outputs of [codex --version] and [codex --help]. *)
Definition codex_capabilities (version_output help_output : pystr) : result exn CodexCliCapabilities :=
  version ← parse_codex_version version_output;
  let supports := contains help_output ASK_FOR_APPROVAL_FLAG in
  let warning :=
    match version with
    | None => Some (u "WARNING: Could not parse Codex CLI version. " ++
                    u "Disabling option 5 and continuing with options 1 and 2 only.")
    | Some v =>
        if version_ltb v CODEX_OPTION_5_MIN_VERSION then
          Some (u "WARNING: Codex CLI version is below required minimum for option 5 " ++
                u "(found " ++ version_to_text version ++ u ", required >= " ++
                version_to_text (Some CODEX_OPTION_5_MIN_VERSION) ++ u "). " ++
                u "Continuing with options 1 and 2 only.")
        else if negb supports then
          Some (u "WARNING: Codex CLI does not advertise --ask-for-approval support. " ++
                u "Disabling option 5 and continuing with options 1 and 2 only.")
        else None
    end in
  mret (MkCapabilities version supports (match warning with None => true | Some _ => false end) warning).

Definition build_codex_exec_command (codex_bin repo_root : pystr) (model : option pystr)
    (explicit_never_approval : bool) : list pystr :=
  [codex_bin] ++
  (if explicit_never_approval then [u "-a"; u "never"] else []) ++
  [u "exec"; u "--dangerously-bypass-approvals-and-sandbox"; u "--skip-git-repo-check"; u "--color";
   u "never"; u "--cd"; repo_root] ++
  match model with Some m => [u "--model"; m] | None => [] end.

End patterns.

(** ** Back-off *)

Definition sf_mul := SFmul 53 1024.
Definition sf_div := SFdiv 53 1024.
Definition zero_ : pyfloat := S754_zero false.
(** [min(a, b)] *)
Definition py_min (a b : pyfloat) : pyfloat := if SFltb b a then b else a.

(** [r]: what [secrets.randbelow(1_000_000)] returns. *)
Definition compute_full_jitter_backoff_seconds (attempt : Z) (base_seconds max_seconds : pyfloat) (r : Z)
    : result exn pyfloat :=
  if (attempt <=? 0) || float_le base_seconds zero_ || float_le max_seconds zero_ then Ok zero_
  else
    power ← float_of_int (2 ^ (attempt - 1));
    let upper_bound := py_min max_seconds (sf_mul base_seconds power) in
    if float_le upper_bound zero_ then Ok zero_
    else
      n ← float_of_int r;
      d ← float_of_int 1000000;
      mret (sf_mul (sf_div n d) upper_bound).

(** ** Prompts' excerpts *)

(** [s[-n:]] for positive [n]. *)
Definition last_n {A} (n : nat) (l : list A) : list A := drop (length l - n) l.
Definition truncate_precommit_output_for_prompt (output : pystr) : pystr :=
  let lines := splitlines output in
  let lines := if (200 <? length lines)%nat then last_n 200 lines else lines in
  let excerpt := strip (join [10] lines) in
  let excerpt := if 12000 <? Z.of_nat (length excerpt) then last_n (Z.to_nat 12000) excerpt else excerpt in
  if str_truthy excerpt then excerpt else u "(no pre-commit output captured)".

Definition format_criteria (criteria : list Plan.PlanCriterion) : pystr :=
  match criteria with
  | [] => u "- (none parsed)"
  | _ => join [10] ((λ c, u "- " ++ Plan.text c ++ u " (line " ++ str_of_int (Plan.line_number c) ++ u ")") <$> criteria)
  end.
Definition format_verification_commands (commands : list pystr) : pystr :=
  match commands with
  | [] => u "- (none declared in item)"
  | _ => join [10] ((λ c, u "- `" ++ c ++ u "`") <$> commands)
  end.

(** ** The response schema *)

Definition JS (s : string) : JSONValue := JStr (u s).
Definition obj (fields : list (string * JSONValue)) : JSONValue := JDict (prod_map u id <$> fields).
Definition strings (l : list string) : JSONValue := JList (JS <$> l).

Definition sha_or_none : JSONValue :=
  obj [("type", JS "string"); ("pattern", JS "^(?:[0-9a-f]{7,40}|NONE)$")].
Definition text_of_length (n : Z) : JSONValue := obj [("type", JS "string"); ("minLength", JInt n)].
Definition count : JSONValue := obj [("type", JS "integer"); ("minimum", JInt 0)].
Definition choice (l : list string) : JSONValue := obj [("type", JS "string"); ("enum", strings l)].

Definition common_required : list string :=
  ["QUESTIONS_ASKED"; "SAFE_DEFAULT_DECISIONS"; "NO_VERIFY_USED"; "PRECOMMIT_ALL_FILES_STATUS"].
Definition common_fields : list (string * JSONValue) :=
  [("QUESTIONS_ASKED", obj [("type", JS "integer"); ("enum", JList [JInt 0])]);
   ("SAFE_DEFAULT_DECISIONS", obj [("type", JS "array"); ("items", obj [("type", JS "string")])]);
   ("NO_VERIFY_USED", obj [("type", JS "boolean"); ("enum", JList [JBool false])]);
   ("PRECOMMIT_ALL_FILES_STATUS", choice ["PASSED"])].

(** A closed object with required fields. *)
Definition closed_object (required : list string) (properties : list (string * JSONValue)) : JSONValue :=
  obj [("type", JS "object"); ("additionalProperties", JBool false); ("required", strings required);
       ("properties", obj properties)].

Definition covered_or_na : JSONValue := choice ["covered"; "n/a"].
Definition review_checklist : JSONValue :=
  closed_object ["security"; "test_isolation"; "migration_coverage"; "exception_handling"; "field_validation";
                 "traceability_sha"]
    [("security", covered_or_na); ("test_isolation", covered_or_na); ("migration_coverage", covered_or_na);
     ("exception_handling", covered_or_na); ("field_validation", covered_or_na);
     ("traceability_sha", choice ["verified"])].

Definition build_output_schema (name : pystr) : result exn JSONValue :=
  if decide (name = u "implement") then
    Ok (closed_object
      (["STATUS"; "IMPLEMENTED_ITEM"; "IMPLEMENTED_TITLE"; "IMPLEMENTATION_COMMIT"; "IMPLEMENTATION_SUMMARY"] ++
       common_required)
      ([("STATUS", choice ["PLAN_IS_DONE"; "IMPLEMENTED"]); ("IMPLEMENTED_ITEM", text_of_length 1);
        ("IMPLEMENTED_TITLE", text_of_length 1); ("IMPLEMENTATION_COMMIT", sha_or_none);
        ("IMPLEMENTATION_SUMMARY", text_of_length 1)] ++ common_fields))
  else if decide (name = u "review_fix_push") then
    Ok (closed_object
      (["REVIEW_TARGET_COMMIT"; "REVIEW_FINDINGS_FIXED"; "REVIEW_FIX_COMMIT"; "PUSH_STATUS"; "REVIEW_CHECKLIST"] ++
       common_required)
      ([("REVIEW_TARGET_COMMIT", text_of_length 7); ("REVIEW_FINDINGS_FIXED", count);
        ("REVIEW_FIX_COMMIT", sha_or_none); ("PUSH_STATUS", text_of_length 2);
        ("REVIEW_CHECKLIST", review_checklist)] ++ common_fields))
  else if decide (name = u "docs_review") then
    Ok (closed_object
      (["DOCS_REVIEW_FILES_CHANGED"; "DOCS_REVIEW_COMMIT"; "PUSH_STATUS"] ++ common_required)
      ([("DOCS_REVIEW_FILES_CHANGED", count); ("DOCS_REVIEW_COMMIT", sha_or_none);
        ("PUSH_STATUS", text_of_length 2)] ++ common_fields))
  else if decide (name = u "precommit_repair") then
    Ok (closed_object
      (["PRECOMMIT_REPAIR_COMMIT"; "PUSH_STATUS"] ++ common_required)
      ([("PRECOMMIT_REPAIR_COMMIT", sha_or_none); ("PUSH_STATUS", text_of_length 2)] ++ common_fields))
  else Err (ValueError "Unsupported step name for output schema").

(** ** The properties of these pieces *)

(** Every schema is strict: it requires exactly its properties, and among them that no hook was
    bypassed and nothing asked. *)
Lemma schema_strict s :
  ∃ properties, build_output_schema (step_name s) = Ok (closed_object properties.*1 properties) ∧
    Forall (λ field, field ∈ properties) common_fields.
Proof.
  unfold build_output_schema. destruct s; cbn [step_name]; repeat case_decide;
    try (exfalso; match goal with H : u _ = u _ |- _ => by vm_compute in H end); try done;
    match goal with |- ∃ p, Ok (closed_object _ ?props) = _ ∧ _ => exists props end;
    (split; [reflexivity|]); apply Forall_forall; intros f Hf; rewrite elem_of_app; by right.
Qed.

(** The excerpt of a prompt is never empty and at most 12000 characters long. *)
Lemma truncate_bounds output :
  truncate_precommit_output_for_prompt output ≠ [] ∧
  Z.of_nat (length (truncate_precommit_output_for_prompt output)) <= 12000.
Proof.
  unfold truncate_precommit_output_for_prompt.
  set (lines := if (200 <? _)%nat then _ else _). set (excerpt := strip (join [10] lines)).
  set (e := if 12000 <? _ then _ else _).
  assert (Z.of_nat (length e) <= 12000) as He.
  { unfold e. destruct (Z.ltb_spec 12000 (Z.of_nat (length excerpt))) as [H|H]; [|done].
    unfold last_n. rewrite length_drop. lia. }
  destruct e as [|c e]; cbn [str_truthy]; [|done]. split; [done|by vm_compute].
Qed.

(** The approval flag is used exactly from version 0.102.0 on, when the help text has it. *)
Lemma capabilities_spec `{UnicodeData, DecimalDigits} version help caps :
  codex_capabilities version help = Ok caps →
  parse_codex_version version = Ok (parsed_version caps) ∧
  (enable_option_5 caps = true ↔
   ∃ v, parsed_version caps = Some v ∧ version_ltb v CODEX_OPTION_5_MIN_VERSION = false ∧
     contains help ASK_FOR_APPROVAL_FLAG = true).
Proof.
  unfold codex_capabilities. intros (v&->&[= <-])%bind_Ok_inv. split; [done|].
  cbn [enable_option_5 parsed_version]. destruct v as [v|]; [|split; [done|by intros (?&?&_)]].
  destruct (version_ltb v _) eqn:E; [split; [done|]; intros (?&[= <-]&?&_); congruence|].
  destruct (contains help _); cbn [negb]; [split; [by exists v|done]|].
  split; [done|]. by intros (?&_&_&?).
Qed.

End Codex.
