(* ===== verification/Runner.v ===== *)
(** The plan cycle runner (scripts/codex_plan_cycle_runner.py): its steps, the loops that retry
    them, the policy gates and the main loop. The file system, git, pre-commit and the Codex
    command are an environment that may do anything; every exchange with it is recorded. What the
    exit status says of a run, and that a run ends. *)

From S2P Require Import Prelude PyValue PyText PyCodec PyJson PyRe Plan Codex.
Local Open Scope Z_scope.

Create HintDb runner discriminated.

Module Runner.
Import Codex.

(** A finished process. *)
Record completed := MkCompleted { code : Z; out : pystr; err : pystr }.

(** What a prompt is built from. *)
Inductive prompt :=
  | ImplementPrompt (item : option Plan.PlanItem)
  | ReviewPrompt (item : option Plan.PlanItem) (commit branch : pystr) (upstream report : option pystr)
  | DocsPrompt
  | RepairPrompt (excerpt : pystr).

(** The surroundings of the script, with a state of their own; each call may raise. *)
Class Environment (W : Type) := {
  plan_text : W → option pystr;
  write_plan : pystr → W → W;
  repo_exists : W → bool;
  design_exists : W → bool;
  which : pystr → W → option pystr;
  capture : list pystr → W → result exn completed * W;
  stream : list pystr → W → result exn CommandResult * W;
  (* the response and, when it is written, the text of the last-message file *)
  codex_exec : list pystr → step → prompt → W → result exn (CommandResult * option pystr) * W;
  (* [None]: the probe timed out *)
  probe : list pystr → W → result exn (option completed) * W;
  sleep : pyfloat → W → result exn unit * W;
  randbelow : W → Z * W;
}.

Record Args := MkArgs {
  repo_root : pystr;
  codex_bin : pystr;
  git_bin : pystr;
  model : option pystr;
  max_cycles : Z;
  sleep_seconds : pyfloat;
  codex_exec_cooldown_seconds : pyfloat;
  precommit_repair_max_attempts : Z;
  retryable_rate_limit_max_retries : Z;
  retryable_rate_limit_backoff_base_seconds : pyfloat;
  retryable_rate_limit_backoff_max_seconds : pyfloat;
  quota_wait_interval : pyfloat;
  max_quota_waits : Z;
  docs_review_interval : Z;
  allow_dirty_start : bool;
}.

(** What was exchanged with the environment: a step with its result and the last message it
    wrote, if it wrote one; a check of the policy gate with its command. *)
Inductive event :=
  | Stepped (cycle : Z) (s : step) (p : prompt) (r : CodexStepResult) (written : option pystr)
  | Checked (command : list pystr) (r : CommandResult)
  | Ran (command : list pystr) (r : completed)
  | Probed (recovered : bool)
  | Slept (seconds : pyfloat)
  | Synced (item_id sha : pystr) (changed : bool).

(** How a run is cut short: [return code] in [main], or an exception. *)
Inductive stop := Exit (status : Z) | Raise (e : exn).

Section runner.
Context `{UD : UnicodeData, FT : FloatText, DD : DecimalDigits} {W : Type} `{Env : Environment W}.

(** ** Computations

    The last-message files are those of the log directory, which outlives a run. [None]: the
    fuel of a [while True] loop is used up. *)
Record state := MkState {
  world : W;
  messages : gmap (Z * step) pystr;
  events : list event;
}.
Definition io (A : Type) : Type := state → option (result stop A * state).
#[export] Instance io_ret : MRet io := λ A a s, Some (Ok a, s).
#[export] Instance io_bind : MBind io := λ A B f m s,
  match m s with
  | Some (Ok a, s) => f a s
  | Some (Err e, s) => Some (Err e, s)
  | None => None
  end.
Definition stop_with {A} (e : stop) : io A := λ s, Some (Err e, s).
Definition raise {A} (e : exn) : io A := stop_with (Raise e).
Definition exit {A} (status : Z) : io A := stop_with (Exit status).
Definition log (e : event) : io unit := λ s, Some (Ok (), MkState (world s) (messages s) (e :: events s)).
Definition lift {A} (r : result exn A) : io A := match r with Ok a => mret a | Err e => raise e end.
Definition ask {A} (f : W → A) : io A := λ s, Some (Ok (f (world s)), s).
Definition call {A} (f : W → result exn A * W) : io A := λ s,
  let '(r, w) := f (world s) in
  Some (match r with Ok a => Ok a | Err e => Err (Raise e) end, MkState w (messages s) (events s)).

Definition FileNotFoundError : exn := AppError "FileNotFoundError".
Definition RuntimeError : exn := AppError "RuntimeError".
Definition KeyboardInterrupt : exn := AppError "KeyboardInterrupt".
Definition positive (x : pyfloat) : bool := SpecFloat.SFltb zero_ x.

(** ** Commands *)

Definition run_capture (command : list pystr) : io CommandResult :=
  r ← call (capture command); _ ← log (Ran command r);
  mret (MkCommandResult (code r)
    (join [10] (filter (λ chunk, str_truthy chunk = true) [strip (out r); strip (err r)]))).
Definition git_output_or_fail (args : Args) (git_args : list pystr) : io pystr :=
  r ← run_capture (git_bin args :: git_args);
  if negb (returncode r =? 0) then raise RuntimeError else mret (strip (output r)).
Definition maybe_git_output (args : Args) (git_args : list pystr) : io (option pystr) :=
  r ← run_capture (git_bin args :: git_args);
  mret (if negb (returncode r =? 0) then None else Some (strip (output r))).
Definition wait (seconds : pyfloat) : io unit := _ ← log (Slept seconds); call (sleep seconds).

Definition resolve_executable (name : pystr) : io pystr :=
  path ← ask (which name); match path with Some path => mret path | None => raise FileNotFoundError end.
Definition detect_codex_capabilities (bin : pystr) : io CodexCliCapabilities :=
  version_result ← run_capture [bin; u "--version"];
  help_result ← run_capture [bin; u "--help"];
  lift (codex_capabilities (output version_result) (output help_result)).

Definition read_plan : io (list Plan.PlanItem) :=
  content ← ask plan_text;
  match content with Some content => mret (Plan.parse_plan content) | None => raise FileNotFoundError end.
Definition sync_traceability_sha (item_id actual_sha : pystr) : io bool := λ s,
  let '(changed, content) := Plan.sync_traceability_sha (plan_text (world s)) item_id actual_sha in
  let w := if changed then write_plan (default [] content) (world s) else world s in
  Some (Ok changed, MkState w (messages s) (Synced item_id actual_sha changed :: events s)).
(** [run_stream] is called without its argument [stdin_text]. *)
Definition run_verification_commands (commands : list pystr) : io pystr :=
  match commands with
  | [] => mret (u "No verification commands defined for this item.")
  | _ => raise (TypeError "run_stream() missing 1 required keyword-only argument: 'stdin_text'")
  end.

(** ** A step of Codex *)

Definition maybe_apply_codex_exec_cooldown (args : Args) : io unit :=
  if float_le (codex_exec_cooldown_seconds args) zero_ then mret ()
  else wait (codex_exec_cooldown_seconds args).
(** The file is read whether or not this step wrote it. *)
Definition store_message (cycle : Z) (s : step) (written : option pystr) : io pystr := λ st,
  let messages := match written with
                  | Some text => <[(cycle, s) := text]> (messages st)
                  | None => messages st
                  end in
  Some (Ok (strip (default [] (messages !! (cycle, s)))), MkState (world st) messages (events st)).
Definition run_codex_step (args : Args) (never : bool) (cycle : Z) (s : step) (p : prompt) : io CodexStepResult :=
  let command := build_codex_exec_command (codex_bin args) (repo_root args) (model args) never in
  _ ← maybe_apply_codex_exec_cooldown args;
  '(r, written) ← call (codex_exec command s p);
  message ← store_message cycle s written;
  let result := MkStepResult (returncode r) (output r) message in
  _ ← log (Stepped cycle s p result written);
  mret result.

(** ** Waiting for limits *)

Definition wait_for_retryable_rate_limit (args : Args) (attempt max_attempts : Z) : io bool :=
  if max_attempts <? attempt then mret false
  else
    delay ← (λ s, let '(r, w) := randbelow (world s) in
      lift (compute_full_jitter_backoff_seconds attempt (retryable_rate_limit_backoff_base_seconds args)
              (retryable_rate_limit_backoff_max_seconds args) r) (MkState w (messages s) (events s)));
    _ ← (if positive delay then wait delay else mret ());
    mret true.

Definition run_quota_probe (args : Args) (never : bool) : io bool :=
  let command := build_codex_exec_command (codex_bin args) (repo_root args) (model args) never ++ [u "-"] in
  r ← call (probe command);
  let recovered := match r with Some r => code r =? 0 | None => false end in
  _ ← log (Probed recovered);
  mret recovered.
Fixpoint probe_loop (args : Args) (never : bool) (attempts : nat) : io bool :=
  match attempts with
  | O => mret false
  | S attempts =>
      _ ← wait (quota_wait_interval args);
      recovered ← run_quota_probe args never;
      if recovered : bool then mret true else probe_loop args never attempts
  end.
Definition wait_for_quota_reset (args : Args) (never : bool) (max_attempts : Z) : io bool :=
  if max_attempts <=? 0 then mret false else probe_loop args never (Z.to_nat max_attempts).
Definition graceful_quota_exit : Z := 4.

(** ** The loop around a step

    The four [while True] loops of the script retry a step in the same way, and differ in what
    they make of its end. *)
Inductive step_end :=
  | Finished (r : CodexStepResult)
  | Forbidden
  | RetriesExhausted
  | QuotaExhausted
  | Failed (status : Z).

Fixpoint retry_loop (fuel : nat) (args : Args) (never : bool) (cycle : Z) (s : step) (p : prompt)
    (retryable_attempt : Z) : io step_end :=
  match fuel with
  | O => λ _, None
  | S fuel =>
      r ← run_codex_step args never cycle s p;
      if negb (enforce_no_verify_policy_or_fail (step_output r) (last_message r)) then mret Forbidden
      else if step_returncode r =? 0 then mret (Finished r)
      else
        match detect_rate_limit_issue [step_output r; last_message r] with
        | Some issue =>
            if retryable issue then
              again ← wait_for_retryable_rate_limit args (retryable_attempt + 1)
                        (retryable_rate_limit_max_retries args);
              if again : bool then retry_loop fuel args never cycle s p (retryable_attempt + 1)
              else mret RetriesExhausted
            else
              again ← wait_for_quota_reset args never (max_quota_waits args);
              if again : bool then retry_loop fuel args never cycle s p retryable_attempt
              else mret QuotaExhausted
        | None => mret (Failed (step_returncode r))
        end
  end.

(** In [main] the other ends return from it. *)
Definition finished_or_exit (e : step_end) : io CodexStepResult :=
  match e with
  | Finished r => mret r
  | Forbidden => exit 1
  | RetriesExhausted | QuotaExhausted => exit graceful_quota_exit
  | Failed status => exit status
  end.

(** ** The policy gates *)

Fixpoint precommit_loop (fuel : nat) (args : Args) (uv_bin : pystr) (never : bool) (cycle : Z)
    (remaining : nat) (check_attempt : Z) : io (option Z) :=
  match remaining with
  | O => mret (Some 1)
  | S remaining =>
      let command := [uv_bin; u "run"; u "pre-commit"; u "run"; u "--all-files"] in
      r ← call (stream command);
      _ ← log (Checked command r);
      if returncode r =? 0 then mret None
      else if check_attempt =? precommit_repair_max_attempts args then mret (Some 1)
      else
        e ← retry_loop fuel args never cycle precommit_repair
              (RepairPrompt (truncate_precommit_output_for_prompt (output r))) 0;
        match e with
        | Finished _ => precommit_loop fuel args uv_bin never cycle remaining (check_attempt + 1)
        | Forbidden => mret (Some 1)
        | RetriesExhausted | QuotaExhausted => mret (Some graceful_quota_exit)
        | Failed status => mret (Some status)
        end
  end.
Definition enforce_precommit_policy (fuel : nat) (args : Args) (uv_bin : pystr) (never : bool) (cycle : Z)
    : io (option Z) :=
  precommit_loop fuel args uv_bin never cycle (Z.to_nat (precommit_repair_max_attempts args)) 1.

(** Only a bypassed hook stops the run. *)
Definition run_docs_review (fuel : nat) (args : Args) (never : bool) (cycle : Z) : io (option Z) :=
  e ← retry_loop fuel args never cycle docs_review DocsPrompt 0;
  mret (match e with Forbidden => Some 1 | _ => None end).

Definition or_exit (m : io (option Z)) : io unit :=
  r ← m; match r with Some status => exit status | None => mret () end.

(** ** The main loop *)

Definition head (args : Args) : io pystr := git_output_or_fail args [u "rev-parse"; u "HEAD"].

(** HEAD has not moved and the plan is not done: a limit is waited for in the next cycle. *)
Definition no_progress (args : Args) (never : bool) (r : CodexStepResult) : io unit :=
  match detect_rate_limit_issue [step_output r; last_message r] with
  | None => exit 1
  | Some issue =>
      again ← (if retryable issue then wait_for_retryable_rate_limit args 1 1 else mret false);
      if again : bool then mret ()
      else
        again ← wait_for_quota_reset args never (max_quota_waits args);
        if again : bool then mret () else exit graceful_quota_exit
  end.

(** What follows a review: the docs review every so many cycles, and the policy gate. *)
Definition after_review (fuel : nat) (args : Args) (uv_bin : pystr) (never : bool) (cycle : Z)
    (upstream : option pystr) : io unit :=
  _ ← head args;
  _ ← run_capture [git_bin args; u "status"; u "--short"; u "--branch"];
  _ ← match upstream with
      | Some upstream =>
          _ ← maybe_git_output args [u "rev-list"; u "--left-right"; u "--count"; u "HEAD..." ++ upstream];
          mret ()
      | None => mret ()
      end;
  _ ← (if (0 <? docs_review_interval args) && (cycle mod docs_review_interval args =? 0)
       then or_exit (run_docs_review fuel args never cycle) else mret ());
  _ ← or_exit (enforce_precommit_policy fuel args uv_bin never cycle);
  if positive (sleep_seconds args) then wait (sleep_seconds args) else mret ().

(** The new commit is recorded in the plan, verified and reviewed. *)
Definition review (fuel : nat) (args : Args) (uv_bin : pystr) (never : bool) (cycle : Z)
    (branch : pystr) (upstream : option pystr) (pending_item : option Plan.PlanItem)
    (head_before head_after_implement : pystr) : io unit :=
  _ ← git_output_or_fail args
        [u "rev-list"; u "--count"; head_before ++ u ".." ++ head_after_implement];
  _ ← run_capture [git_bin args; u "log"; u "--oneline"; u "--decorate"; u "-n"; u "3"];
  verification_report ←
    match pending_item with
    | Some item =>
        _ ← sync_traceability_sha (Plan.identifier item) head_after_implement;
        report ← run_verification_commands (Plan.verification_commands item);
        mret (Some report)
    | None => mret None
    end;
  e ← retry_loop fuel args never cycle review_fix_push
        (ReviewPrompt pending_item head_after_implement branch upstream verification_report) 0;
  _ ← finished_or_exit e;
  after_review fuel args uv_bin never cycle upstream.

(** Codex has declared the plan done. *)
Definition finish_plan (fuel : nat) (args : Args) (uv_bin : pystr) (never : bool) (cycle : Z) : io unit :=
  _ ← (if 0 <? docs_review_interval args
       then or_exit (run_docs_review fuel args never cycle) else mret ());
  _ ← or_exit (enforce_precommit_policy fuel args uv_bin never cycle);
  exit 0.

Definition run_cycle (fuel : nat) (args : Args) (uv_bin : pystr) (never : bool)
    (branch : pystr) (upstream : option pystr) (cycle : Z) : io unit :=
  items ← read_plan;
  let pending_item := Plan.next_pending_item items in
  head_before ← head args;
  e ← retry_loop fuel args never cycle implement (ImplementPrompt pending_item) 0;
  r ← finished_or_exit e;
  plan_done ← lift (is_plan_done (last_message r));
  if plan_done : bool then finish_plan fuel args uv_bin never cycle
  else
    head_after_implement ← head args;
    if decide (head_before = head_after_implement) then no_progress args never r
    else review fuel args uv_bin never cycle branch upstream pending_item head_before head_after_implement.

Fixpoint run_cycles (fuel : nat) (args : Args) (uv_bin : pystr) (never : bool)
    (branch : pystr) (upstream : option pystr) (remaining : nat) (cycle : Z) : io unit :=
  match remaining with
  | O => exit 2
  | S remaining =>
      _ ← run_cycle fuel args uv_bin never branch upstream cycle;
      run_cycles fuel args uv_bin never branch upstream remaining (cycle + 1)
  end.

Definition negative (x : pyfloat) : bool := SpecFloat.SFltb x zero_.

Definition startup (args : Args) : io (Args * pystr * bool) :=
  present ← ask (λ w, repo_exists w && bool_decide (is_Some (plan_text w)) && design_exists w);
  if negb present ||
     negative (codex_exec_cooldown_seconds args) ||
     (retryable_rate_limit_max_retries args <? 0) ||
     negative (retryable_rate_limit_backoff_base_seconds args) ||
     negative (retryable_rate_limit_backoff_max_seconds args) ||
     (precommit_repair_max_attempts args <? 1)
  then exit 1
  else
    codex ← resolve_executable (codex_bin args);
    git ← resolve_executable (git_bin args);
    uv ← resolve_executable (u "uv");
    let args := MkArgs (repo_root args) codex git (model args) (max_cycles args) (sleep_seconds args)
      (codex_exec_cooldown_seconds args) (precommit_repair_max_attempts args)
      (retryable_rate_limit_max_retries args) (retryable_rate_limit_backoff_base_seconds args)
      (retryable_rate_limit_backoff_max_seconds args) (quota_wait_interval args) (max_quota_waits args)
      (docs_review_interval args) (allow_dirty_start args) in
    capabilities ← detect_codex_capabilities codex;
    _ ← run_capture [git; u "status"; u "--short"; u "--branch"];
    porcelain ← maybe_git_output args [u "status"; u "--porcelain"];
    if opt_str_truthy porcelain && negb (allow_dirty_start args) then exit 1
    else mret (args, uv, enable_option_5 capabilities).

Definition body (fuel : nat) (args : Args) : io unit :=
  '(args, uv_bin, never) ← startup args;
  branch ← git_output_or_fail args [u "rev-parse"; u "--abbrev-ref"; u "HEAD"];
  upstream ← maybe_git_output args
    [u "rev-parse"; u "--abbrev-ref"; u "--symbolic-full-name"; u "@{upstream}"];
  run_cycles fuel args uv_bin never branch upstream (Z.to_nat (max_cycles args)) 1.

(** The exit status. [body] never returns: it ends in [exit 2] at the latest. *)
Definition main (fuel : nat) (args : Args) (s : state) : option (Z * state) :=
  match body fuel args s with
  | None => None
  | Some (Err (Exit status), s) => Some (status, s)
  | Some (Err (Raise e), s) => Some (if decide (e = KeyboardInterrupt) then 130 else 1, s)
  | Some (Ok (), s) => Some (2, s)
  end.

(** ** What a run records

    [emits m Q]: the events [m] adds, latest first, and its result are related by [Q]. *)
Definition emits {A} (m : io A) (Q : list event → result stop A → Prop) : Prop :=
  ∀ s r s', m s = Some (r, s') → ∃ new, events s' = new ++ events s ∧ Q new r.

Lemma emits_bind {A B} (m : io A) (f : A → io B) P Q :
  emits m P →
  (∀ a new, P new (Ok a) → emits (f a) (λ later r, Q (later ++ new) r)) →
  (∀ e new, P new (Err e) → Q new (Err e)) →
  emits (m ≫= f) Q.
Proof.
  intros Hm Hf He s r s'. unfold mbind, io_bind. destruct (m s) as [[[a|e] s1]|] eqn:Em; [|intros E; injection E as <- <-|done].
  - apply Hm in Em as (new&E1&HP). intros (later&E2&HQ)%(Hf a new HP). exists (later ++ new).
    by rewrite E2, E1, app_assoc.
  - apply Hm in Em as (new&E1&HP). exists new. auto.
Qed.
Lemma emits_mono {A} (m : io A) (P Q : list event → result stop A → Prop) :
  emits m P → (∀ new r, P new r → Q new r) → emits m Q.
Proof. intros Hm HPQ s r s' (new&E&HP)%Hm. eauto. Qed.
Lemma emits_ret {A} (a : A) (Q : list event → result stop A → Prop) : Q [] (Ok a) → emits (mret a) Q.
Proof. intros HQ s r s' [= <- <-]. by exists []. Qed.
Lemma emits_stop {A} e (Q : list event → result stop A → Prop) : Q [] (Err e) → emits (stop_with e) Q.
Proof. intros HQ s r s' [= <- <-]. by exists []. Qed.

(** A step that the policy allows; a record of nothing else. *)
Definition allowed (e : event) : Prop :=
  match e with
  | Stepped _ _ _ r _ => enforce_no_verify_policy_or_fail (step_output r) (last_message r) = true
  | _ => True
  end.
Definition clean : list event → Prop := Forall allowed.
Definition no_exit {A} (r : result stop A) : Prop :=
  match r with Err (Exit _) => False | _ => True end.
(** Most computations: no step of Codex that breaks the policy, and no [return]. *)
Definition quiet {A} (new : list event) (r : result stop A) : Prop := clean new ∧ no_exit r.

Lemma quiet_nil {A} (r : result stop A) : no_exit r → quiet [] r.
Proof. intros H. split; [constructor|done]. Qed.
Lemma quiet_err {A B} (e : stop) (new : list event) :
  quiet (A:=A) new (Err e) → quiet (A:=B) new (Err e).
Proof. by destruct e. Qed.
Lemma quiet_err_app {A B} (e : stop) (later new : list event) :
  clean new → quiet (A:=A) later (Err e) → quiet (A:=B) (later ++ new) (Err e).
Proof. intros Hn [Hl He]. split; [by apply Forall_app|by destruct e]. Qed.
Lemma quiet_bind {A B} (m : io A) (f : A → io B) :
  emits m quiet → (∀ a, emits (f a) quiet) → emits (m ≫= f) quiet.
Proof.
  intros Hm Hf. eapply emits_bind; [exact Hm| |].
  - intros a new [Hc _]. eapply emits_mono; [apply Hf|]. intros later r [??]. split; [by apply Forall_app|done].
  - by intros [] new [? ?].
Qed.
Lemma quiet_ret {A} (a : A) : emits (mret a) quiet.
Proof. by apply emits_ret, quiet_nil. Qed.
Lemma quiet_raise {A} e : emits (A:=A) (raise e) quiet.
Proof. by apply emits_stop, quiet_nil. Qed.
Lemma quiet_lift {A} (r : result exn A) : emits (lift r) quiet.
Proof. destruct r; [apply quiet_ret|apply quiet_raise]. Qed.
Lemma quiet_ask {A} (f : W → A) : emits (ask f) quiet.
Proof. intros s r s' [= <- <-]. exists []. split; [done|by apply quiet_nil]. Qed.
Lemma quiet_call {A} (f : W → result exn A * W) : emits (call f) quiet.
Proof. intros s r s'. unfold call. destruct (f (world s)) as [[a|e] w]; intros [= <- <-];
  exists []; (split; [done|by apply quiet_nil]). Qed.
Lemma quiet_log e : allowed e → emits (log e) quiet.
Proof. intros He s r s' [= <- <-]. exists [e]. split; [done|]. split; [by constructor|done]. Qed.
Lemma log_emits e : emits (log e) (λ new r, new = [e] ∧ r = Ok ()).
Proof. intros s r s' [= <- <-]. by exists [e]. Qed.
Lemma lift_emits {A} (r : result exn A) :
  emits (lift r) (λ new r', new = [] ∧ match r' with Ok a => r = Ok a | Err e => ∃ x, e = Raise x end).
Proof. intros s r' s'. destruct r as [a|e]; intros [= <- <-]; exists []; eauto. Qed.
#[local] Hint Resolve quiet_ret quiet_raise quiet_lift quiet_ask quiet_call : runner.
Ltac quiet_step :=
  repeat (first [apply quiet_bind; [|intros ?] | by eauto with runner | by apply quiet_log | case_match]).

Lemma quiet_run_capture command : emits (run_capture command) quiet.
Proof. unfold run_capture. quiet_step. Qed.
#[local] Hint Resolve quiet_run_capture : runner.
Lemma quiet_git_output_or_fail args l : emits (git_output_or_fail args l) quiet.
Proof. unfold git_output_or_fail. quiet_step. Qed.
Lemma quiet_maybe_git_output args l : emits (maybe_git_output args l) quiet.
Proof. unfold maybe_git_output. quiet_step. Qed.
Lemma quiet_wait seconds : emits (wait seconds) quiet.
Proof. unfold wait. quiet_step. Qed.
#[local] Hint Resolve quiet_git_output_or_fail quiet_maybe_git_output quiet_wait : runner.
Lemma quiet_read_plan : emits read_plan quiet.
Proof. unfold read_plan. quiet_step. Qed.
Lemma quiet_sync i sha : emits (sync_traceability_sha i sha) quiet.
Proof.
  intros s r s'. unfold sync_traceability_sha. destruct (Plan.sync_traceability_sha _ _ _). intros [= <- <-].
  eexists [_]. split; [done|]. split; [by repeat constructor|done].
Qed.
Lemma quiet_verification commands : emits (run_verification_commands commands) quiet.
Proof. unfold run_verification_commands. quiet_step. Qed.
Lemma quiet_retryable args attempt most : emits (wait_for_retryable_rate_limit args attempt most) quiet.
Proof.
  unfold wait_for_retryable_rate_limit. case_match; [quiet_step|]. apply quiet_bind; [|intros delay; quiet_step].
  intros s r s'. destruct (randbelow (world s)) as [n w]. apply (quiet_lift _ (MkState w (messages s) (events s))).
Qed.
Lemma quiet_quota args never most : emits (wait_for_quota_reset args never most) quiet.
Proof.
  unfold wait_for_quota_reset. case_match; [quiet_step|]. induction (Z.to_nat most); cbn [probe_loop]; [quiet_step|].
  unfold run_quota_probe. quiet_step.
Qed.
#[local] Hint Resolve quiet_read_plan quiet_sync quiet_verification quiet_retryable quiet_quota : runner.

(** ** The loops and the gates *)

Lemma quiet_cooldown args : emits (maybe_apply_codex_exec_cooldown args) quiet.
Proof. unfold maybe_apply_codex_exec_cooldown. quiet_step. Qed.
Lemma step_emits args never cycle s p :
  emits (run_codex_step args never cycle s p) (λ new r,
    match r with
    | Ok x => ∃ w before, new = Stepped cycle s p x w :: before ∧ clean before
    | Err e => quiet (A:=CodexStepResult) new (Err e)
    end).
Proof.
  unfold run_codex_step.
  eapply emits_bind; [apply quiet_cooldown|intros a0 new [Hnew _]|intros e new H; exact (quiet_err _ _ H)].
  eapply emits_bind; [apply quiet_call|intros [r written] new' [Hnew' _]|intros e new' H; exact (quiet_err_app _ _ _ Hnew H)].
  intros st r0 st' Hst. unfold mbind, io_bind, store_message, log, mret, io_ret in Hst.
  injection Hst as <- <-. cbn [events]. exists [Stepped cycle s p (MkStepResult (returncode r) (output r)
    (strip (default [] (match written with Some text => <[(cycle, s):=text]> (messages st) | None => messages st end !! (cycle, s))))) written].
  split; [done|]. eexists _, _. split; [reflexivity|]. by apply Forall_app.
Qed.

(** How a retried step ends: unless the policy was broken, nothing recorded breaks it; a
    finished step is the last event. *)
Definition ended (cycle : Z) (s : step) (p : prompt) (new : list event) (r : result stop step_end) : Prop :=
  match r with
  | Ok (Finished x) => clean new ∧ step_returncode x = 0 ∧ ∃ w before, new = Stepped cycle s p x w :: before
  | Ok Forbidden => True
  | Ok (Failed c) => clean new ∧ c ≠ 0
  | Ok _ => clean new
  | Err _ => quiet new r
  end.
Lemma ended_app cycle s p new later r :
  clean new → ended cycle s p later r → ended cycle s p (later ++ new) r.
Proof.
  intros Hn. destruct r as [[x| | | |c]|e]; cbn [ended].
  - intros (Hc&Hr&w&before&->). split_and!; [by apply Forall_app|done|]. by exists w, (before ++ new).
  - done.
  - intros H. by apply Forall_app.
  - intros H. by apply Forall_app.
  - intros [H Hc]. split; [by apply Forall_app|done].
  - by apply quiet_err_app.
Qed.

Lemma retry_loop_ends fuel args never cycle s p attempt :
  emits (retry_loop fuel args never cycle s p attempt) (ended cycle s p).
Proof.
  revert attempt. induction fuel as [|fuel IH]; intros attempt; [by intros st r st'|]. cbn [retry_loop].
  eapply emits_bind; [apply step_emits|intros x new (w&before&->&Hb)|intros e new H; exact (quiet_err _ _ H)].
  destruct (enforce_no_verify_policy_or_fail _ _) eqn:Ep; cbn [negb]; [|by apply emits_ret].
  assert (clean (Stepped cycle s p x w :: before)) as Hc by by constructor.
  destruct (Z.eqb_spec (step_returncode x) 0) as [Er|Er]; [apply emits_ret; split_and!; [done|done|by exists w, before]|].
  assert (∀ m attempt' (other : step_end), emits m quiet →
    ended cycle s p (Stepped cycle s p x w :: before) (Ok other) → (∀ y, other ≠ Finished y) →
    emits (again ← m; if again : bool then retry_loop fuel args never cycle s p attempt' else mret other)
      (λ later r, ended cycle s p (later ++ Stepped cycle s p x w :: before) r)) as Hagain.
  { intros m attempt' other Hm Ho Hf. eapply emits_bind; [exact Hm| |].
    - intros [] new [Hn _].
      + eapply emits_mono; [apply IH|]. intros later r Hl. rewrite <-app_assoc. apply ended_app; [|done].
        by apply Forall_app.
      + apply emits_ret. destruct other; cbn in *; rewrite ?app_nil_l; try (by apply Forall_app).
        * by destruct (Hf r).
        * done.
        * destruct Ho. split; [by apply Forall_app|done].
    - intros e new H. by eapply quiet_err_app. }
  destruct (detect_rate_limit_issue _) as [issue|]; [|by apply emits_ret].
  destruct (retryable issue); (apply Hagain; [by auto with runner|exact Hc|done]).
Qed.
(** The check of the policy gate, of the whole repository. *)
Definition whole_check (uv_bin : pystr) : list pystr :=
  [uv_bin; u "run"; u "pre-commit"; u "run"; u "--all-files"].
(** The last exchange is a passing check. *)
Definition checked_last (new : list event) : Prop :=
  ∃ uv_bin r before, new = Checked (whole_check uv_bin) r :: before ∧ returncode r = 0.
(** The outcome of a part of [main]. A [return 1] may follow a broken policy, nothing else
    does; and [return 0] comes with a finished plan and a passing check at the end. *)
Definition finished (new : list event) : Prop :=
  checked_last new ∧
  ∃ cycle p x w, Stepped cycle implement p x w ∈ new ∧ step_returncode x = 0 ∧
    is_plan_done (last_message x) = Ok true.
Definition honest {A} (new : list event) (r : result stop A) : Prop :=
  match r with
  | Err (Exit c) => (clean new ∨ c = 1) ∧ (c = 0 → finished new)
  | _ => clean new
  end.
Lemma quiet_honest {A} new (r : result stop A) : quiet new r → honest new r.
Proof. intros [H1 H2]. by destruct r as [|[]]. Qed.
Lemma honest_app {A} new later (r : result stop A) : clean new → honest later r → honest (later ++ new) r.
Proof.
  intros Hn. destruct r as [a|[c|e]]; cbn [honest]; [intros H; by apply Forall_app| |intros H; by apply Forall_app].
  intros [Hc Hf]. split; [destruct Hc as [Hc| ->]; [left; by apply Forall_app|by right]|].
  intros Hz. destruct (Hf Hz) as [(uv&r&before&->&Hr) (cycle&p&x&w&Hin&Hx)]. split; [by exists uv, r, (before ++ new)|].
  exists cycle, p, x, w. split; [apply elem_of_app; by left|done].
Qed.
Lemma honest_bind {A B} (m : io A) (f : A → io B) :
  emits m honest → (∀ a, emits (f a) honest) → emits (m ≫= f) honest.
Proof.
  intros Hm Hf. eapply emits_bind; [exact Hm| |].
  - intros a new H. eapply emits_mono; [apply Hf|]. intros later r. by apply honest_app.
  - by intros [] new H.
Qed.
Lemma honest_quiet {A} (m : io A) : emits m quiet → emits m honest.
Proof. intros H. eapply emits_mono; [exact H|]. intros new r. apply quiet_honest. Qed.
Lemma honest_exit {A} c : c ≠ 0 → emits (A:=A) (exit c) honest.
Proof. intros Hc. apply emits_stop. split; [left; constructor|done]. Qed.

Lemma finished_step_emits fuel args never cycle s p :
  emits (e ← retry_loop fuel args never cycle s p 0; finished_or_exit e) (λ new r,
    match r with
    | Ok x => clean new ∧ step_returncode x = 0 ∧ ∃ w, Stepped cycle s p x w ∈ new
    | Err e => honest (A:=CodexStepResult) new (Err e)
    end).
Proof.
  eapply emits_bind; [apply retry_loop_ends| |].
  - intros [x| | | |c] new H; apply emits_ret || apply emits_stop; cbn [app].
    + destruct H as (Hc&Hr&w&before&->). split_and!; [done..|exists w; left].
    + split; [by right|done].
    + split; [by left|done].
    + split; [by left|done].
    + destruct H. split; [by left|done].
  - intros e new [Hc He]. by destruct e.
Qed.

Lemma docs_review_honest fuel args never cycle : emits (or_exit (run_docs_review fuel args never cycle)) honest.
Proof.
  unfold or_exit, run_docs_review. eapply emits_bind with (P := λ new r,
    match r with
    | Ok None => clean new
    | Ok (Some c) => c = 1
    | Err e => honest (A:=option Z) new (Err e)
    end).
  - eapply emits_bind; [apply retry_loop_ends| |].
    + intros [x| | | |c] new H; apply emits_ret; cbn [app]; try done; [by destruct H|by destruct H].
    + intros e new [Hc He]. by destruct e.
  - intros [c|] new H; [apply emits_stop; subst; split; [by right|done]|by apply emits_ret].
  - intros e new H. by destruct e.
Qed.

(** The gate lets pass only after a passing check, which is then the last event. *)
Definition gated (new : list event) (r : result stop (option Z)) : Prop :=
  match r with
  | Ok None => clean new ∧ checked_last new
  | Ok (Some c) => (clean new ∨ c = 1) ∧ c ≠ 0
  | Err _ => quiet new r
  end.
Lemma precommit_loop_gated fuel args uv_bin never cycle remaining attempt :
  emits (precommit_loop fuel args uv_bin never cycle remaining attempt) gated.
Proof.
  revert attempt. induction remaining as [|remaining IH]; intros attempt; cbn [precommit_loop].
  { apply emits_ret. split; [by right|done]. }
  eapply emits_bind; [apply quiet_call|intros x new [Hn _]|intros e new H; exact (quiet_err _ _ H)].
  eapply emits_bind; [apply log_emits|intros [] new1 [-> _]|by intros e new1 [_ ?] ].
  fold (whole_check uv_bin). assert (clean ([Checked (whole_check uv_bin) x] ++ new)) as Hc by by constructor.
  destruct (Z.eqb_spec (returncode x) 0) as [Ex|Ex].
  { apply emits_ret. split; [done|]. by exists uv_bin, x, new. }
  destruct (attempt =? _); [apply emits_ret; split; [by left|done]|].
  eapply emits_bind; [apply retry_loop_ends| |intros e new1 H; rewrite <-app_assoc; exact (quiet_err_app _ _ _ Hc H)].
  intros e new1 He. assert (e = Forbidden ∨ clean (new1 ++ [Checked (whole_check uv_bin) x] ++ new)) as Hc1.
  { destruct e; cbn in He; try (by left); right; apply Forall_app;
      (split; [first [exact He|exact (proj1 He)]|exact Hc]). }
  destruct e as [y| | | |c]; destruct Hc1 as [He1|Hc1]; try done.
  - eapply emits_mono; [apply IH|]. intros later r H. rewrite <-!app_assoc. revert H.
    destruct r as [[c|]|e]; cbn [gated].
    + intros [[H| ->] Hne]; (split; [|done]); [left; by apply Forall_app|by right].
    + intros (H&uv&z&before&->&Hz). split; [by apply Forall_app|]. by eexists uv, z, (before ++ _).
    + by apply quiet_err_app.
  - apply emits_ret. split; [by right|done].
  - apply emits_ret. split; [by right|done].
  - apply emits_ret. split; [left; by rewrite app_nil_l, <-app_assoc|done].
  - apply emits_ret. split; [left; by rewrite app_nil_l, <-app_assoc|done].
  - apply emits_ret. split; [left; by rewrite app_nil_l, <-app_assoc|]. by destruct He.
Qed.
Lemma precommit_gate fuel args uv_bin never cycle :
  emits (or_exit (enforce_precommit_policy fuel args uv_bin never cycle)) (λ new r,
    match r with
    | Ok _ => clean new ∧ checked_last new
    | Err e => clean new ∨ e = Exit 1
    end ∧ r ≠ Err (Exit 0)).
Proof.
  unfold or_exit. eapply emits_bind; [apply precommit_loop_gated| |].
  - intros [c|] new H; [apply emits_stop|by apply emits_ret]. destruct H as [[H| ->] Hne]; cbn [app].
    + split; [by left|congruence].
    + split; [by right|congruence].
  - intros e new [Hc He]. split; [by left|]. by intros [= ->].
Qed.
Lemma precommit_honest fuel args uv_bin never cycle :
  emits (or_exit (enforce_precommit_policy fuel args uv_bin never cycle)) honest.
Proof.
  eapply emits_mono; [apply precommit_gate|]. intros new [[]|[c|e]] [H Hne]; cbn [honest].
  - by destruct H.
  - split; [destruct H as [?|[= ->] ]; [by left|by right]|]. by intros ->.
  - by destruct H as [?|[=]].
Qed.

Lemma no_progress_honest args never x : emits (no_progress args never x) honest.
Proof.
  unfold no_progress. destruct (detect_rate_limit_issue _) as [issue|]; [|by apply honest_exit].
  apply honest_bind; [apply honest_quiet; destruct (retryable issue); eauto with runner|].
  intros []; [apply honest_quiet; eauto with runner|].
  apply honest_bind; [apply honest_quiet; eauto with runner|].
  intros []; [apply honest_quiet; eauto with runner|by apply honest_exit].
Qed.
Lemma emits_assoc {A B C} (m : io A) (f : A → io B) (g : B → io C) Q :
  emits ((m ≫= f) ≫= g) Q → emits (m ≫= λ a, f a ≫= g) Q.
Proof.
  intros H s r s' E. apply (H s r s'). rewrite <-E. unfold mbind, io_bind.
  by destruct (m s) as [[[]]|].
Qed.
Ltac honest_step :=
  repeat (first
    [ by (apply honest_quiet; eauto with runner)
    | match goal with |- emits (_ ≫= _) _ => apply honest_bind; [|intros ?] end
    | by apply honest_exit | apply docs_review_honest | apply precommit_honest | case_match ]).

Lemma review_honest fuel args uv_bin never cycle branch upstream pending before after :
  emits (review fuel args uv_bin never cycle branch upstream pending before after) honest.
Proof.
  unfold review. apply honest_bind; [honest_step|intros _]. apply honest_bind; [honest_step|intros _].
  apply honest_bind; [honest_step|intros report]. apply emits_assoc. apply honest_bind.
  - eapply emits_mono; [apply finished_step_emits|]. intros new [x|e]; [by intros [? _]|]. by destruct e.
  - intros _. unfold after_review, head. honest_step.
Qed.

(** It ends in no other way than [exit 0] after a passing check, or in failure. *)
Lemma finish_plan_emits fuel args uv_bin never cycle :
  emits (finish_plan fuel args uv_bin never cycle) (λ new r, (∀ a, r ≠ Ok a) ∧
    match r with
    | Err (Exit c) => (clean new ∨ c = 1) ∧ (c = 0 → checked_last new)
    | _ => clean new
    end).
Proof.
  unfold finish_plan. eapply emits_bind with (P := honest); [honest_step| |].
  - intros [] new1 H1. eapply emits_bind; [apply precommit_gate| |].
    + intros [] new2 [(H2&uv&y&rest&->&Hy) _]. apply emits_stop. split; [done|].
      split; [left; by apply Forall_app|]. intros _. by exists uv, y, (rest ++ new1).
    + intros e new2 [H2 Hne]. split; [done|]. destruct e as [c|e]; [|apply Forall_app; by destruct H2].
      split; [|by intros ->]. destruct H2 as [H2|[= ->] ]; [left; by apply Forall_app|by right].
  - intros e new1 H1. split; [done|]. destruct e as [c|e]; [|done]. destruct H1 as [H1 Hf].
    split; [done|]. intros Hz. by destruct (Hf Hz) as [? _].
Qed.

Lemma run_cycle_honest fuel args uv_bin never branch upstream cycle :
  emits (run_cycle fuel args uv_bin never branch upstream cycle) honest.
Proof.
  unfold run_cycle, head. apply honest_bind; [honest_step|intros items].
  apply honest_bind; [honest_step|intros before]. apply emits_assoc.
  eapply emits_bind; [apply finished_step_emits| |intros e new H; by destruct e].
  intros x new (Hc&Hx&w&Hin).
  eapply emits_bind; [apply lift_emits|intros plan_done new1 [-> Ed]|by intros e new1 [-> [x' ->] ] ].
  destruct plan_done.
  - eapply emits_mono; [apply finish_plan_emits|]. intros later r [Hr H]. rewrite app_nil_r.
    destruct r as [a|[c|e]]; [by destruct (Hr a)| |by apply Forall_app].
    destruct H as [H Hz]. split; [destruct H as [H| ->]; [left; by apply Forall_app|by right]|].
    intros ->. destruct (Hz eq_refl) as (uv&y&rest&->&Hy). split; [by exists uv, y, (rest ++ new)|].
    exists cycle, (ImplementPrompt (Plan.next_pending_item items)), x, w.
    split_and!; [apply elem_of_app; by right|done..].
  - eapply emits_mono; [|intros later r; rewrite app_nil_r; by apply honest_app].
    apply honest_bind; [honest_step|intros after]. case_decide; [apply no_progress_honest|apply review_honest].
Qed.

Lemma run_cycles_honest fuel args uv_bin never branch upstream remaining cycle :
  emits (run_cycles fuel args uv_bin never branch upstream remaining cycle) honest.
Proof.
  revert cycle. induction remaining as [|remaining IH]; intros cycle; cbn [run_cycles]; [by apply honest_exit|].
  apply honest_bind; [apply run_cycle_honest|intros _; apply IH].
Qed.
Lemma startup_honest args : emits (startup args) honest.
Proof.
  unfold startup, resolve_executable, detect_codex_capabilities. honest_step.
Qed.

(** A run whose Codex steps use [--no-verify] anywhere ends with status 1. *)
Lemma body_honest fuel args : emits (body fuel args) honest.
Proof.
  unfold body. apply honest_bind; [apply startup_honest|]. intros [[args' uv_bin] never].
  apply honest_bind; [honest_step|intros branch]. apply honest_bind; [honest_step|intros upstream].
  apply run_cycles_honest.
Qed.
(** ** Where a last message comes from *)

(** The files after some steps: a step that writes its last message replaces the file of its
    cycle and name, which the runs share. *)
Definition stored (files : gmap (Z * step) pystr) (new : list event) : gmap (Z * step) pystr :=
  foldr (λ e files, match e with Stepped cycle s _ _ (Some text) => <[(cycle, s) := text]> files | _ => files end)
    files new.
(** The last message of a step is what its file then holds. *)
Definition read_back (files : gmap (Z * step) pystr) (e : event) (before : list event) : Prop :=
  match e with
  | Stepped cycle s _ r _ => last_message r = strip (default [] (stored files (e :: before) !! (cycle, s)))
  | _ => True
  end.
Fixpoint all_read_back (files : gmap (Z * step) pystr) (new : list event) : Prop :=
  match new with [] => True | e :: before => read_back files e before ∧ all_read_back files before end.
Definition keeps_files {A} (m : io A) : Prop := ∀ s r s', m s = Some (r, s') →
  ∃ new, events s' = new ++ events s ∧ messages s' = stored (messages s) new ∧ all_read_back (messages s) new.

Lemma stored_app files later new : stored files (later ++ new) = stored (stored files new) later.
Proof. apply foldr_app. Qed.
Lemma all_read_back_app files later new :
  all_read_back (stored files new) later → all_read_back files new → all_read_back files (later ++ new).
Proof.
  intros Hl Hn. induction later as [|e later IH]; [done|]. destruct Hl as [He Hl].
  split; [|by apply IH]. revert He. unfold read_back. by rewrite app_comm_cons, stored_app.
Qed.
Lemma all_read_back_at files later e before :
  all_read_back files (later ++ e :: before) → read_back files e before.
Proof. induction later as [|d later IH]; [by intros [? _]|]. intros [_ H]. by apply IH. Qed.

Lemma keeps_bind {A B} (m : io A) (f : A → io B) :
  keeps_files m → (∀ a, keeps_files (f a)) → keeps_files (m ≫= f).
Proof.
  intros Hm Hf s r s'. unfold mbind, io_bind.
  destruct (m s) as [[[a|e] s1]|] eqn:Em; [|intros E; injection E as <- <-|done]; apply Hm in Em as (new&E1&E2&Hr).
  - intros (later&E3&E4&Hr')%Hf. exists (later ++ new). rewrite E2 in E4, Hr'.
    split_and!; [by rewrite E3, E1, app_assoc|by rewrite stored_app|by apply all_read_back_app].
  - by exists new.
Qed.
(** What reaches neither the files nor the record. *)
Lemma keeps_nothing {A} (m : io A) :
  (∀ s r s', m s = Some (r, s') → events s' = events s ∧ messages s' = messages s) → keeps_files m.
Proof. intros Hm s r s' [E1 E2]%Hm. by exists []. Qed.
Lemma keeps_ret {A} (a : A) : keeps_files (mret a).
Proof. apply keeps_nothing. by intros s r s' [= <- <-]. Qed.
Lemma keeps_stop {A} e : keeps_files (stop_with (A:=A) e).
Proof. apply keeps_nothing. by intros s r s' [= <- <-]. Qed.
Lemma keeps_lift {A} (r : result exn A) : keeps_files (lift r).
Proof. destruct r; [apply keeps_ret|apply keeps_stop]. Qed.
Lemma keeps_ask {A} (f : W → A) : keeps_files (ask f).
Proof. apply keeps_nothing. by intros s r s' [= <- <-]. Qed.
Lemma keeps_call {A} (f : W → result exn A * W) : keeps_files (call f).
Proof. apply keeps_nothing. intros s r s'. unfold call. destruct (f (world s)). by intros [= <- <-]. Qed.
Lemma keeps_log e : (if e is Stepped _ _ _ _ _ then False else True) → keeps_files (log e).
Proof. intros He s r s' [= <- <-]. exists [e]. by destruct e. Qed.
#[local] Hint Resolve keeps_ret keeps_stop keeps_lift keeps_ask keeps_call : runner.
Ltac keeps_step :=
  repeat (first
    [ by eauto with runner
    | match goal with |- keeps_files (_ ≫= _) => apply keeps_bind; [|intros ?] end
    | match goal with |- keeps_files (raise _) => apply keeps_stop | |- keeps_files (exit _) => apply keeps_stop end
    | by apply keeps_log | case_match ]).

Lemma keeps_run_capture command : keeps_files (run_capture command).
Proof. unfold run_capture. keeps_step. Qed.
#[local] Hint Resolve keeps_run_capture : runner.
Lemma keeps_git_output_or_fail args l : keeps_files (git_output_or_fail args l).
Proof. unfold git_output_or_fail. keeps_step. Qed.
Lemma keeps_maybe_git_output args l : keeps_files (maybe_git_output args l).
Proof. unfold maybe_git_output. keeps_step. Qed.
Lemma keeps_wait seconds : keeps_files (wait seconds).
Proof. unfold wait. keeps_step. Qed.
#[local] Hint Resolve keeps_git_output_or_fail keeps_maybe_git_output keeps_wait : runner.
Lemma keeps_sync i sha : keeps_files (sync_traceability_sha i sha).
Proof.
  intros s r s'. unfold sync_traceability_sha. destruct (Plan.sync_traceability_sha _ _ _). intros [= <- <-].
  by eexists [_].
Qed.
Lemma keeps_codex_step args never cycle s p : keeps_files (run_codex_step args never cycle s p).
Proof.
  unfold run_codex_step, maybe_apply_codex_exec_cooldown.
  apply keeps_bind; [keeps_step|intros _]. apply keeps_bind; [apply keeps_call|intros [x written] ].
  intros st r st' Hst. unfold mbind, io_bind, store_message, log, mret, io_ret in Hst.
  injection Hst as <- <-. eexists [_]. split_and!; [reflexivity| |]; cbn.
  - by destruct written.
  - by destruct written.
Qed.
Lemma keeps_retryable args attempt most : keeps_files (wait_for_retryable_rate_limit args attempt most).
Proof.
  unfold wait_for_retryable_rate_limit. case_match; [keeps_step|]. apply keeps_bind; [|intros delay; keeps_step].
  intros s r s'. destruct (randbelow (world s)) as [n w]. apply (keeps_lift _ (MkState w (messages s) (events s))).
Qed.
Lemma keeps_quota args never most : keeps_files (wait_for_quota_reset args never most).
Proof.
  unfold wait_for_quota_reset. case_match; [keeps_step|]. induction (Z.to_nat most); cbn [probe_loop]; [keeps_step|].
  unfold run_quota_probe. keeps_step.
Qed.
#[local] Hint Resolve keeps_sync keeps_codex_step keeps_retryable keeps_quota : runner.
Lemma keeps_retry fuel args never cycle s p attempt : keeps_files (retry_loop fuel args never cycle s p attempt).
Proof.
  revert attempt. induction fuel as [|fuel IH]; intros attempt; [by intros st r st'|]. cbn [retry_loop]. keeps_step.
Qed.
Lemma keeps_finished_or_exit e : keeps_files (finished_or_exit e).
Proof. destruct e; cbn [finished_or_exit]; keeps_step. Qed.
#[local] Hint Resolve keeps_retry keeps_finished_or_exit : runner.
Lemma keeps_docs fuel args never cycle : keeps_files (or_exit (run_docs_review fuel args never cycle)).
Proof. unfold or_exit, run_docs_review. keeps_step. Qed.
Lemma keeps_precommit fuel args uv_bin never cycle :
  keeps_files (or_exit (enforce_precommit_policy fuel args uv_bin never cycle)).
Proof.
  unfold or_exit, enforce_precommit_policy. apply keeps_bind; [|intros; keeps_step].
  generalize 1 as attempt. induction (Z.to_nat (precommit_repair_max_attempts args)) as [|n IH];
    intros attempt; cbn [precommit_loop]; [apply keeps_ret|]. keeps_step.
Qed.
#[local] Hint Resolve keeps_docs keeps_precommit : runner.
Lemma keeps_cycles fuel args uv_bin never branch upstream remaining cycle :
  keeps_files (run_cycles fuel args uv_bin never branch upstream remaining cycle).
Proof.
  revert cycle. induction remaining as [|n IH]; intros cycle; cbn [run_cycles]; [apply keeps_stop|].
  apply keeps_bind; [|intros; apply IH].
  unfold run_cycle, finish_plan, review, after_review, no_progress, read_plan, run_verification_commands, head. keeps_step.
Qed.
Lemma keeps_body fuel args : keeps_files (body fuel args).
Proof.
  unfold body, startup, resolve_executable, detect_codex_capabilities. keeps_step. apply keeps_cycles.
Qed.

(** ** What the exit status says *)

(** A message that declares the plan done: an object with that status, or the sentence on a
    line of its own. *)
Definition declares_done (message : pystr) : Prop :=
  (∃ d, loads message = Ok (JDict d) ∧ dict_get d (u "STATUS") = Some (JStr (u "PLAN_IS_DONE"))) ∨
  strip message = u "PLAN IS DONE" ∨
  ∃ line, line ∈ splitlines message ∧ strip line = u "PLAN IS DONE".
Lemma plan_done_declared message : is_plan_done message = Ok true → declares_done message.
Proof.
  unfold is_plan_done, declares_done. destruct (loads message) as [payload|e] eqn:El.
  - cbn. intros [= E]. rewrite !orb_true_iff, !bool_decide_eq_true in E.
    destruct E as [[E|E]|E]; [left|right; by left|right; right].
    + destruct payload as [| | | | | |d]; try done. apply bool_decide_eq_true in E. by exists d.
    + apply existsb_exists in E as (line&Hl&E). exists line. split; [by apply list_elem_of_In|by apply bool_decide_eq_true in E].
  - case_decide; cbn; [|done]. intros [= E]. rewrite orb_true_iff, bool_decide_eq_true in E.
    destruct E as [E|E]; [right; by left|right; right].
    apply existsb_exists in E as (line&Hl&E). exists line. split; [by apply list_elem_of_In|by apply bool_decide_eq_true in E].
Qed.

(** No step shows a bypassed hook. *)
Definition hooks_kept (new : list event) : Prop :=
  ∀ cycle s p r written line, Stepped cycle s p r written ∈ new →
    line ∈ splitlines (step_output r) ∨ line ∈ splitlines (last_message r) → ¬ bypasses line.
Lemma clean_hooks_kept `{!UnicodeLaws} new : clean new → hooks_kept new.
Proof.
  unfold clean. rewrite Forall_forall. intros Hc cycle s p r written line Hin Hl Hb.
  apply Hc in Hin. cbn [allowed] in Hin. by rewrite (bypass_refused _ _ _ Hl Hb) in Hin.
Qed.

(** An implement step that succeeded and whose last-message file then declared the plan done. *)
Definition declared (files : gmap (Z * step) pystr) (new : list event) : Prop :=
  ∃ later cycle p r written before, new = later ++ Stepped cycle implement p r written :: before ∧
    step_returncode r = 0 ∧
    ∃ text, stored files (Stepped cycle implement p r written :: before) !! (cycle, implement) = Some text ∧
      declares_done (strip text).
Lemma finished_declared files new : all_read_back files new → finished new → declared files new.
Proof.
  intros Hr (_&cycle&p&r&w&Hin&Hz&Hd). apply list_elem_of_split in Hin as (later&before&->).
  exists later, cycle, p, r, w, before. split_and!; [done..|].
  apply all_read_back_at in Hr. cbn [read_back] in Hr. rewrite Hr in Hd.
  destruct (stored _ _ !! _) as [text|]; [exists text; split; [done|by apply plan_done_declared]|].
  vm_compute in Hd. done.
Qed.

(** C39. Whatever the environment does: when a run ends with another status than 1, no line that
    a step of Codex printed or left in its last message is a git command with [--no-verify]. When it
    ends with 0, its last exchange was [uv run pre-commit run --all-files], which passed; and an
    implement step had succeeded whose last-message file declared the plan done. That file holds
    what a step of the same cycle and name last wrote in this run, or, when none wrote one, what
    was there before the run. *)
Theorem main_status `{!UnicodeLaws} fuel args s status s' :
  main fuel args s = Some (status, s') →
  ∃ new, events s' = new ++ events s ∧
    (status ≠ 1 → hooks_kept new) ∧
    (status = 0 → checked_last new ∧ declared (messages s) new).
Proof.
  unfold main. destruct (body fuel args s) as [[r s1]|] eqn:Eb; [|done].
  destruct (keeps_body _ _ _ _ _ Eb) as (new'&En'&_&Hr).
  apply body_honest in Eb as (new&En&Hh). rewrite En in En'. apply app_inv_tail in En' as <-.
  intros Hm. exists new. destruct r as [[]|[c|e]]; [injection Hm as <- <-..].
  - split_and!; [done| |done]. intros _. by apply clean_hooks_kept.
  - destruct Hh as [Hc Hf]. split_and!; [done| |].
    + intros Hne. apply clean_hooks_kept. by destruct Hc.
    + intros Hz. pose proof (Hf Hz) as Hfin. split; [apply Hfin|by apply finished_declared].
  - split_and!; [done| |by case_decide]. intros _. by apply clean_hooks_kept.
Qed.

(** ** Termination *)

Definition total {A} (m : io A) : Prop := ∀ s, is_Some (m s).
Definition returns {A} (m : io A) (P : A → Prop) : Prop := ∀ s a s', m s = Some (Ok a, s') → P a.

Lemma total_bind_when {A B} (m : io A) (f : A → io B) P :
  total m → returns m P → (∀ a, P a → total (f a)) → total (m ≫= f).
Proof.
  intros Hm HP Hf s. unfold mbind, io_bind. destruct (Hm s) as [[[a|e] s'] E]; rewrite E; [|by eexists].
  apply Hf. by eapply HP.
Qed.
Lemma total_bind {A B} (m : io A) (f : A → io B) : total m → (∀ a, total (f a)) → total (m ≫= f).
Proof. intros Hm Hf. by apply (total_bind_when m f (λ _, True)). Qed.
Lemma total_ret {A} (a : A) : total (mret a).
Proof. intros s. by eexists. Qed.
Lemma total_stop {A} e : total (stop_with (A:=A) e).
Proof. intros s. by eexists. Qed.
Lemma total_lift {A} (r : result exn A) : total (lift r).
Proof. destruct r; [apply total_ret|apply total_stop]. Qed.
Lemma total_ask {A} (f : W → A) : total (ask f).
Proof. intros s. by eexists. Qed.
Lemma total_call {A} (f : W → result exn A * W) : total (call f).
Proof. intros s. unfold call. destruct (f (world s)). by eexists. Qed.
Lemma total_log e : total (log e).
Proof. intros s. by eexists. Qed.
#[local] Hint Resolve total_ret total_stop total_lift total_ask total_call total_log : runner.
Ltac total_step :=
  repeat (first
    [ by eauto with runner
    | match goal with |- total (_ ≫= _) => apply total_bind; [|intros ?] end
    | match goal with |- total (raise _) => apply total_stop | |- total (exit _) => apply total_stop end
    | case_match ]).

Lemma total_run_capture command : total (run_capture command).
Proof. unfold run_capture. total_step. Qed.
#[local] Hint Resolve total_run_capture : runner.
Lemma total_git_output_or_fail args l : total (git_output_or_fail args l).
Proof. unfold git_output_or_fail. total_step. Qed.
Lemma total_maybe_git_output args l : total (maybe_git_output args l).
Proof. unfold maybe_git_output. total_step. Qed.
Lemma total_wait seconds : total (wait seconds).
Proof. unfold wait. total_step. Qed.
#[local] Hint Resolve total_git_output_or_fail total_maybe_git_output total_wait : runner.
Lemma total_sync i sha : total (sync_traceability_sha i sha).
Proof. intros s. unfold sync_traceability_sha. destruct (Plan.sync_traceability_sha _ _ _). by eexists. Qed.
Lemma total_step_ args never cycle s p : total (run_codex_step args never cycle s p).
Proof.
  unfold run_codex_step, maybe_apply_codex_exec_cooldown. total_step.
  intros st. by eexists.
Qed.
Lemma total_retryable args attempt most : total (wait_for_retryable_rate_limit args attempt most).
Proof.
  unfold wait_for_retryable_rate_limit. case_match; [total_step|]. apply total_bind; [|intros delay; total_step].
  intros s. destruct (randbelow (world s)). apply total_lift.
Qed.
Lemma total_quota args never most : total (wait_for_quota_reset args never most).
Proof.
  unfold wait_for_quota_reset. case_match; [total_step|]. induction (Z.to_nat most); cbn [probe_loop]; [total_step|].
  unfold run_quota_probe. total_step.
Qed.
#[local] Hint Resolve total_sync total_step_ total_retryable total_quota : runner.

(** Without waits for the quota, a loop takes one turn for each retry left and one more. *)
Lemma retry_loop_total fuel args never cycle s p attempt :
  max_quota_waits args <= 0 →
  (Z.to_nat (retryable_rate_limit_max_retries args - attempt) < fuel)%nat →
  total (retry_loop fuel args never cycle s p attempt).
Proof.
  intros Hq. revert attempt. induction fuel as [|fuel IH]; intros attempt Hf; [lia|]. cbn [retry_loop].
  apply total_bind; [apply total_step_|intros x].
  case_match; [apply total_ret|]. case_match; [apply total_ret|].
  destruct (detect_rate_limit_issue _) as [issue|]; [|apply total_ret].
  destruct (retryable issue).
  - apply total_bind_when with (P := λ again : bool, again = true → attempt + 1 <= retryable_rate_limit_max_retries args).
    + apply total_retryable.
    + intros st again st'. unfold wait_for_retryable_rate_limit.
      destruct (Z.ltb_spec (retryable_rate_limit_max_retries args) (attempt + 1)); [by intros [= <- _]|]. intros. lia.
    + intros [] Ha; [|apply total_ret]. apply IH. specialize (Ha eq_refl). lia.
  - unfold wait_for_quota_reset. rewrite (proj2 (Z.leb_le _ _) Hq).
    apply total_bind_when with (P := λ again, again = false); [apply total_ret|by intros st again st' [= <- _]|].
    intros again ->. apply total_ret.
Qed.

Section bounded.
Context (fuel : nat) (args : Args).
Hypothesis (Hq : max_quota_waits args <= 0).
Hypothesis (Hf : (Z.to_nat (retryable_rate_limit_max_retries args) < fuel)%nat).

Lemma total_retry never cycle s p : total (retry_loop fuel args never cycle s p 0).
Proof. apply retry_loop_total; [done|]. by rewrite Z.sub_0_r. Qed.
Lemma total_finished_or_exit e : total (finished_or_exit e).
Proof. destruct e; cbn [finished_or_exit]; total_step. Qed.
#[local] Hint Resolve total_retry total_finished_or_exit : runner.
Lemma total_docs never cycle : total (or_exit (run_docs_review fuel args never cycle)).
Proof. unfold or_exit, run_docs_review. total_step. Qed.
Lemma total_precommit uv_bin never cycle : total (or_exit (enforce_precommit_policy fuel args uv_bin never cycle)).
Proof.
  unfold or_exit, enforce_precommit_policy. apply total_bind; [|intros; total_step].
  generalize 1 as attempt. induction (Z.to_nat (precommit_repair_max_attempts args)) as [|n IH]; intros attempt; cbn [precommit_loop]; [apply total_ret|].
  total_step; apply IH.
Qed.
#[local] Hint Resolve total_docs total_precommit : runner.
Lemma total_cycles uv_bin never branch upstream remaining cycle :
  total (run_cycles fuel args uv_bin never branch upstream remaining cycle).
Proof.
  revert cycle. induction remaining as [|n IH]; intros cycle; cbn [run_cycles]; [apply total_stop|].
  apply total_bind; [|intros; apply IH].
  unfold run_cycle, finish_plan, review, after_review, no_progress, read_plan, run_verification_commands, head. total_step.
Qed.
End bounded.

(** Start-up resolves the executables and leaves the rest of the options alone. *)
Lemma startup_args args :
  returns (startup args) (λ r, max_quota_waits r.1.1 = max_quota_waits args ∧
    retryable_rate_limit_max_retries r.1.1 = retryable_rate_limit_max_retries args).
Proof.
  assert (∀ A B (m : io A) (f : A → io B) P, (∀ a, returns (f a) P) → returns (m ≫= f) P) as Hbind.
  { intros A B m f P H s b s'. unfold mbind, io_bind. destruct (m s) as [[[a|e] s1]|]; [apply H|done..]. }
  unfold startup. apply Hbind. intros present. case_match; [by intros s0 b s0'|].
  do 6 (apply Hbind; intros ?). case_match; [by intros s0 b s0'|]. by intros s0 b s0' [= <- _].
Qed.

(** C40. Without waits for the quota (the default), a run comes to an end whatever the environment
    does: each loop around a step takes at most one turn more than the retries allowed. *)
Theorem main_terminates fuel args s :
  max_quota_waits args <= 0 → (Z.to_nat (retryable_rate_limit_max_retries args) < fuel)%nat →
  ∃ status s', main fuel args s = Some (status, s').
Proof.
  intros Hq Hf. assert (total (body fuel args)) as Ht.
  { unfold body. apply total_bind_when with (P := λ r, max_quota_waits r.1.1 = max_quota_waits args ∧
      retryable_rate_limit_max_retries r.1.1 = retryable_rate_limit_max_retries args).
    - unfold startup, resolve_executable, detect_codex_capabilities. total_step.
    - apply startup_args.
    - intros [[args' uv] never] [E1 E2]. cbn in E1, E2.
      apply total_bind; [total_step|intros branch]. apply total_bind; [total_step|intros upstream].
      apply total_cycles; congruence. }
  unfold main. destruct (Ht s) as [[[[]|[c|e]] s'] ->]; eauto.
Qed.

End runner.

(** ** Runs *)

Definition sample_args (quota_waits : Z) : Args :=
  MkArgs (u "/repo") (u "codex") (u "git") None 3 zero_ zero_ 2 1 zero_ zero_ zero_ quota_waits 0 true.

(** Git answers with a number that grows; Codex and pre-commit do what they are given. *)
Definition sample_environment (plan : pystr) (codex : CommandResult * option pystr) : Environment Z := {|
  plan_text _ := Some plan;
  write_plan _ w := w;
  repo_exists _ := true;
  design_exists _ := true;
  which name _ := Some name;
  capture _ w := (Ok (MkCompleted 0 (str_of_int w) []), w + 1);
  stream _ w := (Ok (MkCommandResult 0 []), w);
  codex_exec _ _ _ w := (Ok codex, w);
  probe _ w := (Ok (Some (MkCompleted 0 [] [])), w);
  sleep _ w := (Ok (), w);
  randbelow w := (0, w);
|}.
Definition sample_main (plan : pystr) (codex : CommandResult * option pystr)
    (messages : gmap (Z * step) pystr) (quota_waits : Z) (fuel : nat) : option Z :=
  fst <$> main (Env := sample_environment plan codex) fuel (sample_args quota_waits) (MkState 0 messages []).

Definition sample_plan : pystr :=
  u "### C001 - First" ++ [10] ++ u "- [ ] a" ++ [10].
Definition sample_plan_with_command : pystr :=
  sample_plan ++ u "- Verification:" ++ [10] ++ u "  - `true`" ++ [10].

Example run_done :
  sample_main sample_plan (MkCommandResult 0 [], Some (u "PLAN IS DONE")) ∅ 0 3 = Some 0.
Proof. by_eval. Qed.
Example run_max_cycles :
  sample_main sample_plan (MkCommandResult 0 [], Some (u "ok")) ∅ 0 3 = Some 2.
Proof. by_eval. Qed.
Example run_no_verify :
  sample_main sample_plan (MkCommandResult 0 (u "$ git commit --no-verify -m x"), None) ∅ 0 3 = Some 1.
Proof. by_eval. Qed.
Example run_quota :
  sample_main sample_plan (MkCommandResult 1 (u "error: usage limit"), None) ∅ 0 3 = Some 4.
Proof. by_eval. Qed.

(** A last message that an earlier run left under the same cycle and step is read again when the
    step writes none: here nothing was implemented and the run reports a finished plan. *)
Example stale_message_ends_run :
  sample_main sample_plan (MkCommandResult 0 [], None) {[ (1, implement) := u "PLAN IS DONE" ]} 0 3 = Some 0.
Proof. by_eval. Qed.

(** An item with verification commands ends the run after its commit. *)
Example verification_commands_fail :
  sample_main sample_plan_with_command (MkCommandResult 0 [], Some (u "ok")) ∅ 0 3 = Some 1.
Proof. by_eval. Qed.

(** With waits allowed nothing bounds how often a quota may recover: when it is hit again after
    every successful probe, the loop goes on for ever. *)
Lemma quota_loop_diverges fuel never p w ev :
  retry_loop (Env := sample_environment sample_plan (MkCommandResult 1 (u "usage limit"), None)) fuel
    (sample_args 1) never 1 implement p 0 (MkState w ∅ ev) = None.
Proof.
  revert w ev. induction fuel as [|fuel IH]; intros w ev; [done|].
  exact (IH w (Probed true :: Slept zero_ :: Stepped 1 implement p (MkStepResult 1 (u "usage limit") []) None :: ev)).
Qed.

Definition sample_codex : CommandResult * option pystr := (MkCommandResult 0 [], Some (u "PLAN IS DONE")).
Definition sample_start : state := MkState 0 ∅ [].
Lemma main_status_witness :
  ∃ s', main (Env := sample_environment sample_plan sample_codex) 3 (sample_args 0) sample_start = Some (0, s') ∧
    checked_last (events s') ∧ declared ∅ (events s').
Proof.
  pose proof run_done as H. unfold sample_main in H. fold sample_codex sample_start in H.
  destruct (main (Env := sample_environment sample_plan sample_codex) 3 (sample_args 0) sample_start)
    as [[status s']|] eqn:E; [|discriminate H].
  assert (status = 0) as -> by (injection H as H; exact H). exists s'. split; [reflexivity|].
  destruct (main_status (Env := sample_environment sample_plan sample_codex) _ _ _ _ _ E) as (new&En&_&Hf).
  rewrite En. change (events sample_start) with (@nil event). rewrite app_nil_r. by apply Hf.
Defined.
Lemma main_terminates_witness :
  max_quota_waits (sample_args 0) <= 0 ∧
  ∃ status s', main (Env := sample_environment sample_plan sample_codex) 2 (sample_args 0) sample_start =
    Some (status, s').
Proof.
  split; [done|].
  apply (main_terminates (Env := sample_environment sample_plan sample_codex) 2 (sample_args 0)); [done|].
  cbn. lia.
Defined.

End Runner.
